(** * Unfurling Asana URLs in pull-request bodies: a shallow embedding

    The development follows [src/getAsanaTaskGIDsFromText.ts],
    [src/transformPRBody.ts] and [src/main.ts].

    - A JavaScript string is a list of UTF-16 code units, each a number
      ([N]); string literals are written [str "..."], which is exact for the
      ASCII literals the sources contain.
    - The regular expressions of the sources are kept as syntax trees and run
      by a backtracking matcher that lists every way a pattern can match at
      a position in the order in which the ECMAScript matcher tries them;
      the first one is the match.
    - [fetchTaskTitle] is a state-passing function: a call returns
      [Some title] when the promise fulfils and [None] when it rejects (or
      the call throws), together with the new state of the outside world. *)

From Stdlib Require Import NArith Arith Bool Lia String Ascii List Sorted.
Import ListNotations.

(** ** Strings *)

Definition char : Type := N.
Definition jsstring : Type := list char.

Definition str (s : string) : jsstring :=
  map N_of_ascii (list_ascii_of_string s).
Arguments str s%_string.

Definition ch (a : ascii) : char := N_of_ascii a.
Arguments ch a%_char.

Fixpoint str_eqb (a b : jsstring) : bool :=
  match a, b with
  | [], [] => true
  | x :: a', y :: b' => N.eqb x y && str_eqb a' b'
  | _, _ => false
  end.

(** [startsWith pat s]: [pat] is a prefix of [s]. *)
Fixpoint startsWith (pat s : jsstring) : bool :=
  match pat, s with
  | [], _ => true
  | p :: pat', x :: s' => N.eqb p x && startsWith pat' s'
  | _ :: _, [] => false
  end.

(** Search for [pat] in the suffix [s] whose first code unit has index [i]. *)
Fixpoint indexOfAux (pat s : jsstring) (i : nat) : option nat :=
  if startsWith pat s then Some i
  else match s with
       | [] => None
       | _ :: s' => indexOfAux pat s' (S i)
       end.

(** [s.indexOf(pat, from)]; [None] stands for [-1].  The start position is
    clamped to the length of [s]. *)
Definition indexOf (s pat : jsstring) (from : nat) : option nat :=
  let start := Nat.min from (length s) in
  indexOfAux pat (skipn start s) start.

(** [s.includes(pat)] *)
Definition includes (s pat : jsstring) : bool :=
  match indexOf s pat 0 with Some _ => true | None => false end.

(** [s.substring(a, b)] for [a <= b] and [s.substring(a)] *)
Definition substring (s : jsstring) (a b : nat) : jsstring :=
  firstn (b - a) (skipn a s).
Definition substringFrom (s : jsstring) (a : nat) : jsstring := skipn a s.

(** Put [x] in front of the first piece of a split. *)
Definition consPiece (x : char) (pieces : list jsstring) : list jsstring :=
  match pieces with
  | [] => [[x]]
  | piece :: rest => (x :: piece) :: rest
  end.

(** [s.split(sep)] for the one-unit separator [sep]. *)
Fixpoint split1 (sep : char) (s : jsstring) : list jsstring :=
  match s with
  | [] => [[]]
  | x :: s' =>
      if N.eqb x sep then [] :: split1 sep s'
      else consPiece x (split1 sep s')
  end.

(** [s.split(sep)] for the two-unit separator [a b]. *)
Fixpoint split2 (a b : char) (s : jsstring) : list jsstring :=
  match s with
  | [] => [[]]
  | x :: s' =>
      match s' with
      | y :: s'' =>
          if N.eqb x a && N.eqb y b then [] :: split2 a b s''
          else consPiece x (split2 a b s')
      | [] => [[x]]
      end
  end.

(** [pieces.join(sep)] *)
Fixpoint join (sep : jsstring) (pieces : list jsstring) : jsstring :=
  match pieces with
  | [] => []
  | [p] => p
  | p :: rest => p ++ sep ++ join sep rest
  end.

Definition LF : char := 10%N.
Definition CR : char := 13%N.

(** ** Regular expressions

    Only the constructs the sources use: a class of one code unit,
    sequence, alternative, greedy and lazy repetition, and a capture
    group.  A literal is a sequence of one-unit classes; [r+] is [r r*]. *)

Inductive regex : Type :=
| Eps : regex
| Cls : (char -> bool) -> regex
| Seq : regex -> regex -> regex
| Alt : regex -> regex -> regex
| Star : bool -> regex -> regex      (* [true]: greedy, [false]: lazy *)
| Grp : nat -> regex -> regex.

Definition Chr (c : char) : regex := Cls (N.eqb c).
Definition Lit (s : jsstring) : regex := fold_right (fun c r => Seq (Chr c) r) Eps s.
Definition Plus (r : regex) : regex := Seq r (Star true r).

(** Captures, newest first: a group that takes part more than once keeps
    the text of its last participation. *)
Definition captures : Type := list (nat * jsstring).

Fixpoint capture (c : captures) (g : nat) : option jsstring :=
  match c with
  | [] => None
  | (g', s) :: c' => if Nat.eqb g g' then Some s else capture c' g
  end.

(** A state of the matcher: the input that is left, and the captures. *)
Definition mstate : Type := (jsstring * captures)%type.

(** Repetition.  An iteration that consumes nothing is rejected, as in
    ECMAScript; so the input gets shorter at every iteration and [fuel]
    above the length of the input is never used up. *)
Fixpoint star (greedy : bool) (step : jsstring -> captures -> list mstate)
    (fuel : nat) (s : jsstring) (c : captures) : list mstate :=
  match fuel with
  | 0 => [(s, c)]
  | S fuel' =>
      let more :=
        flat_map (fun st : mstate =>
                    if length (fst st) <? length s
                    then star greedy step fuel' (fst st) (snd st)
                    else [])
                 (step s c) in
      if greedy then more ++ [(s, c)] else (s, c) :: more
  end.

(** [run r s c]: every way for [r] to match a prefix of [s], in the order
    of the backtracking search. *)
Fixpoint run (r : regex) (s : jsstring) (c : captures) : list mstate :=
  match r with
  | Eps => [(s, c)]
  | Cls p =>
      match s with
      | x :: s' => if p x then [(s', c)] else []
      | [] => []
      end
  | Seq r1 r2 => flat_map (fun st : mstate => run r2 (fst st) (snd st)) (run r1 s c)
  | Alt r1 r2 => run r1 s c ++ run r2 s c
  | Star greedy r1 => star greedy (run r1) (S (length s)) s c
  | Grp g r1 =>
      map (fun st : mstate =>
             (fst st, (g, firstn (length s - length (fst st)) s) :: snd st))
          (run r1 s c)
  end.

(** A match object: [index], [match[0]] and the groups. *)
Record rmatch : Type := mkMatch {
  m_index : nat;
  m_full : jsstring;
  m_groups : captures
}.

(** The first match of [r] at or after the start of the suffix [s], whose
    first code unit has index [i]. *)
Fixpoint search (r : regex) (s : jsstring) (i : nat) : option rmatch :=
  match hd_error (run r s []) with
  | Some st =>
      Some (mkMatch i (firstn (length s - length (fst st)) s) (snd st))
  | None =>
      match s with
      | [] => None
      | _ :: s' => search r s' (S i)
      end
  end.

(** [s.match(r)] for a regular expression without the global flag. *)
Definition String_match (s : jsstring) (r : regex) : option rmatch := search r s 0.

(** [[...s.matchAll(r)]], and the [while ((m = r.exec(s)) !== null)] loop of
    a global regular expression: the next search starts where the match
    ended, one unit further after an empty match. *)
Fixpoint matchAllFrom (r : regex) (fuel : nat) (s : jsstring) (i : nat) : list rmatch :=
  match fuel with
  | 0 => []
  | S fuel' =>
      match search r s i with
      | None => []
      | Some m =>
          let e := m_index m + length (m_full m) in
          let next := if Nat.eqb (length (m_full m)) 0 then S e else e in
          m :: (if next - i <=? length s
                then matchAllFrom r fuel' (skipn (next - i) s) next
                else [])
      end
  end.

Definition matchAll (s : jsstring) (r : regex) : list rmatch :=
  matchAllFrom r (S (length s)) s 0.

(** *** Character classes *)

Definition isDigit (c : char) : bool := (48 <=? c)%N && (c <=? 57)%N.

(** [.] : every code unit but the line terminators *)
Definition isLineTerminator (c : char) : bool :=
  N.eqb c 10 || N.eqb c 13 || N.eqb c 8232 || N.eqb c 8233.
Definition dot (c : char) : bool := negb (isLineTerminator c).

(** [\s] : white space and line terminators *)
Definition isSpace (c : char) : bool :=
  N.eqb c 9 || N.eqb c 10 || N.eqb c 11 || N.eqb c 12 || N.eqb c 13 ||
  N.eqb c 32 || N.eqb c 160 || N.eqb c 5760 ||
  ((8192 <=? c)%N && (c <=? 8202)%N) ||
  N.eqb c 8232 || N.eqb c 8233 || N.eqb c 8239 || N.eqb c 8287 ||
  N.eqb c 12288 || N.eqb c 65279.

Definition noneOf (s : jsstring) (c : char) : bool :=
  negb (existsb (N.eqb c) s).

Definition Cat (rs : list regex) : regex := fold_right Seq Eps rs.

(** ** getAsanaTaskGIDsFromText.ts *)

Module TaskGIDs.

(** The named group [taskGID] is group 1. *)
Definition taskGID : nat := 1.

Definition digits : regex := Plus (Cls isDigit).

(** [https:\/\/app.asana.com]: the two dots are not escaped in these
    patterns, each stands for any code unit but a line terminator. *)
Definition hostAnyDot : regex :=
  Cat [Lit (str "https://app"); Cls dot; Lit (str "asana"); Cls dot; Lit (str "com")].

(** [/https:\/\/app.asana.com(?:.*?)\/(?:task|item)\/(?<taskGID>\d+)/] *)
Definition reTaskItem : regex :=
  Cat [hostAnyDot; Star false (Cls dot); Chr (ch "/");
       Alt (Lit (str "task")) (Lit (str "item")); Chr (ch "/"); Grp taskGID digits].

(** [/https:\/\/app.asana.com(?:.*?)\/project\/(?:\d+)\/task\/(?<taskGID>\d+)/] *)
Definition reProjectTask : regex :=
  Cat [hostAnyDot; Star false (Cls dot); Lit (str "/project/"); digits;
       Lit (str "/task/"); Grp taskGID digits].

(** [/https:\/\/app.asana.com\/\d+\/\d+\/project\/\d+\/task\/(?<taskGID>\d+)/] *)
Definition reWorkspaceProjectTask : regex :=
  Cat [hostAnyDot; Chr (ch "/"); digits; Chr (ch "/"); digits; Lit (str "/project/"); digits;
       Lit (str "/task/"); Grp taskGID digits].

(** [/https:\/\/app.asana.com(?:\/(?:[0-9]+|board|search|inbox))+(?:\/(?<taskGID>[0-9]+))+/] *)
Definition v0Segment : regex :=
  Seq (Chr (ch "/"))
      (Alt digits (Alt (Lit (str "board")) (Alt (Lit (str "search")) (Lit (str "inbox"))))).
Definition v0Task : regex := Seq (Chr (ch "/")) (Grp taskGID digits).
Definition reV0 : regex := Cat [hostAnyDot; Plus v0Segment; Plus v0Task].

(** [/https:\/\/app.asana.com\/inbox\/\d+\/item\/(?<taskGID>\d+)/] *)
Definition reInboxItem : regex :=
  Cat [hostAnyDot; Lit (str "/inbox/"); digits; Lit (str "/item/"); Grp taskGID digits].

Definition isNull (m : option rmatch) : bool :=
  match m with None => true | Some _ => false end.

(** The callback of the second [flatMap]: the variable [match] goes through
    the five attempts; every pattern has the named group, so [match.groups]
    is there exactly when [match] is. *)
Definition matchLine (line : jsstring) : option rmatch :=
  let m := String_match line reTaskItem in
  let m := if isNull m then String_match line reProjectTask else m in
  let m := if isNull m then String_match line reWorkspaceProjectTask else m in
  let m :=
    if isNull m then
      let m4 := String_match line reV0 in
      if negb (isNull m4) && includes line (str "/task/") then None else m4
    else m in
  let m := if isNull m then String_match line reInboxItem else m in
  m.

Definition lineGIDs (line : jsstring) : list jsstring :=
  match matchLine line with
  | None => []
  | Some m => match capture (m_groups m) taskGID with
              | Some gid => [gid]
              | None => []
              end
  end.

(** [a.localeCompare(b)].  The strings compared here are runs of the digits
    0-9, on which the collation order is the order of the code units, a
    proper prefix coming first. *)
Fixpoint localeCompare (a b : jsstring) : comparison :=
  match a, b with
  | [], [] => Eq
  | [], _ :: _ => Lt
  | _ :: _, [] => Gt
  | x :: a', y :: b' =>
      match N.compare x y with
      | Eq => localeCompare a' b'
      | o => o
      end
  end.

(** [Array.prototype.sort] is stable. *)
Fixpoint insertSorted (cmp : jsstring -> jsstring -> comparison)
    (x : jsstring) (l : list jsstring) : list jsstring :=
  match l with
  | [] => [x]
  | y :: l' =>
      match cmp x y with
      | Gt => y :: insertSorted cmp x l'
      | _ => x :: l
      end
  end.

Definition sortBy (cmp : jsstring -> jsstring -> comparison)
    (l : list jsstring) : list jsstring :=
  fold_right (insertSorted cmp) [] l.

(** [new Set(xs)] read back as an array: first occurrences, in order. *)
Definition Set_has (s : list jsstring) (x : jsstring) : bool := existsb (str_eqb x) s.
Definition Set_add (s : list jsstring) (x : jsstring) : list jsstring :=
  if Set_has s x then s else s ++ [x].
Definition newSet (xs : list jsstring) : list jsstring := fold_left Set_add xs [].

Definition splitLines (text : jsstring) : list jsstring :=
  flat_map (split1 LF) (split2 CR LF text).

Definition getAsanaTaskGIDsFromText (text : jsstring) : list jsstring :=
  let asanaTaskGIDsInBodySorted :=
    sortBy localeCompare (flat_map lineGIDs (splitLines text)) in
  sortBy localeCompare (newSet asanaTaskGIDsInBodySorted).

End TaskGIDs.

(** ** transformPRBody.ts *)

Record TaskInfo : Type := mkTaskInfo {
  id : jsstring;
  title : jsstring;
  safeTitle : jsstring
}.

Record TransformResult : Type := mkResult {
  body : jsstring;
  changesApplied : bool;
  updatedCount : nat
}.

(** A [Map<string, TaskInfo>]: the entries in insertion order. *)
Definition TaskInfoMap : Type := list (jsstring * TaskInfo).

Fixpoint Map_get (m : TaskInfoMap) (k : jsstring) : option TaskInfo :=
  match m with
  | [] => None
  | (k', v) :: m' => if str_eqb k k' then Some v else Map_get m' k
  end.

Definition Map_has (m : TaskInfoMap) (k : jsstring) : bool :=
  match Map_get m k with Some _ => true | None => false end.

(** [m.set(k, v)]: a key that is already there keeps its place. *)
Fixpoint Map_set (m : TaskInfoMap) (k : jsstring) (v : TaskInfo) : TaskInfoMap :=
  match m with
  | [] => [(k, v)]
  | (k', v') :: m' =>
      if str_eqb k k' then (k', v) :: m' else (k', v') :: Map_set m' k v
  end.

(** [/\[([^\]]+)\]\((https:\/\/app\.asana\.com\/[^)]+)\)/g] *)
Definition asanaPrefix : jsstring := str "https://app.asana.com/".
Definition markdownRegex : regex :=
  Cat [Chr (ch "["); Grp 1 (Plus (Cls (noneOf (str "]")))); Chr (ch "]"); Chr (ch "(");
       Grp 2 (Seq (Lit asanaPrefix) (Plus (Cls (noneOf (str ")"))))); Chr (ch ")")].

(** [/\[([^\]]+)\]\(([^)]+)\)/g] of [findMarkdownLinkIndices] *)
Definition anyMarkdownRegex : regex :=
  Cat [Chr (ch "["); Grp 1 (Plus (Cls (noneOf (str "]")))); Chr (ch "]"); Chr (ch "(");
       Grp 2 (Plus (Cls (noneOf (str ")")))); Chr (ch ")")].

(** [/https:\/\/app\.asana\.com\/[^\s<>Q()]+/g], where Q is the double
    quote (code unit 34) *)
Definition urlChar (c : char) : bool :=
  negb (isSpace c) && noneOf (34%N :: str "<>()") c.
Definition asanaUrlRegex : regex := Seq (Lit asanaPrefix) (Plus (Cls urlChar)).

Definition collectAllAsanaUrls (text : jsstring) : list jsstring :=
  map m_full (matchAll text asanaUrlRegex).

(** [title.replace(/\[/g, '(').replace(/\]/g, ')')] *)
Definition replaceAllChar (a b : char) (s : jsstring) : jsstring :=
  map (fun c => if N.eqb c a then b else c) s.
Definition sanitizeTitleForMarkdown (t : jsstring) : jsstring :=
  replaceAllChar (ch "]") (ch ")") (replaceAllChar (ch "[") (ch "(") t).

Definition findMarkdownLinkIndices (text : jsstring) : list (nat * nat) :=
  map (fun m => (m_index m, m_index m + length (m_full m)))
      (matchAll text anyMarkdownRegex).

(** The template literal [`[${label}](${url})`] *)
Definition markdownLink (label url : jsstring) : jsstring :=
  str "[" ++ label ++ str "](" ++ url ++ str ")".

(** The replacement text of [String.prototype.replace] when the pattern is
    a string: there are no captures, so of the dollar patterns only [$$],
    [$`], [$&] and [$'] stand for something else than themselves. *)
Fixpoint getSubstitution (matched before after template : jsstring) : jsstring :=
  match template with
  | [] => []
  | c :: t =>
      if N.eqb c (ch "$") then
        match t with
        | d :: t' =>
            if N.eqb d (ch "$") then ch "$" :: getSubstitution matched before after t'
            else if N.eqb d (ch "`") then before ++ getSubstitution matched before after t'
            else if N.eqb d (ch "&") then matched ++ getSubstitution matched before after t'
            else if N.eqb d (ch "'") then after ++ getSubstitution matched before after t'
            else c :: getSubstitution matched before after t
        | [] => [c]
        end
      else c :: getSubstitution matched before after t
  end.

(** [s.replace(pat, replacement)] with a string pattern: the first
    occurrence only. *)
Definition String_replace (s pat replacement : jsstring) : jsstring :=
  match indexOf s pat 0 with
  | None => s
  | Some pos =>
      let before := firstn pos s in
      let after := skipn (pos + length pat) s in
      before ++ getSubstitution pat before after replacement ++ after
  end.

(** The body of [for (const match of markdownMatches)] on the running
    [line] and [replacementCount]. *)
Definition markdownStep (taskInfoMap : TaskInfoMap) (acc : jsstring * nat)
    (m : rmatch) : jsstring * nat :=
  let (line, replacementCount) := acc in
  match capture (m_groups m) 1, capture (m_groups m) 2 with
  | Some linkText, Some asanaUrl =>
      match Map_get taskInfoMap asanaUrl with
      | Some taskInfo =>
          if str_eqb linkText (title taskInfo) || includes linkText (str "[")
          then (line, S replacementCount)
          else (String_replace line (m_full m) (markdownLink (safeTitle taskInfo) asanaUrl),
                S replacementCount)
      | None => acc
      end
  | _, _ => acc
  end.

Definition isInMarkdownLink (markdownIndices : list (nat * nat))
    (urlIndex urlLength : nat) : bool :=
  existsb (fun range => (fst range <=? urlIndex) && (urlIndex + urlLength <=? snd range))
          markdownIndices.

(** The [while] loop over the occurrences of [url].  The search runs in
    [updatedLine], which is never assigned again; [line] is rebuilt from
    [updatedLine] at every plain occurrence.  For a [url] that is not empty
    [startIndex] grows at every turn, and [fuel] above the length of
    [updatedLine] is never used up. *)
Fixpoint plainUrlLoop (fuel : nat) (url : jsstring) (taskInfo : TaskInfo)
    (updatedLine : jsstring) (markdownIndices : list (nat * nat))
    (startIndex : nat) (acc : jsstring * nat) : jsstring * nat :=
  match fuel with
  | 0 => acc
  | S fuel' =>
      match indexOf updatedLine url startIndex with
      | None => acc
      | Some urlIndex =>
          if negb (isInMarkdownLink markdownIndices urlIndex (length url)) then
            let newLink := markdownLink (safeTitle taskInfo) url in
            let before := substring updatedLine 0 urlIndex in
            let after := substringFrom updatedLine (urlIndex + length url) in
            plainUrlLoop fuel' url taskInfo updatedLine markdownIndices
              (urlIndex + length newLink) (before ++ newLink ++ after, S (snd acc))
          else
            plainUrlLoop fuel' url taskInfo updatedLine markdownIndices
              (urlIndex + length url) acc
      end
  end.

(** One turn of [for (let i = 0; i < lines.length; i++)]. *)
Definition processLine (taskInfoMap : TaskInfoMap) (line0 : jsstring)
    (replacementCount : nat) : jsstring * nat :=
  let markdownMatches := matchAll line0 markdownRegex in
  let acc := fold_left (markdownStep taskInfoMap) markdownMatches (line0, replacementCount) in
  let updatedLine := fst acc in
  let markdownIndices := findMarkdownLinkIndices updatedLine in
  fold_left
    (fun acc (entry : jsstring * TaskInfo) =>
       plainUrlLoop (S (length updatedLine)) (fst entry) (snd entry)
         updatedLine markdownIndices 0 acc)
    taskInfoMap acc.

Fixpoint processLines (taskInfoMap : TaskInfoMap) (lines : list jsstring)
    (replacementCount : nat) : list jsstring * nat :=
  match lines with
  | [] => ([], replacementCount)
  | line :: rest =>
      let (line', n) := processLine taskInfoMap line replacementCount in
      let (rest', n') := processLines taskInfoMap rest n in
      (line' :: rest', n')
  end.

(** Everything after the lookups have settled. *)
Definition rewriteBody (taskInfoMap : TaskInfoMap) (text : jsstring) : TransformResult :=
  if Nat.eqb (length taskInfoMap) 0 then mkResult text false 0
  else
    let (lines, replacementCount) := processLines taskInfoMap (split1 LF text) 0 in
    mkResult (join [LF] lines) (0 <? replacementCount) replacementCount.

Section Transform.

(** The world [fetchTaskTitle] acts on, and [fetchTaskTitle] itself. *)
Variable World : Type.
Variable fetchTaskTitle : jsstring -> World -> option jsstring * World.

(** The callback of [Promise.all([...].map(async (url) => ...))] runs up to
    its [await] when [map] calls it, so the lookups are issued in the order
    of the URLs.  The entries are put in the map as the promises settle;
    they are taken to settle in the order of the calls, which is the case
    for a lookup whose promises are already settled when it returns.  What
    is proved below of the rewrite pass is proved for every task map,
    whatever the order of its entries. *)
Definition resolveUrl (acc : TaskInfoMap * World) (url : jsstring) : TaskInfoMap * World :=
  let (taskInfoMap, w) := acc in
  match TaskGIDs.getAsanaTaskGIDsFromText url with
  | [taskId] =>
      match fetchTaskTitle taskId w with
      | (Some t, w') =>
          (Map_set taskInfoMap url (mkTaskInfo taskId t (sanitizeTitleForMarkdown t)), w')
      | (None, w') => (taskInfoMap, w')
      end
  | _ => acc
  end.

Definition resolveAll (urls : list jsstring) (w : World) : TaskInfoMap * World :=
  fold_left resolveUrl urls ([], w).

Definition transformPRBody (text : jsstring) (w : World) : TransformResult * World :=
  match text with
  | [] => (mkResult [] false 0, w)
  | _ :: _ =>
      let allAsanaUrls := collectAllAsanaUrls text in
      let (taskInfoMap, w') := resolveAll (TaskGIDs.newSet allAsanaUrls) w in
      (rewriteBody taskInfoMap text, w')
  end.

End Transform.

Arguments resolveUrl {World} fetchTaskTitle acc url.
Arguments resolveAll {World} fetchTaskTitle urls w.
Arguments transformPRBody {World} fetchTaskTitle text w.

(** A lookup that depends on the identifier only. *)
Definition pureFetch (f : jsstring -> option jsstring) : jsstring -> unit -> option jsstring * unit :=
  fun taskId w => (f taskId, w).

(** Any lookup, with the list of the identifiers it was called with. *)
Definition logged {World : Type} (fetch : jsstring -> World -> option jsstring * World)
  : jsstring -> World * list jsstring -> option jsstring * (World * list jsstring) :=
  fun taskId wl =>
    let (r, w') := fetch taskId (fst wl) in (r, (w', snd wl ++ [taskId])).

(** The mock of the tests: [mockResolvedValueOnce] and
    [mockRejectedValueOnce] queue the outcomes of the next calls; with the
    queue empty the mock yields [undefined], on which
    [sanitizeTitleForMarkdown] throws inside the [try]. *)
Definition mockFetchTaskTitle : jsstring -> list (option jsstring) -> option jsstring * list (option jsstring) :=
  fun _ queue =>
    match queue with
    | [] => (None, [])
    | outcome :: queue' => (outcome, queue')
    end.

(** The lookup that knows one task. *)
Definition oneTask (taskId t : jsstring) : jsstring -> option jsstring :=
  fun i => if str_eqb i taskId then Some t else None.

(** ** main.ts *)

(** [s.replace(r, replacer)] for a pattern with the global flag and a
    function as the replacement: the matches are those of [matchAll]; the
    result is built from the text between the matches and what [replacer]
    returns for each match (a match that starts before the end of the
    previous one is passed over, as in the standard).  A replacement string
    without dollar sign is the function that returns it. *)
Fixpoint replaceMatches (s : jsstring) (nextSourcePosition : nat) (results : list rmatch)
    (replacer : rmatch -> jsstring) : jsstring :=
  match results with
  | [] => substringFrom s nextSourcePosition
  | result :: results' =>
      let position := m_index result in
      if nextSourcePosition <=? position then
        substring s nextSourcePosition position ++ replacer result
        ++ replaceMatches s (position + length (m_full result)) results' replacer
      else replaceMatches s nextSourcePosition results' replacer
  end.

Definition String_replace_g (s : jsstring) (r : regex) (replacer : rmatch -> jsstring)
  : jsstring :=
  replaceMatches s 0 (matchAll s r) replacer.

(** [s.trim()]: white space and line terminators, the code units of [\s],
    are taken off both ends. *)
Fixpoint trimStart (s : jsstring) : jsstring :=
  match s with
  | [] => []
  | x :: s' => if isSpace x then trimStart s' else s
  end.
Definition trimEnd (s : jsstring) : jsstring := rev (trimStart (rev s)).
Definition String_trim (s : jsstring) : jsstring := trimEnd (trimStart s).

(** [n.toString()] for a count: its decimal digits. *)
Fixpoint digitsOf (d : Decimal.uint) : jsstring :=
  match d with
  | Decimal.Nil => []
  | Decimal.D0 d' => ch "0" :: digitsOf d'
  | Decimal.D1 d' => ch "1" :: digitsOf d'
  | Decimal.D2 d' => ch "2" :: digitsOf d'
  | Decimal.D3 d' => ch "3" :: digitsOf d'
  | Decimal.D4 d' => ch "4" :: digitsOf d'
  | Decimal.D5 d' => ch "5" :: digitsOf d'
  | Decimal.D6 d' => ch "6" :: digitsOf d'
  | Decimal.D7 d' => ch "7" :: digitsOf d'
  | Decimal.D8 d' => ch "8" :: digitsOf d'
  | Decimal.D9 d' => ch "9" :: digitsOf d'
  end.
Definition Number_toString (n : nat) : jsstring := digitsOf (Nat.to_uint n).

(** What a run of the action does to the outside, in the order of the
    calls: [core.setFailed], [octokit.pulls.update] with the number of the
    pull request and the new body, [core.setOutput] with a name and a
    value.  The messages of [core.info], [core.debug], [core.warning] and
    [core.setFailed] are left out. *)
Inductive Effect : Type :=
| setFailed : Effect
| pulls_update : nat -> jsstring -> Effect
| setOutput : jsstring -> jsstring -> Effect.

(** What a run reads from the outside.  [core.getInput] with
    [required: true] throws on an input that is empty; [prNumber] is
    [github.context.payload.pull_request?.number]; [pulls_get] is what
    [octokit.pulls.get] yields, [None] when the call rejects and
    [Some None] when the body of the pull request is [null];
    [pulls_update_fulfils] says whether [octokit.pulls.update] fulfils. *)
Record Context : Type := mkContext {
  githubToken : jsstring;
  asanaToken : jsstring;
  eventName : jsstring;
  prNumber : option nat;
  pulls_get : option (option jsstring);
  pulls_update_fulfils : bool
}.

(** [pullRequest.body || ''] *)
Definition bodyOrEmpty (pullRequest_body : option jsstring) : jsstring :=
  match pullRequest_body with
  | Some b => b
  | None => []
  end.

Module Main.

(** [/\[[^\]]*\][(](https:\/\/app\.asana\.com\/[^)]+)[)]/g]; the classes
    [[(]] and [[)]] have one member each. *)
Definition markdownLinkRegex : regex :=
  Cat [Chr (ch "["); Star true (Cls (noneOf (str "]"))); Chr (ch "]"); Chr (ch "(");
       Grp 1 (Seq (Lit asanaPrefix) (Plus (Cls (noneOf (str ")"))))); Chr (ch ")")].

(** The replacer [(match, asanaUrl) => asanaUrl]: the first group, which
    takes part in every match. *)
Definition flattenReplacer (m : rmatch) : jsstring :=
  match capture (m_groups m) 1 with
  | Some asanaUrl => asanaUrl
  | None => str "undefined"
  end.

(** [text.replace(/\s+/g, ' ').trim()] *)
Definition normalizeWhitespace (text : jsstring) : jsstring :=
  String_trim (String_replace_g text (Plus (Cls isSpace)) (fun _ => str " ")).

Record Replacement : Type := mkReplacement {
  original : jsstring;
  replacement : jsstring
}.

Section Unfurl.

(** [asanaClient.tasks.getTask(taskId)] and the name of the task: [None]
    when the call rejects. *)
Variable World : Type.
Variable getTask : jsstring -> World -> option jsstring * World.

(** One turn of [while ((asanaMatch = asanaUrlRegex.exec(updatedBody)) !== null)]
    on [processedUrls], [replacements] and the world. *)
Definition scanStep (acc : list jsstring * list Replacement * World) (asanaMatch : rmatch)
  : list jsstring * list Replacement * World :=
  let '(processedUrls, replacements, w) := acc in
  let asanaUrl := m_full asanaMatch in
  if TaskGIDs.Set_has processedUrls asanaUrl then acc
  else
    match TaskGIDs.getAsanaTaskGIDsFromText asanaUrl with
    | [taskId] =>
        let processedUrls' := TaskGIDs.Set_add processedUrls asanaUrl in
        match getTask taskId w with
        | (Some taskTitle, w') =>
            (processedUrls',
             replacements ++ [mkReplacement asanaUrl (markdownLink taskTitle asanaUrl)], w')
        | (None, w') => (processedUrls', replacements, w')
        end
    | _ => acc
    end.

(** From [let updatedBody = originalBody] to the end of the loop that
    applies the replacements: the new body and the replacements. *)
Definition unfurlBody (originalBody : jsstring) (w : World)
  : jsstring * list Replacement * World :=
  let updatedBody := String_replace_g originalBody markdownLinkRegex flattenReplacer in
  let '(_, replacements, w') :=
    fold_left scanStep (matchAll updatedBody asanaUrlRegex) ([], [], w) in
  (fold_left (fun updatedBody r => String_replace updatedBody (original r) (replacement r))
     replacements updatedBody,
   replacements, w').

Definition unfurlAsanaUrls (ctx : Context) (w : World) : list Effect * World :=
  match githubToken ctx, asanaToken ctx with
  | [], _ | _, [] => ([setFailed], w)
  | _ :: _, _ :: _ =>
      if negb (str_eqb (eventName ctx) (str "pull_request")) then ([], w)
      else
        match prNumber ctx with
        | None | Some 0 => ([setFailed], w)
        | Some n =>
            match pulls_get ctx with
            | None => ([setFailed], w)
            | Some pullRequest_body =>
                let originalBody := bodyOrEmpty pullRequest_body in
                let '(updatedBody, replacements, w') := unfurlBody originalBody w in
                let normalizedOriginal := normalizeWhitespace originalBody in
                let normalizedUpdated := normalizeWhitespace updatedBody in
                if negb (str_eqb normalizedOriginal normalizedUpdated) then
                  if pulls_update_fulfils ctx then
                    ([pulls_update n updatedBody;
                      setOutput (str "updated") (str "true");
                      setOutput (str "updatedCount")
                        (Number_toString (length replacements))], w')
                  else ([pulls_update n updatedBody; setFailed], w')
                else
                  ([setOutput (str "updated") (str "false");
                    setOutput (str "updatedCount") (str "0")], w')
            end
        end
  end.

End Unfurl.

Arguments scanStep {World} getTask acc asanaMatch.
Arguments unfurlBody {World} getTask originalBody w.
Arguments unfurlAsanaUrls {World} getTask ctx w.

End Main.

(** The version of [main.ts] that calls [transformPRBody]. *)
Module MainTransform.

Section Unfurl.

Variable World : Type.
Variable getTask : jsstring -> World -> option jsstring * World.

(** [fetchTaskTitle]: the name of the task that [getTask] yields. *)
Definition fetchTaskTitle : jsstring -> World -> option jsstring * World := getTask.

Definition unfurlAsanaUrls (ctx : Context) (w : World) : list Effect * World :=
  match githubToken ctx, asanaToken ctx with
  | [], _ | _, [] => ([setFailed], w)
  | _ :: _, _ :: _ =>
      if negb (str_eqb (eventName ctx) (str "pull_request")) then ([], w)
      else
        match prNumber ctx with
        | None | Some 0 => ([setFailed], w)
        | Some n =>
            match pulls_get ctx with
            | None => ([setFailed], w)
            | Some pullRequest_body =>
                let originalBody := bodyOrEmpty pullRequest_body in
                let (result, w') := transformPRBody fetchTaskTitle originalBody w in
                if changesApplied result then
                  if pulls_update_fulfils ctx then
                    ([pulls_update n (body result);
                      setOutput (str "updated") (str "true");
                      setOutput (str "updatedCount")
                        (Number_toString (updatedCount result))], w')
                  else ([pulls_update n (body result); setFailed], w')
                else
                  ([setOutput (str "updated") (str "false");
                    setOutput (str "updatedCount") (str "0")], w')
            end
        end
  end.

End Unfurl.

Arguments fetchTaskTitle {World} getTask.
Arguments unfurlAsanaUrls {World} getTask ctx w.

End MainTransform.

(** ** Vocabulary of the statements *)

(** [pat] occurs in [s] at index [i]. *)
Definition occursAt (pat s : jsstring) (i : nat) : Prop :=
  exists pre post, s = pre ++ pat ++ post /\ length pre = i.

(** [c] is one of the code units of [s]. *)
Definition hasChar (c : char) (s : jsstring) : bool := existsb (N.eqb c) s.

(** Every occurrence of [pat] in [s] lies between the indices [lo] and
    [hi]. *)
Definition occurrencesWithin (pat s : jsstring) (lo hi : nat) : bool :=
  forallb (fun i => implb (startsWith pat (skipn i s))
                          ((lo <=? i) && (i + length pat <=? hi)))
          (seq 0 (S (length s))).

(** The lexicographic order of strings by code unit. *)
Inductive LexLt : jsstring -> jsstring -> Prop :=
| LexLt_nil : forall y b, LexLt [] (y :: b)
| LexLt_head : forall x y a b, (x < y)%N -> LexLt (x :: a) (y :: b)
| LexLt_tail : forall x a b, LexLt a b -> LexLt (x :: a) (x :: b).

(** The extraction rules as an ordered list of independent matchers, the
    first that matches winning; the guard on [/task/] belongs to the
    fourth. *)
Module Rules.
Import TaskGIDs.

Definition taskItem (line : jsstring) : option rmatch := String_match line reTaskItem.
Definition projectTask (line : jsstring) : option rmatch := String_match line reProjectTask.
Definition workspaceProjectTask (line : jsstring) : option rmatch :=
  String_match line reWorkspaceProjectTask.
Definition v0 (line : jsstring) : option rmatch :=
  if includes line (str "/task/") then None else String_match line reV0.
Definition inboxItem (line : jsstring) : option rmatch := String_match line reInboxItem.

Fixpoint firstMatching (rules : list (jsstring -> option rmatch)) (line : jsstring)
  : option rmatch :=
  match rules with
  | [] => None
  | rule :: rules' =>
      match rule line with
      | Some m => Some m
      | None => firstMatching rules' line
      end
  end.

Definition ordered : list (jsstring -> option rmatch) :=
  [taskItem; projectTask; workspaceProjectTask; v0; inboxItem].

End Rules.

(** A path segment of the legacy form: a number or one of the keywords. *)
Definition isNumeric (seg : jsstring) : bool :=
  negb (Nat.eqb (length seg) 0) && forallb isDigit seg.

Definition v0Path (segs : list jsstring) : jsstring :=
  flat_map (fun seg => ch "/" :: seg) segs.

(** The task map a call works with once the lookups have settled, and the
    URLs it resolved. *)
Definition resolvedMap {World : Type}
    (fetch : jsstring -> World -> option jsstring * World)
    (text : jsstring) (w : World) : TaskInfoMap :=
  fst (resolveAll fetch (TaskGIDs.newSet (collectAllAsanaUrls text)) w).

Definition resolvedUrls {World : Type}
    (fetch : jsstring -> World -> option jsstring * World)
    (text : jsstring) (w : World) : list jsstring :=
  map fst (resolvedMap fetch text w).

(** A lookup that always fails. *)
Definition failingFetch : jsstring -> unit -> option jsstring * unit :=
  fun _ w => (None, w).

(** The identifier a URL is looked up with, if it is looked up. *)
Definition lookupOf (url : jsstring) : list jsstring :=
  match TaskGIDs.getAsanaTaskGIDsFromText url with
  | [taskId] => [taskId]
  | _ => []
  end.

(** The result of a call together with the identifiers the lookup was
    called with. *)
Definition transformLogged {World : Type}
    (fetch : jsstring -> World -> option jsstring * World)
    (text : jsstring) (w : World) : TransformResult * list jsstring :=
  let r := transformPRBody (logged fetch) text (w, []) in
  (fst r, snd (snd r)).

(** The words of a text, and what its white space is: the vocabulary of
    the comparison in [main.ts]. *)
(** Not white space. *)
Definition notSpace (x : char) : bool := negb (isSpace x).

(** The words of a text: its longest runs of code units that are not
    white space, in order. *)
Fixpoint words (s : jsstring) : list jsstring :=
  match s with
  | [] => []
  | x :: s' =>
      if isSpace x then words s'
      else match s' with
           | [] => [[x]]
           | y :: _ => if isSpace y then [x] :: words s' else consPiece x (words s')
           end
  end.

(** A path segment that the first pattern passes over: no [/] and no line
    terminator in it, and neither [task] nor [item]. *)
Definition isPathSegment (seg : jsstring) : bool :=
  forallb (fun x => dot x && negb (N.eqb x (ch "/"))) seg &&
  negb (str_eqb seg (str "task")) && negb (str_eqb seg (str "item")).

(** The body of the pull request after the effects of a run, from the body
    it had before. *)
Definition bodyAfter (effects : list Effect) (originalBody : jsstring) : jsstring :=
  fold_left (fun b e => match e with pulls_update _ b' => b' | _ => b end)
            effects originalBody.

(** The two line separators, and a text given by its lines: each line but
    the last comes with the separator that ends it. *)
Inductive LineEnd : Type :=
| EndCRLF : LineEnd
| EndLF : LineEnd.

Definition lineEnd (e : LineEnd) : jsstring :=
  match e with
  | EndCRLF => [CR; LF]
  | EndLF => [LF]
  end.

Definition textOfLines (ended : list (jsstring * LineEnd)) (last : jsstring) : jsstring :=
  flat_map (fun le => fst le ++ lineEnd (snd le)) ended ++ last.

(** [x] is the last code unit of [s]. *)
Fixpoint endsWith (x : char) (s : jsstring) : bool :=
  match s with
  | [] => false
  | y :: s' =>
      match s' with
      | [] => N.eqb y x
      | _ :: _ => endsWith x s'
      end
  end.

(** A line with its separator, as a cut at CR LF and at LF leaves them: no
    LF in the line, and no CR at its end when the separator is LF alone,
    for that CR would be part of the separator. *)
Definition cutAtEnd (le : jsstring * LineEnd) : bool :=
  negb (hasChar LF (fst le)) &&
  match snd le with
  | EndCRLF => true
  | EndLF => negb (endsWith CR (fst le))
  end.

(** ** Notions used in the proofs *)

Definition isSuffix (t s : jsstring) : Prop := exists pre, s = pre ++ t.

Definition isInfix (t s : jsstring) : Prop := exists pre post, s = pre ++ t ++ post.

(** What a run leaves: a suffix of its input, and captures that are old or
    taken from its input. *)
Definition runInv (s : jsstring) (c : captures) (st : mstate) : Prop :=
  isSuffix (fst st) s /\
  forall g t, In (g, t) (snd st) -> In (g, t) c \/ isInfix t s.

Definition headFails (p : char -> bool) (s : jsstring) : Prop :=
  match s with [] => True | y :: _ => p y = false end.

Definition headPasses (p : char -> bool) (s : jsstring) : Prop :=
  exists y ys, s = y :: ys /\ p y = true.

Definition lexLe (a b : jsstring) : Prop := a = b \/ LexLt a b.

(** The two link patterns differ in the target only. *)
Definition linkRegex (target : regex) : regex :=
  Cat [Chr (ch "["); Grp 1 (Plus (Cls (noneOf (str "]")))); Chr (ch "]"); Chr (ch "(");
       Grp 2 target; Chr (ch ")")].

Definition anyTarget : regex := Plus (Cls (noneOf (str ")"))).

Definition asanaTarget : regex := Seq (Lit asanaPrefix) anyTarget.

(** What a target has to do on [url)...]. *)
Definition readsTarget (target : regex) (url : jsstring) : Prop :=
  forall post c,
    hd_error (run target (url ++ ch ")" :: post) c) = Some (ch ")" :: post, c).




(** The titles of the map have no [x] in their sanitized form. *)
Definition titlesWithout (x : char) (taskInfoMap : TaskInfoMap) : Prop :=
  forall url info, In (url, info) taskInfoMap -> hasChar x (safeTitle info) = false.

(** Every group of the pattern is a run of digits. *)
Fixpoint groupsAreDigits (r : regex) : Prop :=
  match r with
  | Eps => True
  | Cls _ => True
  | Seq r1 r2 => groupsAreDigits r1 /\ groupsAreDigits r2
  | Alt r1 r2 => groupsAreDigits r1 /\ groupsAreDigits r2
  | Star _ r1 => groupsAreDigits r1
  | Grp _ r1 => r1 = TaskGIDs.digits
  end.

(** Every capture is a run of digits, and not empty. *)
Definition digitCaptures (c : captures) : Prop :=
  forall g t, In (g, t) c -> t <> [] /\ forallb isDigit t = true.

(** Where a match ends. *)
Definition m_end (m : rmatch) : nat := m_index m + length (m_full m).

(** The longest prefix of [s] whose code units pass [p], and the rest. *)
Fixpoint span (p : char -> bool) (s : jsstring) : jsstring * jsstring :=
  match s with
  | [] => ([], [])
  | x :: s' => if p x then (x :: fst (span p s'), snd (span p s')) else ([], s)
  end.

(** [m] is what the search for [r] finds in [text] at the index of [m]. *)
Definition foundAt (r : regex) (text : jsstring) (m : rmatch) : Prop :=
  exists st,
    m_index m <= length text /\
    hd_error (run r (skipn (m_index m) text) []) = Some st /\
    skipn (m_index m) text = m_full m ++ fst st /\
    m_groups m = snd st.

(** What follows the lazy run in the first pattern. *)
Definition afterLazy : mstate -> list mstate :=
  fun st =>
    run (Cat [Chr (ch "/"); Alt (Lit (str "task")) (Lit (str "item")); Chr (ch "/");
              Grp TaskGIDs.taskGID TaskGIDs.digits]) (fst st) (snd st).

(** A run of white space becomes one space. *)
Fixpoint collapse (s : jsstring) : jsstring :=
  match s with
  | [] => []
  | x :: s' =>
      if isSpace x then
        match s' with
        | [] => str " "
        | y :: _ => if isSpace y then collapse s' else ch " " :: collapse s'
        end
      else x :: collapse s'
  end.

(** The URL holds exactly one identifier. *)
Definition hasOneId (url : jsstring) : bool :=
  match TaskGIDs.getAsanaTaskGIDsFromText url with
  | [_] => true
  | _ => false
  end.

(** * Properties *)

(** ** The tests of the repository *)

Example test_plain_url :
  transformLogged mockFetchTaskTitle
    (str "Check this task: https://app.asana.com/0/123456/789012")
    [Some (str "Task Title")]
  = (mkResult (str "Check this task: [Task Title](https://app.asana.com/0/123456/789012)")
       true 1,
     [str "789012"]).
Proof. vm_compute. reflexivity. Qed.

Example test_update_existing_link :
  transformLogged mockFetchTaskTitle
    (str "Check this task: [Old Title](https://app.asana.com/0/123456/789012)")
    [Some (str "Updated Task Title")]
  = (mkResult
       (str "Check this task: [Updated Task Title](https://app.asana.com/0/123456/789012)")
       true 1,
     [str "789012"]).
Proof. vm_compute. reflexivity. Qed.

Example test_mixed_plain_and_link :
  transformLogged mockFetchTaskTitle
    (str "First task: https://app.asana.com/0/123456/111111" ++ [LF] ++
     str "Second task: [Old Title](https://app.asana.com/0/123456/222222)")
    [Some (str "Task 1"); Some (str "Task 2")]
  = (mkResult
       (str "First task: [Task 1](https://app.asana.com/0/123456/111111)" ++ [LF] ++
        str "Second task: [Task 2](https://app.asana.com/0/123456/222222)")
       true 2,
     [str "111111"; str "222222"]).
Proof. vm_compute. reflexivity. Qed.

Example test_fetch_failure :
  transformLogged mockFetchTaskTitle
    (str "Failed task: https://app.asana.com/0/123456/111111") [None]
  = (mkResult (str "Failed task: https://app.asana.com/0/123456/111111") false 0,
     [str "111111"]).
Proof. vm_compute. reflexivity. Qed.

Example test_title_with_brackets :
  transformLogged mockFetchTaskTitle
    (str "Complex task: https://app.asana.com/0/123456/111111")
    [Some (str "Title with [brackets]")]
  = (mkResult
       (str "Complex task: [Title with (brackets)](https://app.asana.com/0/123456/111111)")
       true 1,
     [str "111111"]).
Proof. vm_compute. reflexivity. Qed.

Example test_same_title_kept :
  transformLogged mockFetchTaskTitle
    (str "Check this task: [Task Title](https://app.asana.com/0/123456/789012)")
    [Some (str "Task Title")]
  = (mkResult (str "Check this task: [Task Title](https://app.asana.com/0/123456/789012)")
       true 1,
     [str "789012"]).
Proof. vm_compute. reflexivity. Qed.

Example test_same_url_on_three_lines :
  let url := str "https://app.asana.com/1/7423375154038/project/1201497668075595/task/1209683713901029?focus=true" in
  let t := str "Fix the integration that unfurls Asana URLs in PR bodies" in
  transformLogged mockFetchTaskTitle
    (str "## Description <!-- Required -->" ++ [LF; LF] ++
     str "This completes the task called " ++ url ++ [LF; LF] ++
     str "TBD" ++ [LF; LF] ++ url ++ [LF; LF; LF] ++
     str "## Asana <!-- Required -->" ++ [LF; LF] ++ markdownLink t url)
    [Some t]
  = (mkResult
       (str "## Description <!-- Required -->" ++ [LF; LF] ++
        str "This completes the task called " ++ markdownLink t url ++ [LF; LF] ++
        str "TBD" ++ [LF; LF] ++ markdownLink t url ++ [LF; LF; LF] ++
        str "## Asana <!-- Required -->" ++ [LF; LF] ++ markdownLink t url)
       true 3,
     [str "1209683713901029"]).
Proof. vm_compute. reflexivity. Qed.

(** ** Strings *)

Lemma str_eqb_eq : forall a b, str_eqb a b = true <-> a = b.
Proof.
  induction a as [|x a IH]; destruct b as [|y b]; simpl; split; intro H;
    try reflexivity; try discriminate.
  - apply andb_true_iff in H. destruct H as [Hx Hab].
    apply N.eqb_eq in Hx. apply IH in Hab. congruence.
  - injection H as -> ->. rewrite N.eqb_refl. simpl. apply IH. reflexivity.
Qed.

Lemma str_eqb_refl : forall a, str_eqb a a = true.
Proof. intro a. apply str_eqb_eq. reflexivity. Qed.

Lemma startsWith_spec : forall pat s,
  startsWith pat s = true <-> exists post, s = pat ++ post.
Proof.
  induction pat as [|p pat IH]; intros s; simpl.
  - split; [intros _; exists s; reflexivity | reflexivity].
  - destruct s as [|x s].
    + split; [discriminate | intros [post H]; discriminate].
    + rewrite andb_true_iff, N.eqb_eq, IH. split.
      * intros [-> [post ->]]. exists post. reflexivity.
      * intros [post H]. injection H as -> ->. split; [reflexivity | exists post; reflexivity].
Qed.

Lemma startsWith_app : forall pat post, startsWith pat (pat ++ post) = true.
Proof. intros. apply startsWith_spec. exists post. reflexivity. Qed.

Lemma startsWith_length : forall pat s, startsWith pat s = true -> length pat <= length s.
Proof.
  intros pat s H. apply startsWith_spec in H. destruct H as [post ->].
  rewrite length_app. lia.
Qed.

Lemma indexOfAux_Some : forall pat s i j,
  indexOfAux pat s i = Some j ->
  exists pre post, s = pre ++ pat ++ post /\ j = i + length pre.
Proof.
  intros pat s. induction s as [|x s IH]; intros i j H; simpl in H.
  - destruct (startsWith pat []) eqn:E; [|discriminate].
    injection H as <-. apply startsWith_spec in E. destruct E as [post E].
    exists [], post. simpl. split; [assumption | lia].
  - destruct (startsWith pat (x :: s)) eqn:E.
    + injection H as <-. apply startsWith_spec in E. destruct E as [post E].
      exists [], post. simpl. split; [assumption | lia].
    + apply IH in H. destruct H as (pre & post & -> & ->).
      exists (x :: pre), post. simpl. split; [reflexivity | lia].
Qed.

Lemma indexOfAux_None : forall pat s i,
  indexOfAux pat s i = None -> forall pre post, s <> pre ++ pat ++ post.
Proof.
  intros pat s. induction s as [|x s IH]; intros i H pre post Hs; simpl in H.
  - destruct (startsWith pat []) eqn:E; [discriminate|].
    destruct pre; [|discriminate]. simpl in Hs.
    rewrite Hs, startsWith_app in E. discriminate.
  - destruct (startsWith pat (x :: s)) eqn:E; [discriminate|].
    destruct pre as [|y pre].
    + simpl in Hs. rewrite Hs, startsWith_app in E. discriminate.
    + injection Hs as _ Hs. exact (IH _ H _ _ Hs).
Qed.

(** The first occurrence: nothing before it. *)
Lemma indexOfAux_first : forall pat s i j,
  indexOfAux pat s i = Some j ->
  forall k, k < j - i -> startsWith pat (skipn k s) = false.
Proof.
  intros pat s. induction s as [|x s IH]; intros i j H k Hk; simpl in H.
  - destruct (startsWith pat []) eqn:E; [|discriminate]. injection H as <-. lia.
  - destruct (startsWith pat (x :: s)) eqn:E.
    + injection H as <-. lia.
    + destruct k as [|k]; [exact E|]. simpl.
      apply (IH _ _ H). apply indexOfAux_Some in H.
      destruct H as (pre & post & _ & ->). lia.
Qed.

Lemma indexOf_Some : forall s pat from j,
  indexOf s pat from = Some j ->
  occursAt pat s j /\ Nat.min from (length s) <= j.
Proof.
  unfold indexOf, occursAt. intros s pat from j H.
  apply indexOfAux_Some in H. destruct H as (pre & post & Hs & ->).
  split; [|lia].
  exists (firstn (Nat.min from (length s)) s ++ pre), post. split.
  - rewrite <- app_assoc, <- Hs. symmetry. apply firstn_skipn.
  - rewrite length_app, length_firstn. lia.
Qed.

Lemma occursAt_bound : forall pat s i, occursAt pat s i -> i + length pat <= length s.
Proof.
  intros pat s i (pre & post & -> & <-). rewrite !length_app. lia.
Qed.

Lemma includes_false : forall s pat,
  includes s pat = false -> forall pre post, s <> pre ++ pat ++ post.
Proof.
  unfold includes, indexOf. intros s pat H.
  destruct (indexOfAux pat (skipn (Nat.min 0 (length s)) s) (Nat.min 0 (length s))) eqn:E;
    [discriminate|].
  simpl in E. exact (indexOfAux_None _ _ _ E).
Qed.

Lemma includes_true : forall s pat,
  includes s pat = true -> isInfix pat s.
Proof.
  unfold includes. intros s pat H.
  destruct (indexOf s pat 0) eqn:E; [|discriminate].
  apply indexOf_Some in E. destruct E as [(pre & post & Hs & _) _].
  exists pre, post. exact Hs.
Qed.

Lemma includes_infix : forall s pat, isInfix pat s -> includes s pat = true.
Proof.
  intros s pat (pre & post & Hs).
  destruct (includes s pat) eqn:E; [reflexivity|].
  exfalso. exact (includes_false _ _ E _ _ Hs).
Qed.

Lemma indexOf_not_included : forall s pat from,
  includes s pat = false -> indexOf s pat from = None.
Proof.
  intros s pat from H.
  destruct (indexOf s pat from) eqn:E; [|reflexivity].
  apply indexOf_Some in E. destruct E as [(pre & post & Hs & _) _].
  exfalso. exact (includes_false _ _ H _ _ Hs).
Qed.

Lemma isInfix_trans : forall a b c, isInfix a b -> isInfix b c -> isInfix a c.
Proof.
  intros a b c (p1 & q1 & ->) (p2 & q2 & ->).
  exists (p2 ++ p1), (q1 ++ q2). rewrite <- !app_assoc. reflexivity.
Qed.

Lemma isSuffix_refl : forall s, isSuffix s s.
Proof. intro s. exists []. reflexivity. Qed.

Lemma isSuffix_trans : forall a b c, isSuffix a b -> isSuffix b c -> isSuffix a c.
Proof.
  intros a b c [p1 ->] [p2 ->]. exists (p2 ++ p1). rewrite <- app_assoc. reflexivity.
Qed.

Lemma isSuffix_infix : forall a b, isSuffix a b -> isInfix a b.
Proof. intros a b [p ->]. exists p, []. rewrite app_nil_r. reflexivity. Qed.

Lemma isSuffix_length : forall a b, isSuffix a b -> length a <= length b.
Proof. intros a b [p ->]. rewrite length_app. lia. Qed.

Lemma isSuffix_skipn : forall k s, isSuffix (skipn k s) s.
Proof. intros k s. exists (firstn k s). symmetry. apply firstn_skipn. Qed.

Lemma firstn_consumed : forall (a b : jsstring),
  firstn (length (a ++ b) - length b) (a ++ b) = a.
Proof.
  intros a b. rewrite length_app.
  replace (length a + length b - length b) with (length a) by lia.
  rewrite firstn_app, firstn_all, Nat.sub_diag. simpl. apply app_nil_r.
Qed.

Lemma isSuffix_firstn : forall t s,
  isSuffix t s -> s = firstn (length s - length t) s ++ t.
Proof.
  intros t s [pre ->]. rewrite length_app.
  replace (length pre + length t - length t) with (length pre) by lia.
  rewrite firstn_app, firstn_all, Nat.sub_diag. simpl. rewrite app_nil_r. reflexivity.
Qed.

(** Splitting into lines and joining them again gives the text back. *)
Lemma join_consPiece : forall x pieces,
  pieces <> [] -> join [LF] (consPiece x pieces) = x :: join [LF] pieces.
Proof.
  intros x [|p rest] H; [contradiction|]. simpl. destruct rest; reflexivity.
Qed.

Lemma split1_not_nil : forall sep s, split1 sep s <> [].
Proof.
  intros sep s. destruct s as [|x s]; simpl; [discriminate|].
  destruct (N.eqb x sep); [discriminate|].
  destruct (split1 sep s); discriminate.
Qed.

Lemma join_split1 : forall s, join [LF] (split1 LF s) = s.
Proof.
  induction s as [|x s IH]; [reflexivity|]. simpl.
  destruct (N.eqb x LF) eqn:E.
  - apply N.eqb_eq in E. subst x.
    assert (Hn := split1_not_nil LF s).
    destruct (split1 LF s) as [|p rest] eqn:Es; [contradiction|].
    change (join [LF] ([] :: p :: rest)) with ([] ++ [LF] ++ join [LF] (p :: rest)).
    rewrite IH. reflexivity.
  - rewrite join_consPiece by apply split1_not_nil. rewrite IH. reflexivity.
Qed.

(** ** The matcher *)

Lemma runInv_refl : forall s c, runInv s c (s, c).
Proof. intros s c. split; [apply isSuffix_refl | intros g t H; left; exact H]. Qed.

Lemma runInv_trans : forall s c st1 st,
  runInv s c st1 -> runInv (fst st1) (snd st1) st -> runInv s c st.
Proof.
  intros s c st1 st [Hs1 Hc1] [Hs Hc]. split.
  - exact (isSuffix_trans _ _ _ Hs Hs1).
  - intros g t H. destruct (Hc g t H) as [H1 | H1].
    + exact (Hc1 g t H1).
    + right. exact (isInfix_trans _ _ _ H1 (isSuffix_infix _ _ Hs1)).
Qed.

Lemma star_inv : forall greedy step,
  (forall s c st, In st (step s c) -> runInv s c st) ->
  forall fuel s c st, In st (star greedy step fuel s c) -> runInv s c st.
Proof.
  intros greedy step Hstep. induction fuel as [|fuel IH]; intros s c st H; simpl in H.
  - destruct H as [<- | []]. apply runInv_refl.
  - assert (Hmore : forall st', In st'
              (flat_map (fun st0 : mstate =>
                           if length (fst st0) <? length s
                           then star greedy step fuel (fst st0) (snd st0) else [])
                        (step s c)) -> runInv s c st').
    { intros st' H'. apply in_flat_map in H'. destruct H' as (st1 & H1 & H2).
      destruct (length (fst st1) <? length s); [|destruct H2].
      exact (runInv_trans _ _ _ _ (Hstep _ _ _ H1) (IH _ _ _ H2)). }
    destruct greedy.
    + apply in_app_or in H. destruct H as [H | [<- | []]];
        [exact (Hmore _ H) | apply runInv_refl].
    + destruct H as [<- | H]; [apply runInv_refl | exact (Hmore _ H)].
Qed.

Lemma firstn_isInfix : forall k (s : jsstring), isInfix (firstn k s) s.
Proof. intros k s. exists [], (skipn k s). simpl. symmetry. apply firstn_skipn. Qed.

Lemma run_inv : forall r s c st, In st (run r s c) -> runInv s c st.
Proof.
  induction r as [|p|r1 IH1 r2 IH2|r1 IH1 r2 IH2|greedy r1 IH1|g r1 IH1];
    intros s c st H; cbn [run] in H.
  - destruct H as [<- | []]. apply runInv_refl.
  - destruct s as [|x s]; [destruct H|].
    destruct (p x); [|destruct H]. destruct H as [<- | []].
    split; [exists [x]; reflexivity | intros g t H; left; exact H].
  - apply in_flat_map in H. destruct H as (st1 & H1 & H2).
    exact (runInv_trans _ _ _ _ (IH1 _ _ _ H1) (IH2 _ _ _ H2)).
  - apply in_app_or in H. destruct H as [H | H]; [exact (IH1 _ _ _ H) | exact (IH2 _ _ _ H)].
  - exact (star_inv greedy (run r1) IH1 _ _ _ _ H).
  - apply in_map_iff in H. destruct H as (st1 & <- & H1).
    destruct (IH1 _ _ _ H1) as [Hs Hc]. split; [exact Hs|].
    simpl. intros g' t [E | H'].
    + injection E as _ <-. right. apply firstn_isInfix.
    + exact (Hc _ _ H').
Qed.

Lemma capture_In : forall c g t, capture c g = Some t -> In (g, t) c.
Proof.
  induction c as [|[g' s] c IH]; intros g t H; simpl in H; [discriminate|].
  destruct (Nat.eqb g g') eqn:E.
  - apply Nat.eqb_eq in E. injection H as <-. subst. left. reflexivity.
  - right. exact (IH _ _ H).
Qed.

Lemma search_unfold : forall r s i,
  search r s i =
  match hd_error (run r s []) with
  | Some st => Some (mkMatch i (firstn (length s - length (fst st)) s) (snd st))
  | None => match s with
            | [] => None
            | _ :: s' => search r s' (S i)
            end
  end.
Proof. intros r s i. destruct s; reflexivity. Qed.

Lemma hd_error_In : forall (A : Type) (l : list A) x, hd_error l = Some x -> In x l.
Proof. intros A [|y l] x H; [discriminate|]. injection H as <-. left. reflexivity. Qed.

Lemma search_here : forall r s st,
  hd_error (run r s []) = Some st ->
  s = firstn (length s - length (fst st)) s ++ fst st /\
  forall g t, In (g, t) (snd st) -> isInfix t s.
Proof.
  intros r s st E. apply hd_error_In in E.
  destruct (run_inv _ _ _ _ E) as [Hs Hc]. split.
  - apply isSuffix_firstn. exact Hs.
  - intros g t Hg. destruct (Hc g t Hg) as [[] | Hi]. exact Hi.
Qed.

(** A match lies in the text that was searched, and so do its groups. *)
Lemma search_inv : forall r s i m,
  search r s i = Some m ->
  (exists pre post, s = pre ++ m_full m ++ post /\ m_index m = i + length pre) /\
  (forall g t, In (g, t) (m_groups m) -> isInfix t s).
Proof.
  intros r s. induction s as [|x s IH]; intros i m H; rewrite search_unfold in H;
    destruct (hd_error (run r _ [])) as [st|] eqn:E; try discriminate.
  - injection H as <-. destruct (search_here _ _ _ E) as [Hs Hc]. split.
    + exists [], (fst st). split; [exact Hs | simpl; lia].
    + exact Hc.
  - injection H as <-. destruct (search_here _ _ _ E) as [Hs Hc]. split.
    + exists [], (fst st). split; [exact Hs | simpl; lia].
    + exact Hc.
  - destruct (IH _ _ H) as [(pre & post & Hs & Hi) Hc]. split.
    + exists (x :: pre), post. simpl. split; [f_equal; exact Hs | lia].
    + intros g t Hg. destruct (Hc g t Hg) as (p & q & ->).
      exists (x :: p), q. reflexivity.
Qed.

Lemma search_found : forall r s i m,
  search r s i = Some m ->
  exists pre s' st,
    s = pre ++ s' /\ hd_error (run r s' []) = Some st /\
    m_full m = firstn (length s' - length (fst st)) s' /\
    m_index m = i + length pre /\ m_groups m = snd st.
Proof.
  intros r s. induction s as [|x s IH]; intros i m H; rewrite search_unfold in H;
    destruct (hd_error (run r _ [])) as [st|] eqn:E; try discriminate.
  - injection H as <-. exists [], [], st. simpl. repeat split; [exact E | lia].
  - injection H as <-. exists [], (x :: s), st. simpl. repeat split; [exact E | lia].
  - destruct (IH _ _ H) as (pre & s' & st & Es & Eh & Ef & Ei & Eg).
    exists (x :: pre), s', st. simpl. repeat split; try assumption; [f_equal; exact Es | lia].
Qed.

Lemma matchAllFrom_inv : forall r fuel s i m,
  In m (matchAllFrom r fuel s i) ->
  isInfix (m_full m) s /\ forall g t, In (g, t) (m_groups m) -> isInfix t s.
Proof.
  intros r. induction fuel as [|fuel IH]; intros s i m H; simpl in H; [destruct H|].
  destruct (search r s i) as [m0|] eqn:E; [|destruct H].
  destruct H as [<- | H].
  - destruct (search_inv _ _ _ _ E) as [(pre & post & Hs & _) Hc].
    split; [exists pre, post; exact Hs | exact Hc].
  - match type of H with In _ (if ?b then _ else _) => destruct b end; [|destruct H].
    destruct (IH _ _ _ H) as [Hf Hc].
    assert (Hsk := isSuffix_infix _ _ (isSuffix_skipn
      ((if Nat.eqb (length (m_full m0)) 0
        then S (m_index m0 + length (m_full m0))
        else m_index m0 + length (m_full m0)) - i) s)).
    split; [exact (isInfix_trans _ _ _ Hf Hsk)|].
    intros g t Hg. exact (isInfix_trans _ _ _ (Hc g t Hg) Hsk).
Qed.

Lemma matchAll_groups : forall s r m g t,
  In m (matchAll s r) -> capture (m_groups m) g = Some t -> isInfix t s.
Proof.
  intros s r m g t H Hc. unfold matchAll in H.
  destruct (matchAllFrom_inv _ _ _ _ _ H) as [_ Hg].
  exact (Hg _ _ (capture_In _ _ _ Hc)).
Qed.

(** The fuel of a repetition is idle once above the length of the input. *)
Lemma star_fuel : forall greedy step f1 f2 s c,
  length s < f1 -> length s < f2 ->
  star greedy step f1 s c = star greedy step f2 s c.
Proof.
  intros greedy step. induction f1 as [|f1 IH]; intros f2 s c H1 H2; [lia|].
  destruct f2 as [|f2]; [lia|]. simpl.
  assert (E : flat_map (fun st : mstate =>
                          if length (fst st) <? length s
                          then star greedy step f1 (fst st) (snd st) else []) (step s c)
            = flat_map (fun st : mstate =>
                          if length (fst st) <? length s
                          then star greedy step f2 (fst st) (snd st) else []) (step s c)).
  { apply flat_map_ext. intros st.
    destruct (length (fst st) <? length s) eqn:El; [|reflexivity].
    apply Nat.ltb_lt in El. apply IH; lia. }
  rewrite E. reflexivity.
Qed.

Lemma run_Star_unfold : forall greedy r s c,
  run (Star greedy r) s c =
  let more := flat_map (fun st : mstate =>
                          if length (fst st) <? length s
                          then run (Star greedy r) (fst st) (snd st) else [])
                       (run r s c) in
  if greedy then more ++ [(s, c)] else (s, c) :: more.
Proof.
  intros greedy r s c. cbn [run]. cbn [star].
  assert (E : flat_map (fun st : mstate =>
                          if length (fst st) <? length s
                          then star greedy (run r) (length s) (fst st) (snd st) else [])
                       (run r s c)
            = flat_map (fun st : mstate =>
                          if length (fst st) <? length s
                          then star greedy (run r) (S (length (fst st))) (fst st) (snd st)
                          else [])
                       (run r s c)).
  { apply flat_map_ext. intros st.
    destruct (length (fst st) <? length s) eqn:El; [|reflexivity].
    apply Nat.ltb_lt in El. apply star_fuel; lia. }
  rewrite E. reflexivity.
Qed.

Lemma run_Seq_single : forall r1 r2 s c s1 c1,
  run r1 s c = [(s1, c1)] -> run (Seq r1 r2) s c = run r2 s1 c1.
Proof. intros r1 r2 s c s1 c1 H. cbn [run]. rewrite H. simpl. apply app_nil_r. Qed.

Lemma run_Seq_nil : forall r1 r2 s c, run r1 s c = [] -> run (Seq r1 r2) s c = [].
Proof. intros r1 r2 s c H. cbn [run]. rewrite H. reflexivity. Qed.

Lemma run_Seq_In : forall r1 r2 s c st,
  In st (run (Seq r1 r2) s c) ->
  exists st1, In st1 (run r1 s c) /\ In st (run r2 (fst st1) (snd st1)).
Proof. intros r1 r2 s c st H. cbn [run] in H. apply in_flat_map in H. exact H. Qed.

Lemma run_Chr_In : forall x s c st, In st (run (Chr x) s c) -> s = x :: fst st.
Proof.
  intros x s c st H. cbn [run Chr] in H. destruct s as [|y s]; [destruct H|].
  destruct (N.eqb x y) eqn:E; [|destruct H]. destruct H as [<- | []].
  apply N.eqb_eq in E. subst. reflexivity.
Qed.

Lemma run_Lit : forall p s c,
  run (Lit p) s c = if startsWith p s then [(skipn (length p) s, c)] else [].
Proof.
  induction p as [|x p IH]; intros s c; [reflexivity|].
  change (Lit (x :: p)) with (Seq (Chr x) (Lit p)).
  destruct s as [|y s]; [reflexivity|].
  cbn [run Chr startsWith]. destruct (N.eqb x y); simpl; [|reflexivity].
  rewrite app_nil_r. apply IH.
Qed.

Lemma run_Lit_app : forall p s c, run (Lit p) (p ++ s) c = [(s, c)].
Proof.
  intros p s c. rewrite run_Lit, startsWith_app.
  rewrite skipn_app, skipn_all, Nat.sub_diag. reflexivity.
Qed.

(** A greedy run of one class stops first at the end of the run; what it
    tries afterwards stops inside the run. *)
Lemma run_Star_Cls : forall p xs rest c,
  forallb p xs = true -> headFails p rest ->
  exists tl, run (Star true (Cls p)) (xs ++ rest) c = (rest, c) :: tl /\
             forall st, In st tl -> snd st = c /\ headPasses p (fst st).
Proof.
  intros p xs rest c. induction xs as [|x xs IH]; intros Hall Hrest.
  - exists []. split; [|intros st []].
    rewrite run_Star_unfold. simpl app.
    assert (E : run (Cls p) rest c = []).
    { destruct rest as [|y rest]; [reflexivity|]. simpl in *. rewrite Hrest. reflexivity. }
    rewrite E. reflexivity.
  - simpl in Hall. apply andb_true_iff in Hall. destruct Hall as [Hx Hall].
    destruct (IH Hall Hrest) as (tl & E & Htl).
    exists (tl ++ [(x :: xs ++ rest, c)]). split.
    + rewrite run_Star_unfold.
      assert (Ec : run (Cls p) ((x :: xs) ++ rest) c = [(xs ++ rest, c)])
        by (simpl; rewrite Hx; reflexivity).
      rewrite Ec. cbn [flat_map fst snd].
      assert (El : (length (xs ++ rest) <? length ((x :: xs) ++ rest)) = true)
        by (apply Nat.ltb_lt; simpl; lia).
      rewrite El, E, app_nil_r. reflexivity.
    + intros st H. apply in_app_or in H. destruct H as [H | [<- | []]].
      * exact (Htl _ H).
      * split; [reflexivity|]. exists x, (xs ++ rest). split; [reflexivity | exact Hx].
Qed.

Lemma run_Plus_Cls : forall p xs rest c,
  xs <> [] -> forallb p xs = true -> headFails p rest ->
  exists tl, run (Plus (Cls p)) (xs ++ rest) c = (rest, c) :: tl /\
             forall st, In st tl -> snd st = c /\ headPasses p (fst st).
Proof.
  intros p [|x xs] rest c Hne Hall Hrest; [contradiction|].
  simpl in Hall. apply andb_true_iff in Hall. destruct Hall as [Hx Hall].
  destruct (run_Star_Cls p xs rest c Hall Hrest) as (tl & E & Htl).
  exists tl. split; [|exact Htl].
  unfold Plus.
  rewrite (run_Seq_single (Cls p) (Star true (Cls p)) ((x :: xs) ++ rest) c (xs ++ rest) c).
  - exact E.
  - simpl. rewrite Hx. reflexivity.
Qed.

Lemma run_Plus_Cls_fail : forall p s c, headFails p s -> run (Plus (Cls p)) s c = [].
Proof.
  intros p s c H. unfold Plus. apply run_Seq_nil.
  destruct s as [|y s]; [reflexivity|]. simpl in *. rewrite H. reflexivity.
Qed.

Lemma hd_error_flat_map_cons : forall (A B : Type) (k : A -> list B) x l,
  hd_error (flat_map k (x :: l)) =
  match hd_error (k x) with
  | Some y => Some y
  | None => hd_error (flat_map k l)
  end.
Proof. intros A B k x l. simpl. destruct (k x); reflexivity. Qed.

(** ** Sets and maps *)

Lemma Set_has_In : forall s x, TaskGIDs.Set_has s x = true <-> In x s.
Proof.
  intros s x. unfold TaskGIDs.Set_has. rewrite existsb_exists. split.
  - intros (y & Hy & E). apply str_eqb_eq in E. subst. exact Hy.
  - intros H. exists x. split; [exact H | apply str_eqb_refl].
Qed.

Lemma Set_add_In : forall s x y, In y (TaskGIDs.Set_add s x) <-> In y s \/ y = x.
Proof.
  intros s x y. unfold TaskGIDs.Set_add.
  destruct (TaskGIDs.Set_has s x) eqn:E.
  - apply Set_has_In in E. split; [intros H; left; exact H|].
    intros [H | ->]; assumption.
  - rewrite in_app_iff. simpl. split.
    + intros [H | [<- | []]]; [left; exact H | right; reflexivity].
    + intros [H | ->]; [left; exact H | right; left; reflexivity].
Qed.

Lemma Set_add_NoDup : forall s x, NoDup s -> NoDup (TaskGIDs.Set_add s x).
Proof.
  intros s x H. unfold TaskGIDs.Set_add.
  destruct (TaskGIDs.Set_has s x) eqn:E; [exact H|].
  apply NoDup_app; [exact H | repeat constructor; intros [] |].
  intros y Hy [<- | []].
  apply Set_has_In in Hy. congruence.
Qed.

Lemma fold_Set_add_In : forall xs acc y,
  In y (fold_left TaskGIDs.Set_add xs acc) <-> In y acc \/ In y xs.
Proof.
  induction xs as [|x xs IH]; intros acc y; simpl.
  - split; [intros H; left; exact H | intros [H | []]; exact H].
  - rewrite IH, Set_add_In. split.
    + intros [[H | ->] | H]; [left; exact H | right; left; reflexivity | right; right; exact H].
    + intros [H | [<- | H]]; [left; left; exact H | left; right; reflexivity | right; exact H].
Qed.

Lemma fold_Set_add_NoDup : forall xs acc,
  NoDup acc -> NoDup (fold_left TaskGIDs.Set_add xs acc).
Proof.
  induction xs as [|x xs IH]; intros acc H; simpl; [exact H|].
  apply IH. apply Set_add_NoDup. exact H.
Qed.

Lemma newSet_In : forall xs y, In y (TaskGIDs.newSet xs) <-> In y xs.
Proof.
  intros xs y. unfold TaskGIDs.newSet. rewrite fold_Set_add_In. simpl.
  split; [intros [[] | H]; exact H | intros H; right; exact H].
Qed.

Lemma newSet_NoDup : forall xs, NoDup (TaskGIDs.newSet xs).
Proof. intros xs. apply fold_Set_add_NoDup. constructor. Qed.

Lemma Map_get_In : forall m k v, Map_get m k = Some v -> In (k, v) m.
Proof.
  induction m as [|[k' v'] m IH]; intros k v H; simpl in H; [discriminate|].
  destruct (str_eqb k k') eqn:E.
  - apply str_eqb_eq in E. injection H as <-. subst. left. reflexivity.
  - right. exact (IH _ _ H).
Qed.

Lemma Map_get_key : forall m k v, Map_get m k = Some v -> In k (map fst m).
Proof.
  intros m k v H. apply Map_get_In in H.
  apply in_map_iff. exists (k, v). split; [reflexivity | exact H].
Qed.

Lemma Map_get_set : forall m k v k',
  Map_get (Map_set m k v) k' = if str_eqb k' k then Some v else Map_get m k'.
Proof.
  induction m as [|[k0 v0] m IH]; intros k v k'; simpl.
  - reflexivity.
  - destruct (str_eqb k k0) eqn:E; simpl.
    + apply str_eqb_eq in E. subst k0. destruct (str_eqb k' k); reflexivity.
    + destruct (str_eqb k' k0) eqn:E0.
      * apply str_eqb_eq in E0. subst k0.
        destruct (str_eqb k' k) eqn:E1; [|reflexivity].
        apply str_eqb_eq in E1. subst. rewrite str_eqb_refl in E. discriminate.
      * apply IH.
Qed.

(** ** The rewrite pass leaves alone what holds no resolved URL *)

Lemma markdownStep_frame : forall taskInfoMap line n m,
  (forall url, In url (map fst taskInfoMap) -> includes line url = false) ->
  (forall g t, capture (m_groups m) g = Some t -> isInfix t line) ->
  markdownStep taskInfoMap (line, n) m = (line, n).
Proof.
  intros taskInfoMap line n m Hno Hgroups. unfold markdownStep.
  destruct (capture (m_groups m) 1) as [linkText|]; [|reflexivity].
  destruct (capture (m_groups m) 2) as [asanaUrl|] eqn:E2; [|reflexivity].
  destruct (Map_get taskInfoMap asanaUrl) as [taskInfo|] eqn:Eg; [|reflexivity].
  exfalso. apply Map_get_key in Eg. apply Hno in Eg.
  rewrite (includes_infix _ _ (Hgroups _ _ E2)) in Eg. discriminate.
Qed.

Lemma markdownPass_frame : forall taskInfoMap line n matches,
  (forall url, In url (map fst taskInfoMap) -> includes line url = false) ->
  (forall m g t, In m matches -> capture (m_groups m) g = Some t -> isInfix t line) ->
  fold_left (markdownStep taskInfoMap) matches (line, n) = (line, n).
Proof.
  intros taskInfoMap line n matches Hno. induction matches as [|m matches IH]; intros Hm.
  - reflexivity.
  - cbn [fold_left]. rewrite markdownStep_frame.
    + apply IH. intros m' g t Hin. apply Hm. right. exact Hin.
    + exact Hno.
    + intros g t. apply Hm. left. reflexivity.
Qed.

Lemma plainUrlLoop_absent : forall fuel url taskInfo updatedLine markdownIndices startIndex acc,
  includes updatedLine url = false ->
  plainUrlLoop fuel url taskInfo updatedLine markdownIndices startIndex acc = acc.
Proof.
  intros fuel url taskInfo updatedLine markdownIndices startIndex acc H.
  destruct fuel as [|fuel]; [reflexivity|]. simpl.
  rewrite indexOf_not_included by exact H. reflexivity.
Qed.

Lemma plainPass_frame : forall entries fuel updatedLine markdownIndices acc,
  (forall url, In url (map fst entries) -> includes updatedLine url = false) ->
  fold_left
    (fun acc (entry : jsstring * TaskInfo) =>
       plainUrlLoop fuel (fst entry) (snd entry) updatedLine markdownIndices 0 acc)
    entries acc = acc.
Proof.
  induction entries as [|[url info] entries IH]; intros fuel updatedLine markdownIndices acc H.
  - reflexivity.
  - cbn [fold_left fst snd]. rewrite plainUrlLoop_absent.
    + apply IH. intros u Hu. apply H. right. exact Hu.
    + apply H. left. reflexivity.
Qed.

Lemma processLine_frame : forall taskInfoMap line n,
  (forall url, In url (map fst taskInfoMap) -> includes line url = false) ->
  processLine taskInfoMap line n = (line, n).
Proof.
  intros taskInfoMap line n H. unfold processLine.
  rewrite markdownPass_frame.
  - simpl fst. apply plainPass_frame. exact H.
  - exact H.
  - intros m g t Hm. apply matchAll_groups with (r := markdownRegex) (m := m). exact Hm.
Qed.

Lemma processLines_frame : forall taskInfoMap lines n,
  length (fst (processLines taskInfoMap lines n)) = length lines /\
  forall i line,
    nth_error lines i = Some line ->
    (forall url, In url (map fst taskInfoMap) -> includes line url = false) ->
    nth_error (fst (processLines taskInfoMap lines n)) i = Some line.
Proof.
  intros taskInfoMap. induction lines as [|l lines IH]; intros n.
  - split; [reflexivity|]. intros i line H. destruct i; discriminate.
  - simpl. destruct (processLine taskInfoMap l n) as [l' n1] eqn:El.
    destruct (processLines taskInfoMap lines n1) as [rest' n2] eqn:Er.
    specialize (IH n1). rewrite Er in IH. simpl in IH. destruct IH as [IHlen IHnth].
    simpl. split; [f_equal; exact IHlen|].
    intros i line Hi Hno. destruct i as [|i]; simpl in *.
    + injection Hi as ->. rewrite processLine_frame in El by exact Hno.
      injection El as <- _. reflexivity.
    + exact (IHnth _ _ Hi Hno).
Qed.

Lemma rewriteBody_frame : forall taskInfoMap text,
  exists lines',
    body (rewriteBody taskInfoMap text) = join [LF] lines' /\
    length lines' = length (split1 LF text) /\
    forall i line,
      nth_error (split1 LF text) i = Some line ->
      (forall url, In url (map fst taskInfoMap) -> includes line url = false) ->
      nth_error lines' i = Some line.
Proof.
  intros taskInfoMap text. unfold rewriteBody.
  destruct (Nat.eqb (length taskInfoMap) 0).
  - exists (split1 LF text). simpl. split; [symmetry; apply join_split1|].
    split; [reflexivity|]. intros i line H _. exact H.
  - destruct (processLines_frame taskInfoMap (split1 LF text) 0) as [Hlen Hnth].
    destruct (processLines taskInfoMap (split1 LF text) 0) as [lines' n] eqn:E.
    exists lines'. simpl in *. split; [reflexivity|]. split; [exact Hlen | exact Hnth].
Qed.

(** ** Resolving the URLs *)

Section Resolve.

Variable World : Type.
Variable fetch : jsstring -> World -> option jsstring * World.

Lemma transformPRBody_rewrite : forall text w,
  fst (transformPRBody fetch text w) =
  rewriteBody
    (fst (resolveAll fetch (TaskGIDs.newSet (collectAllAsanaUrls text)) w)) text.
Proof.
  intros text w. destruct text as [|x text]; [reflexivity|].
  unfold transformPRBody.
  destruct (resolveAll fetch (TaskGIDs.newSet (collectAllAsanaUrls (x :: text))) w); reflexivity.
Qed.

Lemma Map_set_In : forall m k v k' v',
  In (k', v') (Map_set m k v) -> In (k', v') m \/ (k', v') = (k, v).
Proof.
  induction m as [|[k0 v0] m IH]; intros k v k' v'; simpl.
  - intros [E | []]. right. symmetry. exact E.
  - destruct (str_eqb k k0) eqn:E.
    + apply str_eqb_eq in E. subst k0. intros [E1 | Hin].
      * right. symmetry. exact E1.
      * left. right. exact Hin.
    + intros [E1 | Hin]; [left; left; exact E1|].
      destruct (IH _ _ _ _ Hin) as [H' | H']; [left; right; exact H' | right; exact H'].
Qed.

(** What one lookup does to the map. *)
Lemma resolveUrl_cases : forall m w u,
  (fst (resolveUrl fetch (m, w) u) = m) \/
  (exists taskId t,
     TaskGIDs.getAsanaTaskGIDsFromText u = [taskId] /\
     fst (fetch taskId w) = Some t /\
     fst (resolveUrl fetch (m, w) u)
     = Map_set m u (mkTaskInfo taskId t (sanitizeTitleForMarkdown t))).
Proof.
  intros m w u. unfold resolveUrl.
  destruct (TaskGIDs.getAsanaTaskGIDsFromText u) as [|taskId [|? ?]];
    try (left; reflexivity).
  destruct (fetch taskId w) as [[t|] w'] eqn:Ef; [|left; reflexivity].
  right. exists taskId, t. rewrite Ef. repeat split.
Qed.

(** Where an entry of the map comes from. *)
Lemma resolveUrl_entries : forall urls m w url info,
  In (url, info) (fst (fold_left (resolveUrl fetch) urls (m, w))) ->
  In (url, info) m \/
  (In url urls /\
   TaskGIDs.getAsanaTaskGIDsFromText url = [id info] /\
   safeTitle info = sanitizeTitleForMarkdown (title info) /\
   exists w0, fst (fetch (id info) w0) = Some (title info)).
Proof.
  induction urls as [|u urls IH]; intros m w url info H; cbn [fold_left] in H.
  - left. exact H.
  - destruct (resolveUrl fetch (m, w) u) as [m1 w1] eqn:Er.
    apply IH in H. destruct H as [H | (H1 & H2)];
      [|right; split; [right; exact H1 | exact H2]].
    destruct (resolveUrl_cases m w u) as [E | (taskId & t & Eg & Ef & E)];
      rewrite Er in E; simpl in E; subst m1.
    + left. exact H.
    + apply Map_set_In in H. destruct H as [H | E']; [left; exact H|].
      injection E' as -> ->. right. simpl. split; [left; reflexivity|].
      split; [exact Eg|]. split; [reflexivity|]. exists w. exact Ef.
Qed.

Lemma resolveAll_entries : forall urls w url info,
  In (url, info) (fst (resolveAll fetch urls w)) ->
  In url urls /\
  TaskGIDs.getAsanaTaskGIDsFromText url = [id info] /\
  safeTitle info = sanitizeTitleForMarkdown (title info) /\
  exists w0, fst (fetch (id info) w0) = Some (title info).
Proof.
  intros urls w url info H. apply resolveUrl_entries in H.
  destruct H as [[] | H]. exact H.
Qed.

Lemma resolveUrl_get_other : forall m w u url,
  url <> u -> Map_get (fst (resolveUrl fetch (m, w) u)) url = Map_get m url.
Proof.
  intros m w u url Hne.
  destruct (resolveUrl_cases m w u) as [E | (taskId & t & _ & _ & E)]; rewrite E;
    [reflexivity|].
  rewrite Map_get_set. destruct (str_eqb url u) eqn:Eu; [|reflexivity].
  apply str_eqb_eq in Eu. contradiction.
Qed.

(** A URL whose lookup succeeds in every world ends up in the map. *)
Lemma resolveUrl_present : forall urls m w url taskId t,
  TaskGIDs.getAsanaTaskGIDsFromText url = [taskId] ->
  (forall w0, fst (fetch taskId w0) = Some t) ->
  In url urls \/ Map_get m url = Some (mkTaskInfo taskId t (sanitizeTitleForMarkdown t)) ->
  Map_get (fst (fold_left (resolveUrl fetch) urls (m, w))) url
  = Some (mkTaskInfo taskId t (sanitizeTitleForMarkdown t)).
Proof.
  induction urls as [|u urls IH]; intros m w url taskId t Hid Hok H; cbn [fold_left].
  - destruct H as [[] | H]. exact H.
  - destruct (resolveUrl fetch (m, w) u) as [m1 w1] eqn:Er.
    apply IH; [exact Hid | exact Hok |].
    destruct (str_eqb url u) eqn:Eu.
    + apply str_eqb_eq in Eu. subst u. right.
      unfold resolveUrl in Er. rewrite Hid in Er.
      specialize (Hok w). destruct (fetch taskId w) as [r w']. simpl in Hok. subst r.
      injection Er as <- _. rewrite Map_get_set, str_eqb_refl. reflexivity.
    + assert (Hne : url <> u).
      { intros ->. rewrite str_eqb_refl in Eu. discriminate. }
      destruct H as [[E0 | H] | H].
      * symmetry in E0. contradiction.
      * left. exact H.
      * right. rewrite <- H.
        replace m1 with (fst (resolveUrl fetch (m, w) u)) by (rewrite Er; reflexivity).
        apply resolveUrl_get_other. exact Hne.
Qed.

(** A URL whose lookup fails in every world does not. *)
Lemma resolveAll_absent : forall urls w url taskId,
  TaskGIDs.getAsanaTaskGIDsFromText url = [taskId] ->
  (forall w0, fst (fetch taskId w0) = None) ->
  Map_get (fst (resolveAll fetch urls w)) url = None.
Proof.
  intros urls w url taskId Hid Hfail.
  destruct (Map_get (fst (resolveAll fetch urls w)) url) as [info|] eqn:E; [|reflexivity].
  exfalso. apply Map_get_In in E. apply resolveAll_entries in E.
  destruct E as (_ & Hg & _ & w0 & Hf).
  rewrite Hid in Hg. injection Hg as Hg. rewrite <- Hg, Hfail in Hf. discriminate.
Qed.

(** With no lookup that succeeds the map stays empty. *)
Lemma resolveAll_empty : forall urls w,
  (forall url taskId w0,
     In url urls -> TaskGIDs.getAsanaTaskGIDsFromText url = [taskId] ->
     fst (fetch taskId w0) = None) ->
  fst (resolveAll fetch urls w) = [].
Proof.
  intros urls w H.
  destruct (fst (resolveAll fetch urls w)) as [|[url info] m] eqn:E; [reflexivity|].
  exfalso.
  assert (Hin : In (url, info) (fst (resolveAll fetch urls w)))
    by (rewrite E; left; reflexivity).
  apply resolveAll_entries in Hin. destruct Hin as (Hu & Hg & _ & w0 & Hf).
  rewrite (H _ _ w0 Hu Hg) in Hf. discriminate.
Qed.

End Resolve.

(** ** The text scan finds nothing without the URL prefix *)

Lemma search_no_prefix : forall P r s i,
  (forall pre post, s <> pre ++ P ++ post) -> search (Seq (Lit P) r) s i = None.
Proof.
  intros P r s. induction s as [|x s IH]; intros i H; rewrite search_unfold.
  - rewrite run_Seq_nil; [reflexivity|].
    rewrite run_Lit. destruct (startsWith P []) eqn:E; [|reflexivity].
    apply startsWith_spec in E. destruct E as [post E].
    exfalso. exact (H [] post E).
  - rewrite run_Seq_nil.
    + simpl. apply IH. intros pre post E. apply (H (x :: pre) post). simpl. f_equal. exact E.
    + rewrite run_Lit. destruct (startsWith P (x :: s)) eqn:E; [|reflexivity].
      apply startsWith_spec in E. destruct E as [post E].
      exfalso. exact (H [] post E).
Qed.

Lemma collectAllAsanaUrls_none : forall text,
  includes text asanaPrefix = false -> collectAllAsanaUrls text = [].
Proof.
  intros text H. unfold collectAllAsanaUrls, matchAll, asanaUrlRegex.
  cbn [matchAllFrom]. rewrite search_no_prefix; [reflexivity|].
  apply includes_false. exact H.
Qed.

(** ** The claims on the whole transformation *)

(** C9.  For the empty body the result is the empty body with
    [changesApplied = false] and [updatedCount = 0]; the world of the lookup
    is as it was, and a lookup that keeps the list of its calls has an
    empty list: [fetchTaskTitle] is never called. *)
Theorem C9_empty_body_short_circuit :
  forall (World : Type) (fetch : jsstring -> World -> option jsstring * World) (w : World),
    transformPRBody fetch [] w = (mkResult [] false 0, w) /\
    transformLogged fetch [] w = (mkResult [] false 0, []).
Proof. intros World fetch w. split; reflexivity. Qed.

(** C8.  When no URL of the body got a title (the task map is empty after
    the lookups) the result is the body itself, unchanged, with
    [changesApplied = false] and [updatedCount = 0].  That is the case when
    every lookup fails, and when the body holds no Asana URL at all; then no
    lookup is made either.  A body without the text
    [https://app.asana.com/] holds no Asana URL. *)
Theorem C8_no_title_no_change :
  forall (World : Type) (fetch : jsstring -> World -> option jsstring * World)
         (text : jsstring) (w : World),
    (resolvedMap fetch text w = [] ->
     fst (transformPRBody fetch text w) = mkResult text false 0) /\
    ((forall url taskId w0,
        In url (collectAllAsanaUrls text) ->
        TaskGIDs.getAsanaTaskGIDsFromText url = [taskId] ->
        fst (fetch taskId w0) = None) ->
     fst (transformPRBody fetch text w) = mkResult text false 0) /\
    (collectAllAsanaUrls text = [] ->
     transformPRBody fetch text w = (mkResult text false 0, w)) /\
    (includes text asanaPrefix = false ->
     transformPRBody fetch text w = (mkResult text false 0, w)).
Proof.
  intros World fetch text w.
  assert (H1 : resolvedMap fetch text w = [] ->
               fst (transformPRBody fetch text w) = mkResult text false 0).
  { intros H. rewrite transformPRBody_rewrite. unfold resolvedMap in H. rewrite H.
    reflexivity. }
  assert (H3 : collectAllAsanaUrls text = [] ->
               transformPRBody fetch text w = (mkResult text false 0, w)).
  { intros H. destruct text as [|x text]; [reflexivity|].
    unfold transformPRBody. rewrite H. reflexivity. }
  split; [exact H1|]. split; [|split; [exact H3|]].
  - intros H. apply H1. unfold resolvedMap. apply resolveAll_empty.
    intros url taskId w0 Hin. apply H. apply newSet_In. exact Hin.
  - intros H. apply H3. apply collectAllAsanaUrls_none. exact H.
Qed.

Lemma C8_no_title_no_change_witness :
  (forall url taskId w0,
     In url (collectAllAsanaUrls (str "Failed task: https://app.asana.com/0/123456/111111")) ->
     TaskGIDs.getAsanaTaskGIDsFromText url = [taskId] ->
     fst (failingFetch taskId w0) = None) /\
  fst (transformPRBody failingFetch
         (str "Failed task: https://app.asana.com/0/123456/111111") tt)
  = mkResult (str "Failed task: https://app.asana.com/0/123456/111111") false 0 /\
  includes (str "See https://example.com/0/1/2 (unrelated)") asanaPrefix = false /\
  transformPRBody (pureFetch (oneTask (str "2") (str "T")))
    (str "See https://example.com/0/1/2 (unrelated)") tt
  = (mkResult (str "See https://example.com/0/1/2 (unrelated)") false 0, tt).
Proof.
  split; [intros url taskId w0 _ _; reflexivity|].
  split; [|split; [vm_compute; reflexivity|]].
  - apply (C8_no_title_no_change unit failingFetch
             (str "Failed task: https://app.asana.com/0/123456/111111") tt).
    intros url taskId w0 _ _. reflexivity.
  - apply (C8_no_title_no_change unit (pureFetch (oneTask (str "2") (str "T")))
             (str "See https://example.com/0/1/2 (unrelated)") tt).
    vm_compute. reflexivity.
Defined.

(** What holds of a failing lookup.  A URL whose lookup fails stays out of
    the task map, a URL of the body whose lookup succeeds is in it with its
    title, and the result is the rewrite pass run with that map; in that pass
    a line in which no resolved URL occurs is left as it is and adds nothing
    to the count. *)
Lemma failed_lookup_is_isolated :
  forall (World : Type) (fetch : jsstring -> World -> option jsstring * World)
         (text : jsstring) (w : World),
    (forall url taskId,
       TaskGIDs.getAsanaTaskGIDsFromText url = [taskId] ->
       (forall w0, fst (fetch taskId w0) = None) ->
       Map_get (resolvedMap fetch text w) url = None) /\
    (forall url taskId t,
       In url (collectAllAsanaUrls text) ->
       TaskGIDs.getAsanaTaskGIDsFromText url = [taskId] ->
       (forall w0, fst (fetch taskId w0) = Some t) ->
       Map_get (resolvedMap fetch text w) url
       = Some (mkTaskInfo taskId t (sanitizeTitleForMarkdown t))) /\
    fst (transformPRBody fetch text w) = rewriteBody (resolvedMap fetch text w) text /\
    (forall line n,
       (forall url, In url (resolvedUrls fetch text w) -> includes line url = false) ->
       processLine (resolvedMap fetch text w) line n = (line, n)).
Proof.
  intros World fetch text w. split; [|split; [|split]].
  - intros url taskId Hid Hfail. apply resolveAll_absent with (taskId := taskId); assumption.
  - intros url taskId t Hin Hid Hok. unfold resolvedMap, resolveAll.
    apply resolveUrl_present; [exact Hid | exact Hok |].
    left. apply newSet_In. exact Hin.
  - apply transformPRBody_rewrite.
  - intros line n H. apply processLine_frame. exact H.
Qed.

Example failed_lookup_is_isolated_on_two_lines :
  Map_get (resolvedMap (pureFetch (oneTask (str "222222") (str "Task 2")))
             (str "https://app.asana.com/0/123456/111111" ++ [LF] ++
              str "https://app.asana.com/0/123456/222222") tt)
          (str "https://app.asana.com/0/123456/111111") = None /\
  Map_get (resolvedMap (pureFetch (oneTask (str "222222") (str "Task 2")))
             (str "https://app.asana.com/0/123456/111111" ++ [LF] ++
              str "https://app.asana.com/0/123456/222222") tt)
          (str "https://app.asana.com/0/123456/222222")
  = Some (mkTaskInfo (str "222222") (str "Task 2") (str "Task 2")) /\
  processLine (resolvedMap (pureFetch (oneTask (str "222222") (str "Task 2")))
                 (str "https://app.asana.com/0/123456/111111" ++ [LF] ++
                  str "https://app.asana.com/0/123456/222222") tt)
              (str "https://app.asana.com/0/123456/111111") 0
  = (str "https://app.asana.com/0/123456/111111", 0).
Proof.
  destruct (failed_lookup_is_isolated unit
              (pureFetch (oneTask (str "222222") (str "Task 2")))
              (str "https://app.asana.com/0/123456/111111" ++ [LF] ++
               str "https://app.asana.com/0/123456/222222") tt)
    as (Hfail & Hok & _ & Hline).
  split; [|split].
  - apply (Hfail _ (str "111111")); [vm_compute; reflexivity | intros w0; reflexivity].
  - apply (Hok _ (str "222222") (str "Task 2"));
      [vm_compute; right; left; reflexivity | vm_compute; reflexivity | intros w0; reflexivity].
  - apply Hline. intros url Hin. vm_compute in Hin. destruct Hin as [<- | []].
    vm_compute. reflexivity.
Qed.

(** C3.  The code at an input where the failing URL has a resolved URL
    inside it: the lookup for 23 fails and the lookup for 2 succeeds; the
    URL of task 23 begins with the URL of task 2, so its occurrence on the
    second line is rewritten and counted. *)
Theorem C3_failing_url_is_rewritten_inside :
  fst (pureFetch (oneTask (str "2") (str "T")) (str "23") tt) = None /\
  TaskGIDs.getAsanaTaskGIDsFromText (str "https://app.asana.com/0/1/23") = [str "23"] /\
  transformLogged (pureFetch (oneTask (str "2") (str "T")))
    (str "https://app.asana.com/0/1/2" ++ [LF] ++ str "https://app.asana.com/0/1/23") tt
  = (mkResult (str "[T](https://app.asana.com/0/1/2)" ++ [LF] ++
               str "[T](https://app.asana.com/0/1/2)3") true 2,
     [str "2"; str "23"]).
Proof. vm_compute. repeat split. Qed.

(** The same with the full-screen form of a task's URL, which ends in /f:
    the two URLs name the same task, the lookup answers the first call and
    rejects the second, and the occurrence of the second URL is rewritten
    up to its suffix. *)
Example failing_url_with_suffix_is_rewritten :
  transformLogged mockFetchTaskTitle
    (str "https://app.asana.com/0/123/456" ++ [LF] ++
     str "https://app.asana.com/0/123/456/f") [Some (str "T"); None]
  = (mkResult (str "[T](https://app.asana.com/0/123/456)" ++ [LF] ++
               str "[T](https://app.asana.com/0/123/456)/f") true 2,
     [str "456"; str "456"]).
Proof. vm_compute. reflexivity. Qed.

(** ** The order of the identifiers *)

Lemma localeCompare_Lt : forall a b, TaskGIDs.localeCompare a b = Lt <-> LexLt a b.
Proof.
  induction a as [|x a IH]; destruct b as [|y b]; simpl.
  - split; [discriminate | intros H; inversion H].
  - split; [intros _; constructor | reflexivity].
  - split; [discriminate | intros H; inversion H].
  - destruct (N.compare x y) eqn:E.
    + apply N.compare_eq in E. subst y. rewrite IH. split.
      * intros H. apply LexLt_tail. exact H.
      * intros H. inversion H; subst; [lia | assumption].
    + apply N.compare_lt_iff in E. split; [intros _; apply LexLt_head; exact E | reflexivity].
    + apply N.compare_gt_iff in E. split; [discriminate|].
      intros H. inversion H; subst; lia.
Qed.

Lemma localeCompare_Eq : forall a b, TaskGIDs.localeCompare a b = Eq <-> a = b.
Proof.
  induction a as [|x a IH]; destruct b as [|y b]; simpl;
    try (split; [reflexivity || discriminate | reflexivity || discriminate]).
  destruct (N.compare x y) eqn:E.
  - apply N.compare_eq in E. subst y. rewrite IH. split; [congruence|].
    intros H. injection H as ->. reflexivity.
  - split; [discriminate|].
    intros H. injection H as Hx _. subst. rewrite N.compare_refl in E. discriminate.
  - split; [discriminate|].
    intros H. injection H as Hx _. subst. rewrite N.compare_refl in E. discriminate.
Qed.

Lemma localeCompare_antisym : forall a b,
  TaskGIDs.localeCompare b a = CompOpp (TaskGIDs.localeCompare a b).
Proof.
  induction a as [|x a IH]; destruct b as [|y b]; simpl; try reflexivity.
  rewrite (N.compare_antisym x y). destruct (N.compare x y); simpl; auto.
Qed.

Lemma LexLt_trans : forall a b c, LexLt a b -> LexLt b c -> LexLt a c.
Proof.
  intros a b c H. revert c. induction H; intros c Hc; inversion Hc; subst.
  - constructor.
  - constructor.
  - apply LexLt_head. lia.
  - apply LexLt_head. assumption.
  - apply LexLt_head. assumption.
  - apply LexLt_tail. apply IHLexLt. assumption.
Qed.

Lemma lexLe_of_compare : forall a b, TaskGIDs.localeCompare a b <> Gt -> lexLe a b.
Proof.
  intros a b H. destruct (TaskGIDs.localeCompare a b) eqn:E.
  - left. apply localeCompare_Eq. exact E.
  - right. apply localeCompare_Lt. exact E.
  - contradiction.
Qed.

Lemma lexLe_of_Gt : forall a b, TaskGIDs.localeCompare a b = Gt -> lexLe b a.
Proof.
  intros a b H. right. apply localeCompare_Lt.
  rewrite (localeCompare_antisym a b), H. reflexivity.
Qed.

Lemma lexLe_trans : forall a b c, lexLe a b -> lexLe b c -> lexLe a c.
Proof.
  intros a b c [-> | H1] [-> | H2].
  - left. reflexivity.
  - right. exact H2.
  - right. exact H1.
  - right. exact (LexLt_trans _ _ _ H1 H2).
Qed.

Lemma insertSorted_In : forall x l y,
  In y (TaskGIDs.insertSorted TaskGIDs.localeCompare x l) <-> y = x \/ In y l.
Proof.
  intros x l y. induction l as [|z l IH]; simpl.
  - split; [intros [<- | []]; left; reflexivity | intros [-> | []]; left; reflexivity].
  - destruct (TaskGIDs.localeCompare x z); simpl; try rewrite IH;
      intuition congruence.
Qed.

Lemma insertSorted_sorted : forall x l,
  StronglySorted lexLe l ->
  StronglySorted lexLe (TaskGIDs.insertSorted TaskGIDs.localeCompare x l).
Proof.
  intros x l H. induction H as [|z l Hl IH Hz]; simpl.
  - constructor; constructor.
  - destruct (TaskGIDs.localeCompare x z) eqn:E.
    + assert (Hxz : lexLe x z) by (apply lexLe_of_compare; rewrite E; discriminate).
      constructor; [constructor; assumption|].
      constructor; [exact Hxz|].
      rewrite Forall_forall in *. intros y Hy. exact (lexLe_trans _ _ _ Hxz (Hz y Hy)).
    + assert (Hxz : lexLe x z) by (apply lexLe_of_compare; rewrite E; discriminate).
      constructor; [constructor; assumption|].
      constructor; [exact Hxz|].
      rewrite Forall_forall in *. intros y Hy. exact (lexLe_trans _ _ _ Hxz (Hz y Hy)).
    + constructor; [exact IH|].
      rewrite Forall_forall in *. intros y Hy.
      apply insertSorted_In in Hy. destruct Hy as [-> | Hy].
      * apply lexLe_of_Gt. exact E.
      * exact (Hz y Hy).
Qed.

Lemma insertSorted_NoDup : forall x l,
  NoDup l -> ~ In x l -> NoDup (TaskGIDs.insertSorted TaskGIDs.localeCompare x l).
Proof.
  intros x l H. induction H as [|z l Hz Hl IH]; intros Hx; simpl.
  - constructor; [intros [] | constructor].
  - destruct (TaskGIDs.localeCompare x z).
    + constructor; [exact Hx | constructor; assumption].
    + constructor; [exact Hx | constructor; assumption].
    + constructor.
      * intros Hin. apply insertSorted_In in Hin. destruct Hin as [-> | Hin].
        -- apply Hx. left. reflexivity.
        -- contradiction.
      * apply IH. intros Hin. apply Hx. right. exact Hin.
Qed.

Lemma sortBy_In : forall l y, In y (TaskGIDs.sortBy TaskGIDs.localeCompare l) <-> In y l.
Proof.
  induction l as [|x l IH]; intros y; simpl; [reflexivity|].
  rewrite insertSorted_In, IH. intuition congruence.
Qed.

Lemma sortBy_sorted : forall l, StronglySorted lexLe (TaskGIDs.sortBy TaskGIDs.localeCompare l).
Proof.
  induction l as [|x l IH]; simpl; [constructor|].
  apply insertSorted_sorted. exact IH.
Qed.

Lemma sortBy_NoDup : forall l, NoDup l -> NoDup (TaskGIDs.sortBy TaskGIDs.localeCompare l).
Proof.
  induction l as [|x l IH]; intros H; simpl; [constructor|].
  inversion H; subst. apply insertSorted_NoDup; [apply IH; assumption|].
  rewrite sortBy_In. assumption.
Qed.

Lemma sorted_strict : forall l,
  StronglySorted lexLe l -> NoDup l -> StronglySorted LexLt l.
Proof.
  intros l H. induction H as [|x l Hl IH Hx]; intros Hnd; [constructor|].
  inversion Hnd; subst. constructor; [apply IH; assumption|].
  rewrite Forall_forall in *. intros y Hy.
  destruct (Hx y Hy) as [-> | Hlt]; [contradiction | exact Hlt].
Qed.

Lemma split1_no_sep : forall sep s piece, In piece (split1 sep s) -> ~ In sep piece.
Proof.
  intros sep s. induction s as [|x s IH]; intros piece H; simpl in H.
  - destruct H as [<- | []]. intros [].
  - destruct (N.eqb x sep) eqn:E.
    + destruct H as [<- | H]; [intros [] | exact (IH _ H)].
    + destruct (split1 sep s) as [|p rest] eqn:Es; simpl in H.
      * destruct H as [<- | []]. intros [-> | []]. rewrite N.eqb_refl in E. discriminate.
      * destruct H as [<- | H].
        -- intros [-> | Hin]; [rewrite N.eqb_refl in E; discriminate|].
           apply (IH p); [left; reflexivity | exact Hin].
        -- apply IH. right. exact H.
Qed.

Lemma matchLine_firstMatching : forall line,
  TaskGIDs.matchLine line = Rules.firstMatching Rules.ordered line.
Proof.
  intros line. unfold TaskGIDs.matchLine, Rules.ordered, Rules.firstMatching,
    Rules.taskItem, Rules.projectTask, Rules.workspaceProjectTask, Rules.v0, Rules.inboxItem.
  destruct (String_match line TaskGIDs.reTaskItem); [reflexivity|]. simpl.
  destruct (String_match line TaskGIDs.reProjectTask); [reflexivity|]. simpl.
  destruct (String_match line TaskGIDs.reWorkspaceProjectTask); [reflexivity|]. simpl.
  destruct (String_match line TaskGIDs.reV0), (includes line (str "/task/")); simpl;
    try reflexivity;
    destruct (String_match line TaskGIDs.reInboxItem); reflexivity.
Qed.

(** ** The identifiers are numbers *)

Lemma star_captures : forall (P : captures -> Prop) greedy step,
  (forall s c st, P c -> In st (step s c) -> P (snd st)) ->
  forall fuel s c st, P c -> In st (star greedy step fuel s c) -> P (snd st).
Proof.
  intros P greedy step Hstep. induction fuel as [|fuel IH]; intros s c st Hc H; simpl in H.
  - destruct H as [<- | []]. exact Hc.
  - assert (Hmore : forall st', In st'
              (flat_map (fun st0 : mstate =>
                           if length (fst st0) <? length s
                           then star greedy step fuel (fst st0) (snd st0) else [])
                        (step s c)) -> P (snd st')).
    { intros st' H'. apply in_flat_map in H'. destruct H' as (st1 & H1 & H2).
      destruct (length (fst st1) <? length s); [|destruct H2].
      exact (IH _ _ _ (Hstep _ _ _ Hc H1) H2). }
    destruct greedy.
    + apply in_app_or in H. destruct H as [H | [<- | []]]; [exact (Hmore _ H) | exact Hc].
    + destruct H as [<- | H]; [exact Hc | exact (Hmore _ H)].
Qed.

(** What a greedy run of one class has consumed. *)
Lemma run_Star_Cls_consumed : forall p s c st,
  In st (run (Star true (Cls p)) s c) ->
  exists t, forallb p t = true /\ s = t ++ fst st /\ snd st = c.
Proof.
  intros p s. induction s as [|x s IH]; intros c st H; rewrite run_Star_unfold in H.
  - simpl in H. destruct H as [<- | []]. exists []. repeat split.
  - cbn [run] in H. destruct (p x) eqn:Ex.
    + cbn [flat_map fst snd] in H.
      assert (El : (length s <? length (x :: s)) = true) by (apply Nat.ltb_lt; simpl; lia).
      rewrite El, app_nil_r in H. apply in_app_or in H. destruct H as [H | [<- | []]].
      * destruct (IH _ _ H) as (t & Ht & Es & Ec).
        exists (x :: t). simpl. rewrite Ex, Ht. repeat split; [f_equal; exact Es | exact Ec].
      * exists []. repeat split.
    + simpl in H. destruct H as [<- | []]. exists []. repeat split.
Qed.

Lemma run_Plus_Cls_consumed : forall p s c st,
  In st (run (Plus (Cls p)) s c) ->
  exists t, t <> [] /\ forallb p t = true /\ s = t ++ fst st /\ snd st = c.
Proof.
  intros p s c st H. unfold Plus in H. apply run_Seq_In in H.
  destruct H as (st1 & H1 & H). cbn [run] in H1.
  destruct s as [|x s]; [destruct H1|]. destruct (p x) eqn:Ex; [|destruct H1].
  destruct H1 as [<- | []]. cbn [fst snd] in H.
  destruct (run_Star_Cls_consumed _ _ _ _ H) as (t & Ht & Es & Ec).
  exists (x :: t). split; [discriminate|]. simpl. rewrite Ex, Ht.
  repeat split; [f_equal; exact Es | exact Ec].
Qed.

Lemma run_digitCaptures : forall r,
  groupsAreDigits r ->
  forall s c st, digitCaptures c -> In st (run r s c) -> digitCaptures (snd st).
Proof.
  induction r as [|p|r1 IH1 r2 IH2|r1 IH1 r2 IH2|greedy r1 IH1|g r1 IH1];
    intros Hr s c st Hc H; cbn [run groupsAreDigits] in *.
  - destruct H as [<- | []]. exact Hc.
  - destruct s as [|x s]; [destruct H|].
    destruct (p x); [|destruct H]. destruct H as [<- | []]. exact Hc.
  - destruct Hr as [Hr1 Hr2]. apply in_flat_map in H. destruct H as (st1 & H1 & H2).
    exact (IH2 Hr2 _ _ _ (IH1 Hr1 _ _ _ Hc H1) H2).
  - destruct Hr as [Hr1 Hr2]. apply in_app_or in H.
    destruct H as [H | H]; [exact (IH1 Hr1 _ _ _ Hc H) | exact (IH2 Hr2 _ _ _ Hc H)].
  - apply (star_captures digitCaptures greedy (run r1)) with (fuel := S (length s))
                                                            (s := s) (c := c).
    + intros s0 c0 st0 Hc0 H0. exact (IH1 Hr _ _ _ Hc0 H0).
    + exact Hc.
    + exact H.
  - subst r1. apply in_map_iff in H. destruct H as (st1 & <- & H1).
    unfold TaskGIDs.digits in H1.
    destruct (run_Plus_Cls_consumed _ _ _ _ H1) as (t & Hne & Ht & Es & Ec).
    cbn [snd fst]. intros g' t' [E | Hin].
    + injection E as _ <-.
      assert (Ef : firstn (length s - length (fst st1)) s = t)
        by (rewrite Es; apply firstn_consumed).
      rewrite Ef. split; assumption.
    + rewrite Ec in Hin. exact (Hc _ _ Hin).
Qed.

Lemma search_digitCaptures : forall r s i m,
  groupsAreDigits r -> search r s i = Some m -> digitCaptures (m_groups m).
Proof.
  intros r s. induction s as [|x s IH]; intros i m Hr H; rewrite search_unfold in H;
    destruct (hd_error (run r _ [])) as [st|] eqn:E; try discriminate.
  - injection H as <-. apply hd_error_In in E.
    apply (run_digitCaptures r Hr _ _ _ (fun g t (F : In (g, t) []) => False_ind _ F) E).
  - injection H as <-. apply hd_error_In in E.
    apply (run_digitCaptures r Hr _ _ _ (fun g t (F : In (g, t) []) => False_ind _ F) E).
  - exact (IH _ _ Hr H).
Qed.

Lemma groupsAreDigits_Lit : forall s, groupsAreDigits (Lit s).
Proof. induction s as [|x s IH]; simpl; [exact I | split; [exact I | exact IH]]. Qed.

Lemma groupsAreDigits_hostAnyDot : groupsAreDigits TaskGIDs.hostAnyDot.
Proof.
  unfold TaskGIDs.hostAnyDot, Cat. cbn [fold_right groupsAreDigits].
  repeat split; apply groupsAreDigits_Lit.
Qed.

Lemma groupsAreDigits_patterns :
  groupsAreDigits TaskGIDs.reTaskItem /\ groupsAreDigits TaskGIDs.reProjectTask /\
  groupsAreDigits TaskGIDs.reWorkspaceProjectTask /\ groupsAreDigits TaskGIDs.reV0 /\
  groupsAreDigits TaskGIDs.reInboxItem.
Proof.
  unfold TaskGIDs.reTaskItem, TaskGIDs.reProjectTask, TaskGIDs.reWorkspaceProjectTask,
    TaskGIDs.reV0, TaskGIDs.reInboxItem, TaskGIDs.v0Segment, TaskGIDs.v0Task,
    TaskGIDs.digits, Plus, Chr, Cat.
  cbn [fold_right groupsAreDigits].
  repeat split;
    try apply groupsAreDigits_hostAnyDot; try apply groupsAreDigits_Lit.
Qed.

Lemma matchLine_digitCaptures : forall line m,
  TaskGIDs.matchLine line = Some m -> digitCaptures (m_groups m).
Proof.
  intros line m H. rewrite matchLine_firstMatching in H.
  destruct groupsAreDigits_patterns as (H1 & H2 & H3 & H4 & H5).
  unfold Rules.ordered in H. cbn [Rules.firstMatching] in H.
  destruct (Rules.taskItem line) as [m1|] eqn:E1.
  { injection H as <-. exact (search_digitCaptures _ _ _ _ H1 E1). }
  destruct (Rules.projectTask line) as [m2|] eqn:E2.
  { injection H as <-. exact (search_digitCaptures _ _ _ _ H2 E2). }
  destruct (Rules.workspaceProjectTask line) as [m3|] eqn:E3.
  { injection H as <-. exact (search_digitCaptures _ _ _ _ H3 E3). }
  destruct (Rules.v0 line) as [m4|] eqn:E4.
  { injection H as <-. unfold Rules.v0 in E4.
    destruct (includes line (str "/task/")); [discriminate|].
    exact (search_digitCaptures _ _ _ _ H4 E4). }
  destruct (Rules.inboxItem line) as [m5|] eqn:E5; [|discriminate].
  injection H as <-. exact (search_digitCaptures _ _ _ _ H5 E5).
Qed.

Lemma lineGIDs_digits : forall line gid,
  In gid (TaskGIDs.lineGIDs line) -> gid <> [] /\ forallb isDigit gid = true.
Proof.
  intros line gid H. unfold TaskGIDs.lineGIDs in H.
  destruct (TaskGIDs.matchLine line) as [m|] eqn:E; [|destruct H].
  destruct (capture (m_groups m) TaskGIDs.taskGID) as [g|] eqn:Ec; [|destruct H].
  destruct H as [<- | []].
  exact (matchLine_digitCaptures _ _ E _ _ (capture_In _ _ _ Ec)).
Qed.

Lemma lineGIDs_length : forall line, length (TaskGIDs.lineGIDs line) <= 1.
Proof.
  intros line. unfold TaskGIDs.lineGIDs.
  destruct (TaskGIDs.matchLine line) as [m|]; [|simpl; lia].
  destruct (capture (m_groups m) TaskGIDs.taskGID); simpl; lia.
Qed.

(** ** The lines of a text *)

Lemma split1_one : forall sep s, hasChar sep s = false -> split1 sep s = [s].
Proof.
  intros sep s. induction s as [|x s IH]; intros H; [reflexivity|].
  unfold hasChar in H. cbn [existsb] in H. apply orb_false_iff in H. destruct H as [Hx Hs].
  cbn [split1]. rewrite N.eqb_sym, Hx, (IH Hs). reflexivity.
Qed.

Lemma split2_one : forall a b s, hasChar b s = false -> split2 a b s = [s].
Proof.
  intros a b s. remember (length s) as n eqn:En. revert s En.
  induction n as [n IH] using lt_wf_ind. intros s En H.
  destruct s as [|x [|y s]]; [reflexivity | reflexivity |].
  assert (Hy : N.eqb y b = false).
  { unfold hasChar in H. cbn [existsb] in H. apply orb_false_iff in H. destruct H as [_ H].
    apply orb_false_iff in H. destruct H as [H _]. rewrite N.eqb_sym. exact H. }
  change (split2 a b (x :: y :: s))
    with (if N.eqb x a && N.eqb y b then [] :: split2 a b s
          else consPiece x (split2 a b (y :: s))).
  rewrite Hy, andb_false_r.
  rewrite (IH (length (y :: s))); [reflexivity | subst n; simpl; lia | reflexivity |].
  unfold hasChar in H. cbn [existsb] in H. apply orb_false_iff in H. apply H.
Qed.

Lemma splitLines_one : forall s, hasChar LF s = false -> TaskGIDs.splitLines s = [s].
Proof.
  intros s H. unfold TaskGIDs.splitLines. rewrite split2_one by exact H.
  cbn [flat_map]. rewrite split1_one by exact H. reflexivity.
Qed.

Lemma split2_not_nil : forall a b s, split2 a b s <> [].
Proof.
  intros a b s. remember (length s) as n eqn:En. revert s En.
  induction n as [n IH] using lt_wf_ind. intros s En.
  destruct s as [|x [|y s]]; [discriminate | discriminate |].
  change (split2 a b (x :: y :: s))
    with (if N.eqb x a && N.eqb y b then [] :: split2 a b s
          else consPiece x (split2 a b (y :: s))).
  destruct (N.eqb x a && N.eqb y b); [discriminate|].
  destruct (split2 a b (y :: s)); discriminate.
Qed.

Lemma hasChar_cons : forall x y s, hasChar x (y :: s) = N.eqb x y || hasChar x s.
Proof. reflexivity. Qed.

(** A cut at CR LF: the line before it has no LF. *)
Lemma split2_cut_CRLF : forall l rest,
  hasChar LF l = false ->
  split2 CR LF (l ++ CR :: LF :: rest) = l :: split2 CR LF rest.
Proof.
  induction l as [|x l IH]; intros rest H.
  - reflexivity.
  - rewrite hasChar_cons in H. apply orb_false_iff in H. destruct H as [Hx Hl].
    destruct l as [|y l].
    + change (split2 CR LF ([x] ++ CR :: LF :: rest))
        with (if N.eqb x CR && N.eqb CR LF then [] :: split2 CR LF (LF :: rest)
              else consPiece x (split2 CR LF ([] ++ CR :: LF :: rest))).
      rewrite andb_false_r. rewrite (IH rest eq_refl). reflexivity.
    + assert (Hy : N.eqb y LF = false).
      { rewrite hasChar_cons in Hl. apply orb_false_iff in Hl. rewrite N.eqb_sym. apply Hl. }
      change (split2 CR LF ((x :: y :: l) ++ CR :: LF :: rest))
        with (if N.eqb x CR && N.eqb y LF then [] :: split2 CR LF (l ++ CR :: LF :: rest)
              else consPiece x (split2 CR LF ((y :: l) ++ CR :: LF :: rest))).
      rewrite Hy, andb_false_r. rewrite (IH rest Hl). reflexivity.
Qed.

(** An LF that no CR precedes is passed over by [split('\r\n')]. *)
Lemma split2_pass_LF : forall l rest,
  hasChar LF l = false -> endsWith CR l = false ->
  split2 CR LF (l ++ LF :: rest)
  = match split2 CR LF rest with
    | piece :: pieces => (l ++ LF :: piece) :: pieces
    | [] => []
    end.
Proof.
  induction l as [|x l IH]; intros rest H He.
  - destruct rest as [|y rest]; [reflexivity|].
    change (split2 CR LF ([] ++ LF :: y :: rest))
      with (consPiece LF (split2 CR LF (y :: rest))).
    assert (Hn := split2_not_nil CR LF (y :: rest)).
    destruct (split2 CR LF (y :: rest)); [contradiction | reflexivity].
  - rewrite hasChar_cons in H. apply orb_false_iff in H. destruct H as [Hx Hl].
    destruct l as [|y l].
    + cbn [endsWith] in He.
      change (split2 CR LF ([x] ++ LF :: rest))
        with (if N.eqb x CR && N.eqb LF LF then [] :: split2 CR LF rest
              else consPiece x (split2 CR LF ([] ++ LF :: rest))).
      rewrite He. cbn [andb]. rewrite (IH rest eq_refl eq_refl).
      assert (Hn := split2_not_nil CR LF rest).
      destruct (split2 CR LF rest); [contradiction | reflexivity].
    + assert (Hy : N.eqb y LF = false).
      { rewrite hasChar_cons in Hl. apply orb_false_iff in Hl. rewrite N.eqb_sym. apply Hl. }
      change (split2 CR LF ((x :: y :: l) ++ LF :: rest))
        with (if N.eqb x CR && N.eqb y LF then [] :: split2 CR LF (l ++ LF :: rest)
              else consPiece x (split2 CR LF ((y :: l) ++ LF :: rest))).
      rewrite Hy, andb_false_r. rewrite (IH rest Hl He).
      assert (Hn := split2_not_nil CR LF rest).
      destruct (split2 CR LF rest); [contradiction | reflexivity].
Qed.

Lemma split1_cut : forall l rest,
  hasChar LF l = false -> split1 LF (l ++ LF :: rest) = l :: split1 LF rest.
Proof.
  induction l as [|x l IH]; intros rest H; [reflexivity|].
  rewrite hasChar_cons in H. apply orb_false_iff in H. destruct H as [Hx Hl].
  cbn [app split1]. rewrite N.eqb_sym, Hx, (IH rest Hl). reflexivity.
Qed.

(** The first line of a text, and the lines of the rest. *)
Lemma splitLines_cut : forall l e rest,
  cutAtEnd (l, e) = true ->
  TaskGIDs.splitLines (l ++ lineEnd e ++ rest) = l :: TaskGIDs.splitLines rest.
Proof.
  intros l e rest H. unfold cutAtEnd in H. cbn [fst snd] in H.
  apply andb_true_iff in H. destruct H as [Hl He]. apply negb_true_iff in Hl.
  unfold TaskGIDs.splitLines. destruct e; cbn [lineEnd app].
  - rewrite split2_cut_CRLF by exact Hl. cbn [flat_map].
    rewrite split1_one by exact Hl. reflexivity.
  - apply negb_true_iff in He. rewrite split2_pass_LF by assumption.
    assert (Hn := split2_not_nil CR LF rest).
    destruct (split2 CR LF rest) as [|piece pieces]; [contradiction|].
    cbn [flat_map]. rewrite split1_cut by exact Hl. reflexivity.
Qed.

Lemma splitLines_textOfLines : forall ended last,
  forallb cutAtEnd ended = true -> hasChar LF last = false ->
  TaskGIDs.splitLines (textOfLines ended last) = map fst ended ++ [last].
Proof.
  induction ended as [|[l e] ended IH]; intros last H Hlast.
  - apply splitLines_one. exact Hlast.
  - cbn [forallb] in H. apply andb_true_iff in H. destruct H as [Hle H].
    unfold textOfLines. cbn [flat_map fst snd map app]. rewrite <- !app_assoc.
    rewrite splitLines_cut by exact Hle. f_equal. exact (IH last H Hlast).
Qed.

(** Every text is made of lines that are cut in this way. *)
Lemma text_is_cut : forall text,
  exists ended last,
    text = textOfLines ended last /\
    forallb cutAtEnd ended = true /\ hasChar LF last = false.
Proof.
  induction text as [|x text IH].
  - exists [], []. repeat split.
  - destruct IH as (ended & last & E & Hc & Hl).
    destruct (N.eqb x LF) eqn:Ex.
    + apply N.eqb_eq in Ex. subst x.
      exists (([], EndLF) :: ended), last. rewrite E. repeat split; assumption.
    + destruct ended as [|[l e] ended].
      * exists [], (x :: last). unfold textOfLines in *. cbn [flat_map app] in *.
        rewrite E. repeat split. rewrite hasChar_cons, Hl, N.eqb_sym, Ex. reflexivity.
      * cbn [forallb] in Hc. apply andb_true_iff in Hc. destruct Hc as [Hle Hc].
        unfold cutAtEnd in Hle. cbn [fst snd] in Hle.
        apply andb_true_iff in Hle. destruct Hle as [Hl1 Hl2]. apply negb_true_iff in Hl1.
        destruct l as [|y l].
        -- destruct e.
           ++ exists (([x], EndCRLF) :: ended), last. rewrite E. repeat split; [|exact Hl].
              cbn [forallb]. rewrite Hc, andb_true_r. unfold cutAtEnd. cbn [fst snd].
              rewrite hasChar_cons, N.eqb_sym, Ex. reflexivity.
           ++ destruct (N.eqb x CR) eqn:Ec.
              ** apply N.eqb_eq in Ec. subst x.
                 exists (([], EndCRLF) :: ended), last. rewrite E. repeat split; assumption.
              ** exists (([x], EndLF) :: ended), last. rewrite E. repeat split; [|exact Hl].
                 cbn [forallb]. rewrite Hc, andb_true_r. unfold cutAtEnd.
                 cbn [fst snd endsWith].
                 rewrite hasChar_cons, N.eqb_sym, Ex, Ec. reflexivity.
        -- exists ((x :: y :: l, e) :: ended), last. rewrite E. repeat split; [|exact Hl].
           cbn [forallb]. rewrite Hc, andb_true_r. unfold cutAtEnd. cbn [fst snd].
           rewrite hasChar_cons, N.eqb_sym, Ex, Hl1. cbn [orb negb andb].
           destruct e; [reflexivity | exact Hl2].
Qed.

(** Lines joined by one separator. *)
Lemma textOfLines_join : forall e lines last,
  textOfLines (map (fun line => (line, e)) lines) last = join (lineEnd e) (lines ++ [last]).
Proof.
  intros e. induction lines as [|l lines IH]; intros last; [reflexivity|].
  unfold textOfLines in *. cbn [map flat_map fst snd app]. rewrite <- !app_assoc, IH.
  destruct (lines ++ [last]) as [|l2 rest] eqn:E; [destruct lines; discriminate|].
  reflexivity.
Qed.

Lemma endsWith_hasChar : forall x s, hasChar x s = false -> endsWith x s = false.
Proof.
  intros x. induction s as [|y s IH]; intros H; [reflexivity|].
  rewrite hasChar_cons in H. apply orb_false_iff in H. destruct H as [Hy Hs].
  cbn [endsWith]. destruct s as [|z s]; [rewrite N.eqb_sym; exact Hy | exact (IH Hs)].
Qed.

Lemma splitLines_join : forall e lines,
  lines <> [] ->
  Forall (fun line => hasChar CR line = false /\ hasChar LF line = false) lines ->
  TaskGIDs.splitLines (join (lineEnd e) lines) = lines.
Proof.
  intros e lines Hne F.
  destruct (exists_last Hne) as (init & last & ->).
  apply Forall_app in F. destruct F as [Fi Fl].
  apply Forall_inv in Fl. destruct Fl as [_ Hlast].
  rewrite <- textOfLines_join, splitLines_textOfLines.
  - rewrite map_map. cbn [fst]. rewrite map_id. reflexivity.
  - rewrite forallb_forall. intros [l e'] H. apply in_map_iff in H.
    destruct H as (l0 & E & H). injection E as <- <-.
    rewrite Forall_forall in Fi. destruct (Fi _ H) as [Hcr Hlf].
    unfold cutAtEnd. cbn [fst snd]. rewrite Hlf.
    destruct e; [reflexivity|]. rewrite (endsWith_hasChar _ _ Hcr). reflexivity.
  - exact Hlast.
Qed.

(** C4.  The identifiers come out in strictly ascending lexicographic order
    of their code units, so each of them once; they are the identifiers of
    the lines of the text, cut at CR LF and at LF, each line giving at most
    one, the one of the first of the five rules that matches.  Each
    identifier is a run of the digits 0-9, so the order of [localeCompare] on
    them is the one of the model.

    The lines are what the two separators leave of the text.  Every text is
    made of lines without LF, each but the last ended by CR LF or by LF,
    where a line ended by LF alone has no CR at its end; the lines the code
    scans are these, and in whatever way the text is written like this, the
    code scans the lines it is written with.  So for lines without CR and
    LF, joined by CR LF or joined by LF, the code scans just these lines. *)
Theorem C4_identifiers_sorted_unique_one_per_line :
  forall text : jsstring,
    StronglySorted LexLt (TaskGIDs.getAsanaTaskGIDsFromText text) /\
    NoDup (TaskGIDs.getAsanaTaskGIDsFromText text) /\
    (forall gid,
       In gid (TaskGIDs.getAsanaTaskGIDsFromText text) <->
       exists line, In line (TaskGIDs.splitLines text) /\ TaskGIDs.lineGIDs line = [gid]) /\
    (forall line, In line (TaskGIDs.splitLines text) -> ~ In LF line) /\
    (forall gid,
       In gid (TaskGIDs.getAsanaTaskGIDsFromText text) ->
       gid <> [] /\ forallb isDigit gid = true) /\
    (forall line,
       length (TaskGIDs.lineGIDs line) <= 1 /\
       TaskGIDs.lineGIDs line =
       match Rules.firstMatching Rules.ordered line with
       | Some m => match capture (m_groups m) TaskGIDs.taskGID with
                   | Some gid => [gid]
                   | None => []
                   end
       | None => []
       end) /\
    (exists ended last,
       text = textOfLines ended last /\
       forallb cutAtEnd ended = true /\ hasChar LF last = false /\
       TaskGIDs.splitLines text = map fst ended ++ [last]) /\
    (forall ended last,
       text = textOfLines ended last ->
       forallb cutAtEnd ended = true -> hasChar LF last = false ->
       TaskGIDs.splitLines text = map fst ended ++ [last]) /\
    (forall lines,
       lines <> [] ->
       Forall (fun line => hasChar CR line = false /\ hasChar LF line = false) lines ->
       text = join [CR; LF] lines \/ text = join [LF] lines ->
       TaskGIDs.splitLines text = lines).
Proof.
  intros text.
  assert (Hnd : NoDup (TaskGIDs.getAsanaTaskGIDsFromText text)).
  { unfold TaskGIDs.getAsanaTaskGIDsFromText. apply sortBy_NoDup. apply newSet_NoDup. }
  split; [|split; [exact Hnd|split; [|split; [|split; [|split; [|split; [|split]]]]]]].
  - apply sorted_strict; [|exact Hnd].
    unfold TaskGIDs.getAsanaTaskGIDsFromText. apply sortBy_sorted.
  - intros gid. unfold TaskGIDs.getAsanaTaskGIDsFromText.
    rewrite sortBy_In, newSet_In, sortBy_In, in_flat_map. split.
    + intros (line & Hl & Hg). exists line. split; [exact Hl|].
      assert (Hlen := lineGIDs_length line).
      destruct (TaskGIDs.lineGIDs line) as [|g [|g' rest]]; simpl in *.
      * destruct Hg.
      * destruct Hg as [-> | []]. reflexivity.
      * lia.
    + intros (line & Hl & Hg). exists line. split; [exact Hl|].
      rewrite Hg. left. reflexivity.
  - intros line H. unfold TaskGIDs.splitLines in H. apply in_flat_map in H.
    destruct H as (piece & _ & H). exact (split1_no_sep _ _ _ H).
  - intros gid H. unfold TaskGIDs.getAsanaTaskGIDsFromText in H.
    rewrite sortBy_In, newSet_In, sortBy_In, in_flat_map in H.
    destruct H as (line & _ & H). exact (lineGIDs_digits _ _ H).
  - intros line. split; [apply lineGIDs_length|].
    unfold TaskGIDs.lineGIDs. rewrite matchLine_firstMatching. reflexivity.
  - destruct (text_is_cut text) as (ended & last & E & Hc & Hl).
    exists ended, last. split; [exact E | split; [exact Hc | split; [exact Hl|]]].
    rewrite E. apply splitLines_textOfLines; assumption.
  - intros ended last -> Hc Hl. apply splitLines_textOfLines; assumption.
  - intros lines Hne F [-> | ->].
    + exact (splitLines_join EndCRLF lines Hne F).
    + exact (splitLines_join EndLF lines Hne F).
Qed.

Lemma C4_identifiers_sorted_unique_one_per_line_witness :
  TaskGIDs.splitLines
    (textOfLines [(str "https://app.asana.com/0/1/9", EndCRLF); ([CR], EndCRLF);
                  (str "https://app.asana.com/0/1/10", EndLF)]
                 (str "https://app.asana.com/0/1/9"))
  = [str "https://app.asana.com/0/1/9"; [CR]; str "https://app.asana.com/0/1/10";
     str "https://app.asana.com/0/1/9"] /\
  TaskGIDs.splitLines (join [LF] [str "https://app.asana.com/0/1/9"; str "no task here"])
  = [str "https://app.asana.com/0/1/9"; str "no task here"] /\
  (str "10" <> [] /\ forallb isDigit (str "10") = true).
Proof.
  split; [|split].
  - destruct (C4_identifiers_sorted_unique_one_per_line
                (textOfLines [(str "https://app.asana.com/0/1/9", EndCRLF); ([CR], EndCRLF);
                              (str "https://app.asana.com/0/1/10", EndLF)]
                             (str "https://app.asana.com/0/1/9")))
      as (_ & _ & _ & _ & _ & _ & _ & H & _).
    apply (H [(str "https://app.asana.com/0/1/9", EndCRLF); ([CR], EndCRLF);
              (str "https://app.asana.com/0/1/10", EndLF)]
             (str "https://app.asana.com/0/1/9")); reflexivity.
  - destruct (C4_identifiers_sorted_unique_one_per_line
                (join [LF] [str "https://app.asana.com/0/1/9"; str "no task here"]))
      as (_ & _ & _ & _ & _ & _ & _ & _ & H).
    apply H; [discriminate | repeat constructor | right; reflexivity].
  - destruct (C4_identifiers_sorted_unique_one_per_line
                (textOfLines [(str "https://app.asana.com/0/1/9", EndCRLF); ([CR], EndCRLF);
                              (str "https://app.asana.com/0/1/10", EndLF)]
                             (str "https://app.asana.com/0/1/9")))
      as (_ & _ & _ & _ & H & _).
    apply (H (str "10")). vm_compute. left. reflexivity.
Defined.

Example sorted_as_strings_not_as_numbers :
  TaskGIDs.getAsanaTaskGIDsFromText
    (str "https://app.asana.com/0/1/9" ++ [CR; LF] ++ str "https://app.asana.com/0/1/10" ++
     [LF] ++ str "https://app.asana.com/0/1/9")
  = [str "10"; str "9"].
Proof. vm_compute. reflexivity. Qed.

(** ** Reading a markdown link *)

Lemma hd_run_Seq : forall r1 r2 s c st1 st2,
  hd_error (run r1 s c) = Some st1 ->
  hd_error (run r2 (fst st1) (snd st1)) = Some st2 ->
  hd_error (run (Seq r1 r2) s c) = Some st2.
Proof.
  intros r1 r2 s c st1 st2 H1 H2. cbn [run].
  destruct (run r1 s c) as [|st l]; [discriminate|]. injection H1 as ->.
  rewrite hd_error_flat_map_cons, H2. reflexivity.
Qed.

Lemma hd_run_Grp : forall g r s c st,
  hd_error (run r s c) = Some st ->
  hd_error (run (Grp g r) s c)
  = Some (fst st, (g, firstn (length s - length (fst st)) s) :: snd st).
Proof.
  intros g r s c st H. cbn [run].
  destruct (run r s c) as [|st0 l]; [discriminate|]. injection H as ->. reflexivity.
Qed.

Lemma hd_run_Chr : forall x s c, hd_error (run (Chr x) (x :: s) c) = Some (s, c).
Proof. intros x s c. cbn [run Chr]. rewrite N.eqb_refl. reflexivity. Qed.

Lemma hd_run_Lit : forall p s c, hd_error (run (Lit p) (p ++ s) c) = Some (s, c).
Proof. intros p s c. rewrite run_Lit_app. reflexivity. Qed.

Lemma hd_run_Plus_Cls : forall p xs rest c,
  xs <> [] -> forallb p xs = true -> headFails p rest ->
  hd_error (run (Plus (Cls p)) (xs ++ rest) c) = Some (rest, c).
Proof.
  intros p xs rest c H1 H2 H3.
  destruct (run_Plus_Cls p xs rest c H1 H2 H3) as (tl & E & _).
  rewrite E. reflexivity.
Qed.

Lemma noneOf_hasChar : forall x s,
  forallb (noneOf [x]) s = true -> hasChar x s = false.
Proof.
  intros x s. unfold hasChar. induction s as [|y s IH]; simpl; [reflexivity|].
  intros H. apply andb_true_iff in H. destruct H as [Hy Hs].
  rewrite (IH Hs), orb_false_r. unfold noneOf in Hy. simpl in Hy.
  rewrite orb_false_r in Hy. apply negb_true_iff in Hy. rewrite N.eqb_sym. exact Hy.
Qed.

Lemma forallb_noneOf : forall x s,
  hasChar x s = false -> forallb (noneOf [x]) s = true.
Proof.
  intros x s. unfold hasChar. induction s as [|y s IH]; simpl; [reflexivity|].
  intros H. apply orb_false_iff in H. destruct H as [Hy Hs].
  rewrite (IH Hs), andb_true_r. unfold noneOf. simpl.
  rewrite N.eqb_sym, Hy. reflexivity.
Qed.

Lemma hasChar_app : forall x a b, hasChar x (a ++ b) = hasChar x a || hasChar x b.
Proof. intros x a b. unfold hasChar. apply existsb_app. Qed.

Lemma hasChar_In : forall x s, hasChar x s = true <-> In x s.
Proof.
  intros x s. unfold hasChar. rewrite existsb_exists. split.
  - intros (y & Hy & E). apply N.eqb_eq in E. subst. exact Hy.
  - intros H. exists x. split; [exact H | apply N.eqb_refl].
Qed.

Lemma markdownRegex_link : markdownRegex = linkRegex asanaTarget.
Proof. reflexivity. Qed.

Lemma anyMarkdownRegex_link : anyMarkdownRegex = linkRegex anyTarget.
Proof. reflexivity. Qed.

Lemma markdownLink_cons : forall label url,
  markdownLink label url = ch "[" :: label ++ ch "]" :: ch "(" :: url ++ [ch ")"].
Proof. reflexivity. Qed.

Lemma markdownLink_length : forall label url,
  length (markdownLink label url) = length label + length url + 4.
Proof.
  intros label url. rewrite markdownLink_cons. simpl.
  rewrite length_app. simpl. rewrite length_app. simpl. lia.
Qed.

Lemma anyTarget_reads : forall url,
  url <> [] -> hasChar (ch ")") url = false -> readsTarget anyTarget url.
Proof.
  intros url Hne Hno post c. unfold anyTarget.
  apply hd_run_Plus_Cls; [exact Hne | apply forallb_noneOf; exact Hno | reflexivity].
Qed.

Lemma asanaTarget_reads : forall rest,
  rest <> [] -> hasChar (ch ")") rest = false ->
  readsTarget asanaTarget (asanaPrefix ++ rest).
Proof.
  intros rest Hne Hno post c. unfold asanaTarget.
  apply hd_run_Seq with (st1 := (rest ++ ch ")" :: post, c)).
  - rewrite <- app_assoc. apply hd_run_Lit.
  - apply anyTarget_reads; assumption.
Qed.

Lemma run_linkRegex_link : forall target label url post,
  label <> [] -> hasChar (ch "]") label = false -> readsTarget target url ->
  hd_error (run (linkRegex target) (markdownLink label url ++ post) [])
  = Some (post, [(2, url); (1, label)]).
Proof.
  intros target label url post Hne Hno Htarget.
  rewrite markdownLink_cons. unfold linkRegex, Cat. cbn [fold_right].
  set (s1 := label ++ ch "]" :: ch "(" :: url ++ [ch ")"]).
  assert (Es1 : (ch "[" :: s1) ++ post
                = ch "[" :: label ++ ch "]" :: ch "(" :: url ++ ch ")" :: post).
  { unfold s1. simpl. rewrite <- app_assoc. simpl. rewrite <- app_assoc. reflexivity. }
  rewrite Es1. clear Es1 s1.
  eapply hd_run_Seq; [apply hd_run_Chr|]. cbn [fst snd].
  eapply hd_run_Seq.
  { apply hd_run_Grp. apply hd_run_Plus_Cls;
      [exact Hne | apply forallb_noneOf; exact Hno | reflexivity]. }
  cbn [fst snd]. rewrite firstn_consumed.
  eapply hd_run_Seq; [apply hd_run_Chr|]. cbn [fst snd].
  eapply hd_run_Seq; [apply hd_run_Chr|]. cbn [fst snd].
  eapply hd_run_Seq.
  { apply hd_run_Grp. apply Htarget. }
  cbn [fst snd]. rewrite firstn_consumed.
  eapply hd_run_Seq; [apply hd_run_Chr|]. reflexivity.
Qed.

(** A pattern that begins with [x] finds nothing before the first [x]. *)
Lemma search_skip : forall x r pre s i,
  hasChar x pre = false ->
  search (Seq (Chr x) r) (pre ++ s) i = search (Seq (Chr x) r) s (i + length pre).
Proof.
  intros x r pre s. induction pre as [|y pre IH]; intros i H.
  - simpl. rewrite Nat.add_0_r. reflexivity.
  - simpl in H. apply orb_false_iff in H. destruct H as [Hy Hpre].
    rewrite search_unfold. rewrite run_Seq_nil.
    + simpl. rewrite IH by exact Hpre. f_equal. lia.
    + simpl. rewrite Hy. reflexivity.
Qed.

Lemma search_none_without : forall x r s i,
  hasChar x s = false -> search (Seq (Chr x) r) s i = None.
Proof.
  intros x r s i H. rewrite <- (app_nil_r s), search_skip by exact H.
  rewrite search_unfold, run_Seq_nil; reflexivity.
Qed.

Lemma matchAll_single_link : forall target pre label url post,
  hasChar (ch "[") pre = false -> hasChar (ch "[") post = false ->
  label <> [] -> hasChar (ch "]") label = false -> readsTarget target url ->
  matchAll (pre ++ markdownLink label url ++ post) (linkRegex target)
  = [mkMatch (length pre) (markdownLink label url) [(2, url); (1, label)]].
Proof.
  intros target pre label url post Hpre Hpost Hne Hno Htarget.
  unfold matchAll. cbn [matchAllFrom].
  assert (Es : search (linkRegex target) (pre ++ markdownLink label url ++ post) 0
               = Some (mkMatch (length pre) (markdownLink label url) [(2, url); (1, label)])).
  { unfold linkRegex, Cat. cbn [fold_right]. rewrite search_skip by exact Hpre.
    rewrite search_unfold.
    change (Seq (Chr (ch "[")) _) with (linkRegex target).
    rewrite run_linkRegex_link by assumption.
    cbn [fst snd]. rewrite firstn_consumed. reflexivity. }
  rewrite Es. cbn [m_index m_full].
  assert (Hl : Nat.eqb (length (markdownLink label url)) 0 = false).
  { rewrite markdownLink_length. apply Nat.eqb_neq. lia. }
  rewrite Hl, Nat.sub_0_r.
  assert (Hle : (length pre + length (markdownLink label url)
                 <=? length (pre ++ markdownLink label url ++ post)) = true).
  { apply Nat.leb_le. rewrite !length_app. lia. }
  rewrite Hle.
  assert (Esk : skipn (length pre + length (markdownLink label url))
                  (pre ++ markdownLink label url ++ post) = post).
  { rewrite app_assoc. rewrite <- length_app.
    rewrite skipn_app, skipn_all, Nat.sub_diag. reflexivity. }
  rewrite Esk.
  assert (Hlen : exists n, length (pre ++ markdownLink label url ++ post) = S n).
  { rewrite !length_app, markdownLink_length. exists (length pre + (length label + length url + 3) + length post). lia. }
  destruct Hlen as [n ->]. cbn [matchAllFrom].
  unfold linkRegex, Cat. cbn [fold_right].
  rewrite search_none_without by exact Hpost. reflexivity.
Qed.

Lemma matchAll_none_without : forall x r s,
  hasChar x s = false -> matchAll s (Seq (Chr x) r) = [].
Proof.
  intros x r s H. unfold matchAll. cbn [matchAllFrom].
  rewrite search_none_without by exact H. reflexivity.
Qed.

(** ** The occurrences of a URL in a line *)

Lemma occursAt_startsWith : forall pat s i,
  occursAt pat s i <-> (i <= length s /\ startsWith pat (skipn i s) = true).
Proof.
  intros pat s i. split.
  - intros (pre & post & -> & <-). split; [rewrite length_app; lia|].
    rewrite skipn_app, skipn_all, Nat.sub_diag. simpl. apply startsWith_app.
  - intros [Hi H]. apply startsWith_spec in H. destruct H as [post H].
    exists (firstn i s), post. split.
    + rewrite <- H. symmetry. apply firstn_skipn.
    + rewrite length_firstn. lia.
Qed.

Lemma occurrencesWithin_spec : forall pat s lo hi,
  occurrencesWithin pat s lo hi = true ->
  forall i, occursAt pat s i -> lo <= i /\ i + length pat <= hi.
Proof.
  intros pat s lo hi H i Hocc. apply occursAt_startsWith in Hocc.
  destruct Hocc as [Hi Hs]. unfold occurrencesWithin in H.
  rewrite forallb_forall in H. specialize (H i).
  rewrite Hs in H. simpl in H.
  assert (Hin : In i (seq 0 (S (length s)))) by (apply in_seq; lia).
  apply H in Hin. apply andb_true_iff in Hin. destruct Hin as [H1 H2].
  apply Nat.leb_le in H1. apply Nat.leb_le in H2. split; assumption.
Qed.

Lemma plainUrlLoop_all_inside :
  forall fuel url taskInfo updatedLine markdownIndices startIndex acc,
  (forall i, occursAt url updatedLine i ->
             isInMarkdownLink markdownIndices i (length url) = true) ->
  plainUrlLoop fuel url taskInfo updatedLine markdownIndices startIndex acc = acc.
Proof.
  induction fuel as [|fuel IH];
    intros url taskInfo updatedLine markdownIndices startIndex acc H; [reflexivity|].
  cbn [plainUrlLoop].
  destruct (indexOf updatedLine url startIndex) as [urlIndex|] eqn:E; [|reflexivity].
  apply indexOf_Some in E. destruct E as [Hocc _].
  rewrite (H _ Hocc). cbn [negb]. apply IH. exact H.
Qed.

Lemma plainPass_all_inside : forall entries fuel updatedLine markdownIndices acc,
  (forall url i, In url (map fst entries) -> occursAt url updatedLine i ->
                 isInMarkdownLink markdownIndices i (length url) = true) ->
  fold_left
    (fun acc (entry : jsstring * TaskInfo) =>
       plainUrlLoop fuel (fst entry) (snd entry) updatedLine markdownIndices 0 acc)
    entries acc = acc.
Proof.
  induction entries as [|[url info] entries IH]; intros fuel updatedLine markdownIndices acc H.
  - reflexivity.
  - cbn [fold_left fst snd]. rewrite plainUrlLoop_all_inside.
    + apply IH. intros u i Hu. apply H. right. exact Hu.
    + intros i. apply H. left. reflexivity.
Qed.

Lemma indexOf_first_occurrence : forall s pat,
  isInfix pat s -> exists i, indexOf s pat 0 = Some i.
Proof.
  intros s pat (pre & post & Hs).
  destruct (indexOf s pat 0) as [i|] eqn:E; [exists i; reflexivity|].
  exfalso. unfold indexOf in E. simpl in E.
  exact (indexOfAux_None _ _ _ E _ _ Hs).
Qed.

(** The only occurrence of a URL in a line, not inside a link: the line
    gets the link in its place, and the search ends. *)
Lemma plainUrlLoop_single : forall fuel url taskInfo pre post markdownIndices line0 n,
  url <> [] ->
  occurrencesWithin url (pre ++ url ++ post) (length pre) (length pre + length url) = true ->
  isInMarkdownLink markdownIndices (length pre) (length url) = false ->
  plainUrlLoop (S (S fuel)) url taskInfo (pre ++ url ++ post) markdownIndices 0 (line0, n)
  = (pre ++ markdownLink (safeTitle taskInfo) url ++ post, S n).
Proof.
  intros fuel url taskInfo pre post markdownIndices line0 n Hne Hocc Hmd.
  assert (Hat : forall i, occursAt url (pre ++ url ++ post) i -> i = length pre).
  { intros i Hi. apply (occurrencesWithin_spec _ _ _ _ Hocc) in Hi. lia. }
  destruct (indexOf_first_occurrence (pre ++ url ++ post) url) as [i Ei].
  { exists pre, post. reflexivity. }
  assert (Hi : i = length pre).
  { apply Hat. apply indexOf_Some in Ei. apply Ei. }
  subst i. cbn [plainUrlLoop]. rewrite Ei, Hmd. cbn [negb].
  assert (Enext : indexOf (pre ++ url ++ post) url
                    (length pre + length (markdownLink (safeTitle taskInfo) url)) = None).
  { destruct (indexOf (pre ++ url ++ post) url
                (length pre + length (markdownLink (safeTitle taskInfo) url))) as [j|] eqn:Ej;
      [|reflexivity].
    exfalso. apply indexOf_Some in Ej. destruct Ej as [Hj Hmin].
    apply Hat in Hj. subst j. rewrite markdownLink_length in Hmin.
    rewrite !length_app in Hmin. destruct url; [contradiction|]. simpl in Hmin. lia. }
  rewrite Enext. unfold substring, substringFrom. cbn [snd].
  rewrite Nat.sub_0_r. simpl skipn at 1.
  rewrite firstn_app, firstn_all, Nat.sub_diag. simpl firstn. rewrite app_nil_r.
  rewrite (app_assoc pre url post), <- length_app.
  rewrite skipn_app, skipn_all, Nat.sub_diag. reflexivity.
Qed.

Lemma sanitizeTitleForMarkdown_map : forall t,
  sanitizeTitleForMarkdown t
  = map (fun c => if N.eqb c (ch "[") then ch "("
                  else if N.eqb c (ch "]") then ch ")" else c) t.
Proof.
  intros t. unfold sanitizeTitleForMarkdown, replaceAllChar. rewrite map_map.
  apply map_ext. intros c. destruct (N.eqb c (ch "[")) eqn:E; reflexivity.
Qed.

Lemma sanitizeTitleForMarkdown_no_brackets : forall t,
  hasChar (ch "[") (sanitizeTitleForMarkdown t) = false /\
  hasChar (ch "]") (sanitizeTitleForMarkdown t) = false.
Proof.
  intros t. rewrite sanitizeTitleForMarkdown_map. unfold hasChar.
  induction t as [|c t [IH1 IH2]]; [split; reflexivity|].
  cbn [map existsb]. rewrite IH1, IH2, !orb_false_r.
  destruct (N.eqb c (ch "[")) eqn:E1; [split; reflexivity|].
  destruct (N.eqb c (ch "]")) eqn:E2; [split; reflexivity|].
  rewrite (N.eqb_sym (ch "[") c), (N.eqb_sym (ch "]") c), E1, E2. split; reflexivity.
Qed.

Lemma sanitizeTitleForMarkdown_length : forall t,
  length (sanitizeTitleForMarkdown t) = length t.
Proof. intros t. rewrite sanitizeTitleForMarkdown_map. apply length_map. Qed.

(** ** Links that are already there, and titles with brackets *)

Lemma isInMarkdownLink_one : forall lo hi i len,
  lo <= i -> i + len <= hi -> isInMarkdownLink [(lo, hi)] i len = true.
Proof.
  intros lo hi i len H1 H2. unfold isInMarkdownLink. simpl.
  apply Nat.leb_le in H1. apply Nat.leb_le in H2. rewrite H1, H2. reflexivity.
Qed.

Lemma findMarkdownLinkIndices_single_link : forall pre label url post,
  hasChar (ch "[") pre = false -> hasChar (ch "[") post = false ->
  label <> [] -> hasChar (ch "]") label = false ->
  url <> [] -> hasChar (ch ")") url = false ->
  findMarkdownLinkIndices (pre ++ markdownLink label url ++ post)
  = [(length pre, length pre + length (markdownLink label url))].
Proof.
  intros pre label url post Hpre Hpost Hne Hno Hu Hu'.
  unfold findMarkdownLinkIndices.
  rewrite anyMarkdownRegex_link, matchAll_single_link;
    [reflexivity | assumption.. | apply anyTarget_reads; assumption].
Qed.

Lemma asanaUrl_no_paren : forall rest,
  hasChar (ch ")") rest = false -> hasChar (ch ")") (asanaPrefix ++ rest) = false.
Proof. intros rest H. rewrite hasChar_app, H. reflexivity. Qed.

Lemma asanaUrl_not_nil : forall rest, asanaPrefix ++ rest <> [].
Proof. intros rest. discriminate. Qed.

Lemma markdownStep_keep : forall taskInfoMap m linkText asanaUrl taskInfo cur k,
  capture (m_groups m) 1 = Some linkText ->
  capture (m_groups m) 2 = Some asanaUrl ->
  Map_get taskInfoMap asanaUrl = Some taskInfo ->
  linkText = title taskInfo \/ includes linkText (str "[") = true ->
  markdownStep taskInfoMap (cur, k) m = (cur, S k).
Proof.
  intros taskInfoMap m linkText asanaUrl taskInfo cur k H1 H2 Hget Hcond.
  unfold markdownStep. rewrite H1, H2, Hget.
  assert (E : str_eqb linkText (title taskInfo) || includes linkText (str "[") = true).
  { destruct Hcond as [-> | ->]; [rewrite str_eqb_refl; reflexivity | apply orb_true_r]. }
  rewrite E. reflexivity.
Qed.

(** A link that the loop over the links of a line finds, whose target is
    resolved and whose label is the fetched title, or has a [[] in it, is
    counted once and the text is left as it is: so does the step of the
    loop, for every line and every such link; and when the link is the only
    thing of the line that matters (its label has no []], the only [[] is
    its own, no resolved URL occurs outside it) the whole line comes out
    unchanged with the count one higher.  The last part is a body that is
    one link with the title as its label. *)
Lemma up_to_date_link_is_counted_and_kept :
  (forall (taskInfoMap : TaskInfoMap) (line : jsstring) (m : rmatch)
          (linkText asanaUrl : jsstring) (taskInfo : TaskInfo) (cur : jsstring) (k : nat),
     In m (matchAll line markdownRegex) ->
     capture (m_groups m) 1 = Some linkText ->
     capture (m_groups m) 2 = Some asanaUrl ->
     Map_get taskInfoMap asanaUrl = Some taskInfo ->
     linkText = title taskInfo \/ includes linkText (str "[") = true ->
     markdownStep taskInfoMap (cur, k) m = (cur, S k)) /\
  (forall (taskInfoMap : TaskInfoMap) (taskInfo : TaskInfo)
          (pre label rest post : jsstring) (n : nat),
     label <> [] -> hasChar (ch "]") label = false ->
     rest <> [] -> hasChar (ch ")") rest = false ->
     hasChar (ch "[") pre = false -> hasChar (ch "[") post = false ->
     Map_get taskInfoMap (asanaPrefix ++ rest) = Some taskInfo ->
     label = title taskInfo \/ includes label (str "[") = true ->
     forallb (fun u => occurrencesWithin u
                         (pre ++ markdownLink label (asanaPrefix ++ rest) ++ post)
                         (length pre)
                         (length pre + length (markdownLink label (asanaPrefix ++ rest))))
             (map fst taskInfoMap) = true ->
     processLine taskInfoMap (pre ++ markdownLink label (asanaPrefix ++ rest) ++ post) n
     = (pre ++ markdownLink label (asanaPrefix ++ rest) ++ post, S n)) /\
  transformLogged (pureFetch (oneTask (str "2") (str "Old")))
    (str "[Old](https://app.asana.com/0/1/2)") tt
  = (mkResult (str "[Old](https://app.asana.com/0/1/2)") true 1, [str "2"]).
Proof.
  split; [|split].
  - intros taskInfoMap line m linkText asanaUrl taskInfo cur k _ H1 H2 Hget Hcond.
    exact (markdownStep_keep _ _ _ _ _ _ _ H1 H2 Hget Hcond).
  - intros taskInfoMap taskInfo pre label rest post n
      Hlabel Hlabel' Hrest Hrest' Hpre Hpost Hget Hcond Hocc.
    unfold processLine.
    rewrite markdownRegex_link, matchAll_single_link;
      [|assumption..|apply asanaTarget_reads; assumption].
    cbn [fold_left].
    rewrite (markdownStep_keep taskInfoMap _ label (asanaPrefix ++ rest) taskInfo)
      by (reflexivity || assumption).
    cbn [fst].
    rewrite findMarkdownLinkIndices_single_link;
      [|assumption..|apply asanaUrl_not_nil|apply asanaUrl_no_paren; assumption].
    apply plainPass_all_inside.
    intros url i Hin Hi. rewrite forallb_forall in Hocc.
    destruct (occurrencesWithin_spec _ _ _ _ (Hocc _ Hin) _ Hi) as [H1 H2].
    apply isInMarkdownLink_one; assumption.
  - vm_compute. reflexivity.
Qed.

Example up_to_date_link_in_a_sentence :
  markdownStep [(str "https://app.asana.com/0/1/2",
                 mkTaskInfo (str "2") (str "Old") (str "Old"))]
    (str "[Old](https://app.asana.com/0/1/2)", 0)
    (mkMatch 0 (str "[Old](https://app.asana.com/0/1/2)")
       [(2, str "https://app.asana.com/0/1/2"); (1, str "Old")])
  = (str "[Old](https://app.asana.com/0/1/2)", 1) /\
  processLine [(str "https://app.asana.com/0/1/2",
                mkTaskInfo (str "2") (str "Old") (str "Old"))]
    (str "Check this: " ++ markdownLink (str "Old") (asanaPrefix ++ str "0/1/2") ++ str " today") 0
  = (str "Check this: " ++ markdownLink (str "Old") (asanaPrefix ++ str "0/1/2") ++ str " today", 1).
Proof.
  destruct up_to_date_link_is_counted_and_kept as (Hstep & Hline & _).
  split.
  - apply (Hstep _ (str "[Old](https://app.asana.com/0/1/2)") _ (str "Old")
             (str "https://app.asana.com/0/1/2") (mkTaskInfo (str "2") (str "Old") (str "Old"))).
    + vm_compute. left. reflexivity.
    + reflexivity.
    + reflexivity.
    + reflexivity.
    + left. reflexivity.
  - apply (Hline _ (mkTaskInfo (str "2") (str "Old") (str "Old"))).
    + discriminate.
    + reflexivity.
    + discriminate.
    + reflexivity.
    + reflexivity.
    + reflexivity.
    + reflexivity.
    + left. reflexivity.
    + vm_compute. reflexivity.
Qed.

(** What the loop over the links of a line finds. *)
Lemma matchAllFrom_run : forall r fuel s i m,
  In m (matchAllFrom r fuel s i) ->
  exists s' st, hd_error (run r s' []) = Some st /\
                m_full m = firstn (length s' - length (fst st)) s' /\
                m_groups m = snd st.
Proof.
  intros r. induction fuel as [|fuel IH]; intros s i m H; cbn [matchAllFrom] in H;
    [destruct H|].
  destruct (search r s i) as [m0|] eqn:E; [|destruct H].
  destruct H as [<- | H].
  - destruct (search_found _ _ _ _ E) as (pre & s' & st & _ & Eh & Ef & _ & Eg).
    exists s', st. repeat split; assumption.
  - match type of H with In _ (if ?b then _ else _) => destruct b end; [|destruct H].
    exact (IH _ _ _ H).
Qed.

Lemma run_Chr_captures : forall x s c st, In st (run (Chr x) s c) -> snd st = c.
Proof.
  intros x s c st H. cbn [run Chr] in H. destruct s as [|y s]; [destruct H|].
  destruct (N.eqb x y); [|destruct H]. destruct H as [<- | []]. reflexivity.
Qed.

Lemma run_Grp_captures : forall g r s c st,
  In st (run (Grp g r) s c) ->
  exists st0, In st0 (run r s c) /\ fst st = fst st0 /\
              snd st = (g, firstn (length s - length (fst st0)) s) :: snd st0.
Proof.
  intros g r s c st H. cbn [run] in H. apply in_map_iff in H.
  destruct H as (st0 & <- & H). exists st0. repeat split. exact H.
Qed.

(** The link pattern of the loop reads a label without []], then the
    target, and has them as its two groups. *)
Lemma run_markdownRegex_reads : forall s st,
  In st (run markdownRegex s []) ->
  exists label rest,
    label <> [] /\ hasChar (ch "]") label = false /\
    s = markdownLink label (asanaPrefix ++ rest) ++ fst st /\
    snd st = [(2, asanaPrefix ++ rest); (1, label)].
Proof.
  intros s st Hin. unfold markdownRegex, Cat in Hin. cbn [fold_right] in Hin.
  apply run_Seq_In in Hin. destruct Hin as (st1 & H1 & Hin).
  apply run_Seq_In in Hin. destruct Hin as (st2 & H2 & Hin).
  apply run_Seq_In in Hin. destruct Hin as (st3 & H3 & Hin).
  apply run_Seq_In in Hin. destruct Hin as (st4 & H4 & Hin).
  apply run_Seq_In in Hin. destruct Hin as (st5 & H5 & Hin).
  apply run_Seq_In in Hin. destruct Hin as (st6 & H6 & Hin).
  cbn [run] in Hin. destruct Hin as [<- | []].
  assert (K1 := run_Chr_captures _ _ _ _ H1). assert (K3 := run_Chr_captures _ _ _ _ H3).
  assert (K4 := run_Chr_captures _ _ _ _ H4). assert (K6 := run_Chr_captures _ _ _ _ H6).
  apply run_Chr_In in H1, H3, H4, H6.
  apply run_Grp_captures in H2, H5.
  destruct H2 as (st2' & H2 & E2 & G2). destruct H5 as (st5' & H5 & E5 & G5).
  apply run_Plus_Cls_consumed in H2.
  destruct H2 as (label & Hl1 & Hl2 & Hl3 & Hl4).
  apply run_Seq_In in H5. destruct H5 as (st5a & H5a & H5).
  rewrite run_Lit in H5a. destruct (startsWith asanaPrefix (fst st4)) eqn:Ep; [|destruct H5a].
  destruct H5a as [<- | []]. cbn [fst snd] in H5.
  apply startsWith_spec in Ep. destruct Ep as [post Ep].
  rewrite Ep in H5. rewrite skipn_app, skipn_all, Nat.sub_diag in H5. cbn [app skipn] in H5.
  apply run_Plus_Cls_consumed in H5. destruct H5 as (rest & Hr1 & Hr2 & Hr3 & Hr4).
  exists label, rest. split; [exact Hl1|]. split; [apply noneOf_hasChar; exact Hl2|].
  split.
  - rewrite markdownLink_cons. rewrite H1, Hl3, <- E2, H3, H4, Ep, Hr3, <- E5, H6.
    cbn [fst]. simpl. rewrite <- !app_assoc. simpl. rewrite <- !app_assoc. reflexivity.
  - cbn [snd]. rewrite K6, G5, Hr4, K4, K3, G2, Hl4, K1.
    assert (F1 : firstn (length (fst st4) - length (fst st5')) (fst st4) = asanaPrefix ++ rest).
    { rewrite Ep, Hr3, app_assoc. apply firstn_consumed. }
    assert (F2 : firstn (length (fst st1) - length (fst st2')) (fst st1) = label).
    { rewrite Hl3. apply firstn_consumed. }
    rewrite F1, F2. reflexivity.
Qed.

Lemma matchAll_markdownRegex_reads : forall line m,
  In m (matchAll line markdownRegex) ->
  exists label rest,
    label <> [] /\ hasChar (ch "]") label = false /\
    m_full m = markdownLink label (asanaPrefix ++ rest) /\
    capture (m_groups m) 1 = Some label /\
    capture (m_groups m) 2 = Some (asanaPrefix ++ rest).
Proof.
  intros line m H. unfold matchAll in H.
  destruct (matchAllFrom_run _ _ _ _ _ H) as (s' & st & Eh & Ef & Eg).
  apply hd_error_In in Eh. apply run_markdownRegex_reads in Eh.
  destruct Eh as (label & rest & H1 & H2 & Es & Ec).
  exists label, rest. rewrite Eg, Ec. repeat split; try assumption.
  rewrite Ef, Es. apply firstn_consumed.
Qed.

(** C6.  A link whose label is the fetched title is not kept when the title
    holds a pair of brackets.  The loop over the links of a line finds no
    link whose label holds a []], in any line: the pattern reads the label
    up to the first []] and wants a [(] next.  Such a link is not among the
    ranges of [findMarkdownLinkIndices] either, so its target is taken for
    a plain URL and the new link is put inside the old one, the count being
    one.  The first body is the one of the test 'should handle the
    reported bug case with nested brackets', which expects it back as it
    is; the second is the shortest of the kind. *)
Theorem C6_label_with_brackets_is_not_kept :
  (forall line m,
     In m (matchAll line markdownRegex) ->
     exists label rest,
       label <> [] /\ hasChar (ch "]") label = false /\
       m_full m = markdownLink label (asanaPrefix ++ rest) /\
       capture (m_groups m) 1 = Some label /\
       capture (m_groups m) 2 = Some (asanaPrefix ++ rest)) /\
  transformLogged
    (pureFetch
       (oneTask (str "1209591975229040")
          (str "Unable to open calling modal with no number in account.[Account with number able to open]")))
    (str "## Asana <!-- Required -->" ++ [LF; LF] ++
     markdownLink
       (str "Unable to open calling modal with no number in account.[Account with number able to open]")
       (str "https://app.asana.com/1/7423375154038/project/1179024258554553/task/1209591975229040?focus=true"))
    tt
  = (mkResult
       (str "## Asana <!-- Required -->" ++ [LF; LF] ++
        markdownLink
          (str "Unable to open calling modal with no number in account.[Account with number able to open]")
          (markdownLink
             (str "Unable to open calling modal with no number in account.(Account with number able to open)")
             (str "https://app.asana.com/1/7423375154038/project/1179024258554553/task/1209591975229040?focus=true")))
       true 1,
     [str "1209591975229040"]) /\
  transformLogged (pureFetch (oneTask (str "2") (str "a [b]")))
    (str "[a [b]](https://app.asana.com/0/1/2)") tt
  = (mkResult (str "[a [b]]([a (b)](https://app.asana.com/0/1/2))") true 1, [str "2"]).
Proof.
  split; [exact matchAll_markdownRegex_reads|].
  split; vm_compute; reflexivity.
Qed.

Lemma C6_label_with_brackets_is_not_kept_witness :
  exists label rest,
    label <> [] /\ hasChar (ch "]") label = false /\
    m_full (mkMatch 3 (str "[b](https://app.asana.com/0/1/2)")
              [(2, str "https://app.asana.com/0/1/2"); (1, str "b")])
    = markdownLink label (asanaPrefix ++ rest) /\
    capture [(2, str "https://app.asana.com/0/1/2"); (1, str "b")] 1 = Some label /\
    capture [(2, str "https://app.asana.com/0/1/2"); (1, str "b")] 2
    = Some (asanaPrefix ++ rest).
Proof.
  destruct C6_label_with_brackets_is_not_kept as (Hlinks & _).
  apply (Hlinks (str "[a][b](https://app.asana.com/0/1/2)")
           (mkMatch 3 (str "[b](https://app.asana.com/0/1/2)")
              [(2, str "https://app.asana.com/0/1/2"); (1, str "b")])).
  vm_compute. left. reflexivity.
Defined.

(** No link without a [(]. *)
Lemma run_linkRegex_needs_paren : forall target s c,
  hasChar (ch "(") s = false -> run (linkRegex target) s c = [].
Proof.
  intros target s c H.
  destruct (run (linkRegex target) s c) as [|st l] eqn:E; [reflexivity|].
  exfalso.
  assert (Hin : In st (run (linkRegex target) s c)) by (rewrite E; left; reflexivity).
  unfold linkRegex, Cat in Hin. cbn [fold_right] in Hin.
  apply run_Seq_In in Hin. destruct Hin as (st1 & H1 & Hin).
  apply run_Seq_In in Hin. destruct Hin as (st2 & H2 & Hin).
  apply run_Seq_In in Hin. destruct Hin as (st3 & H3 & Hin).
  apply run_Seq_In in Hin. destruct Hin as (st4 & H4 & _).
  apply run_Chr_In in H4.
  destruct (run_inv _ _ _ _ H1) as [S1 _].
  destruct (run_inv _ _ _ _ H2) as [S2 _].
  destruct (run_inv _ _ _ _ H3) as [S3 _].
  destruct (isSuffix_trans _ _ _ S3 (isSuffix_trans _ _ _ S2 S1)) as [p Hp].
  rewrite H4 in Hp. rewrite Hp, hasChar_app in H.
  apply orb_false_iff in H. destruct H as [_ H].
  simpl in H. discriminate.
Qed.

Lemma search_none_run : forall r s i,
  (forall s', isSuffix s' s -> run r s' [] = []) -> search r s i = None.
Proof.
  intros r s. induction s as [|x s IH]; intros i H; rewrite search_unfold.
  - rewrite (H [] (isSuffix_refl _)). reflexivity.
  - rewrite (H _ (isSuffix_refl _)). simpl. apply IH.
    intros s' [p ->]. apply H. exists (x :: p). reflexivity.
Qed.

Lemma matchAll_linkRegex_needs_paren : forall target s,
  hasChar (ch "(") s = false -> matchAll s (linkRegex target) = [].
Proof.
  intros target s H. unfold matchAll. cbn [matchAllFrom].
  rewrite search_none_run; [reflexivity|].
  intros s' [p ->]. apply run_linkRegex_needs_paren.
  rewrite hasChar_app in H. apply orb_false_iff in H. apply H.
Qed.

(** In the sanitized title there is [(] for each [[] and [)] for each []]
    of the title, so no bracket is left; the link made of it reads back as
    one link, with that label and the URL as its target.  This holds for
    every title that is not empty, with or without brackets.  A line whose
    only occurrence of the URL is plain gets that link in its place. *)
Lemma bracket_title_makes_one_link :
  forall (t rest pre post taskId : jsstring) (n : nat),
    t <> [] -> rest <> [] -> hasChar (ch ")") rest = false ->
    hasChar (ch "[") pre = false -> hasChar (ch "[") post = false ->
    sanitizeTitleForMarkdown t
    = map (fun c => if N.eqb c (ch "[") then ch "("
                    else if N.eqb c (ch "]") then ch ")" else c) t /\
    hasChar (ch "[") (sanitizeTitleForMarkdown t) = false /\
    hasChar (ch "]") (sanitizeTitleForMarkdown t) = false /\
    matchAll (pre ++ markdownLink (sanitizeTitleForMarkdown t) (asanaPrefix ++ rest) ++ post)
      markdownRegex
    = [mkMatch (length pre) (markdownLink (sanitizeTitleForMarkdown t) (asanaPrefix ++ rest))
         [(2, asanaPrefix ++ rest); (1, sanitizeTitleForMarkdown t)]] /\
    findMarkdownLinkIndices
      (pre ++ markdownLink (sanitizeTitleForMarkdown t) (asanaPrefix ++ rest) ++ post)
    = [(length pre,
        length pre + length (markdownLink (sanitizeTitleForMarkdown t) (asanaPrefix ++ rest)))] /\
    (hasChar (ch "(") (pre ++ (asanaPrefix ++ rest) ++ post) = false ->
     occurrencesWithin (asanaPrefix ++ rest) (pre ++ (asanaPrefix ++ rest) ++ post)
       (length pre) (length pre + length (asanaPrefix ++ rest)) = true ->
     processLine
       [(asanaPrefix ++ rest, mkTaskInfo taskId t (sanitizeTitleForMarkdown t))]
       (pre ++ (asanaPrefix ++ rest) ++ post) n
     = (pre ++ markdownLink (sanitizeTitleForMarkdown t) (asanaPrefix ++ rest) ++ post, S n)).
Proof.
  intros t rest pre post taskId n Ht Hrest Hrest' Hpre Hpost.
  destruct (sanitizeTitleForMarkdown_no_brackets t) as [Hs1 Hs2].
  assert (Hsafe : sanitizeTitleForMarkdown t <> []).
  { intros E. apply (f_equal (@length char)) in E.
    rewrite sanitizeTitleForMarkdown_length in E. destruct t; [contradiction | discriminate]. }
  split; [apply sanitizeTitleForMarkdown_map|].
  split; [exact Hs1|]. split; [exact Hs2|]. split; [|split].
  - rewrite markdownRegex_link. apply matchAll_single_link;
      [assumption.. | apply asanaTarget_reads; assumption].
  - apply findMarkdownLinkIndices_single_link;
      [assumption.. | apply asanaUrl_not_nil | apply asanaUrl_no_paren; assumption].
  - intros Hparen Hocc. unfold processLine.
    assert (Em : matchAll (pre ++ (asanaPrefix ++ rest) ++ post) markdownRegex = []).
    { rewrite markdownRegex_link. apply matchAll_linkRegex_needs_paren. exact Hparen. }
    rewrite Em. cbn [fold_left fst].
    assert (Ei : findMarkdownLinkIndices (pre ++ (asanaPrefix ++ rest) ++ post) = []).
    { unfold findMarkdownLinkIndices.
      rewrite anyMarkdownRegex_link, matchAll_linkRegex_needs_paren by exact Hparen.
      reflexivity. }
    rewrite Ei. cbn [fold_left fst snd].
    assert (El : exists f, length (pre ++ (asanaPrefix ++ rest) ++ post) = S f).
    { rewrite !length_app. simpl. exists (length pre + (21 + length rest + length post)). lia. }
    destruct El as [f ->].
    apply plainUrlLoop_single with (taskInfo := mkTaskInfo taskId t (sanitizeTitleForMarkdown t));
      [apply asanaUrl_not_nil | exact Hocc | reflexivity].
Qed.

Example bracket_title_in_the_test :
  sanitizeTitleForMarkdown (str "Title with [brackets]") = str "Title with (brackets)" /\
  matchAll (str "Complex task: " ++
            markdownLink (sanitizeTitleForMarkdown (str "Title with [brackets]"))
              (asanaPrefix ++ str "0/123456/111111") ++ [])
    markdownRegex
  = [mkMatch 14
       (markdownLink (sanitizeTitleForMarkdown (str "Title with [brackets]"))
          (asanaPrefix ++ str "0/123456/111111"))
       [(2, asanaPrefix ++ str "0/123456/111111");
        (1, sanitizeTitleForMarkdown (str "Title with [brackets]"))]] /\
  processLine
    [(asanaPrefix ++ str "0/123456/111111",
      mkTaskInfo (str "111111") (str "Title with [brackets]")
        (sanitizeTitleForMarkdown (str "Title with [brackets]")))]
    (str "Complex task: " ++ (asanaPrefix ++ str "0/123456/111111") ++ []) 0
  = (str "Complex task: " ++
     markdownLink (sanitizeTitleForMarkdown (str "Title with [brackets]"))
       (asanaPrefix ++ str "0/123456/111111") ++ [], 1).
Proof.
  destruct (bracket_title_makes_one_link (str "Title with [brackets]")
              (str "0/123456/111111") (str "Complex task: ") [] (str "111111") 0)
    as (Hmap & _ & _ & Hone & _ & Hline);
    try discriminate; try reflexivity.
  split; [rewrite Hmap; reflexivity|]. split; [exact Hone|].
  apply Hline; vm_compute; reflexivity.
Qed.

(** C7.  The sanitized title has [(] for each [[] and [)] for each []] of
    the title, for every title.  Where a link is already there, the new
    link is handed to [line.replace(fullMatch, newLink)] as the replacement
    text, in which [$$], [$&], [$`] and [$'] are patterns: the label is
    then not the sanitized title.  With [$'] in the title the text after
    the link is copied into the label, brackets and all, the link is no
    longer read as a link and its target is linked a second time inside
    it; with [$&] the old link is copied into the label; with [$$] the
    label has one dollar sign less.  The path for plain URLs builds the
    line by concatenation and keeps such a title as it is. *)
Theorem C7_dollar_in_title_is_read_as_pattern :
  (forall t,
     sanitizeTitleForMarkdown t
     = map (fun c => if N.eqb c (ch "[") then ch "("
                     else if N.eqb c (ch "]") then ch ")" else c) t /\
     hasChar (ch "[") (sanitizeTitleForMarkdown t) = false /\
     hasChar (ch "]") (sanitizeTitleForMarkdown t) = false) /\
  transformLogged (pureFetch (oneTask (str "2") (str "Show '$' in [price] field")))
    (str "Fixes [old name](https://app.asana.com/0/1/2) [WIP]") tt
  = (mkResult
       (str "Fixes [Show ' [WIP] in (price) field]([Show '$' in (price) field](https://app.asana.com/0/1/2)) [WIP]")
       true 2,
     [str "2"]) /\
  transformLogged (pureFetch (oneTask (str "2") (str "Escape $& in [search] replace")))
    (str "Fixes [old name](https://app.asana.com/0/1/2)") tt
  = (mkResult
       (str "Fixes [Escape [old name](https://app.asana.com/0/1/2) in (search) replace]([Escape $& in (search) replace](https://app.asana.com/0/1/2))")
       true 2,
     [str "2"]) /\
  transformLogged (pureFetch (oneTask (str "2") (str "Save $$ on [hosting]")))
    (str "Fixes [old name](https://app.asana.com/0/1/2)") tt
  = (mkResult (str "Fixes [Save $ on (hosting)](https://app.asana.com/0/1/2)") true 1,
     [str "2"]) /\
  transformLogged (pureFetch (oneTask (str "2") (str "Show '$' in [price] field")))
    (str "Fixes https://app.asana.com/0/1/2 [WIP]") tt
  = (mkResult (str "Fixes [Show '$' in (price) field](https://app.asana.com/0/1/2) [WIP]")
       true 1,
     [str "2"]).
Proof.
  split.
  - intros t. destruct (sanitizeTitleForMarkdown_no_brackets t) as [H1 H2].
    split; [apply sanitizeTitleForMarkdown_map | split; assumption].
  - repeat split; vm_compute; reflexivity.
Qed.

(** ** The legacy rule *)

Lemma hd_error_app : forall (A : Type) (l1 l2 : list A),
  hd_error (l1 ++ l2) = match hd_error l1 with Some x => Some x | None => hd_error l2 end.
Proof. intros A [|x l1] l2; reflexivity. Qed.

Lemma hd_error_None : forall (A : Type) (l : list A), hd_error l = None -> l = [].
Proof. intros A [|x l] H; [reflexivity | discriminate]. Qed.

Lemma flat_map_nil : forall (A B : Type) (k : A -> list B) l,
  (forall x, In x l -> k x = []) -> flat_map k l = [].
Proof.
  intros A B k l. induction l as [|x l IH]; intros H; [reflexivity|].
  simpl. rewrite (H x (or_introl eq_refl)), IH; [reflexivity|].
  intros y Hy. apply H. right. exact Hy.
Qed.

Lemma run_hostAnyDot : forall s c,
  run TaskGIDs.hostAnyDot (str "https://app.asana.com" ++ s) c = [(s, c)].
Proof. intros s c. vm_compute. reflexivity. Qed.





Lemma run_Alt : forall r1 r2 s c, run (Alt r1 r2) s c = run r1 s c ++ run r2 s c.
Proof. reflexivity. Qed.




Section FirstFrom.

Variable k : mstate -> list mstate.
Hypothesis k_digit : forall s c, headPasses isDigit s -> k (s, c) = [].




End FirstFrom.













(** A URL of segments has no [/task/] in it. *)
Lemma indexOfAux_step : forall pat x s i,
  startsWith pat (x :: s) = false ->
  indexOfAux pat (x :: s) i = indexOfAux pat s (S i).
Proof. intros pat x s i H. simpl indexOfAux. rewrite H. reflexivity. Qed.

Lemma indexOfAux_skip : forall y pat xs s i,
  hasChar y xs = false ->
  indexOfAux (y :: pat) (xs ++ s) i = indexOfAux (y :: pat) s (i + length xs).
Proof.
  intros y pat xs s. induction xs as [|x xs IH]; intros i H.
  - simpl. rewrite Nat.add_0_r. reflexivity.
  - simpl in H. apply orb_false_iff in H. destruct H as [Hx Hxs].
    simpl app. rewrite indexOfAux_step.
    + rewrite IH by exact Hxs. f_equal. simpl. lia.
    + cbn [startsWith]. rewrite Hx. reflexivity.
Qed.









Example legacy_rule_stops_at_keyword :
  TaskGIDs.getAsanaTaskGIDsFromText (str "https://app.asana.com/0/123456/search") = [str "123456"].
Proof. vm_compute. reflexivity. Qed.

(** ** One lookup for each distinct URL *)



(** ** Two occurrences of a URL on one line *)

(** C1.  The code at inputs with a URL twice on one line.  With the two
    occurrences close to each other the second one stays a plain URL and
    the count is 1; with them further apart the second one is converted,
    the first one is plain again in the result, and the count is 2.  In
    both cases the lookup was called once. *)
Theorem C1_two_occurrences_on_one_line :
  transformLogged (pureFetch (oneTask (str "2") (str "Fix bug")))
    (str "Fixes https://app.asana.com/0/1/2 (see https://app.asana.com/0/1/2)") tt
  = (mkResult
       (str "Fixes [Fix bug](https://app.asana.com/0/1/2) (see https://app.asana.com/0/1/2)")
       true 1,
     [str "2"]) /\
  transformLogged (pureFetch (oneTask (str "2") (str "T")))
    (str "https://app.asana.com/0/1/2 and then, further on the same line, https://app.asana.com/0/1/2") tt
  = (mkResult
       (str "https://app.asana.com/0/1/2 and then, further on the same line, [T](https://app.asana.com/0/1/2)")
       true 2,
     [str "2"]).
Proof. vm_compute. split; reflexivity. Qed.

Example C1_instance :
  transformLogged (pureFetch (oneTask (str "789012") (str "Fix bug")))
    (str "See https://app.asana.com/0/123456/789012") tt
  = (mkResult (str "See [Fix bug](https://app.asana.com/0/123456/789012)") true 1,
     [str "789012"]).
Proof. vm_compute. reflexivity. Qed.

Example two_urls_on_one_line :
  transformLogged
    (pureFetch (fun i => if str_eqb i (str "2") then Some (str "T2")
                         else if str_eqb i (str "3") then Some (str "T3") else None))
    (str "https://app.asana.com/0/1/2 https://app.asana.com/0/1/3") tt
  = (mkResult (str "https://app.asana.com/0/1/2 [T3](https://app.asana.com/0/1/3)") true 2,
     [str "2"; str "3"]).
Proof. vm_compute. reflexivity. Qed.

(** C2.  The code run twice on a body with a URL twice on one line, the
    title being the same in both runs: the first run converts the first
    occurrence only, the second run, on the result of the first, converts
    the other one, so the two results differ. *)
Theorem C2_second_run_changes_the_body :
  body (fst (transformPRBody (pureFetch (oneTask (str "2") (str "T")))
               (str "https://app.asana.com/0/1/2 https://app.asana.com/0/1/2") tt))
  = str "[T](https://app.asana.com/0/1/2) https://app.asana.com/0/1/2" /\
  body (fst (transformPRBody (pureFetch (oneTask (str "2") (str "T")))
               (body (fst (transformPRBody (pureFetch (oneTask (str "2") (str "T")))
                             (str "https://app.asana.com/0/1/2 https://app.asana.com/0/1/2")
                             tt)))
               tt))
  = str "[T](https://app.asana.com/0/1/2) [T](https://app.asana.com/0/1/2)" /\
  body (fst (transformPRBody (pureFetch (oneTask (str "2") (str "T")))
               (body (fst (transformPRBody (pureFetch (oneTask (str "2") (str "T")))
                             (str "https://app.asana.com/0/1/2 https://app.asana.com/0/1/2")
                             tt)))
               tt))
  <> body (fst (transformPRBody (pureFetch (oneTask (str "2") (str "T")))
                  (str "https://app.asana.com/0/1/2 https://app.asana.com/0/1/2") tt)).
Proof. vm_compute. repeat split. discriminate. Qed.

(** ** The loops end before their fuel does *)

Lemma matchAllFrom_fuel : forall r f1 f2 s i,
  length s < f1 -> length s < f2 -> matchAllFrom r f1 s i = matchAllFrom r f2 s i.
Proof.
  intros r. induction f1 as [|f1 IH]; intros f2 s i H1 H2; [lia|].
  destruct f2 as [|f2]; [lia|]. cbn [matchAllFrom].
  destruct (search r s i) as [m|] eqn:E; [|reflexivity].
  f_equal.
  destruct (search_inv _ _ _ _ E) as [(pre & post & Es & Ei) _].
  match goal with |- (if ?b then _ else _) = _ => destruct b eqn:Eb end; [|reflexivity].
  apply Nat.leb_le in Eb.
  assert (Hk : 1 <= (if Nat.eqb (length (m_full m)) 0
                     then S (m_index m + length (m_full m))
                     else m_index m + length (m_full m)) - i).
  { destruct (Nat.eqb (length (m_full m)) 0) eqn:E0; [lia|].
    apply Nat.eqb_neq in E0. lia. }
  apply IH; rewrite length_skipn; lia.
Qed.

Lemma plainUrlLoop_fuel :
  forall url taskInfo updatedLine markdownIndices,
  url <> [] ->
  forall f1 f2 startIndex acc,
  length updatedLine - Nat.min startIndex (length updatedLine) < f1 ->
  length updatedLine - Nat.min startIndex (length updatedLine) < f2 ->
  plainUrlLoop f1 url taskInfo updatedLine markdownIndices startIndex acc
  = plainUrlLoop f2 url taskInfo updatedLine markdownIndices startIndex acc.
Proof.
  intros url taskInfo updatedLine markdownIndices Hne.
  induction f1 as [|f1 IH]; intros f2 startIndex acc H1 H2; [lia|].
  destruct f2 as [|f2]; [lia|]. cbn [plainUrlLoop].
  destruct (indexOf updatedLine url startIndex) as [urlIndex|] eqn:E; [|reflexivity].
  apply indexOf_Some in E. destruct E as [Hocc Hmin].
  apply occursAt_bound in Hocc.
  assert (Hlen : 0 < length url) by (destruct url; [contradiction | simpl; lia]).
  destruct (negb (isInMarkdownLink markdownIndices urlIndex (length url))).
  - apply IH; rewrite markdownLink_length; lia.
  - apply IH; lia.
Qed.

(** The URLs of the scan begin with the prefix, so they are not empty. *)
Lemma matchAllFrom_found : forall r fuel s i m,
  In m (matchAllFrom r fuel s i) ->
  exists s' st, hd_error (run r s' []) = Some st /\
                m_full m = firstn (length s' - length (fst st)) s'.
Proof.
  intros r. induction fuel as [|fuel IH]; intros s i m H; cbn [matchAllFrom] in H;
    [destruct H|].
  destruct (search r s i) as [m0|] eqn:E; [|destruct H].
  destruct H as [<- | H].
  - destruct (search_found _ _ _ _ E) as (pre & s' & st & _ & Eh & Ef & _).
    exists s', st. split; assumption.
  - match type of H with In _ (if ?b then _ else _) => destruct b end; [|destruct H].
    exact (IH _ _ _ H).
Qed.

Lemma collectAllAsanaUrls_prefix : forall text url,
  In url (collectAllAsanaUrls text) -> exists rest, url = asanaPrefix ++ rest.
Proof.
  intros text url H. unfold collectAllAsanaUrls in H. apply in_map_iff in H.
  destruct H as (m & <- & H). unfold matchAll in H.
  destruct (matchAllFrom_found _ _ _ _ _ H) as (s' & st & Eh & Ef).
  apply hd_error_In in Eh. unfold asanaUrlRegex in Eh.
  apply run_Seq_In in Eh. destruct Eh as (st1 & H1 & H2).
  rewrite run_Lit in H1. destruct (startsWith asanaPrefix s') eqn:Ep; [|destruct H1].
  destruct H1 as [<- | []]. cbn [fst snd] in H2.
  apply startsWith_spec in Ep. destruct Ep as [post ->].
  rewrite skipn_app, skipn_all, Nat.sub_diag in H2. cbn [app skipn] in H2.
  destruct (run_inv _ _ _ _ H2) as [[p Hp] _].
  exists p. rewrite Ef, Hp, app_assoc. apply firstn_consumed.
Qed.

Lemma resolvedUrls_not_empty :
  forall (World : Type) (fetch : jsstring -> World -> option jsstring * World) text w url,
    In url (resolvedUrls fetch text w) -> url <> [].
Proof.
  intros World fetch text w url H. unfold resolvedUrls, resolvedMap in H.
  apply in_map_iff in H. destruct H as ([u info] & <- & H).
  apply resolveAll_entries in H. destruct H as (H & _).
  apply (proj1 (newSet_In _ _)) in H. apply collectAllAsanaUrls_prefix in H.
  destruct H as [rest ->]. discriminate.
Qed.

(** So on the keys of a task map of [transformPRBody] the fuel of the loop
    over the occurrences is idle: any amount above the length of the line
    gives the same result. *)
Lemma plainUrlLoop_fuel_idle :
  forall (World : Type) (fetch : jsstring -> World -> option jsstring * World) text w
         url taskInfo updatedLine markdownIndices acc extra,
    In url (resolvedUrls fetch text w) ->
    plainUrlLoop (S (length updatedLine) + extra) url taskInfo updatedLine markdownIndices 0 acc
    = plainUrlLoop (S (length updatedLine)) url taskInfo updatedLine markdownIndices 0 acc.
Proof.
  intros World fetch text w url taskInfo updatedLine markdownIndices acc extra H.
  apply plainUrlLoop_fuel; [exact (resolvedUrls_not_empty _ _ _ _ _ H) | lia | lia].
Qed.

(** ** Lines stay lines when the titles hold no line feed *)

Lemma hasChar_false_infix : forall x t s,
  isInfix t s -> hasChar x s = false -> hasChar x t = false.
Proof.
  intros x t s (p & q & ->) H. rewrite !hasChar_app in H.
  apply orb_false_iff in H. destruct H as [_ H].
  apply orb_false_iff in H. apply H.
Qed.

Lemma hasChar_firstn : forall x k s, hasChar x s = false -> hasChar x (firstn k s) = false.
Proof. intros x k s. apply hasChar_false_infix. apply firstn_isInfix. Qed.

Lemma hasChar_skipn : forall x k s, hasChar x s = false -> hasChar x (skipn k s) = false.
Proof.
  intros x k s. apply hasChar_false_infix. apply isSuffix_infix. apply isSuffix_skipn.
Qed.

Lemma getSubstitution_keeps_out : forall x matched before after template,
  N.eqb x (ch "$") = false ->
  hasChar x matched = false -> hasChar x before = false -> hasChar x after = false ->
  hasChar x template = false ->
  hasChar x (getSubstitution matched before after template) = false.
Proof.
  intros x matched before after template Hx Hm Hb Ha.
  remember (length template) as n eqn:En.
  revert template En. induction n as [n IH] using lt_wf_ind. intros template En Ht.
  destruct template as [|c t]; [reflexivity|].
  cbn [getSubstitution]. unfold hasChar in Ht. cbn [existsb] in Ht.
  apply orb_false_iff in Ht. destruct Ht as [Hc Ht]. fold (hasChar x t) in Ht.
  assert (IHt : hasChar x (getSubstitution matched before after t) = false).
  { apply (IH (length t)); [subst n; simpl; lia | reflexivity | exact Ht]. }
  assert (Hcons : hasChar x (c :: getSubstitution matched before after t) = false).
  { unfold hasChar. cbn [existsb]. rewrite Hc. exact IHt. }
  destruct (N.eqb c (ch "$")) eqn:Ec; [|exact Hcons].
  destruct t as [|d t']; [unfold hasChar; cbn [existsb]; rewrite Hc; reflexivity|].
  unfold hasChar in Ht. cbn [existsb] in Ht.
  apply orb_false_iff in Ht. destruct Ht as [Hd Ht']. fold (hasChar x t') in Ht'.
  assert (IHt' : hasChar x (getSubstitution matched before after t') = false).
  { apply (IH (length t')); [subst n; simpl; lia | reflexivity | exact Ht']. }
  destruct (N.eqb d (ch "$")).
  { unfold hasChar. cbn [existsb]. rewrite Hx. exact IHt'. }
  destruct (N.eqb d (ch "`")); [rewrite hasChar_app, Hb; exact IHt'|].
  destruct (N.eqb d (ch "&")); [rewrite hasChar_app, Hm; exact IHt'|].
  destruct (N.eqb d (ch "'")); [rewrite hasChar_app, Ha; exact IHt'|].
  exact Hcons.
Qed.

Lemma String_replace_keeps_out : forall x s pat replacement,
  N.eqb x (ch "$") = false ->
  hasChar x s = false -> hasChar x replacement = false ->
  hasChar x (String_replace s pat replacement) = false.
Proof.
  intros x s pat replacement Hx Hs Hr. unfold String_replace.
  destruct (indexOf s pat 0) as [pos|] eqn:E; [|exact Hs].
  apply indexOf_Some in E. destruct E as [(pre & post & Es & _) _].
  rewrite !hasChar_app, hasChar_firstn, hasChar_skipn by exact Hs.
  rewrite getSubstitution_keeps_out; try assumption; try reflexivity.
  - apply (hasChar_false_infix x pat s); [exists pre, post; exact Es | exact Hs].
  - apply hasChar_firstn. exact Hs.
  - apply hasChar_skipn. exact Hs.
Qed.

Lemma markdownLink_keeps_out : forall x label url,
  hasChar x (str "[]()") = false ->
  hasChar x label = false -> hasChar x url = false ->
  hasChar x (markdownLink label url) = false.
Proof.
  intros x label url Hx Hl Hu. rewrite markdownLink_cons.
  unfold hasChar in *. cbn [existsb] in *.
  repeat (apply orb_false_iff in Hx; destruct Hx as [? Hx]).
  rewrite existsb_app. cbn [existsb]. rewrite existsb_app. cbn [existsb].
  repeat (apply orb_false_iff; split); assumption || reflexivity.
Qed.

Lemma markdownStep_keeps_out : forall x taskInfoMap line0 acc m,
  N.eqb x (ch "$") = false -> hasChar x (str "[]()") = false ->
  titlesWithout x taskInfoMap ->
  hasChar x line0 = false ->
  (forall g t, capture (m_groups m) g = Some t -> isInfix t line0) ->
  hasChar x (fst acc) = false ->
  hasChar x (fst (markdownStep taskInfoMap acc m)) = false.
Proof.
  intros x taskInfoMap line0 [line n] m Hx Hx' Ht H0 Hg Hacc. unfold markdownStep.
  destruct (capture (m_groups m) 1) as [linkText|]; [|exact Hacc].
  destruct (capture (m_groups m) 2) as [asanaUrl|] eqn:E2; [|exact Hacc].
  destruct (Map_get taskInfoMap asanaUrl) as [taskInfo|] eqn:Eg; [|exact Hacc].
  destruct (str_eqb linkText (title taskInfo) || includes linkText (str "[")); [exact Hacc|].
  cbn [fst] in *. apply String_replace_keeps_out; [exact Hx | exact Hacc|].
  apply markdownLink_keeps_out; [exact Hx' | |].
  - exact (Ht _ _ (Map_get_In _ _ _ Eg)).
  - exact (hasChar_false_infix _ _ _ (Hg _ _ E2) H0).
Qed.

Lemma markdownPass_keeps_out : forall x taskInfoMap line0 matches acc,
  N.eqb x (ch "$") = false -> hasChar x (str "[]()") = false ->
  titlesWithout x taskInfoMap ->
  hasChar x line0 = false ->
  (forall m g t, In m matches -> capture (m_groups m) g = Some t -> isInfix t line0) ->
  hasChar x (fst acc) = false ->
  hasChar x (fst (fold_left (markdownStep taskInfoMap) matches acc)) = false.
Proof.
  intros x taskInfoMap line0 matches. induction matches as [|m matches IH];
    intros acc Hx Hx' Ht H0 Hg Hacc; [exact Hacc|].
  cbn [fold_left]. apply IH; try assumption.
  - intros m' g t Hin. apply Hg. right. exact Hin.
  - apply markdownStep_keeps_out with (line0 := line0); try assumption.
    intros g t. apply Hg. left. reflexivity.
Qed.

Lemma plainUrlLoop_keeps_out :
  forall x fuel url taskInfo updatedLine markdownIndices startIndex acc,
  hasChar x (str "[]()") = false ->
  hasChar x (safeTitle taskInfo) = false ->
  hasChar x updatedLine = false ->
  hasChar x (fst acc) = false ->
  hasChar x (fst (plainUrlLoop fuel url taskInfo updatedLine markdownIndices startIndex acc))
  = false.
Proof.
  intros x. induction fuel as [|fuel IH];
    intros url taskInfo updatedLine markdownIndices startIndex acc Hx Ht Hu Hacc;
    [exact Hacc|].
  cbn [plainUrlLoop].
  destruct (indexOf updatedLine url startIndex) as [urlIndex|] eqn:E; [|exact Hacc].
  apply indexOf_Some in E. destruct E as [(pre & post & Es & _) _].
  destruct (negb (isInMarkdownLink markdownIndices urlIndex (length url)));
    apply IH; try assumption.
  cbn [fst]. unfold substring, substringFrom.
  rewrite !hasChar_app, hasChar_firstn, hasChar_skipn by (apply hasChar_skipn || idtac; exact Hu).
  rewrite markdownLink_keeps_out; [reflexivity | exact Hx | exact Ht |].
  apply (hasChar_false_infix x url updatedLine); [exists pre, post; exact Es | exact Hu].
Qed.

Lemma plainPass_keeps_out : forall x entries fuel updatedLine markdownIndices acc,
  hasChar x (str "[]()") = false ->
  titlesWithout x entries ->
  hasChar x updatedLine = false ->
  hasChar x (fst acc) = false ->
  hasChar x
    (fst (fold_left
            (fun acc (entry : jsstring * TaskInfo) =>
               plainUrlLoop fuel (fst entry) (snd entry) updatedLine markdownIndices 0 acc)
            entries acc)) = false.
Proof.
  intros x. induction entries as [|[url info] entries IH];
    intros fuel updatedLine markdownIndices acc Hx Ht Hu Hacc; [exact Hacc|].
  cbn [fold_left fst snd]. apply IH; try assumption.
  - intros u i Hin. apply (Ht u i). right. exact Hin.
  - apply plainUrlLoop_keeps_out; try assumption.
    apply (Ht url info). left. reflexivity.
Qed.

Lemma processLine_keeps_out : forall x taskInfoMap line n,
  N.eqb x (ch "$") = false -> hasChar x (str "[]()") = false ->
  titlesWithout x taskInfoMap ->
  hasChar x line = false ->
  hasChar x (fst (processLine taskInfoMap line n)) = false.
Proof.
  intros x taskInfoMap line n Hx Hx' Ht Hl. unfold processLine.
  assert (Hmd : hasChar x (fst (fold_left (markdownStep taskInfoMap)
                                   (matchAll line markdownRegex) (line, n))) = false).
  { apply markdownPass_keeps_out with (line0 := line); try assumption.
    intros m g t Hm. apply matchAll_groups with (r := markdownRegex) (m := m). exact Hm. }
  apply plainPass_keeps_out; assumption.
Qed.

Lemma processLines_keeps_out : forall x taskInfoMap lines n,
  N.eqb x (ch "$") = false -> hasChar x (str "[]()") = false ->
  titlesWithout x taskInfoMap ->
  Forall (fun line => hasChar x line = false) lines ->
  Forall (fun line => hasChar x line = false) (fst (processLines taskInfoMap lines n)).
Proof.
  intros x taskInfoMap lines. induction lines as [|l lines IH]; intros n Hx Hx' Ht Hl.
  - constructor.
  - inversion Hl as [|? ? Hl1 Hl2]; subst. cbn [processLines].
    assert (H1 := processLine_keeps_out x taskInfoMap l n Hx Hx' Ht Hl1).
    destruct (processLine taskInfoMap l n) as [l' n1].
    assert (H2 := IH n1 Hx Hx' Ht Hl2).
    destruct (processLines taskInfoMap lines n1) as [rest' n2].
    constructor; assumption.
Qed.

Lemma split1_join : forall lines,
  lines <> [] -> Forall (fun line => hasChar LF line = false) lines ->
  split1 LF (join [LF] lines) = lines.
Proof.
  induction lines as [|l lines IH]; intros Hne H; [contradiction|].
  inversion H as [|? ? Hl Hrest]; subst.
  assert (Hone : forall (p : jsstring) tail,
             hasChar LF p = false ->
             split1 LF (p ++ LF :: tail) = p :: split1 LF tail).
  { induction p as [|c p IHp]; intros tail Hp.
    - simpl. reflexivity.
    - unfold hasChar in Hp. cbn [existsb] in Hp.
      apply orb_false_iff in Hp. destruct Hp as [Hc Hp].
      cbn [app split1]. rewrite N.eqb_sym, Hc. rewrite IHp by exact Hp. reflexivity. }
  assert (Hlast : forall p : jsstring, hasChar LF p = false -> split1 LF p = [p]).
  { induction p as [|c p IHp]; intros Hp; [reflexivity|].
    unfold hasChar in Hp. cbn [existsb] in Hp.
    apply orb_false_iff in Hp. destruct Hp as [Hc Hp].
    cbn [split1]. rewrite N.eqb_sym, Hc, IHp by exact Hp. reflexivity. }
  destruct lines as [|l2 lines].
  - simpl. apply Hlast. exact Hl.
  - change (join [LF] (l :: l2 :: lines)) with (l ++ LF :: join [LF] (l2 :: lines)).
    rewrite Hone by exact Hl. rewrite IH; [reflexivity | discriminate | exact Hrest].
Qed.

Lemma split1_Forall : forall s, Forall (fun line => hasChar LF line = false) (split1 LF s).
Proof.
  intros s. apply Forall_forall. intros line H.
  destruct (hasChar LF line) eqn:E; [|reflexivity].
  apply hasChar_In in E. exfalso. exact (split1_no_sep _ _ _ H E).
Qed.

Lemma rewriteBody_lines : forall taskInfoMap text,
  titlesWithout LF taskInfoMap ->
  length (split1 LF (body (rewriteBody taskInfoMap text))) = length (split1 LF text) /\
  forall i line,
    nth_error (split1 LF text) i = Some line ->
    (forall url, In url (map fst taskInfoMap) -> includes line url = false) ->
    nth_error (split1 LF (body (rewriteBody taskInfoMap text))) i = Some line.
Proof.
  intros taskInfoMap text Ht. unfold rewriteBody.
  destruct (Nat.eqb (length taskInfoMap) 0).
  - simpl. split; [reflexivity | intros i line H _; exact H].
  - destruct (processLines_frame taskInfoMap (split1 LF text) 0) as [Hlen Hnth].
    assert (Hout := processLines_keeps_out LF taskInfoMap (split1 LF text) 0
                      eq_refl eq_refl Ht (split1_Forall text)).
    destruct (processLines taskInfoMap (split1 LF text) 0) as [lines' n] eqn:E.
    cbn [fst body] in *.
    assert (Hne : lines' <> []).
    { intros ->. simpl in Hlen. symmetry in Hlen. apply length_zero_iff_nil in Hlen.
      exact (split1_not_nil _ _ Hlen). }
    rewrite split1_join by assumption. split; [exact Hlen | exact Hnth].
Qed.

Lemma sanitizeTitleForMarkdown_keeps_out : forall x t,
  hasChar x (str "()") = false -> hasChar x t = false ->
  hasChar x (sanitizeTitleForMarkdown t) = false.
Proof.
  intros x t Hx Ht. rewrite sanitizeTitleForMarkdown_map.
  unfold hasChar in *. cbn [existsb] in Hx.
  apply orb_false_iff in Hx. destruct Hx as [Hx1 Hx].
  apply orb_false_iff in Hx. destruct Hx as [Hx2 _].
  induction t as [|c t IH]; [reflexivity|].
  cbn [existsb map] in *. apply orb_false_iff in Ht. destruct Ht as [Hc Ht].
  rewrite (IH Ht), orb_false_r.
  destruct (N.eqb c (ch "[")); [exact Hx1|].
  destruct (N.eqb c (ch "]")); [exact Hx2 | exact Hc].
Qed.

(** C10, amended.  The new body is the lines of the old one, each
    rewritten on its own and joined again: there are as many of them, and a
    line in which no resolved URL occurs, as plain text or as the target of
    a link, is rewritten to itself.  When no fetched title has a line feed
    in it, the rewritten lines are the lines of the new body, so such a
    line is at its place in the new body, unchanged. *)
Theorem C10_lines_without_resolved_url_are_kept :
  forall (World : Type) (fetch : jsstring -> World -> option jsstring * World)
         (text : jsstring) (w : World),
    (exists lines',
       body (fst (transformPRBody fetch text w)) = join [LF] lines' /\
       length lines' = length (split1 LF text) /\
       forall i line,
         nth_error (split1 LF text) i = Some line ->
         (forall url, In url (resolvedUrls fetch text w) -> includes line url = false) ->
         nth_error lines' i = Some line) /\
    ((forall url info,
        In (url, info) (resolvedMap fetch text w) -> hasChar LF (title info) = false) ->
     length (split1 LF (body (fst (transformPRBody fetch text w))))
     = length (split1 LF text) /\
     forall i line,
       nth_error (split1 LF text) i = Some line ->
       (forall url, In url (resolvedUrls fetch text w) -> includes line url = false) ->
       nth_error (split1 LF (body (fst (transformPRBody fetch text w)))) i = Some line).
Proof.
  intros World fetch text w. rewrite transformPRBody_rewrite. split.
  - exact (rewriteBody_frame _ text).
  - intros Htitles. apply rewriteBody_lines.
    intros url info Hin.
    assert (Hsafe := resolveAll_entries World fetch _ _ _ _ Hin).
    destruct Hsafe as (_ & _ & Hsafe & _). rewrite Hsafe.
    apply sanitizeTitleForMarkdown_keeps_out; [reflexivity|].
    exact (Htitles _ _ Hin).
Qed.

Lemma C10_lines_without_resolved_url_are_kept_witness :
  nth_error
    (split1 LF
       (body (fst (transformPRBody (pureFetch (oneTask (str "2") (str "T")))
                     (str "## Asana" ++ [LF] ++ str "https://app.asana.com/0/1/2") tt))))
    0
  = Some (str "## Asana").
Proof.
  destruct (C10_lines_without_resolved_url_are_kept unit
              (pureFetch (oneTask (str "2") (str "T")))
              (str "## Asana" ++ [LF] ++ str "https://app.asana.com/0/1/2") tt)
    as (_ & Hlines).
  apply Hlines.
  - intros url info Hin. vm_compute in Hin. destruct Hin as [E | []].
    injection E as _ <-. reflexivity.
  - reflexivity.
  - intros url Hin. vm_compute in Hin. destruct Hin as [<- | []]. vm_compute. reflexivity.
Defined.

(** C10 as stated fails when a fetched title has a line feed in it: the
    second line of the body holds no resolved URL, and the second line of
    the new body is another text. *)
Lemma C10_counterexample :
  resolvedUrls (pureFetch (oneTask (str "2") (str "a" ++ [LF] ++ str "b")))
    (str "https://app.asana.com/0/1/2" ++ [LF] ++ str "foo") tt
  = [str "https://app.asana.com/0/1/2"] /\
  nth_error (split1 LF (str "https://app.asana.com/0/1/2" ++ [LF] ++ str "foo")) 1
  = Some (str "foo") /\
  includes (str "foo") (str "https://app.asana.com/0/1/2") = false /\
  body (fst (transformPRBody (pureFetch (oneTask (str "2") (str "a" ++ [LF] ++ str "b")))
               (str "https://app.asana.com/0/1/2" ++ [LF] ++ str "foo") tt))
  = str "[a" ++ [LF] ++ str "b](https://app.asana.com/0/1/2)" ++ [LF] ++ str "foo" /\
  nth_error
    (split1 LF
       (body (fst (transformPRBody
                     (pureFetch (oneTask (str "2") (str "a" ++ [LF] ++ str "b")))
                     (str "https://app.asana.com/0/1/2" ++ [LF] ++ str "foo") tt))))
    1
  = Some (str "b](https://app.asana.com/0/1/2)").
Proof. vm_compute. repeat split. Qed.

(** * Further properties of the code *)

(** ** The matches of a global pattern *)

Lemma span_spec : forall p s,
  s = fst (span p s) ++ snd (span p s) /\
  forallb p (fst (span p s)) = true /\ headFails p (snd (span p s)).
Proof.
  intros p. induction s as [|x s IH]; simpl.
  - repeat split.
  - destruct (p x) eqn:E; simpl.
    + destruct IH as (E1 & E2 & E3). rewrite E, E2. repeat split; [|exact E3].
      f_equal. exact E1.
    + repeat split. exact E.
Qed.

Lemma foundAt_occursAt : forall r text m,
  foundAt r text m -> occursAt (m_full m) text (m_index m).
Proof.
  intros r text m (st & Hi & _ & E & _).
  exists (firstn (m_index m) text), (fst st). split.
  - rewrite <- E. symmetry. apply firstn_skipn.
  - apply firstn_length_le. exact Hi.
Qed.

Lemma search_foundAt : forall r text i m,
  i <= length text -> search r (skipn i text) i = Some m ->
  i <= m_index m /\ foundAt r text m.
Proof.
  intros r text i m Hi E.
  destruct (search_found _ _ _ _ E) as (pre & s' & st & Es & Eh & Ef & Ei & Eg).
  assert (Hlen : length (skipn i text) = length pre + length s')
    by (rewrite Es; apply length_app).
  rewrite length_skipn in Hlen.
  assert (Esk : skipn (m_index m) text = s').
  { rewrite Ei, Nat.add_comm, <- skipn_skipn, Es.
    rewrite skipn_app, skipn_all, Nat.sub_diag. reflexivity. }
  split; [lia|]. exists st. rewrite Esk. repeat split.
  - lia.
  - exact Eh.
  - rewrite Ef. apply (search_here _ _ _ Eh).
  - exact Eg.
Qed.

(** The matches of a global pattern lie in the text one after the other. *)
Lemma matchAllFrom_occurs : forall r fuel text i,
  i <= length text ->
  Forall (fun m => i <= m_index m /\ foundAt r text m)
         (matchAllFrom r fuel (skipn i text) i) /\
  StronglySorted (fun a b => m_end a <= m_index b)
         (matchAllFrom r fuel (skipn i text) i).
Proof.
  intros r. induction fuel as [|fuel IH]; intros text i Hi; cbn [matchAllFrom].
  - split; constructor.
  - destruct (search r (skipn i text) i) as [m|] eqn:E; [|split; constructor].
    destruct (search_foundAt _ _ _ _ Hi E) as [Him Hocc].
    set (next := if Nat.eqb (length (m_full m)) 0
                 then S (m_index m + length (m_full m))
                 else m_index m + length (m_full m)).
    assert (Hnext : m_end m <= next /\ i <= next).
    { unfold next, m_end. destruct (Nat.eqb (length (m_full m)) 0); lia. }
    destruct (next - i <=? length (skipn i text)) eqn:El.
    + apply Nat.leb_le in El. rewrite length_skipn in El.
      rewrite skipn_skipn. replace (next - i + i) with next by lia.
      destruct (IH text next ltac:(lia)) as [F S].
      split.
      * constructor; [split; [lia | exact Hocc] |].
        eapply Forall_impl; [|exact F]. intros m' [H1 H2]. split; [lia | exact H2].
      * constructor; [exact S|].
        eapply Forall_impl; [|exact F]. intros m' [H1 _]. lia.
    + split; repeat constructor; [lia | exact Hocc].
Qed.

Lemma matchAll_occurs : forall r text,
  Forall (foundAt r text) (matchAll text r) /\
  StronglySorted (fun a b => m_end a <= m_index b) (matchAll text r).
Proof.
  intros r text. unfold matchAll.
  destruct (matchAllFrom_occurs r (S (length text)) text 0 ltac:(lia)) as [F S].
  change (skipn 0 text) with text in F, S. split; [|exact S].
  eapply Forall_impl; [|exact F]. intros m [_ H]. exact H.
Qed.

Lemma run_Grp_In : forall g r s c st,
  In st (run (Grp g r) s c) ->
  exists st0, In st0 (run r s c) /\ fst st = fst st0.
Proof.
  intros g r s c st H. cbn [run] in H. apply in_map_iff in H.
  destruct H as (st0 & <- & H). exists st0. split; [exact H | reflexivity].
Qed.

(** What the pattern of [findMarkdownLinkIndices] reads is a link. *)
Lemma run_anyMarkdownRegex_shape : forall s c st,
  In st (run anyMarkdownRegex s c) ->
  exists label url,
    label <> [] /\ hasChar (ch "]") label = false /\
    url <> [] /\ hasChar (ch ")") url = false /\
    s = markdownLink label url ++ fst st.
Proof.
  intros s c st Hin. unfold anyMarkdownRegex, Cat in Hin. cbn [fold_right] in Hin.
  apply run_Seq_In in Hin. destruct Hin as (st1 & H1 & Hin).
  apply run_Seq_In in Hin. destruct Hin as (st2 & H2 & Hin).
  apply run_Seq_In in Hin. destruct Hin as (st3 & H3 & Hin).
  apply run_Seq_In in Hin. destruct Hin as (st4 & H4 & Hin).
  apply run_Seq_In in Hin. destruct Hin as (st5 & H5 & Hin).
  apply run_Seq_In in Hin. destruct Hin as (st6 & H6 & Hin).
  cbn [run] in Hin. destruct Hin as [<- | []].
  apply run_Chr_In in H1, H3, H4, H6.
  apply run_Grp_In in H2, H5.
  destruct H2 as (st2' & H2 & E2). destruct H5 as (st5' & H5 & E5).
  apply run_Plus_Cls_consumed in H2, H5.
  destruct H2 as (label & Hl1 & Hl2 & Hl3 & _).
  destruct H5 as (url & Hu1 & Hu2 & Hu3 & _).
  exists label, url. repeat split; try assumption.
  - apply noneOf_hasChar. exact Hl2.
  - apply noneOf_hasChar. exact Hu2.
  - rewrite markdownLink_cons. rewrite H1, Hl3, <- E2, H3, H4, Hu3, <- E5, H6.
    cbn [fst]. simpl. rewrite <- app_assoc. simpl. rewrite <- app_assoc. reflexivity.
Qed.

(** X1.  The ranges of [findMarkdownLinkIndices]: each is the span of a
    link [[label](target)] of the text, with a label free of []] and a
    target free of [)], both not empty; the ranges come in the order of the
    text and do not overlap. *)
Theorem findMarkdownLinkIndices_ranges : forall text,
  Forall (fun range =>
            exists label url,
              label <> [] /\ hasChar (ch "]") label = false /\
              url <> [] /\ hasChar (ch ")") url = false /\
              occursAt (markdownLink label url) text (fst range) /\
              snd range = fst range + length (markdownLink label url))
         (findMarkdownLinkIndices text) /\
  StronglySorted (fun a b => snd a <= fst b) (findMarkdownLinkIndices text).
Proof.
  intros text. unfold findMarkdownLinkIndices.
  destruct (matchAll_occurs anyMarkdownRegex text) as [F S].
  split.
  - apply Forall_map. eapply Forall_impl; [|exact F].
    intros m Hm. cbn [fst snd].
    assert (Hocc := foundAt_occursAt _ _ _ Hm).
    destruct Hm as (st & _ & Eh & Es & _).
    apply hd_error_In in Eh. apply run_anyMarkdownRegex_shape in Eh.
    destruct Eh as (label & url & H1 & H2 & H3 & H4 & E).
    assert (Ef : m_full m = markdownLink label url).
    { rewrite Es in E. apply app_inv_tail in E. exact E. }
    exists label, url. rewrite <- Ef. repeat split; assumption.
  - induction S as [|m ms S IH F']; [constructor|].
    cbn [map]. constructor; [exact (IH (Forall_inv_tail F))|].
    apply Forall_map. eapply Forall_impl; [|exact F']. intros m' H. exact H.
Qed.

(** ** The URLs collected from a text *)

Lemma run_asanaUrlRegex_first : forall s c st,
  hd_error (run asanaUrlRegex s c) = Some st ->
  exists rest,
    rest <> [] /\ forallb urlChar rest = true /\ headFails urlChar (fst st) /\
    s = asanaPrefix ++ rest ++ fst st.
Proof.
  intros s c st H. unfold asanaUrlRegex in H. cbn [run] in H.
  rewrite run_Lit in H. destruct (startsWith asanaPrefix s) eqn:Ep; [|discriminate].
  apply startsWith_spec in Ep. destruct Ep as [s1 ->].
  rewrite skipn_app, skipn_all, Nat.sub_diag in H. cbn [app skipn flat_map fst snd] in H.
  rewrite app_nil_r in H.
  destruct (span_spec urlChar s1) as (E1 & E2 & E3).
  destruct (fst (span urlChar s1)) as [|x xs] eqn:Ex.
  - simpl in E1. rewrite run_Plus_Cls_fail in H; [discriminate|]. rewrite E1. exact E3.
  - rewrite E1 in H. rewrite hd_run_Plus_Cls in H; [|discriminate | exact E2 | exact E3].
    injection H as <-. exists (x :: xs). cbn [fst].
    repeat split; [discriminate | exact E2 | exact E3 |]. rewrite <- E1. reflexivity.
Qed.

Lemma collectAllAsanaUrls_In : forall text url,
  In url (collectAllAsanaUrls text) ->
  exists rest pre post,
    url = asanaPrefix ++ rest /\ rest <> [] /\ forallb urlChar rest = true /\
    text = pre ++ url ++ post /\ headFails urlChar post.
Proof.
  intros text url H. unfold collectAllAsanaUrls in H. apply in_map_iff in H.
  destruct H as (m & <- & H).
  destruct (matchAll_occurs asanaUrlRegex text) as [F _].
  rewrite Forall_forall in F. specialize (F m H).
  destruct F as (st & Hi & Eh & Es & _).
  apply run_asanaUrlRegex_first in Eh. destruct Eh as (rest & H1 & H2 & H3 & E).
  assert (Ef : m_full m = asanaPrefix ++ rest).
  { rewrite Es, app_assoc in E. apply app_inv_tail in E. exact E. }
  exists rest, (firstn (m_index m) text), (fst st).
  repeat split; try assumption.
  rewrite <- Es. symmetry. apply firstn_skipn.
Qed.

(** X2.  Every URL that [collectAllAsanaUrls] returns is
    [https://app.asana.com/] followed by at least one code unit, none of
    them white space or one of [<], [>], the double quote, [(], [)]; it
    stands in the text, and what follows it there is the end of the text
    or a code unit that cannot be part of a URL. *)
Theorem collectAllAsanaUrls_shape : forall text url,
  In url (collectAllAsanaUrls text) ->
  exists rest pre post,
    url = asanaPrefix ++ rest /\ rest <> [] /\ forallb urlChar rest = true /\
    text = pre ++ url ++ post /\ headFails urlChar post.
Proof. exact collectAllAsanaUrls_In. Qed.

Lemma collectAllAsanaUrls_shape_witness :
  exists rest pre post,
    str "https://app.asana.com/0/1/2" = asanaPrefix ++ rest /\ rest <> [] /\
    forallb urlChar rest = true /\
    str "See (https://app.asana.com/0/1/2) now" = pre ++ str "https://app.asana.com/0/1/2" ++ post /\
    headFails urlChar post.
Proof.
  apply (collectAllAsanaUrls_shape (str "See (https://app.asana.com/0/1/2) now")
           (str "https://app.asana.com/0/1/2")).
  vm_compute. left. reflexivity.
Defined.

Lemma search_None_run : forall r s i,
  search r s i = None -> forall s', isSuffix s' s -> run r s' [] = [].
Proof.
  intros r s. induction s as [|x s IH]; intros i H s' [pre E]; rewrite search_unfold in H.
  - destruct pre; [|discriminate]. simpl in E. subst s'.
    destruct (run r [] []); [reflexivity | discriminate].
  - destruct (run r (x :: s) []) eqn:Er; [|discriminate]. simpl in H.
    destruct pre as [|y pre].
    + simpl in E. subst s'. exact Er.
    + injection E as _ E. apply (IH _ H). exists pre. exact E.
Qed.

Lemma run_asanaUrlRegex_some : forall x post c,
  urlChar x = true -> run asanaUrlRegex (asanaPrefix ++ x :: post) c <> [].
Proof.
  intros x post c Hx Hr. unfold asanaUrlRegex in Hr.
  rewrite run_Seq_single with (s1 := x :: post) (c1 := c) in Hr by apply run_Lit_app.
  destruct (span_spec urlChar post) as (E1 & E2 & E3).
  assert (Hh := hd_run_Plus_Cls urlChar (x :: fst (span urlChar post))
                  (snd (span urlChar post)) c ltac:(discriminate)).
  cbn [forallb] in Hh. rewrite Hx, E2 in Hh. specialize (Hh eq_refl E3).
  cbn [app] in Hh. rewrite <- E1, Hr in Hh. discriminate.
Qed.

(** X3.  [collectAllAsanaUrls] returns nothing exactly when the text has no
    [https://app.asana.com/] with a URL code unit after it. *)
Theorem collectAllAsanaUrls_nil_iff : forall text,
  collectAllAsanaUrls text = [] <->
  (forall x, urlChar x = true -> ~ isInfix (asanaPrefix ++ [x]) text).
Proof.
  intros text. split.
  - intros H x Hx (pre & post & E).
    unfold collectAllAsanaUrls, matchAll in H. cbn [matchAllFrom] in H.
    destruct (search asanaUrlRegex text 0) as [m|] eqn:Es; [discriminate|].
    assert (Hr := search_None_run _ _ _ Es ((asanaPrefix ++ [x]) ++ post)
                    (ex_intro _ pre E)).
    rewrite <- app_assoc in Hr. exact (run_asanaUrlRegex_some x post [] Hx Hr).
  - intros H. destruct (collectAllAsanaUrls text) as [|url l] eqn:E; [reflexivity|].
    exfalso.
    assert (Hin : In url (collectAllAsanaUrls text)) by (rewrite E; left; reflexivity).
    apply collectAllAsanaUrls_In in Hin.
    destruct Hin as (rest & pre & post & -> & Hne & Hall & Et & _).
    destruct rest as [|x rest]; [contradiction|].
    simpl in Hall. apply andb_true_iff in Hall. destruct Hall as [Hx _].
    apply (H x Hx). exists pre, (rest ++ post). rewrite Et.
    rewrite <- !app_assoc. reflexivity.
Qed.

Lemma collectAllAsanaUrls_nil_iff_witness :
  collectAllAsanaUrls (str "See https://app.asana.com/ and https://example.com/1") = [] /\
  (forall x, urlChar x = true ->
     ~ isInfix (asanaPrefix ++ [x])
         (str "See https://app.asana.com/ and https://example.com/1")).
Proof.
  split; [vm_compute; reflexivity|].
  apply (proj1 (collectAllAsanaUrls_nil_iff
                  (str "See https://app.asana.com/ and https://example.com/1"))).
  vm_compute. reflexivity.
Defined.

(** ** A body that changes is counted *)

Lemma markdownStep_counts : forall taskInfoMap acc m,
  snd acc <= snd (markdownStep taskInfoMap acc m) /\
  (snd (markdownStep taskInfoMap acc m) = snd acc -> markdownStep taskInfoMap acc m = acc).
Proof.
  intros taskInfoMap [line n] m. unfold markdownStep.
  destruct (capture (m_groups m) 1) as [linkText|]; [|split; [lia | reflexivity]].
  destruct (capture (m_groups m) 2) as [asanaUrl|]; [|split; [lia | reflexivity]].
  destruct (Map_get taskInfoMap asanaUrl) as [taskInfo|]; [|split; [lia | reflexivity]].
  destruct (str_eqb linkText (title taskInfo) || includes linkText (str "["));
    cbn [snd]; split; lia.
Qed.

Lemma markdownPass_counts : forall taskInfoMap matches acc,
  snd acc <= snd (fold_left (markdownStep taskInfoMap) matches acc) /\
  (snd (fold_left (markdownStep taskInfoMap) matches acc) = snd acc ->
   fold_left (markdownStep taskInfoMap) matches acc = acc).
Proof.
  intros taskInfoMap. induction matches as [|m matches IH]; intros acc; cbn [fold_left].
  - split; [lia | reflexivity].
  - destruct (markdownStep_counts taskInfoMap acc m) as [H1 H2].
    destruct (IH (markdownStep taskInfoMap acc m)) as [H3 H4].
    split; [lia|]. intros E.
    assert (E1 : snd (markdownStep taskInfoMap acc m) = snd acc) by lia.
    rewrite H4 by lia. apply H2. exact E1.
Qed.

Lemma plainUrlLoop_counts :
  forall fuel url taskInfo updatedLine markdownIndices startIndex acc,
  let acc' := plainUrlLoop fuel url taskInfo updatedLine markdownIndices startIndex acc in
  snd acc <= snd acc' /\ (snd acc' = snd acc -> acc' = acc).
Proof.
  induction fuel as [|fuel IH];
    intros url taskInfo updatedLine markdownIndices startIndex acc; cbn zeta;
    cbn [plainUrlLoop]; [split; [lia | reflexivity]|].
  destruct (indexOf updatedLine url startIndex) as [urlIndex|]; [|split; [lia | reflexivity]].
  destruct (negb (isInMarkdownLink markdownIndices urlIndex (length url))).
  - match goal with |- context [plainUrlLoop fuel ?u ?t ?l ?mi ?si ?a] =>
      destruct (IH u t l mi si a) as [H1 H2] end.
    cbn [snd] in H1. split; lia.
  - apply IH.
Qed.

Lemma plainPass_counts : forall entries fuel updatedLine markdownIndices acc,
  let acc' :=
    fold_left
      (fun acc (entry : jsstring * TaskInfo) =>
         plainUrlLoop fuel (fst entry) (snd entry) updatedLine markdownIndices 0 acc)
      entries acc in
  snd acc <= snd acc' /\ (snd acc' = snd acc -> acc' = acc).
Proof.
  induction entries as [|entry entries IH]; intros fuel updatedLine markdownIndices acc;
    cbn zeta; cbn [fold_left]; [split; [lia | reflexivity]|].
  destruct (plainUrlLoop_counts fuel (fst entry) (snd entry) updatedLine markdownIndices 0 acc)
    as [H1 H2].
  match goal with |- context [fold_left ?f entries ?a] =>
    destruct (IH fuel updatedLine markdownIndices a) as [H3 H4] end.
  split; [lia|]. intros E. rewrite H4 by lia. apply H2. lia.
Qed.

Lemma processLine_counts : forall taskInfoMap line n,
  n <= snd (processLine taskInfoMap line n) /\
  (snd (processLine taskInfoMap line n) = n -> processLine taskInfoMap line n = (line, n)).
Proof.
  intros taskInfoMap line n. unfold processLine.
  destruct (markdownPass_counts taskInfoMap (matchAll line markdownRegex) (line, n)) as [H1 H2].
  set (acc := fold_left (markdownStep taskInfoMap) (matchAll line markdownRegex) (line, n)) in *.
  destruct (plainPass_counts taskInfoMap (S (length (fst acc))) (fst acc)
              (findMarkdownLinkIndices (fst acc)) acc) as [H3 H4].
  cbn zeta in H3, H4. cbn [snd] in H1, H2. split; [lia|].
  intros E. rewrite H4 by lia. apply H2. lia.
Qed.

Lemma processLines_counts : forall taskInfoMap lines n,
  n <= snd (processLines taskInfoMap lines n) /\
  (snd (processLines taskInfoMap lines n) = n ->
   processLines taskInfoMap lines n = (lines, n)).
Proof.
  intros taskInfoMap. induction lines as [|line lines IH]; intros n; cbn [processLines].
  - cbn [snd]. split; [lia | reflexivity].
  - destruct (processLine_counts taskInfoMap line n) as [H1 H2].
    destruct (processLine taskInfoMap line n) as [line' n1].
    destruct (IH n1) as [H3 H4].
    destruct (processLines taskInfoMap lines n1) as [rest' n2].
    cbn [snd] in *. split; [lia|]. intros E. subst n2.
    assert (E1 : n1 = n) by lia. subst n1.
    specialize (H2 eq_refl). specialize (H4 eq_refl).
    injection H2 as ->. injection H4 as ->. reflexivity.
Qed.

Lemma rewriteBody_counts : forall taskInfoMap text,
  changesApplied (rewriteBody taskInfoMap text)
  = (0 <? updatedCount (rewriteBody taskInfoMap text)) /\
  (updatedCount (rewriteBody taskInfoMap text) = 0 ->
   body (rewriteBody taskInfoMap text) = text).
Proof.
  intros taskInfoMap text. unfold rewriteBody.
  destruct (Nat.eqb (length taskInfoMap) 0); [split; reflexivity|].
  destruct (processLines_counts taskInfoMap (split1 LF text) 0) as [_ H].
  destruct (processLines taskInfoMap (split1 LF text) 0) as [lines n].
  cbn [snd body changesApplied updatedCount] in *. split; [reflexivity|].
  intros ->. specialize (H eq_refl). injection H as ->. apply join_split1.
Qed.

(** X4.  [changesApplied] says whether [updatedCount] is positive, and a
    call that reports no change returns the body it was given: no text is
    rewritten without being counted. *)
Theorem unreported_body_is_unchanged :
  forall (World : Type) (fetch : jsstring -> World -> option jsstring * World)
         (text : jsstring) (w : World),
    changesApplied (fst (transformPRBody fetch text w)) = false ->
    updatedCount (fst (transformPRBody fetch text w)) = 0 /\
    body (fst (transformPRBody fetch text w)) = text.
Proof.
  intros World fetch text w H. rewrite transformPRBody_rewrite in *.
  destruct (rewriteBody_counts
              (fst (resolveAll fetch (TaskGIDs.newSet (collectAllAsanaUrls text)) w)) text)
    as [H1 H2].
  rewrite H1 in H. apply Nat.ltb_ge in H.
  assert (E : updatedCount
                (rewriteBody
                   (fst (resolveAll fetch (TaskGIDs.newSet (collectAllAsanaUrls text)) w))
                   text) = 0) by lia.
  split; [exact E | exact (H2 E)].
Qed.

Lemma unreported_body_is_unchanged_witness :
  changesApplied
    (fst (transformPRBody failingFetch (str "See https://app.asana.com/0/1/2") tt)) = false /\
  updatedCount
    (fst (transformPRBody failingFetch (str "See https://app.asana.com/0/1/2") tt)) = 0 /\
  body (fst (transformPRBody failingFetch (str "See https://app.asana.com/0/1/2") tt))
  = str "See https://app.asana.com/0/1/2".
Proof.
  split; [vm_compute; reflexivity|].
  apply (unreported_body_is_unchanged unit failingFetch
           (str "See https://app.asana.com/0/1/2") tt).
  vm_compute. reflexivity.
Defined.

(** In every result [changesApplied] is true exactly when [updatedCount]
    is positive. *)
Lemma changesApplied_iff_counted :
  forall (World : Type) (fetch : jsstring -> World -> option jsstring * World)
         (text : jsstring) (w : World),
    changesApplied (fst (transformPRBody fetch text w))
    = (0 <? updatedCount (fst (transformPRBody fetch text w))).
Proof.
  intros World fetch text w. rewrite transformPRBody_rewrite. apply rewriteBody_counts.
Qed.

(** ** The entries of the task map *)

Lemma Map_set_keys : forall m k v,
  map fst (Map_set m k v) = if Map_has m k then map fst m else map fst m ++ [k].
Proof.
  unfold Map_has. induction m as [|[k0 v0] m IH]; intros k v; simpl; [reflexivity|].
  destruct (str_eqb k k0) eqn:E; [reflexivity|].
  simpl. rewrite IH. destruct (Map_get m k); reflexivity.
Qed.

Lemma Map_has_key : forall m k, Map_has m k = true <-> In k (map fst m).
Proof.
  unfold Map_has. induction m as [|[k0 v0] m IH]; intros k; simpl.
  - split; [discriminate | intros []].
  - destruct (str_eqb k k0) eqn:E.
    + apply str_eqb_eq in E. subst. split; [left; reflexivity | reflexivity].
    + rewrite IH. split; [right; assumption|]. intros [E0 | H]; [|exact H].
      subst k0. rewrite str_eqb_refl in E. discriminate.
Qed.

Lemma Map_set_NoDup : forall m k v,
  NoDup (map fst m) -> NoDup (map fst (Map_set m k v)).
Proof.
  intros m k v H. rewrite Map_set_keys. destruct (Map_has m k) eqn:E; [exact H|].
  apply NoDup_app; [exact H | repeat constructor; intros [] |].
  intros x Hx [<- | []]. apply Map_has_key in Hx. rewrite Hx in E. discriminate.
Qed.

Lemma resolveAll_NoDup :
  forall (World : Type) (fetch : jsstring -> World -> option jsstring * World) urls
         (m : TaskInfoMap) w,
    NoDup (map fst m) -> NoDup (map fst (fst (fold_left (resolveUrl fetch) urls (m, w)))).
Proof.
  intros World fetch. induction urls as [|u urls IH]; intros m w H; cbn [fold_left].
  - exact H.
  - destruct (resolveUrl fetch (m, w) u) as [m1 w1] eqn:Er. apply IH.
    destruct (resolveUrl_cases World fetch m w u) as [E | (taskId & t & _ & _ & E)];
      rewrite Er in E; cbn [fst] in E; subst m1; [exact H|].
    apply Map_set_NoDup. exact H.
Qed.

(** X5.  The task map of a call: every entry is for a URL collected from
    the body, with the one identifier extracted from that URL, a title the
    lookup returned for this identifier, and the sanitized form of this
    title; and no URL has two entries. *)
Theorem resolvedMap_entries :
  forall (World : Type) (fetch : jsstring -> World -> option jsstring * World)
         (text : jsstring) (w : World),
    NoDup (resolvedUrls fetch text w) /\
    forall url info,
      In (url, info) (resolvedMap fetch text w) ->
      In url (collectAllAsanaUrls text) /\
      TaskGIDs.getAsanaTaskGIDsFromText url = [id info] /\
      (exists w0, fst (fetch (id info) w0) = Some (title info)) /\
      safeTitle info = sanitizeTitleForMarkdown (title info).
Proof.
  intros World fetch text w. split.
  - unfold resolvedUrls, resolvedMap, resolveAll. apply resolveAll_NoDup. constructor.
  - intros url info H. unfold resolvedMap in H.
    apply resolveAll_entries in H. destruct H as (H1 & H2 & H3 & H4).
    apply (proj1 (newSet_In _ _)) in H1. repeat split; assumption.
Qed.

Lemma resolvedMap_entries_witness :
  In (str "https://app.asana.com/0/1/2") (collectAllAsanaUrls (str "See https://app.asana.com/0/1/2")) /\
  TaskGIDs.getAsanaTaskGIDsFromText (str "https://app.asana.com/0/1/2")
  = [id (mkTaskInfo (str "2") (str "[T]") (str "(T)"))] /\
  (exists w0, fst (pureFetch (oneTask (str "2") (str "[T]"))
                     (id (mkTaskInfo (str "2") (str "[T]") (str "(T)"))) w0)
              = Some (title (mkTaskInfo (str "2") (str "[T]") (str "(T)")))) /\
  safeTitle (mkTaskInfo (str "2") (str "[T]") (str "(T)"))
  = sanitizeTitleForMarkdown (title (mkTaskInfo (str "2") (str "[T]") (str "(T)"))).
Proof.
  apply (proj2 (resolvedMap_entries unit (pureFetch (oneTask (str "2") (str "[T]")))
                  (str "See https://app.asana.com/0/1/2") tt)
           (str "https://app.asana.com/0/1/2") (mkTaskInfo (str "2") (str "[T]") (str "(T)"))).
  vm_compute. left. reflexivity.
Defined.

(** ** A link whose label is out of date *)

Lemma getSubstitution_plain : forall matched before after template,
  hasChar (ch "$") template = false ->
  getSubstitution matched before after template = template.
Proof.
  intros matched before after. induction template as [|c t IH]; intros H; [reflexivity|].
  unfold hasChar in H. cbn [existsb] in H. apply orb_false_iff in H. destruct H as [Hc Ht].
  cbn [getSubstitution]. rewrite N.eqb_sym, Hc. f_equal. apply IH. exact Ht.
Qed.

Lemma String_replace_first : forall pre x pat post replacement,
  hasChar x pre = false -> hasChar (ch "$") replacement = false ->
  String_replace (pre ++ (x :: pat) ++ post) (x :: pat) replacement
  = pre ++ replacement ++ post.
Proof.
  intros pre x pat post replacement Hpre Hrep. unfold String_replace, indexOf.
  cbn [Nat.min skipn].
  rewrite indexOfAux_skip by exact Hpre.
  assert (Es : startsWith (x :: pat) ((x :: pat) ++ post) = true) by apply startsWith_app.
  assert (Ei : indexOfAux (x :: pat) ((x :: pat) ++ post) (0 + length pre)
               = Some (0 + length pre)).
  { destruct ((x :: pat) ++ post) eqn:E; [discriminate|].
    cbn [indexOfAux]. rewrite Es. reflexivity. }
  rewrite Ei. cbn [Nat.add].
  rewrite getSubstitution_plain by exact Hrep.
  assert (E1 : firstn (length pre) (pre ++ (x :: pat) ++ post) = pre).
  { rewrite firstn_app, firstn_all, Nat.sub_diag. cbn [firstn]. apply app_nil_r. }
  assert (E2 : skipn (length pre + length (x :: pat)) (pre ++ (x :: pat) ++ post) = post).
  { rewrite app_assoc, <- length_app, skipn_app, skipn_all, Nat.sub_diag. reflexivity. }
  rewrite E1, E2. reflexivity.
Qed.

Lemma includes_char_false : forall x s, hasChar x s = false -> includes s [x] = false.
Proof.
  intros x s H. destruct (includes s [x]) eqn:E; [|reflexivity].
  apply includes_true in E. destruct E as (pre & post & ->).
  rewrite !hasChar_app in H. simpl in H. rewrite N.eqb_refl in H.
  rewrite orb_true_r in H. discriminate.
Qed.

(** X6.  A link of a line whose target is resolved and whose label is
    neither the fetched title nor holds a [[] is replaced by the link with
    the sanitized title, and counted once: when the fetched title is not
    empty, the link is the only thing of the line that matters (the only
    [[] of the line is its own and no resolved URL occurs outside the
    link) and neither the title nor the URL holds a dollar sign, which
    the replacement would read as a pattern.  The label is not empty and
    has no []], the target is [https://app.asana.com/] and at least one
    code unit more, none of them [)], and the entry of the map has the
    sanitized title of its title, as the entries that [transformPRBody]
    makes have.  With an empty title the new link has an empty label and
    is not read as a link afterwards: see the example below. *)
Theorem stale_label_is_replaced :
  forall (taskInfoMap : TaskInfoMap) (taskInfo : TaskInfo)
         (pre label rest post : jsstring) (n : nat),
    label <> [] -> hasChar (ch "]") label = false -> hasChar (ch "[") label = false ->
    rest <> [] -> hasChar (ch ")") rest = false -> hasChar (ch "$") rest = false ->
    hasChar (ch "[") pre = false -> hasChar (ch "[") post = false ->
    Map_get taskInfoMap (asanaPrefix ++ rest) = Some taskInfo ->
    label <> title taskInfo ->
    title taskInfo <> [] ->
    safeTitle taskInfo = sanitizeTitleForMarkdown (title taskInfo) ->
    hasChar (ch "$") (title taskInfo) = false ->
    forallb (fun u => occurrencesWithin u
                        (pre ++ markdownLink (safeTitle taskInfo) (asanaPrefix ++ rest) ++ post)
                        (length pre)
                        (length pre
                         + length (markdownLink (safeTitle taskInfo) (asanaPrefix ++ rest))))
            (map fst taskInfoMap) = true ->
    processLine taskInfoMap (pre ++ markdownLink label (asanaPrefix ++ rest) ++ post) n
    = (pre ++ markdownLink (safeTitle taskInfo) (asanaPrefix ++ rest) ++ post, S n).
Proof.
  intros taskInfoMap taskInfo pre label rest post n
    Hlabel Hlabel' Hlabel'' Hrest Hrest' Hrest'' Hpre Hpost Hget Hstale Htitle Hsafe Hdollar Hocc.
  destruct (sanitizeTitleForMarkdown_no_brackets (title taskInfo)) as [_ Hs2].
  assert (Hs0 : safeTitle taskInfo <> []).
  { rewrite Hsafe. intros E. apply (f_equal (@length char)) in E.
    rewrite sanitizeTitleForMarkdown_length in E.
    destruct (title taskInfo); [contradiction | discriminate]. }
  assert (Hs3 : hasChar (ch "$") (safeTitle taskInfo) = false).
  { rewrite Hsafe. apply sanitizeTitleForMarkdown_keeps_out;
      [reflexivity | exact Hdollar]. }
  unfold processLine.
  rewrite markdownRegex_link, matchAll_single_link;
    [|assumption..|apply asanaTarget_reads; assumption].
  cbn [fold_left]. unfold markdownStep. cbn [m_groups m_full capture Nat.eqb].
  rewrite Hget.
  assert (E1 : str_eqb label (title taskInfo) = false).
  { destruct (str_eqb label (title taskInfo)) eqn:E; [|reflexivity].
    apply str_eqb_eq in E. contradiction. }
  rewrite E1. change (str "[") with [ch "["]. rewrite includes_char_false by exact Hlabel''.
  cbn [orb].
  rewrite (markdownLink_cons label). rewrite String_replace_first.
  - cbn [fst]. rewrite findMarkdownLinkIndices_single_link;
      [| exact Hpre | exact Hpost | exact Hs0 | rewrite Hsafe; exact Hs2
       | apply asanaUrl_not_nil | apply asanaUrl_no_paren; exact Hrest'].
    apply plainPass_all_inside.
    intros url i Hin Hi. rewrite forallb_forall in Hocc.
    destruct (occurrencesWithin_spec _ _ _ _ (Hocc _ Hin) _ Hi) as [H1 H2].
    apply isInMarkdownLink_one; assumption.
  - exact Hpre.
  - apply markdownLink_keeps_out; [reflexivity | exact Hs3 |].
    rewrite hasChar_app, Hrest''. reflexivity.
Qed.

Lemma stale_label_is_replaced_witness :
  processLine [(str "https://app.asana.com/0/1/2",
                mkTaskInfo (str "2") (str "New [title]") (str "New (title)"))]
    (str "Check this: " ++ markdownLink (str "Old") (asanaPrefix ++ str "0/1/2") ++ str " today") 0
  = (str "Check this: " ++ markdownLink (str "New (title)") (asanaPrefix ++ str "0/1/2")
       ++ str " today", 1).
Proof.
  apply (stale_label_is_replaced
           [(str "https://app.asana.com/0/1/2",
             mkTaskInfo (str "2") (str "New [title]") (str "New (title)"))]
           (mkTaskInfo (str "2") (str "New [title]") (str "New (title)"))
           (str "Check this: ") (str "Old") (str "0/1/2") (str " today") 0);
    try discriminate; try reflexivity.
Defined.

(** An empty title: the link [[](url)] that replaces the old one is not
    among the links of [findMarkdownLinkIndices], whose labels have a code
    unit at least, so its target is linked once more inside it. *)
Example stale_label_with_empty_title :
  transformLogged (pureFetch (oneTask (str "2") []))
    (str "Fixes [old name](https://app.asana.com/0/1/2)") tt
  = (mkResult (str "Fixes []([](https://app.asana.com/0/1/2))") true 2, [str "2"]).
Proof. vm_compute. reflexivity. Qed.

(** ** The first extraction rule covers the second, third and fifth *)

Lemma run_Seq_some : forall r1 r2 s c st1,
  In st1 (run r1 s c) -> run r2 (fst st1) (snd st1) <> [] -> run (Seq r1 r2) s c <> [].
Proof.
  intros r1 r2 s c st1 H1 H2 E.
  destruct (run r2 (fst st1) (snd st1)) as [|st l] eqn:E2; [contradiction|].
  assert (Hin : In st (run (Seq r1 r2) s c)).
  { cbn [run]. apply in_flat_map. exists st1. split; [exact H1 | rewrite E2; left; reflexivity]. }
  rewrite E in Hin. destruct Hin.
Qed.

Lemma run_Lit_In : forall p s c st,
  In st (run (Lit p) s c) -> s = p ++ fst st /\ snd st = c.
Proof.
  intros p s c st H. rewrite run_Lit in H.
  destruct (startsWith p s) eqn:E; [|destruct H]. destruct H as [<- | []].
  apply startsWith_spec in E. destruct E as [post ->].
  rewrite skipn_app, skipn_all, Nat.sub_diag. split; reflexivity.
Qed.

(** What a run of one class has consumed, greedy or lazy. *)
Lemma run_Star_Cls_In : forall greedy p s c st,
  In st (run (Star greedy (Cls p)) s c) ->
  exists t, forallb p t = true /\ s = t ++ fst st /\ snd st = c.
Proof.
  intros greedy p s. induction s as [|x s IH]; intros c st H; rewrite run_Star_unfold in H.
  - cbn [run flat_map app] in H.
    assert (H' : st = ([], c)) by (destruct greedy; destruct H as [<- | []]; reflexivity).
    subst st. exists []. repeat split.
  - cbn [run] in H. destruct (p x) eqn:Ex.
    + cbn [flat_map fst snd] in H.
      assert (El : (length s <? length (x :: s)) = true) by (apply Nat.ltb_lt; simpl; lia).
      rewrite El, app_nil_r in H.
      assert (H' : In st (run (Star greedy (Cls p)) s c) \/ st = (x :: s, c)).
      { destruct greedy.
        - apply in_app_or in H. destruct H as [H | [<- | []]]; [left; exact H | right; reflexivity].
        - destruct H as [<- | H]; [right; reflexivity | left; exact H]. }
      destruct H' as [H' | ->].
      * destruct (IH _ _ H') as (t & Ht & Es & Ec).
        exists (x :: t). simpl. rewrite Ex, Ht. repeat split; [f_equal; exact Es | exact Ec].
      * exists []. repeat split.
    + cbn [flat_map app] in H.
      assert (H' : st = (x :: s, c)) by (destruct greedy; destruct H as [<- | []]; reflexivity).
      subst st. exists []. repeat split.
Qed.

(** A run of one class can stop after any part of it. *)
Lemma run_Star_Cls_any : forall greedy p xs rest c,
  forallb p xs = true -> In (rest, c) (run (Star greedy (Cls p)) (xs ++ rest) c).
Proof.
  intros greedy p xs rest c. induction xs as [|x xs IH]; intros H; rewrite run_Star_unfold.
  - cbn [app]. destruct greedy; [apply in_or_app; right|]; left; reflexivity.
  - cbn [forallb] in H. apply andb_true_iff in H. destruct H as [Hx Hxs].
    cbn [app run]. rewrite Hx. cbn [flat_map fst snd].
    assert (El : (length (xs ++ rest) <? length (x :: xs ++ rest)) = true)
      by (apply Nat.ltb_lt; simpl; lia).
    rewrite El, app_nil_r.
    destruct greedy; [apply in_or_app; left | right]; exact (IH Hxs).
Qed.

Lemma run_Plus_Cls_some : forall p d s c, p d = true -> run (Plus (Cls p)) (d :: s) c <> [].
Proof.
  intros p d s c Hd E.
  destruct (span_spec p s) as (E1 & E2 & E3).
  assert (Hh := hd_run_Plus_Cls p (d :: fst (span p s)) (snd (span p s)) c ltac:(discriminate)).
  cbn [forallb] in Hh. rewrite Hd, E2 in Hh. specialize (Hh eq_refl E3).
  cbn [app] in Hh. rewrite <- E1, E in Hh. discriminate.
Qed.

Lemma isDigit_dot : forall d, isDigit d = true -> dot d = true.
Proof.
  intros d H. unfold isDigit in H. apply andb_true_iff in H. destruct H as [H1 H2].
  apply N.leb_le in H1. apply N.leb_le in H2.
  unfold dot, isLineTerminator.
  assert (E1 : N.eqb d 10 = false) by (apply N.eqb_neq; lia).
  assert (E2 : N.eqb d 13 = false) by (apply N.eqb_neq; lia).
  assert (E3 : N.eqb d 8232 = false) by (apply N.eqb_neq; lia).
  assert (E4 : N.eqb d 8233 = false) by (apply N.eqb_neq; lia).
  rewrite E1, E2, E3, E4. reflexivity.
Qed.

Lemma forallb_isDigit_dot : forall ds, forallb isDigit ds = true -> forallb dot ds = true.
Proof.
  induction ds as [|d ds IH]; intros H; [reflexivity|].
  cbn [forallb] in *. apply andb_true_iff in H. destruct H as [Hd Hds].
  rewrite (isDigit_dot _ Hd), (IH Hds). reflexivity.
Qed.

(** What comes after the host in the first pattern matches whenever a run
    of code units other than line terminators is followed by [/task/] or
    [/item/] and a digit. *)
Lemma afterHost_taskItem_some : forall mid kw ds rest c,
  forallb dot mid = true -> kw = str "task" \/ kw = str "item" ->
  ds <> [] -> forallb isDigit ds = true ->
  run (Cat [Star false (Cls dot); Chr (ch "/");
            Alt (Lit (str "task")) (Lit (str "item")); Chr (ch "/");
            Grp TaskGIDs.taskGID TaskGIDs.digits])
      (mid ++ ch "/" :: kw ++ ch "/" :: ds ++ rest) c <> [].
Proof.
  intros mid kw ds rest c Hmid Hkw Hne Hds. unfold Cat. cbn [fold_right].
  apply run_Seq_some with (st1 := (ch "/" :: kw ++ ch "/" :: ds ++ rest, c)).
  { apply run_Star_Cls_any. exact Hmid. }
  cbn [fst snd].
  apply run_Seq_some with (st1 := (kw ++ ch "/" :: ds ++ rest, c)).
  { cbn [run Chr]. rewrite N.eqb_refl. left. reflexivity. }
  cbn [fst snd].
  apply run_Seq_some with (st1 := (ch "/" :: ds ++ rest, c)).
  { rewrite run_Alt. apply in_or_app.
    destruct Hkw as [-> | ->]; [left | right]; rewrite run_Lit_app; left; reflexivity. }
  cbn [fst snd].
  apply run_Seq_some with (st1 := (ds ++ rest, c)).
  { cbn [run Chr]. rewrite N.eqb_refl. left. reflexivity. }
  cbn [fst snd].
  destruct ds as [|d ds]; [contradiction|].
  cbn [forallb] in Hds. apply andb_true_iff in Hds. destruct Hds as [Hd _].
  assert (Hp := run_Plus_Cls_some isDigit d (ds ++ rest) c Hd).
  cbn [run] in Hp |- *. fold (Plus (Cls isDigit)) in Hp. unfold TaskGIDs.digits.
  destruct (run (Plus (Cls isDigit)) (d :: ds ++ rest) c) as [|st l] eqn:E; [contradiction|].
  cbn [app]. rewrite E. cbn [map flat_map]. discriminate.
Qed.

Ltac split_run H :=
  repeat (let st := fresh "st" in let H1 := fresh "H" in
          apply run_Seq_In in H; destruct H as (st & H1 & H)).

Lemma forallb_app_true : forall (p : char -> bool) a b,
  forallb p a = true -> forallb p b = true -> forallb p (a ++ b) = true.
Proof. intros p a b Ha Hb. rewrite forallb_app, Ha, Hb. reflexivity. Qed.

Lemma afterHost_projectTask_taskItem : forall s c,
  run (Cat [Star false (Cls dot); Lit (str "/project/"); TaskGIDs.digits;
            Lit (str "/task/"); Grp TaskGIDs.taskGID TaskGIDs.digits]) s c <> [] ->
  run (Cat [Star false (Cls dot); Chr (ch "/");
            Alt (Lit (str "task")) (Lit (str "item")); Chr (ch "/");
            Grp TaskGIDs.taskGID TaskGIDs.digits]) s c <> [].
Proof.
  intros s c H.
  destruct (run (Cat [Star false (Cls dot); Lit (str "/project/"); TaskGIDs.digits;
                      Lit (str "/task/"); Grp TaskGIDs.taskGID TaskGIDs.digits]) s c)
    as [|st l] eqn:E; [contradiction|]. clear H.
  assert (Hin : In st (run (Cat [Star false (Cls dot); Lit (str "/project/"); TaskGIDs.digits;
                      Lit (str "/task/"); Grp TaskGIDs.taskGID TaskGIDs.digits]) s c))
    by (rewrite E; left; reflexivity).
  clear E. unfold Cat in Hin. cbn [fold_right] in Hin. split_run Hin.
  apply run_Star_Cls_In in H. destruct H as (mid & Hmid & -> & _).
  apply run_Lit_In in H0. destruct H0 as [E0 _].
  apply run_Plus_Cls_consumed in H1. destruct H1 as (d1 & _ & Hd1 & E1 & _).
  apply run_Lit_In in H2. destruct H2 as [E2 _].
  apply run_Grp_In in H3. destruct H3 as (st' & H3 & E3).
  apply run_Plus_Cls_consumed in H3. destruct H3 as (d2 & Hne & Hd2 & E4 & _).
  rewrite E0, E1, E2, E4.
  replace (mid ++ str "/project/" ++ d1 ++ str "/task/" ++ d2 ++ fst st')
    with ((mid ++ str "/project/" ++ d1) ++ ch "/" :: str "task" ++ ch "/" :: d2 ++ fst st')
    by (rewrite <- !app_assoc; reflexivity).
  apply afterHost_taskItem_some; [|left; reflexivity | exact Hne | exact Hd2].
  apply forallb_app_true; [exact Hmid|].
  apply forallb_app_true; [reflexivity | apply forallb_isDigit_dot; exact Hd1].
Qed.

Lemma afterHost_workspace_taskItem : forall s c,
  run (Cat [Chr (ch "/"); TaskGIDs.digits; Chr (ch "/"); TaskGIDs.digits;
            Lit (str "/project/"); TaskGIDs.digits;
            Lit (str "/task/"); Grp TaskGIDs.taskGID TaskGIDs.digits]) s c <> [] ->
  run (Cat [Star false (Cls dot); Chr (ch "/");
            Alt (Lit (str "task")) (Lit (str "item")); Chr (ch "/");
            Grp TaskGIDs.taskGID TaskGIDs.digits]) s c <> [].
Proof.
  intros s c H.
  destruct (run (Cat [Chr (ch "/"); TaskGIDs.digits; Chr (ch "/"); TaskGIDs.digits;
                      Lit (str "/project/"); TaskGIDs.digits;
                      Lit (str "/task/"); Grp TaskGIDs.taskGID TaskGIDs.digits]) s c)
    as [|st l] eqn:E; [contradiction|]. clear H.
  assert (Hin : In st (run (Cat [Chr (ch "/"); TaskGIDs.digits; Chr (ch "/"); TaskGIDs.digits;
                      Lit (str "/project/"); TaskGIDs.digits;
                      Lit (str "/task/"); Grp TaskGIDs.taskGID TaskGIDs.digits]) s c))
    by (rewrite E; left; reflexivity).
  clear E. unfold Cat in Hin. cbn [fold_right] in Hin. split_run Hin.
  apply run_Chr_In in H. subst s.
  apply run_Plus_Cls_consumed in H0. destruct H0 as (d1 & _ & Hd1 & E1 & _).
  apply run_Chr_In in H1.
  apply run_Plus_Cls_consumed in H2. destruct H2 as (d2 & _ & Hd2 & E2 & _).
  apply run_Lit_In in H3. destruct H3 as [E3 _].
  apply run_Plus_Cls_consumed in H4. destruct H4 as (d3 & _ & Hd3 & E4 & _).
  apply run_Lit_In in H5. destruct H5 as [E5 _].
  apply run_Grp_In in H6. destruct H6 as (st' & H6 & E6).
  apply run_Plus_Cls_consumed in H6. destruct H6 as (d4 & Hne & Hd4 & E7 & _).
  rewrite E1, H1, E2, E3, E4, E5, E7.
  replace (ch "/" :: d1 ++ ch "/" :: d2 ++ str "/project/" ++ d3 ++ str "/task/" ++ d4 ++ fst st')
    with ((ch "/" :: d1 ++ ch "/" :: d2 ++ str "/project/" ++ d3)
          ++ ch "/" :: str "task" ++ ch "/" :: d4 ++ fst st').
  2:{ cbn [app]. f_equal. rewrite <- !app_assoc. cbn [app]. f_equal. f_equal.
      rewrite <- !app_assoc. reflexivity. }
  apply afterHost_taskItem_some; [|left; reflexivity | exact Hne | exact Hd4].
  cbn [forallb]. apply andb_true_iff. split; [reflexivity|].
  apply forallb_app_true; [apply forallb_isDigit_dot; exact Hd1|].
  cbn [forallb]. apply andb_true_iff. split; [reflexivity|].
  apply forallb_app_true; [apply forallb_isDigit_dot; exact Hd2|].
  apply forallb_app_true; [reflexivity | apply forallb_isDigit_dot; exact Hd3].
Qed.

Lemma afterHost_inboxItem_taskItem : forall s c,
  run (Cat [Lit (str "/inbox/"); TaskGIDs.digits; Lit (str "/item/");
            Grp TaskGIDs.taskGID TaskGIDs.digits]) s c <> [] ->
  run (Cat [Star false (Cls dot); Chr (ch "/");
            Alt (Lit (str "task")) (Lit (str "item")); Chr (ch "/");
            Grp TaskGIDs.taskGID TaskGIDs.digits]) s c <> [].
Proof.
  intros s c H.
  destruct (run (Cat [Lit (str "/inbox/"); TaskGIDs.digits; Lit (str "/item/");
                      Grp TaskGIDs.taskGID TaskGIDs.digits]) s c)
    as [|st l] eqn:E; [contradiction|]. clear H.
  assert (Hin : In st (run (Cat [Lit (str "/inbox/"); TaskGIDs.digits; Lit (str "/item/");
                      Grp TaskGIDs.taskGID TaskGIDs.digits]) s c))
    by (rewrite E; left; reflexivity).
  clear E. unfold Cat in Hin. cbn [fold_right] in Hin. split_run Hin.
  apply run_Lit_In in H. destruct H as [E0 _].
  apply run_Plus_Cls_consumed in H0. destruct H0 as (d1 & _ & Hd1 & E1 & _).
  apply run_Lit_In in H1. destruct H1 as [E2 _].
  apply run_Grp_In in H2. destruct H2 as (st' & H2 & E3).
  apply run_Plus_Cls_consumed in H2. destruct H2 as (d2 & Hne & Hd2 & E4 & _).
  rewrite E0, E1, E2, E4.
  replace (str "/inbox/" ++ d1 ++ str "/item/" ++ d2 ++ fst st')
    with ((str "/inbox/" ++ d1) ++ ch "/" :: str "item" ++ ch "/" :: d2 ++ fst st')
    by (rewrite <- !app_assoc; reflexivity).
  apply afterHost_taskItem_some; [|right; reflexivity | exact Hne | exact Hd2].
  apply forallb_app_true; [reflexivity | apply forallb_isDigit_dot; exact Hd1].
Qed.

(** A pattern that goes on after the host as the first one can finds
    nothing where the first one finds nothing. *)
Lemma String_match_covered : forall after line,
  (forall s c,
     run after s c <> [] ->
     run (Cat [Star false (Cls dot); Chr (ch "/");
               Alt (Lit (str "task")) (Lit (str "item")); Chr (ch "/");
               Grp TaskGIDs.taskGID TaskGIDs.digits]) s c <> []) ->
  String_match line TaskGIDs.reTaskItem = None ->
  String_match line (Seq TaskGIDs.hostAnyDot after) = None.
Proof.
  intros after line Hcov H. unfold String_match in *.
  apply search_none_run. intros s' Hs'.
  assert (Hr := search_None_run _ _ _ H s' Hs').
  change TaskGIDs.reTaskItem with
    (Seq TaskGIDs.hostAnyDot
       (Cat [Star false (Cls dot); Chr (ch "/");
             Alt (Lit (str "task")) (Lit (str "item")); Chr (ch "/");
             Grp TaskGIDs.taskGID TaskGIDs.digits])) in Hr.
  cbn [run] in Hr |- *. apply flat_map_nil. intros st1 H1.
  destruct (run after (fst st1) (snd st1)) as [|st l] eqn:E; [reflexivity|].
  exfalso. apply (Hcov (fst st1) (snd st1)); [rewrite E; discriminate|].
  destruct (run (Cat [Star false (Cls dot); Chr (ch "/");
             Alt (Lit (str "task")) (Lit (str "item")); Chr (ch "/");
             Grp TaskGIDs.taskGID TaskGIDs.digits]) (fst st1) (snd st1)) as [|st' l'] eqn:E';
    [reflexivity|].
  exfalso.
  assert (Hin : In st' (flat_map
                         (fun st0 : mstate =>
                            run (Cat [Star false (Cls dot); Chr (ch "/");
                                      Alt (Lit (str "task")) (Lit (str "item")); Chr (ch "/");
                                      Grp TaskGIDs.taskGID TaskGIDs.digits]) (fst st0) (snd st0))
                         (run TaskGIDs.hostAnyDot s' []))).
  { apply in_flat_map. exists st1. split; [exact H1 | rewrite E'; left; reflexivity]. }
  rewrite Hr in Hin. destruct Hin.
Qed.

Lemma matchLine_rules : forall line,
  (String_match line TaskGIDs.reTaskItem = None ->
   String_match line TaskGIDs.reProjectTask = None /\
   String_match line TaskGIDs.reWorkspaceProjectTask = None /\
   String_match line TaskGIDs.reInboxItem = None) /\
  TaskGIDs.matchLine line =
  match String_match line TaskGIDs.reTaskItem with
  | Some m => Some m
  | None =>
      if includes line (str "/task/") then None else String_match line TaskGIDs.reV0
  end.
Proof.
  intros line.
  assert (Hsub : String_match line TaskGIDs.reTaskItem = None ->
                 String_match line TaskGIDs.reProjectTask = None /\
                 String_match line TaskGIDs.reWorkspaceProjectTask = None /\
                 String_match line TaskGIDs.reInboxItem = None).
  { intros H. repeat split.
    - exact (String_match_covered _ line afterHost_projectTask_taskItem H).
    - exact (String_match_covered _ line afterHost_workspace_taskItem H).
    - exact (String_match_covered _ line afterHost_inboxItem_taskItem H). }
  split; [exact Hsub|].
  unfold TaskGIDs.matchLine.
  destruct (String_match line TaskGIDs.reTaskItem) as [m|]; [reflexivity|].
  destruct (Hsub eq_refl) as (E2 & E3 & E5). rewrite E2, E3, E5. cbn [TaskGIDs.isNull].
  destruct (String_match line TaskGIDs.reV0) as [m4|],
           (includes line (str "/task/")); reflexivity.
Qed.

(** X7.  The second, the third and the fifth pattern never decide: on a
    line where the first pattern ([.../task/<id>] or [.../item/<id>])
    finds nothing they find nothing either, so the result for a line is
    that of the first pattern or else that of the legacy pattern with its
    guard. *)
Theorem matchLine_two_rules : forall line,
  (String_match line TaskGIDs.reTaskItem = None ->
   String_match line TaskGIDs.reProjectTask = None /\
   String_match line TaskGIDs.reWorkspaceProjectTask = None /\
   String_match line TaskGIDs.reInboxItem = None) /\
  TaskGIDs.matchLine line =
  match String_match line TaskGIDs.reTaskItem with
  | Some m => Some m
  | None =>
      if includes line (str "/task/") then None else String_match line TaskGIDs.reV0
  end.
Proof. exact matchLine_rules. Qed.

Lemma matchLine_two_rules_witness :
  String_match (str "https://app.asana.com/0/1/2") TaskGIDs.reProjectTask = None /\
  String_match (str "https://app.asana.com/0/1/2") TaskGIDs.reWorkspaceProjectTask = None /\
  String_match (str "https://app.asana.com/0/1/2") TaskGIDs.reInboxItem = None.
Proof.
  apply (proj1 (matchLine_two_rules (str "https://app.asana.com/0/1/2"))).
  vm_compute. reflexivity.
Defined.

(** ** A task URL gives the identifier of the task *)

Lemma lazy_skip : forall p (k : mstate -> list mstate) xs rest c,
  forallb p xs = true ->
  (forall j, j < length xs -> k (skipn j (xs ++ rest), c) = []) ->
  hd_error (flat_map k (run (Star false (Cls p)) (xs ++ rest) c))
  = hd_error (flat_map k (run (Star false (Cls p)) rest c)).
Proof.
  intros p k xs rest c. induction xs as [|x xs IH]; intros Hp Hk; [reflexivity|].
  cbn [forallb] in Hp. apply andb_true_iff in Hp. destruct Hp as [Hx Hxs].
  rewrite run_Star_unfold. cbn [app run]. rewrite Hx. cbn [flat_map fst snd].
  assert (El : (length (xs ++ rest) <? length (x :: xs ++ rest)) = true)
    by (apply Nat.ltb_lt; simpl; lia).
  rewrite El, app_nil_r.
  assert (H0 := Hk 0 ltac:(simpl; lia)). cbn [skipn app] in H0.
  match goal with |- hd_error (?l ++ _) = _ =>
    replace l with (@nil mstate) by (symmetry; exact H0) end.
  cbn [app].
  apply IH; [exact Hxs|]. intros j Hj. apply (Hk (S j)). simpl. lia.
Qed.

Lemma lazy_here : forall p (k : mstate -> list mstate) s c,
  k (s, c) <> [] ->
  hd_error (flat_map k (run (Star false (Cls p)) s c)) = hd_error (k (s, c)).
Proof.
  intros p k s c H. rewrite run_Star_unfold. cbn [flat_map].
  rewrite hd_error_app. destruct (k (s, c)); [contradiction | reflexivity].
Qed.

Lemma afterLazy_not_slash : forall x s c, N.eqb (ch "/") x = false -> afterLazy (x :: s, c) = [].
Proof.
  intros x s c H. unfold afterLazy, Cat. cbn [fold_right fst snd].
  apply run_Seq_nil. cbn [run Chr]. rewrite H. reflexivity.
Qed.

(** A keyword is read only from a segment that is this keyword. *)
Lemma keyword_segment : forall kw seg more c st,
  hasChar (ch "/") kw = false -> hasChar (ch "/") seg = false -> seg <> kw ->
  In st (run (Lit kw) (seg ++ ch "/" :: more) c) ->
  run (Chr (ch "/")) (fst st) (snd st) = [].
Proof.
  intros kw seg more c st Hkw Hseg Hne H.
  apply run_Lit_In in H. destruct H as [E _].
  revert seg Hseg Hne E. induction kw as [|y kw IH]; intros seg Hseg Hne E.
  - destruct seg as [|x seg]; [contradiction|].
    cbn [app] in E. rewrite <- E. cbn [run Chr].
    unfold hasChar in Hseg. cbn [existsb] in Hseg. apply orb_false_iff in Hseg.
    destruct Hseg as [Hx _]. rewrite Hx. reflexivity.
  - unfold hasChar in Hkw. cbn [existsb] in Hkw. apply orb_false_iff in Hkw.
    destruct Hkw as [Hy Hkw]. destruct seg as [|x seg].
    + cbn [app] in E. injection E as E _. rewrite <- E, N.eqb_refl in Hy. discriminate.
    + cbn [app] in E. injection E as Ex E. subst y.
      unfold hasChar in Hseg. cbn [existsb] in Hseg. apply orb_false_iff in Hseg.
      destruct Hseg as [_ Hseg].
      apply (IH Hkw seg Hseg); [|exact E]. intros ->. apply Hne. reflexivity.
Qed.

Lemma afterLazy_segment : forall seg more c,
  isPathSegment seg = true -> afterLazy (ch "/" :: seg ++ ch "/" :: more, c) = [].
Proof.
  intros seg more c H. unfold isPathSegment in H.
  apply andb_true_iff in H. destruct H as [H H3].
  apply andb_true_iff in H. destruct H as [H1 H2].
  assert (Hseg : hasChar (ch "/") seg = false).
  { clear H2 H3. unfold hasChar. induction seg as [|x seg IH]; [reflexivity|].
    cbn [forallb existsb] in *. apply andb_true_iff in H1. destruct H1 as [Hx Hs].
    apply andb_true_iff in Hx. destruct Hx as [_ Hx]. apply negb_true_iff in Hx.
    rewrite N.eqb_sym, Hx. exact (IH Hs). }
  assert (Ht : seg <> str "task").
  { intros ->. discriminate. }
  assert (Hi : seg <> str "item").
  { intros ->. discriminate. }
  unfold afterLazy, Cat. cbn [fold_right fst snd].
  rewrite (run_Seq_single (Chr (ch "/")) _ _ c (seg ++ ch "/" :: more) c) by reflexivity.
  cbn [run]. apply flat_map_nil. intros st Hst.
  apply in_app_or in Hst.
  assert (E : run (Chr (ch "/")) (fst st) (snd st) = []).
  { destruct Hst as [Hst | Hst].
    - exact (keyword_segment (str "task") seg more c st eq_refl Hseg Ht Hst).
    - exact (keyword_segment (str "item") seg more c st eq_refl Hseg Hi Hst). }
  fold (run (Chr (ch "/")) (fst st) (snd st)). rewrite E. reflexivity.
Qed.

Lemma isPathSegment_dot : forall seg, isPathSegment seg = true -> forallb dot seg = true.
Proof.
  intros seg H. unfold isPathSegment in H.
  apply andb_true_iff in H. destruct H as [H _].
  apply andb_true_iff in H. destruct H as [H _].
  induction seg as [|x seg IH]; [reflexivity|].
  cbn [forallb] in *. apply andb_true_iff in H. destruct H as [Hx Hs].
  apply andb_true_iff in Hx. destruct Hx as [Hx _]. rewrite Hx, (IH Hs). reflexivity.
Qed.

Lemma isPathSegment_no_slash : forall seg x s,
  isPathSegment seg = true -> seg = x :: s -> N.eqb (ch "/") x = false.
Proof.
  intros seg x s H ->. unfold isPathSegment in H.
  apply andb_true_iff in H. destruct H as [H _].
  apply andb_true_iff in H. destruct H as [H _].
  cbn [forallb] in H. apply andb_true_iff in H. destruct H as [Hx _].
  apply andb_true_iff in Hx. destruct Hx as [_ Hx]. apply negb_true_iff in Hx.
  rewrite N.eqb_sym. exact Hx.
Qed.

Lemma afterLazy_inside : forall seg more c j,
  isPathSegment seg = true -> j < length (ch "/" :: seg) ->
  afterLazy (skipn j ((ch "/" :: seg) ++ ch "/" :: more), c) = [].
Proof.
  intros seg more c j H Hj. destruct j as [|j].
  - cbn [skipn app]. apply afterLazy_segment. exact H.
  - cbn [skipn app]. cbn [length] in Hj.
    assert (Hj' : j < length seg) by lia. clear Hj.
    unfold isPathSegment in H.
    apply andb_true_iff in H. destruct H as [H _].
    apply andb_true_iff in H. destruct H as [H _].
    revert j Hj'. induction seg as [|x seg IH]; intros j Hj; [simpl in Hj; lia|].
    cbn [forallb] in H. apply andb_true_iff in H. destruct H as [Hx Hs].
    destruct j as [|j].
    + cbn [skipn app]. apply afterLazy_not_slash.
      apply andb_true_iff in Hx. destruct Hx as [_ Hx]. apply negb_true_iff in Hx.
      rewrite N.eqb_sym. exact Hx.
    + cbn [skipn app]. apply IH; [exact Hs | simpl in Hj; lia].
Qed.

(** The lazy run goes over the segments of a path. *)
Lemma lazy_path : forall segs more c,
  forallb isPathSegment segs = true ->
  hd_error (flat_map afterLazy
              (run (Star false (Cls dot)) (v0Path segs ++ ch "/" :: more) c))
  = hd_error (flat_map afterLazy (run (Star false (Cls dot)) (ch "/" :: more) c)).
Proof.
  induction segs as [|seg segs IH]; intros more c H; [reflexivity|].
  cbn [forallb] in H. apply andb_true_iff in H. destruct H as [Hseg Hsegs].
  unfold v0Path. cbn [flat_map]. fold (v0Path segs).
  rewrite <- app_assoc.
  assert (Enext : exists more', v0Path segs ++ ch "/" :: more = ch "/" :: more').
  { destruct segs as [|seg' segs']; [exists more; reflexivity|].
    unfold v0Path. cbn [flat_map app]. eexists. reflexivity. }
  destruct Enext as [more' Enext].
  rewrite lazy_skip.
  - apply IH. exact Hsegs.
  - cbn [forallb]. rewrite (isPathSegment_dot _ Hseg). reflexivity.
  - intros j Hj. rewrite Enext. apply afterLazy_inside; assumption.
Qed.

Lemma run_Lit_task_item : forall s c, run (Lit (str "task")) (str "item" ++ s) c = [].
Proof. intros s c. rewrite run_Lit. reflexivity. Qed.

Lemma afterLazy_task : forall kw gid post c,
  kw = str "task" \/ kw = str "item" ->
  isNumeric gid = true -> headFails isDigit post ->
  hd_error (afterLazy (ch "/" :: kw ++ ch "/" :: gid ++ post, c))
  = Some (post, (TaskGIDs.taskGID, gid) :: c).
Proof.
  intros kw gid post c Hkw Hgid Hpost. unfold isNumeric in Hgid.
  apply andb_true_iff in Hgid. destruct Hgid as [Hlen Hall].
  assert (Hne : gid <> []) by (intros ->; discriminate).
  unfold afterLazy, Cat. cbn [fold_right fst snd].
  eapply hd_run_Seq; [apply hd_run_Chr|]. cbn [fst snd].
  eapply hd_run_Seq with (st1 := (ch "/" :: gid ++ post, c)).
  { rewrite run_Alt, hd_error_app.
    destruct Hkw as [-> | ->].
    - rewrite hd_run_Lit. reflexivity.
    - rewrite run_Lit_task_item. cbn [hd_error]. apply hd_run_Lit. }
  cbn [fst snd].
  eapply hd_run_Seq; [apply hd_run_Chr|]. cbn [fst snd].
  eapply hd_run_Seq.
  { apply hd_run_Grp. apply hd_run_Plus_Cls; [exact Hne | exact Hall | exact Hpost]. }
  cbn [fst snd]. rewrite firstn_consumed. reflexivity.
Qed.

Lemma dot_no_LF : forall s, forallb dot s = true -> hasChar LF s = false.
Proof.
  induction s as [|x s IH]; intros H; [reflexivity|].
  cbn [forallb] in H. apply andb_true_iff in H. destruct H as [Hx Hs].
  unfold hasChar. cbn [existsb]. fold (hasChar LF s). rewrite (IH Hs), orb_false_r.
  unfold dot, isLineTerminator in Hx. apply negb_true_iff in Hx.
  apply orb_false_iff in Hx. destruct Hx as [Hx _].
  apply orb_false_iff in Hx. destruct Hx as [Hx _].
  apply orb_false_iff in Hx. destruct Hx as [Hx _].
  rewrite N.eqb_sym. exact Hx.
Qed.

Lemma v0Path_dot : forall segs,
  forallb isPathSegment segs = true -> forallb dot (v0Path segs) = true.
Proof.
  induction segs as [|seg segs IH]; intros H; [reflexivity|].
  cbn [forallb] in H. apply andb_true_iff in H. destruct H as [Hseg Hsegs].
  unfold v0Path. cbn [flat_map]. fold (v0Path segs).
  cbn [app forallb]. rewrite forallb_app, (isPathSegment_dot _ Hseg), (IH Hsegs). reflexivity.
Qed.

(** X8.  From a line that begins with a task URL of the form
    [https://app.asana.com/<segment>/.../<segment>/task/<id>], or with
    [item] for [task], the identifier taken is [<id>], whatever numbers
    the segments before it are (workspace, project), and whatever follows
    the identifier. *)
Theorem task_url_gives_task_id : forall segs kw gid post,
  forallb isPathSegment segs = true ->
  kw = str "task" \/ kw = str "item" ->
  isNumeric gid = true -> headFails isDigit post -> hasChar LF post = false ->
  TaskGIDs.getAsanaTaskGIDsFromText
    (str "https://app.asana.com" ++ v0Path segs ++ ch "/" :: kw ++ ch "/" :: gid ++ post)
  = [gid].
Proof.
  intros segs kw gid post Hsegs Hkw Hgid Hpost Hlf.
  set (more := kw ++ ch "/" :: gid ++ post).
  set (line := str "https://app.asana.com" ++ v0Path segs ++ ch "/" :: more).
  assert (Hrun : hd_error (run TaskGIDs.reTaskItem line [])
                 = Some (post, [(TaskGIDs.taskGID, gid)])).
  { change TaskGIDs.reTaskItem with
      (Seq TaskGIDs.hostAnyDot
         (Seq (Star false (Cls dot))
              (Cat [Chr (ch "/"); Alt (Lit (str "task")) (Lit (str "item")); Chr (ch "/");
                    Grp TaskGIDs.taskGID TaskGIDs.digits]))).
    unfold line.
    rewrite (run_Seq_single _ _ _ _ _ _ (run_hostAnyDot _ _)).
    change (run (Seq (Star false (Cls dot)) ?r) ?s ?c)
      with (flat_map afterLazy (run (Star false (Cls dot)) s c)).
    rewrite lazy_path by exact Hsegs.
    assert (Hh := afterLazy_task kw gid post [] Hkw Hgid Hpost).
    rewrite lazy_here; [exact Hh|]. intros E.
    apply (f_equal (@hd_error mstate)) in E.
    assert (C : Some (post, [(TaskGIDs.taskGID, gid)]) = hd_error (@nil mstate))
      by exact (eq_trans (eq_sym Hh) E).
    discriminate C. }
  assert (Hline : TaskGIDs.lineGIDs line = [gid]).
  { unfold TaskGIDs.lineGIDs.
    rewrite (proj2 (matchLine_rules line)).
    unfold String_match. rewrite search_unfold, Hrun. cbn [m_groups snd capture].
    reflexivity. }
  assert (Hno : hasChar LF line = false).
  { unfold line, more. rewrite !hasChar_app.
    rewrite (dot_no_LF _ (v0Path_dot _ Hsegs)).
    change (hasChar LF (ch "/" :: kw ++ ch "/" :: gid ++ post))
      with (hasChar LF ([ch "/"] ++ kw ++ [ch "/"] ++ gid ++ post)).
    rewrite !hasChar_app, Hlf.
    unfold isNumeric in Hgid. apply andb_true_iff in Hgid. destruct Hgid as [_ Hall].
    rewrite (dot_no_LF _ (forallb_isDigit_dot _ Hall)).
    destruct Hkw as [-> | ->]; reflexivity. }
  unfold TaskGIDs.getAsanaTaskGIDsFromText.
  rewrite splitLines_one by exact Hno.
  cbn [flat_map]. rewrite Hline. reflexivity.
Qed.

Lemma task_url_gives_task_id_witness :
  TaskGIDs.getAsanaTaskGIDsFromText
    (str "https://app.asana.com"
     ++ v0Path [str "1"; str "7423375154038"; str "project"; str "1201497668075595"]
     ++ ch "/" :: str "task" ++ ch "/" :: str "1209677646439414" ++ str "?focus=true")
  = [str "1209677646439414"].
Proof.
  apply (task_url_gives_task_id
           [str "1"; str "7423375154038"; str "project"; str "1201497668075595"]
           (str "task") (str "1209677646439414") (str "?focus=true")).
  - vm_compute. reflexivity.
  - left. reflexivity.
  - vm_compute. reflexivity.
  - vm_compute. reflexivity.
  - vm_compute. reflexivity.
Defined.

(** ** A text without the host *)

Lemma consPiece_In : forall x pieces piece,
  In piece (consPiece x pieces) ->
  piece = [x] \/ (exists p, piece = x :: p /\ In p pieces) \/ In piece pieces.
Proof.
  intros x [|p0 rest] piece H; simpl in H.
  - destruct H as [<- | []]. left. reflexivity.
  - destruct H as [<- | H].
    + right. left. exists p0. split; [reflexivity | left; reflexivity].
    + right. right. right. exact H.
Qed.

Lemma isInfix_cons : forall t x s, isInfix t s -> isInfix t (x :: s).
Proof. intros t x s (pre & post & ->). exists (x :: pre), post. reflexivity. Qed.

Lemma split1_infix : forall sep s piece, In piece (split1 sep s) -> isInfix piece s.
Proof.
  intros sep s. induction s as [|x s IH]; intros piece H; cbn [split1] in H.
  - destruct H as [<- | []]. exists [], []. reflexivity.
  - destruct (N.eqb x sep).
    + destruct H as [<- | H]; [exists [], (x :: s); reflexivity|].
      apply isInfix_cons. exact (IH _ H).
    + destruct (split1 sep s) as [|p0 rest] eqn:E; [exfalso; exact (split1_not_nil _ _ E)|].
      cbn [consPiece] in H. destruct H as [<- | H].
      * destruct (IH p0 (or_introl eq_refl)) as (pre & post & Es).
        (* the first piece of a split is a prefix *)
        assert (Hp : exists post', s = p0 ++ post').
        { clear IH Es. revert p0 rest E. induction s as [|y s IHs]; intros p0 rest E.
          - cbn [split1] in E. injection E as <- _. exists []. reflexivity.
          - cbn [split1] in E. destruct (N.eqb y sep).
            + injection E as <- _. exists (y :: s). reflexivity.
            + destruct (split1 sep s) as [|q0 qs] eqn:E'; [exfalso; exact (split1_not_nil _ _ E')|].
              cbn [consPiece] in E. injection E as <- _.
              destruct (IHs q0 qs eq_refl) as [post' ->]. exists post'. reflexivity. }
        destruct Hp as [post' ->]. exists [], post'. reflexivity.
      * apply isInfix_cons. apply IH. right. exact H.
Qed.

Lemma split2_prefix : forall a b s p0 rest,
  split2 a b s = p0 :: rest -> exists post, s = p0 ++ post.
Proof.
  intros a b s. remember (length s) as n eqn:En. revert s En.
  induction n as [n IH] using lt_wf_ind. intros s En p0 rest E.
  destruct s as [|x [|y s]].
  - injection E as <- _. exists []. reflexivity.
  - injection E as <- _. exists []. reflexivity.
  - change (split2 a b (x :: y :: s))
      with (if N.eqb x a && N.eqb y b then [] :: split2 a b s
            else consPiece x (split2 a b (y :: s))) in E.
    destruct (N.eqb x a && N.eqb y b).
    + injection E as <- _. eexists. reflexivity.
    + destruct (split2 a b (y :: s)) as [|q0 qs] eqn:E'; [exfalso; exact (split2_not_nil _ _ _ E')|].
      cbn [consPiece] in E. injection E as <- _.
      destruct (IH (length (y :: s)) ltac:(subst n; simpl; lia) (y :: s) eq_refl q0 qs E')
        as [post Ep].
      exists post. rewrite Ep. reflexivity.
Qed.

Lemma split2_infix : forall a b s piece, In piece (split2 a b s) -> isInfix piece s.
Proof.
  intros a b s. remember (length s) as n eqn:En. revert s En.
  induction n as [n IH] using lt_wf_ind. intros s En piece H.
  destruct s as [|x [|y s]].
  - destruct H as [<- | []]. exists [], []. reflexivity.
  - destruct H as [<- | []]. exists [], []. reflexivity.
  - change (split2 a b (x :: y :: s))
      with (if N.eqb x a && N.eqb y b then [] :: split2 a b s
            else consPiece x (split2 a b (y :: s))) in H.
    destruct (N.eqb x a && N.eqb y b).
    + destruct H as [<- | H]; [exists [], (x :: y :: s); reflexivity|].
      apply isInfix_cons, isInfix_cons.
      exact (IH (length s) ltac:(subst n; simpl; lia) s eq_refl _ H).
    + destruct (split2 a b (y :: s)) as [|q0 qs] eqn:E'; [exfalso; exact (split2_not_nil _ _ _ E')|].
      cbn [consPiece] in H. destruct H as [<- | H].
      * destruct (split2_prefix _ _ _ _ _ E') as [post Ep].
        exists [], post. rewrite Ep. reflexivity.
      * apply isInfix_cons.
        apply (IH (length (y :: s)) ltac:(subst n; simpl; lia) (y :: s) eq_refl).
        rewrite E'. right. exact H.
Qed.

Lemma splitLines_infix : forall text line,
  In line (TaskGIDs.splitLines text) -> isInfix line text.
Proof.
  intros text line H. unfold TaskGIDs.splitLines in H. apply in_flat_map in H.
  destruct H as (piece & H1 & H2).
  exact (isInfix_trans _ _ _ (split1_infix _ _ _ H2) (split2_infix _ _ _ _ H1)).
Qed.

Lemma String_match_no_host : forall after line,
  includes line (str "https://app") = false ->
  String_match line (Seq TaskGIDs.hostAnyDot after) = None.
Proof.
  intros after line H. unfold String_match. apply search_none_run.
  intros s' [pre Es]. apply run_Seq_nil.
  unfold TaskGIDs.hostAnyDot, Cat. cbn [fold_right]. apply run_Seq_nil.
  rewrite run_Lit. destruct (startsWith (str "https://app") s') eqn:E; [|reflexivity].
  exfalso. apply startsWith_spec in E. destruct E as [post Ep].
  apply (includes_false _ _ H pre post). rewrite Es, <- Ep. reflexivity.
Qed.

Lemma lineGIDs_no_host : forall line,
  includes line (str "https://app") = false -> TaskGIDs.lineGIDs line = [].
Proof.
  intros line H. unfold TaskGIDs.lineGIDs, TaskGIDs.matchLine.
  assert (E1 : String_match line TaskGIDs.reTaskItem = None)
    by exact (String_match_no_host _ line H).
  assert (E2 : String_match line TaskGIDs.reProjectTask = None)
    by exact (String_match_no_host _ line H).
  assert (E3 : String_match line TaskGIDs.reWorkspaceProjectTask = None)
    by exact (String_match_no_host _ line H).
  assert (E4 : String_match line TaskGIDs.reV0 = None)
    by exact (String_match_no_host _ line H).
  assert (E5 : String_match line TaskGIDs.reInboxItem = None)
    by exact (String_match_no_host _ line H).
  rewrite E1, E2, E3, E4, E5. reflexivity.
Qed.

(** X9.  A text in which [https://app] does not occur, the empty text
    among them, yields no identifier. *)
Theorem no_host_no_identifier : forall text,
  includes text (str "https://app") = false ->
  TaskGIDs.getAsanaTaskGIDsFromText text = [].
Proof.
  intros text H. unfold TaskGIDs.getAsanaTaskGIDsFromText.
  assert (E : flat_map TaskGIDs.lineGIDs (TaskGIDs.splitLines text) = []).
  { apply flat_map_nil. intros line Hl. apply lineGIDs_no_host.
    destruct (includes line (str "https://app")) eqn:Ei; [|reflexivity].
    exfalso. apply includes_true in Ei.
    destruct (isInfix_trans _ _ _ Ei (splitLines_infix _ _ Hl)) as (pre & post & Et).
    exact (includes_false _ _ H pre post Et). }
  rewrite E. reflexivity.
Qed.

Lemma no_host_no_identifier_witness :
  includes (str "See http://app.asana.com/0/1/2 and task/3") (str "https://app") = false /\
  TaskGIDs.getAsanaTaskGIDsFromText (str "See http://app.asana.com/0/1/2 and task/3") = [].
Proof.
  split; [vm_compute; reflexivity|].
  apply (no_host_no_identifier (str "See http://app.asana.com/0/1/2 and task/3")).
  vm_compute. reflexivity.
Defined.

(** ** Comparing bodies up to white space *)

Lemma collapse_no_space : forall s, forallb notSpace s = true -> collapse s = s.
Proof.
  induction s as [|x s IH]; intros H; [reflexivity|].
  cbn [forallb] in H. apply andb_true_iff in H. destruct H as [Hx Hs].
  unfold notSpace in Hx. apply negb_true_iff in Hx.
  cbn [collapse]. rewrite Hx, (IH Hs). reflexivity.
Qed.

Lemma collapse_run : forall sp rest,
  sp <> [] -> forallb isSpace sp = true -> headFails isSpace rest ->
  collapse (sp ++ rest) = ch " " :: collapse rest.
Proof.
  induction sp as [|x sp IH]; intros rest Hne Hsp Hrest; [contradiction|].
  cbn [forallb] in Hsp. apply andb_true_iff in Hsp. destruct Hsp as [Hx Hs].
  cbn [app collapse]. rewrite Hx.
  destruct sp as [|y sp].
  - cbn [app]. destruct rest as [|z rest]; [reflexivity|].
    simpl in Hrest. rewrite Hrest. reflexivity.
  - cbn [app]. cbn [forallb] in Hs. apply andb_true_iff in Hs. destruct Hs as [Hy Hs].
    rewrite Hy. apply (IH rest); [discriminate | | exact Hrest].
    cbn [forallb]. rewrite Hy, Hs. reflexivity.
Qed.

Lemma collapse_word : forall ns rest,
  forallb notSpace ns = true -> collapse (ns ++ rest) = ns ++ collapse rest.
Proof.
  induction ns as [|x ns IH]; intros rest H; [reflexivity|].
  cbn [forallb] in H. apply andb_true_iff in H. destruct H as [Hx Hs].
  unfold notSpace in Hx. apply negb_true_iff in Hx.
  cbn [app collapse]. rewrite Hx, (IH rest Hs). reflexivity.
Qed.

Lemma headFails_notSpace : forall s, headFails notSpace s -> s = [] \/ headPasses isSpace s.
Proof.
  intros [|x s] H; [left; reflexivity|]. right. exists x, s. split; [reflexivity|].
  simpl in H. unfold notSpace in H. apply negb_false_iff in H. exact H.
Qed.

(** Where the search for a run of white space finds one. *)
Lemma search_spaces : forall ns sp rest i,
  forallb notSpace ns = true -> sp <> [] -> forallb isSpace sp = true ->
  headFails isSpace rest ->
  search (Plus (Cls isSpace)) (ns ++ sp ++ rest) i = Some (mkMatch (i + length ns) sp []).
Proof.
  induction ns as [|x ns IH]; intros sp rest i Hns Hne Hsp Hrest.
  - cbn [app length]. rewrite search_unfold.
    rewrite (hd_run_Plus_Cls isSpace sp rest [] Hne Hsp Hrest). cbn [fst snd].
    rewrite firstn_consumed, Nat.add_0_r. reflexivity.
  - cbn [forallb] in Hns. apply andb_true_iff in Hns. destruct Hns as [Hx Hns].
    unfold notSpace in Hx. apply negb_true_iff in Hx.
    cbn [app]. rewrite search_unfold.
    rewrite run_Plus_Cls_fail by (simpl; exact Hx). cbn [hd_error].
    rewrite (IH sp rest (S i) Hns Hne Hsp Hrest). cbn [length]. f_equal. f_equal. lia.
Qed.

Lemma search_no_spaces : forall s i,
  forallb notSpace s = true -> search (Plus (Cls isSpace)) s i = None.
Proof.
  induction s as [|x s IH]; intros i H; rewrite search_unfold.
  - reflexivity.
  - cbn [forallb] in H. apply andb_true_iff in H. destruct H as [Hx Hs].
    unfold notSpace in Hx. apply negb_true_iff in Hx.
    rewrite run_Plus_Cls_fail by (simpl; exact Hx). cbn [hd_error]. apply IH. exact Hs.
Qed.

Lemma replaceMatches_spaces : forall fuel pre s,
  length s < fuel ->
  replaceMatches (pre ++ s) (length pre)
    (matchAllFrom (Plus (Cls isSpace)) fuel s (length pre)) (fun _ => str " ")
  = collapse s.
Proof.
  induction fuel as [|fuel IH]; intros pre s Hf; [lia|].
  cbn [matchAllFrom].
  destruct (span_spec notSpace s) as (E1 & E2 & E3).
  set (ns := fst (span notSpace s)) in *. set (s1 := snd (span notSpace s)) in *.
  destruct (headFails_notSpace _ E3) as [Enil | (y & ys & Es1 & Hy)].
  - rewrite Enil, app_nil_r in E1. rewrite E1.
    rewrite search_no_spaces by exact E2. cbn [replaceMatches]. unfold substringFrom.
    rewrite skipn_app, skipn_all, Nat.sub_diag. cbn [skipn app].
    symmetry. apply collapse_no_space. exact E2.
  - destruct (span_spec isSpace s1) as (F1 & F2 & F3).
    set (sp := fst (span isSpace s1)) in *. set (rest := snd (span isSpace s1)) in *.
    assert (Hsp : sp <> []).
    { intros E. rewrite E in F1. cbn [app] in F1. rewrite <- F1, Es1 in F3.
      simpl in F3. congruence. }
    assert (Es : s = ns ++ sp ++ rest) by (rewrite <- F1; exact E1).
    rewrite Es at 2. rewrite (search_spaces ns sp rest (length pre) E2 Hsp F2 F3).
    cbn [m_index m_full replaceMatches].
    assert (Hl : Nat.eqb (length sp) 0 = false).
    { apply Nat.eqb_neq. destruct sp; [contradiction | simpl; lia]. }
    rewrite Hl.
    replace (length pre + length ns + length sp - length pre)
      with (length ns + length sp) by lia.
    assert (Hle : (length ns + length sp <=? length s) = true).
    { apply Nat.leb_le. rewrite Es, !length_app. lia. }
    rewrite Hle.
    assert (Hle2 : (length pre <=? length pre + length ns) = true)
      by (apply Nat.leb_le; lia).
    rewrite Hle2.
    assert (Esk : skipn (length ns + length sp) s = rest).
    { rewrite Es, app_assoc, <- length_app, skipn_app, skipn_all, Nat.sub_diag.
      reflexivity. }
    rewrite Esk.
    assert (Esub : substring (pre ++ s) (length pre) (length pre + length ns) = ns).
    { unfold substring. rewrite skipn_app, skipn_all, Nat.sub_diag. cbn [skipn app].
      replace (length pre + length ns - length pre) with (length ns) by lia.
      rewrite Es, firstn_app, firstn_all, Nat.sub_diag. cbn [firstn]. apply app_nil_r. }
    rewrite Esub.
    assert (Epre : pre ++ s = (pre ++ ns ++ sp) ++ rest).
    { rewrite Es, <- !app_assoc. reflexivity. }
    assert (Elen : length pre + length ns + length sp = length (pre ++ ns ++ sp)).
    { rewrite !length_app. lia. }
    rewrite Epre, Elen.
    rewrite (IH (pre ++ ns ++ sp) rest).
    + rewrite Es, collapse_word by exact E2.
      rewrite collapse_run by assumption. reflexivity.
    + assert (length s = length ns + length sp + length rest)
        by (rewrite Es, !length_app; lia).
      destruct sp; [contradiction|]. simpl in *. lia.
Qed.

Lemma String_replace_g_spaces : forall s,
  String_replace_g s (Plus (Cls isSpace)) (fun _ => str " ") = collapse s.
Proof.
  intros s. unfold String_replace_g, matchAll.
  exact (replaceMatches_spaces (S (length s)) [] s ltac:(lia)).
Qed.

Lemma trimStart_snoc : forall l x,
  trimStart (l ++ [x])
  = match trimStart l with
    | [] => if isSpace x then [] else [x]
    | t => t ++ [x]
    end.
Proof.
  induction l as [|y l IH]; intros x; [reflexivity|].
  cbn [app trimStart]. destruct (isSpace y); [apply IH | reflexivity].
Qed.

Lemma trimEnd_cons : forall x s,
  trimEnd (x :: s)
  = match trimEnd s with
    | [] => if isSpace x then [] else [x]
    | t => x :: t
    end.
Proof.
  intros x s. unfold trimEnd. cbn [rev]. rewrite trimStart_snoc.
  destruct (trimStart (rev s)) as [|y t] eqn:E.
  - cbn [rev]. destruct (isSpace x); reflexivity.
  - rewrite rev_app_distr. cbn [rev app].
    destruct (rev t ++ [y]) eqn:E'; [destruct (rev t); discriminate | reflexivity].
Qed.

Lemma trimEnd_nil : trimEnd [] = [].
Proof. reflexivity. Qed.

Lemma words_not_nil : forall x s, isSpace x = false -> words (x :: s) <> [].
Proof.
  intros x s Hx. cbn [words]. rewrite Hx. destruct s as [|y s]; [discriminate|].
  destruct (isSpace y); [discriminate|]. destruct (words (y :: s)); discriminate.
Qed.

Lemma words_Forall : forall s,
  Forall (fun w => w <> [] /\ forallb notSpace w = true) (words s).
Proof.
  induction s as [|x s IH]; [constructor|].
  cbn [words]. destruct (isSpace x) eqn:Hx; [exact IH|].
  assert (Hx' : notSpace x = true) by (unfold notSpace; rewrite Hx; reflexivity).
  destruct s as [|y s].
  - repeat constructor; [discriminate | cbn [forallb]; rewrite Hx'; reflexivity].
  - destruct (isSpace y) eqn:Hy.
    + constructor; [|exact IH]. split; [discriminate|]. cbn [forallb]. rewrite Hx'. reflexivity.
    + destruct (words (y :: s)) as [|w ws] eqn:E; [exfalso; exact (words_not_nil _ _ Hy E)|].
      cbn [consPiece]. inversion IH as [|? ? [Hw1 Hw2] Hws]; subst.
      constructor; [|exact Hws]. split; [discriminate|]. cbn [forallb]. rewrite Hx', Hw2.
      reflexivity.
Qed.

Lemma join_words_not_nil : forall w ws,
  w <> [] -> join (str " ") (w :: ws) <> [].
Proof.
  intros w ws Hw. cbn [join]. destruct ws; [exact Hw|].
  destruct w; [contradiction | discriminate].
Qed.

(** The end of a collapsed text. *)
Lemma trimEnd_collapse : forall t,
  trimEnd (collapse t)
  = match t, words t with
    | x :: _, _ :: _ => if isSpace x then ch " " :: join (str " ") (words t)
                        else join (str " ") (words t)
    | _, _ => []
    end.
Proof.
  induction t as [|x t IH]; [reflexivity|].
  cbn [collapse words]. destruct (isSpace x) eqn:Hx.
  - destruct t as [|y t]; [reflexivity|].
    destruct (isSpace y) eqn:Hy.
    + rewrite IH. reflexivity.
    + rewrite trimEnd_cons, IH. rewrite ?Hy.
      destruct (words (y :: t)) as [|w ws] eqn:E; [exfalso; exact (words_not_nil _ _ Hy E)|].
      pose proof (words_Forall (y :: t)) as F. rewrite E in F.
      inversion F as [|? ? [Hw _] _]; subst.
      destruct (join (str " ") (w :: ws)) eqn:Ej;
        [exfalso; exact (join_words_not_nil _ _ Hw Ej) | reflexivity].
  - rewrite trimEnd_cons, IH.
    destruct t as [|y t]; [rewrite ?Hx; reflexivity|].
    destruct (isSpace y) eqn:Hy.
    + destruct (words (y :: t)) as [|w ws] eqn:E.
      * rewrite ?Hx. reflexivity.
      * cbn [join]. reflexivity.
    + destruct (words (y :: t)) as [|w ws] eqn:E; [exfalso; exact (words_not_nil _ _ Hy E)|].
      pose proof (words_Forall (y :: t)) as F. rewrite E in F.
      inversion F as [|? ? [Hw _] _]; subst.
      destruct (join (str " ") (w :: ws)) eqn:Ej;
        [exfalso; exact (join_words_not_nil _ _ Hw Ej)|].
      cbn [consPiece]. rewrite <- Ej. cbn [join]. destruct ws; reflexivity.
Qed.

Lemma trimStart_collapse : forall s, trimStart (collapse s) = collapse (trimStart s).
Proof.
  induction s as [|x s IH]; [reflexivity|].
  cbn [collapse trimStart]. destruct (isSpace x) eqn:Hx.
  - destruct s as [|y s]; [reflexivity|].
    destruct (isSpace y) eqn:Hy; [exact IH|].
    change (trimStart (ch " " :: collapse (y :: s))) with (trimStart (collapse (y :: s))).
    exact IH.
  - cbn [trimStart]. rewrite Hx. cbn [collapse]. rewrite Hx. reflexivity.
Qed.

Lemma words_trimStart : forall s, words (trimStart s) = words s.
Proof.
  induction s as [|x s IH]; [reflexivity|].
  cbn [trimStart]. destruct (isSpace x) eqn:Hx; [|reflexivity].
  cbn [words]. rewrite Hx. exact IH.
Qed.

Lemma trimStart_head : forall s, headFails isSpace (trimStart s).
Proof.
  induction s as [|x s IH]; [exact I|].
  cbn [trimStart]. destruct (isSpace x) eqn:Hx; [exact IH | exact Hx].
Qed.

Lemma normalizeWhitespace_words : forall text,
  Main.normalizeWhitespace text = join (str " ") (words text).
Proof.
  intros text. unfold Main.normalizeWhitespace, String_trim.
  rewrite String_replace_g_spaces, trimStart_collapse, trimEnd_collapse.
  rewrite <- (words_trimStart text).
  pose proof (trimStart_head text) as H.
  destruct (trimStart text) as [|x t] eqn:E; [reflexivity|].
  simpl in H. rewrite H. destruct (words (x :: t)); reflexivity.
Qed.

Lemma words_word_app : forall w s,
  w <> [] -> forallb notSpace w = true -> headFails notSpace s ->
  words (w ++ s) = w :: words s.
Proof.
  induction w as [|x w IH]; intros s Hne Hw Hs; [contradiction|].
  cbn [forallb] in Hw. apply andb_true_iff in Hw. destruct Hw as [Hx Hw].
  unfold notSpace in Hx. apply negb_true_iff in Hx.
  cbn [app words]. rewrite Hx. destruct w as [|y w].
  - cbn [app]. destruct s as [|z s]; [reflexivity|].
    simpl in Hs. unfold notSpace in Hs. apply negb_false_iff in Hs. rewrite Hs. reflexivity.
  - cbn [app]. cbn [forallb] in Hw. apply andb_true_iff in Hw. destruct Hw as [Hy Hw'].
    assert (Hy' : isSpace y = false) by (unfold notSpace in Hy; apply negb_true_iff in Hy; exact Hy).
    rewrite Hy'.
    change (y :: w ++ s) with ((y :: w) ++ s).
    rewrite (IH s); [reflexivity | discriminate | | exact Hs].
    cbn [forallb]. rewrite Hy, Hw'. reflexivity.
Qed.

Lemma words_join : forall ws,
  Forall (fun w => w <> [] /\ forallb notSpace w = true) ws ->
  words (join (str " ") ws) = ws.
Proof.
  induction ws as [|w ws IH]; intros F; [reflexivity|].
  inversion F as [|? ? [Hw1 Hw2] Fws]; subst.
  destruct ws as [|w2 ws].
  - cbn [join]. rewrite <- (app_nil_r w) at 1.
    rewrite words_word_app; [reflexivity | exact Hw1 | exact Hw2 | exact I].
  - change (join (str " ") (w :: w2 :: ws))
      with (w ++ ch " " :: join (str " ") (w2 :: ws)).
    rewrite words_word_app; [|exact Hw1 | exact Hw2 | reflexivity].
    f_equal. change (words (ch " " :: join (str " ") (w2 :: ws)))
      with (words (join (str " ") (w2 :: ws))).
    exact (IH Fws).
Qed.

(** X10.  [Main.normalizeWhitespace] returns the words of the text, its longest
    runs of code units that are not white space, joined by single spaces. *)
Theorem normalizeWhitespace_joins_the_words : forall text,
  Main.normalizeWhitespace text = join (str " ") (words text) /\
  Forall (fun w => w <> [] /\ forallb notSpace w = true) (words text).
Proof.
  intros text. split; [apply normalizeWhitespace_words | apply words_Forall].
Qed.

(** X11.  Normalizing twice is normalizing once. *)
Theorem normalizeWhitespace_idempotent : forall text,
  Main.normalizeWhitespace (Main.normalizeWhitespace text) = Main.normalizeWhitespace text.
Proof.
  intros text. rewrite !normalizeWhitespace_words.
  rewrite words_join by apply words_Forall. reflexivity.
Qed.

Lemma normalizeWhitespace_eq_words : forall a b,
  Main.normalizeWhitespace a = Main.normalizeWhitespace b <-> words a = words b.
Proof.
  intros a b. rewrite !normalizeWhitespace_words. split.
  - intros H. apply (f_equal words) in H.
    rewrite !words_join in H by apply words_Forall. exact H.
  - intros ->. reflexivity.
Qed.

(** X12.  Two texts have the same normal form exactly when they have the
    same words: the comparison of [main.ts] sees nothing of the white
    space in the bodies but where it separates words. *)
Theorem normalizeWhitespace_compares_words : forall a b,
  Main.normalizeWhitespace a = Main.normalizeWhitespace b <-> words a = words b.
Proof. exact normalizeWhitespace_eq_words. Qed.

Lemma normalizeWhitespace_compares_words_witness :
  words (str "Fixes  the bug") = words (str " Fixes the" ++ [LF] ++ str "bug ") /\
  Main.normalizeWhitespace (str "Fixes  the bug") = Main.normalizeWhitespace (str " Fixes the" ++ [LF] ++ str "bug ").
Proof.
  split; [vm_compute; reflexivity|].
  apply (proj2 (normalizeWhitespace_compares_words (str "Fixes  the bug") (str " Fixes the" ++ [LF] ++ str "bug "))).
  vm_compute. reflexivity.
Defined.

(** ** main.ts: one Asana URL in the body *)

Lemma hd_run_Star_Cls : forall p xs rest c,
  forallb p xs = true -> headFails p rest ->
  hd_error (run (Star true (Cls p)) (xs ++ rest) c) = Some (rest, c).
Proof.
  intros p xs rest c H1 H2. destruct (run_Star_Cls p xs rest c H1 H2) as (tl & E & _).
  rewrite E. reflexivity.
Qed.

Lemma run_Main_markdownLinkRegex : forall label rest post,
  hasChar (ch "]") label = false -> rest <> [] -> hasChar (ch ")") rest = false ->
  hd_error (run Main.markdownLinkRegex
              (markdownLink label (asanaPrefix ++ rest) ++ post) [])
  = Some (post, [(1, asanaPrefix ++ rest)]).
Proof.
  intros label rest post Hl Hne Hr.
  rewrite markdownLink_cons. unfold Main.markdownLinkRegex, Cat. cbn [fold_right].
  set (url := asanaPrefix ++ rest).
  assert (Es : (ch "[" :: label ++ ch "]" :: ch "(" :: url ++ [ch ")"]) ++ post
               = ch "[" :: label ++ ch "]" :: ch "(" :: url ++ ch ")" :: post).
  { simpl. rewrite <- app_assoc. simpl. rewrite <- app_assoc. reflexivity. }
  rewrite Es. clear Es.
  eapply hd_run_Seq; [apply hd_run_Chr|]. cbn [fst snd].
  eapply hd_run_Seq.
  { apply hd_run_Star_Cls; [apply forallb_noneOf; exact Hl | reflexivity]. }
  cbn [fst snd].
  eapply hd_run_Seq; [apply hd_run_Chr|]. cbn [fst snd].
  eapply hd_run_Seq; [apply hd_run_Chr|]. cbn [fst snd].
  eapply hd_run_Seq.
  { apply hd_run_Grp. apply (asanaTarget_reads rest Hne Hr). }
  cbn [fst snd]. unfold url. rewrite firstn_consumed.
  eapply hd_run_Seq; [apply hd_run_Chr|]. reflexivity.
Qed.

(** The one match of a pattern that begins with [x], in a text with no
    other [x] outside the match. *)
Lemma matchAll_single : forall x r pre mid post caps,
  hasChar x pre = false -> hasChar x post = false -> mid <> [] ->
  hd_error (run (Seq (Chr x) r) (mid ++ post) []) = Some (post, caps) ->
  matchAll (pre ++ mid ++ post) (Seq (Chr x) r) = [mkMatch (length pre) mid caps].
Proof.
  intros x r pre mid post caps Hpre Hpost Hne Hrun.
  unfold matchAll. cbn [matchAllFrom].
  assert (Es : search (Seq (Chr x) r) (pre ++ mid ++ post) 0
               = Some (mkMatch (length pre) mid caps)).
  { rewrite search_skip by exact Hpre. rewrite search_unfold, Hrun.
    cbn [fst snd]. rewrite firstn_consumed. reflexivity. }
  rewrite Es. cbn [m_index m_full].
  assert (Hl : Nat.eqb (length mid) 0 = false).
  { apply Nat.eqb_neq. destruct mid; [contradiction | simpl; lia]. }
  rewrite Hl, Nat.sub_0_r.
  assert (Hle : (length pre + length mid <=? length (pre ++ mid ++ post)) = true).
  { apply Nat.leb_le. rewrite !length_app. lia. }
  rewrite Hle.
  assert (Esk : skipn (length pre + length mid) (pre ++ mid ++ post) = post).
  { rewrite app_assoc, <- length_app, skipn_app, skipn_all, Nat.sub_diag. reflexivity. }
  rewrite Esk.
  assert (Hlen : exists n, length (pre ++ mid ++ post) = S n).
  { rewrite !length_app. destruct mid; [contradiction|]. simpl.
    eexists. rewrite Nat.add_succ_r. reflexivity. }
  destruct Hlen as [n ->]. cbn [matchAllFrom].
  rewrite search_none_without by exact Hpost. reflexivity.
Qed.

Lemma replaceMatches_single : forall pre mid post caps replacer,
  replaceMatches (pre ++ mid ++ post) 0 [mkMatch (length pre) mid caps] replacer
  = pre ++ replacer (mkMatch (length pre) mid caps) ++ post.
Proof.
  intros pre mid post caps replacer. cbn [replaceMatches m_index m_full Nat.leb].
  unfold substring, substringFrom. cbn [skipn]. rewrite Nat.sub_0_r.
  assert (E1 : firstn (length pre) (pre ++ mid ++ post) = pre).
  { rewrite firstn_app, firstn_all, Nat.sub_diag. cbn [firstn]. apply app_nil_r. }
  assert (E2 : skipn (length pre + length mid) (pre ++ mid ++ post) = post).
  { rewrite app_assoc, <- length_app, skipn_app, skipn_all, Nat.sub_diag. reflexivity. }
  rewrite E1, E2. reflexivity.
Qed.

(** Flattening a body whose only [[] is that of a link to Asana. *)
Lemma flatten_single_link : forall pre label rest post,
  hasChar (ch "[") pre = false -> hasChar (ch "[") post = false ->
  hasChar (ch "]") label = false -> rest <> [] -> hasChar (ch ")") rest = false ->
  String_replace_g (pre ++ markdownLink label (asanaPrefix ++ rest) ++ post)
    Main.markdownLinkRegex Main.flattenReplacer
  = pre ++ (asanaPrefix ++ rest) ++ post.
Proof.
  intros pre label rest post Hpre Hpost Hl Hne Hr. unfold String_replace_g.
  unfold Main.markdownLinkRegex at 1. unfold Cat. cbn [fold_right].
  rewrite (matchAll_single _ _ pre (markdownLink label (asanaPrefix ++ rest)) post
             [(1, asanaPrefix ++ rest)] Hpre Hpost).
  - rewrite replaceMatches_single. reflexivity.
  - rewrite markdownLink_cons. discriminate.
  - exact (run_Main_markdownLinkRegex label rest post Hl Hne Hr).
Qed.

Lemma flatten_no_link : forall s,
  hasChar (ch "[") s = false ->
  String_replace_g s Main.markdownLinkRegex Main.flattenReplacer = s.
Proof.
  intros s H. unfold String_replace_g, Main.markdownLinkRegex, Cat. cbn [fold_right].
  rewrite matchAll_none_without by exact H. reflexivity.
Qed.

(** The search for a pattern that begins with the literal [P] goes over
    what holds no [P]. *)
Lemma search_Lit_skip : forall P r pre s i,
  (forall k, k < length pre -> startsWith P (skipn k (pre ++ s)) = false) ->
  search (Seq (Lit P) r) (pre ++ s) i = search (Seq (Lit P) r) s (i + length pre).
Proof.
  intros P r pre s. induction pre as [|y pre IH]; intros i H.
  - cbn [app length]. rewrite Nat.add_0_r. reflexivity.
  - cbn [app]. rewrite search_unfold. rewrite run_Seq_nil.
    + cbn [hd_error]. rewrite IH.
      * f_equal. simpl. lia.
      * intros k Hk. apply (H (S k)). simpl. lia.
    + rewrite run_Lit. assert (H0 := H 0 ltac:(simpl; lia)).
      cbn [skipn app] in H0. rewrite H0. reflexivity.
Qed.

Lemma matchAll_single_url : forall pre rest post,
  rest <> [] -> forallb urlChar rest = true -> headFails urlChar post ->
  occurrencesWithin asanaPrefix (pre ++ (asanaPrefix ++ rest) ++ post)
    (length pre) (length pre + length (asanaPrefix ++ rest)) = true ->
  matchAll (pre ++ (asanaPrefix ++ rest) ++ post) asanaUrlRegex
  = [mkMatch (length pre) (asanaPrefix ++ rest) []].
Proof.
  intros pre rest post Hne Hrest Hpost Hocc.
  set (url := asanaPrefix ++ rest) in *.
  assert (Hin : forall i, occursAt asanaPrefix (pre ++ url ++ post) i ->
                          length pre <= i /\ i + length asanaPrefix <= length pre + length url)
    by exact (occurrencesWithin_spec _ _ _ _ Hocc).
  assert (Hrun : hd_error (run asanaUrlRegex (url ++ post) []) = Some (post, [])).
  { unfold asanaUrlRegex, url. rewrite <- app_assoc.
    eapply hd_run_Seq; [apply hd_run_Lit|]. cbn [fst snd].
    apply hd_run_Plus_Cls; assumption. }
  unfold matchAll. cbn [matchAllFrom].
  assert (Es : search asanaUrlRegex (pre ++ url ++ post) 0
               = Some (mkMatch (length pre) url [])).
  { unfold asanaUrlRegex. rewrite search_Lit_skip.
    - fold asanaUrlRegex. rewrite search_unfold, Hrun. cbn [fst snd].
      rewrite firstn_consumed. reflexivity.
    - intros k Hk.
      destruct (startsWith asanaPrefix (skipn k (pre ++ url ++ post))) eqn:E; [|reflexivity].
      exfalso.
      assert (Hoc : occursAt asanaPrefix (pre ++ url ++ post) k).
      { apply occursAt_startsWith. split; [rewrite length_app; lia | exact E]. }
      apply Hin in Hoc. lia. }
  rewrite Es. cbn [m_index m_full].
  assert (Hl : Nat.eqb (length url) 0 = false) by reflexivity.
  rewrite Hl, Nat.sub_0_r.
  assert (Hle : (length pre + length url <=? length (pre ++ url ++ post)) = true).
  { apply Nat.leb_le. rewrite !length_app. lia. }
  rewrite Hle.
  assert (Esk : skipn (length pre + length url) (pre ++ url ++ post) = post).
  { rewrite app_assoc, <- length_app, skipn_app, skipn_all, Nat.sub_diag. reflexivity. }
  rewrite Esk.
  assert (Hlen : exists n, length (pre ++ url ++ post) = S n).
  { assert (Hpos : 0 < length (pre ++ url ++ post)).
    { rewrite !length_app. unfold url. rewrite length_app. simpl. lia. }
    destruct (length (pre ++ url ++ post)) as [|n]; [lia | exists n; reflexivity]. }
  destruct Hlen as [n ->]. cbn [matchAllFrom].
  unfold asanaUrlRegex. rewrite search_no_prefix; [reflexivity|].
  intros p q Epost.
  assert (Hoc : occursAt asanaPrefix (pre ++ url ++ post) (length (pre ++ url ++ p))).
  { exists (pre ++ url ++ p), q. split; [|reflexivity].
    rewrite Epost, <- !app_assoc. reflexivity. }
  apply Hin in Hoc. rewrite !length_app in Hoc. simpl in Hoc. lia.
Qed.

(** The first occurrence of the URL is the one at hand. *)
Lemma indexOf_single_url : forall pre rest post,
  occurrencesWithin asanaPrefix (pre ++ (asanaPrefix ++ rest) ++ post)
    (length pre) (length pre + length (asanaPrefix ++ rest)) = true ->
  indexOf (pre ++ (asanaPrefix ++ rest) ++ post) (asanaPrefix ++ rest) 0 = Some (length pre).
Proof.
  intros pre rest post Hocc. set (url := asanaPrefix ++ rest) in *.
  destruct (indexOf_first_occurrence (pre ++ url ++ post) url) as [i Ei];
    [exists pre, post; reflexivity|].
  rewrite Ei. f_equal.
  assert (Hi := Ei). apply indexOf_Some in Hi. destruct Hi as [(p & q & Es & Ep) _].
  assert (Hoc : occursAt asanaPrefix (pre ++ url ++ post) i).
  { exists p, (rest ++ q). split; [|exact Ep]. rewrite Es. unfold url.
    rewrite <- !app_assoc. reflexivity. }
  apply (occurrencesWithin_spec _ _ _ _ Hocc) in Hoc.
  destruct (Nat.eq_dec i (length pre)) as [E | Hneq]; [exact E|]. exfalso.
  unfold indexOf in Ei. cbn [Nat.min skipn] in Ei.
  assert (Hf := indexOfAux_first _ _ _ _ Ei (length pre) ltac:(lia)).
  rewrite skipn_app, skipn_all, Nat.sub_diag in Hf. cbn [skipn app] in Hf.
  rewrite startsWith_app in Hf. discriminate.
Qed.

Lemma String_replace_single_url : forall pre rest post replacement,
  occurrencesWithin asanaPrefix (pre ++ (asanaPrefix ++ rest) ++ post)
    (length pre) (length pre + length (asanaPrefix ++ rest)) = true ->
  hasChar (ch "$") replacement = false ->
  String_replace (pre ++ (asanaPrefix ++ rest) ++ post) (asanaPrefix ++ rest) replacement
  = pre ++ replacement ++ post.
Proof.
  intros pre rest post replacement Hocc Hrep. unfold String_replace.
  rewrite (indexOf_single_url pre rest post Hocc).
  rewrite getSubstitution_plain by exact Hrep.
  set (url := asanaPrefix ++ rest).
  assert (E1 : firstn (length pre) (pre ++ url ++ post) = pre).
  { rewrite firstn_app, firstn_all, Nat.sub_diag. cbn [firstn]. apply app_nil_r. }
  assert (E2 : skipn (length pre + length url) (pre ++ url ++ post) = post).
  { rewrite app_assoc, <- length_app, skipn_app, skipn_all, Nat.sub_diag. reflexivity. }
  rewrite E1, E2. reflexivity.
Qed.

Lemma urlChar_no_paren : forall rest,
  forallb urlChar rest = true -> hasChar (ch ")") rest = false.
Proof.
  induction rest as [|x rest IH]; intros H; [reflexivity|].
  cbn [forallb] in H. apply andb_true_iff in H. destruct H as [Hx Hr].
  unfold hasChar. cbn [existsb]. fold (hasChar (ch ")") rest). rewrite (IH Hr), orb_false_r.
  unfold urlChar in Hx. apply andb_true_iff in Hx. destruct Hx as [_ Hx].
  unfold noneOf in Hx. apply negb_true_iff in Hx. cbn [existsb] in Hx.
  repeat (apply orb_false_iff in Hx; destruct Hx as [? Hx]).
  rewrite N.eqb_sym. assumption.
Qed.

(** What [unfurlBody] does once the links are flattened, when the
    flattened body holds one Asana URL. *)
Lemma unfurlBody_single_url :
  forall (World : Type) (getTask : jsstring -> World -> option jsstring * World)
         (originalBody pre rest post taskId taskTitle : jsstring) (w w' : World),
    String_replace_g originalBody Main.markdownLinkRegex Main.flattenReplacer
    = pre ++ (asanaPrefix ++ rest) ++ post ->
    rest <> [] -> forallb urlChar rest = true -> headFails urlChar post ->
    occurrencesWithin asanaPrefix (pre ++ (asanaPrefix ++ rest) ++ post)
      (length pre) (length pre + length (asanaPrefix ++ rest)) = true ->
    TaskGIDs.getAsanaTaskGIDsFromText (asanaPrefix ++ rest) = [taskId] ->
    getTask taskId w = (Some taskTitle, w') ->
    hasChar (ch "$") taskTitle = false -> hasChar (ch "$") rest = false ->
    Main.unfurlBody getTask originalBody w
    = (pre ++ markdownLink taskTitle (asanaPrefix ++ rest) ++ post,
       [Main.mkReplacement (asanaPrefix ++ rest)
          (markdownLink taskTitle (asanaPrefix ++ rest))],
       w').
Proof.
  intros World getTask originalBody pre rest post taskId taskTitle w w'
    Hflat Hne Hrest Hpost Hocc Hid Hget Htitle Hdollar.
  unfold Main.unfurlBody. rewrite Hflat.
  rewrite (matchAll_single_url pre rest post Hne Hrest Hpost Hocc).
  cbn [fold_left]. unfold Main.scanStep. cbn [m_full TaskGIDs.Set_has existsb].
  rewrite Hid, Hget. cbn [app fold_left Main.original Main.replacement].
  rewrite String_replace_single_url; [reflexivity | exact Hocc |].
  apply markdownLink_keeps_out; [reflexivity | exact Htitle |].
  rewrite hasChar_app, Hdollar. reflexivity.
Qed.

(** X13.  [main.ts] on a body whose one link to Asana is all it holds of
    Asana URLs and of [[]: the link comes out with the name of the task as
    its label, whatever its label was, and there is one replacement.  The
    target is [https://app.asana.com/] and URL code units, the text after
    the link does not go on with a URL code unit, and neither the name nor
    the URL holds a dollar sign. *)
Theorem unfurlBody_relabels_link :
  forall (World : Type) (getTask : jsstring -> World -> option jsstring * World)
         (pre label rest post taskId taskTitle : jsstring) (w w' : World),
    hasChar (ch "[") pre = false -> hasChar (ch "[") post = false ->
    hasChar (ch "]") label = false ->
    rest <> [] -> forallb urlChar rest = true -> headFails urlChar post ->
    occurrencesWithin asanaPrefix (pre ++ (asanaPrefix ++ rest) ++ post)
      (length pre) (length pre + length (asanaPrefix ++ rest)) = true ->
    TaskGIDs.getAsanaTaskGIDsFromText (asanaPrefix ++ rest) = [taskId] ->
    getTask taskId w = (Some taskTitle, w') ->
    hasChar (ch "$") taskTitle = false -> hasChar (ch "$") rest = false ->
    Main.unfurlBody getTask
      (pre ++ markdownLink label (asanaPrefix ++ rest) ++ post) w
    = (pre ++ markdownLink taskTitle (asanaPrefix ++ rest) ++ post,
       [Main.mkReplacement (asanaPrefix ++ rest)
          (markdownLink taskTitle (asanaPrefix ++ rest))],
       w').
Proof.
  intros World getTask pre label rest post taskId taskTitle w w'
    Hpre Hpost Hlabel Hne Hrest Hpost' Hocc Hid Hget Htitle Hdollar.
  apply (unfurlBody_single_url World getTask _ pre rest post taskId taskTitle w w');
    try assumption.
  apply flatten_single_link; try assumption.
  apply urlChar_no_paren. exact Hrest.
Qed.

Lemma unfurlBody_relabels_link_witness :
  Main.unfurlBody (pureFetch (oneTask (str "2") (str "Fix bug")))
    (str "See " ++ markdownLink (str "old") (asanaPrefix ++ str "0/1/2") ++ str " today") tt
  = (str "See " ++ markdownLink (str "Fix bug") (asanaPrefix ++ str "0/1/2") ++ str " today",
     [Main.mkReplacement (asanaPrefix ++ str "0/1/2")
        (markdownLink (str "Fix bug") (asanaPrefix ++ str "0/1/2"))],
     tt).
Proof.
  apply (unfurlBody_relabels_link unit (pureFetch (oneTask (str "2") (str "Fix bug")))
           (str "See ") (str "old") (str "0/1/2") (str " today") (str "2") (str "Fix bug") tt tt);
    try discriminate; vm_compute; reflexivity.
Defined.

(** X14.  [main.ts] on a body without [[] whose one Asana URL stands
    plainly: the URL becomes a link with the name of the task as its
    label, and there is one replacement. *)
Theorem unfurlBody_links_plain_url :
  forall (World : Type) (getTask : jsstring -> World -> option jsstring * World)
         (pre rest post taskId taskTitle : jsstring) (w w' : World),
    hasChar (ch "[") (pre ++ (asanaPrefix ++ rest) ++ post) = false ->
    rest <> [] -> forallb urlChar rest = true -> headFails urlChar post ->
    occurrencesWithin asanaPrefix (pre ++ (asanaPrefix ++ rest) ++ post)
      (length pre) (length pre + length (asanaPrefix ++ rest)) = true ->
    TaskGIDs.getAsanaTaskGIDsFromText (asanaPrefix ++ rest) = [taskId] ->
    getTask taskId w = (Some taskTitle, w') ->
    hasChar (ch "$") taskTitle = false -> hasChar (ch "$") rest = false ->
    Main.unfurlBody getTask (pre ++ (asanaPrefix ++ rest) ++ post) w
    = (pre ++ markdownLink taskTitle (asanaPrefix ++ rest) ++ post,
       [Main.mkReplacement (asanaPrefix ++ rest)
          (markdownLink taskTitle (asanaPrefix ++ rest))],
       w').
Proof.
  intros World getTask pre rest post taskId taskTitle w w'
    Hno Hne Hrest Hpost Hocc Hid Hget Htitle Hdollar.
  apply (unfurlBody_single_url World getTask _ pre rest post taskId taskTitle w w');
    try assumption.
  apply flatten_no_link. exact Hno.
Qed.

Lemma unfurlBody_links_plain_url_witness :
  Main.unfurlBody (pureFetch (oneTask (str "789012") (str "Fix bug")))
    (str "See " ++ (asanaPrefix ++ str "0/123456/789012") ++ str " today") tt
  = (str "See " ++ markdownLink (str "Fix bug") (asanaPrefix ++ str "0/123456/789012")
       ++ str " today",
     [Main.mkReplacement (asanaPrefix ++ str "0/123456/789012")
        (markdownLink (str "Fix bug") (asanaPrefix ++ str "0/123456/789012"))],
     tt).
Proof.
  apply (unfurlBody_links_plain_url unit (pureFetch (oneTask (str "789012") (str "Fix bug")))
           (str "See ") (str "0/123456/789012") (str " today") (str "789012") (str "Fix bug")
           tt tt);
    try discriminate; vm_compute; reflexivity.
Defined.

(** ** main.ts: when the pull request is updated *)

Lemma str_eqb_false : forall a b, str_eqb a b = false -> a <> b.
Proof. intros a b H ->. rewrite str_eqb_refl in H. discriminate. Qed.

(** X15.  [main.ts] calls [octokit.pulls.update] only in a run on a
    [pull_request] event with both tokens and a pull-request number that
    is not zero, only with the body it has unfurled, and only when the
    words of that body differ from those of the body it has read: a
    change in white space alone is not sent. *)
Theorem Main_updates_only_changed_words :
  forall (World : Type) (getTask : jsstring -> World -> option jsstring * World)
         (ctx : Context) (w : World) (n : nat) (b : jsstring),
    In (pulls_update n b) (fst (Main.unfurlAsanaUrls getTask ctx w)) ->
    githubToken ctx <> [] /\ asanaToken ctx <> [] /\
    eventName ctx = str "pull_request" /\ prNumber ctx = Some n /\ n <> 0 /\
    exists pullRequest_body,
      pulls_get ctx = Some pullRequest_body /\
      b = fst (fst (Main.unfurlBody getTask (bodyOrEmpty pullRequest_body) w)) /\
      words (bodyOrEmpty pullRequest_body) <> words b.
Proof.
  intros World getTask ctx w n b H. unfold Main.unfurlAsanaUrls in H.
  destruct (githubToken ctx) as [|g gs] eqn:Eg;
    [cbn [fst] in H; destruct H as [H | []]; discriminate|].
  destruct (asanaToken ctx) as [|a As] eqn:Ea;
    [cbn [fst] in H; destruct H as [H | []]; discriminate|].
  destruct (str_eqb (eventName ctx) (str "pull_request")) eqn:Ee;
    [|cbn [negb fst] in H; destruct H].
  cbn [negb] in H. apply str_eqb_eq in Ee.
  destruct (prNumber ctx) as [[|m]|] eqn:En;
    try (cbn [fst] in H; destruct H as [H | []]; discriminate).
  destruct (pulls_get ctx) as [pullRequest_body|] eqn:Ep;
    [|cbn [fst] in H; destruct H as [H | []]; discriminate].
  destruct (Main.unfurlBody getTask (bodyOrEmpty pullRequest_body) w)
    as [[updatedBody replacements] w'] eqn:Eu.
  destruct (str_eqb (Main.normalizeWhitespace (bodyOrEmpty pullRequest_body))
              (Main.normalizeWhitespace updatedBody)) eqn:En';
    cbn [negb] in H.
  { cbn [fst] in H. destruct H as [H | [H | []]]; discriminate. }
  apply str_eqb_false in En'.
  assert (Hb : S m = n /\ updatedBody = b).
  { destruct (pulls_update_fulfils ctx); cbn [fst] in H.
    - destruct H as [H | [H | [H | []]]]; try discriminate. injection H as -> ->. split; reflexivity.
    - destruct H as [H | [H | []]]; try discriminate. injection H as -> ->. split; reflexivity. }
  destruct Hb as [<- <-].
  repeat split; try discriminate; try assumption; try reflexivity.
  exists pullRequest_body. rewrite Eu. cbn [fst]. split; [reflexivity | split; [reflexivity|]].
  intros Ew. apply En'. rewrite !normalizeWhitespace_words, Ew. reflexivity.
Qed.

Lemma Main_updates_only_changed_words_witness :
  githubToken (mkContext (str "g") (str "a") (str "pull_request") (Some 7)
                 (Some (Some (str "See https://app.asana.com/0/1/2"))) true) <> [] /\
  asanaToken (mkContext (str "g") (str "a") (str "pull_request") (Some 7)
                (Some (Some (str "See https://app.asana.com/0/1/2"))) true) <> [] /\
  eventName (mkContext (str "g") (str "a") (str "pull_request") (Some 7)
               (Some (Some (str "See https://app.asana.com/0/1/2"))) true)
  = str "pull_request" /\
  prNumber (mkContext (str "g") (str "a") (str "pull_request") (Some 7)
              (Some (Some (str "See https://app.asana.com/0/1/2"))) true) = Some 7 /\
  7 <> 0 /\
  exists pullRequest_body,
    pulls_get (mkContext (str "g") (str "a") (str "pull_request") (Some 7)
                 (Some (Some (str "See https://app.asana.com/0/1/2"))) true)
    = Some pullRequest_body /\
    str "See [T](https://app.asana.com/0/1/2)"
    = fst (fst (Main.unfurlBody (pureFetch (oneTask (str "2") (str "T")))
                  (bodyOrEmpty pullRequest_body) tt)) /\
    words (bodyOrEmpty pullRequest_body) <> words (str "See [T](https://app.asana.com/0/1/2)").
Proof.
  apply (Main_updates_only_changed_words unit (pureFetch (oneTask (str "2") (str "T")))
           (mkContext (str "g") (str "a") (str "pull_request") (Some 7)
              (Some (Some (str "See https://app.asana.com/0/1/2"))) true)
           tt 7 (str "See [T](https://app.asana.com/0/1/2)")).
  vm_compute. left. reflexivity.
Defined.

(** X16.  After a run of [main.ts] on a [pull_request] event that read the
    pull request and reported no failure, the body of the pull request has
    the words of the unfurled body: it is the unfurled body when that was
    sent, and the body as it was when the two differ in white space at
    most. *)
Theorem Main_body_after_run :
  forall (World : Type) (getTask : jsstring -> World -> option jsstring * World)
         (ctx : Context) (w : World) (pullRequest_body : option jsstring),
    eventName ctx = str "pull_request" ->
    pulls_get ctx = Some pullRequest_body ->
    ~ In setFailed (fst (Main.unfurlAsanaUrls getTask ctx w)) ->
    words (bodyAfter (fst (Main.unfurlAsanaUrls getTask ctx w))
             (bodyOrEmpty pullRequest_body))
    = words (fst (fst (Main.unfurlBody getTask (bodyOrEmpty pullRequest_body) w))).
Proof.
  intros World getTask ctx w pullRequest_body Ee Ep H.
  unfold Main.unfurlAsanaUrls in *. rewrite Ee, Ep in *.
  destruct (githubToken ctx) as [|g gs]; [exfalso; apply H; left; reflexivity|].
  destruct (asanaToken ctx) as [|a As]; [exfalso; apply H; left; reflexivity|].
  rewrite str_eqb_refl in *. cbn [negb] in *.
  destruct (prNumber ctx) as [[|m]|]; try (exfalso; apply H; left; reflexivity).
  destruct (Main.unfurlBody getTask (bodyOrEmpty pullRequest_body) w)
    as [[updatedBody replacements] w'].
  destruct (str_eqb (Main.normalizeWhitespace (bodyOrEmpty pullRequest_body))
              (Main.normalizeWhitespace updatedBody)) eqn:En; cbn [negb] in *.
  - apply str_eqb_eq in En. apply normalizeWhitespace_eq_words in En. exact En.
  - destruct (pulls_update_fulfils ctx); [reflexivity|].
    exfalso. apply H. right. left. reflexivity.
Qed.

Lemma Main_body_after_run_witness :
  words (bodyAfter
           (fst (Main.unfurlAsanaUrls (pureFetch (oneTask (str "2") (str "T")))
                   (mkContext (str "g") (str "a") (str "pull_request") (Some 7)
                      (Some (Some (str "See https://app.asana.com/0/1/2"))) true) tt))
           (bodyOrEmpty (Some (str "See https://app.asana.com/0/1/2"))))
  = words (fst (fst (Main.unfurlBody (pureFetch (oneTask (str "2") (str "T")))
                       (bodyOrEmpty (Some (str "See https://app.asana.com/0/1/2"))) tt))).
Proof.
  apply (Main_body_after_run unit (pureFetch (oneTask (str "2") (str "T")))
           (mkContext (str "g") (str "a") (str "pull_request") (Some 7)
              (Some (Some (str "See https://app.asana.com/0/1/2"))) true)
           tt (Some (str "See https://app.asana.com/0/1/2"))).
  - reflexivity.
  - reflexivity.
  - vm_compute. intros [H | [H | [H | []]]]; discriminate.
Defined.

(** ** The version of main.ts that calls transformPRBody *)

(** X17.  After a run of the version of [main.ts] that calls
    [transformPRBody], on a [pull_request] event, that read the pull
    request and reported no failure, the body of the pull request is the
    body that [transformPRBody] returns: it was sent when a change was
    reported, and when none was reported the body read is that body. *)
Theorem MainTransform_body_after_run :
  forall (World : Type) (getTask : jsstring -> World -> option jsstring * World)
         (ctx : Context) (w : World) (pullRequest_body : option jsstring),
    eventName ctx = str "pull_request" ->
    pulls_get ctx = Some pullRequest_body ->
    ~ In setFailed (fst (MainTransform.unfurlAsanaUrls getTask ctx w)) ->
    bodyAfter (fst (MainTransform.unfurlAsanaUrls getTask ctx w))
      (bodyOrEmpty pullRequest_body)
    = body (fst (transformPRBody (MainTransform.fetchTaskTitle getTask)
                   (bodyOrEmpty pullRequest_body) w)).
Proof.
  intros World getTask ctx w pullRequest_body Ee Ep H.
  unfold MainTransform.unfurlAsanaUrls in *. rewrite Ee, Ep in *.
  destruct (githubToken ctx) as [|g gs]; [exfalso; apply H; left; reflexivity|].
  destruct (asanaToken ctx) as [|a As]; [exfalso; apply H; left; reflexivity|].
  rewrite str_eqb_refl in *. cbn [negb] in *.
  destruct (prNumber ctx) as [[|m]|]; try (exfalso; apply H; left; reflexivity).
  pose proof (rewriteBody_counts
                (fst (resolveAll (MainTransform.fetchTaskTitle getTask)
                        (TaskGIDs.newSet (collectAllAsanaUrls (bodyOrEmpty pullRequest_body))) w))
                (bodyOrEmpty pullRequest_body)) as [H1 H2].
  rewrite <- transformPRBody_rewrite in H1, H2.
  destruct (transformPRBody (MainTransform.fetchTaskTitle getTask)
              (bodyOrEmpty pullRequest_body) w) as [result w'].
  cbn [fst] in *.
  destruct (changesApplied result) eqn:Ec.
  - destruct (pulls_update_fulfils ctx); [reflexivity|].
    exfalso. apply H. right. left. reflexivity.
  - cbn [fst bodyAfter fold_left]. symmetry. apply H2.
    symmetry in H1. apply Nat.ltb_ge in H1. lia.
Qed.

Lemma MainTransform_body_after_run_witness :
  bodyAfter
    (fst (MainTransform.unfurlAsanaUrls (pureFetch (oneTask (str "2") (str "T")))
            (mkContext (str "g") (str "a") (str "pull_request") (Some 7)
               (Some (Some (str "See https://app.asana.com/0/1/2"))) true) tt))
    (bodyOrEmpty (Some (str "See https://app.asana.com/0/1/2")))
  = body (fst (transformPRBody
                 (MainTransform.fetchTaskTitle (pureFetch (oneTask (str "2") (str "T"))))
                 (bodyOrEmpty (Some (str "See https://app.asana.com/0/1/2"))) tt)).
Proof.
  apply (MainTransform_body_after_run unit (pureFetch (oneTask (str "2") (str "T")))
           (mkContext (str "g") (str "a") (str "pull_request") (Some 7)
              (Some (Some (str "See https://app.asana.com/0/1/2"))) true)
           tt (Some (str "See https://app.asana.com/0/1/2"))).
  - reflexivity.
  - reflexivity.
  - vm_compute. intros [H | [H | [H | []]]]; discriminate.
Defined.

(** ** main.ts: one lookup for each distinct URL *)

Lemma newSet_snoc : forall xs x,
  TaskGIDs.newSet (xs ++ [x]) = TaskGIDs.Set_add (TaskGIDs.newSet xs) x.
Proof. intros xs x. unfold TaskGIDs.newSet. rewrite fold_left_app. reflexivity. Qed.

Lemma Set_has_false : forall s x, TaskGIDs.Set_has s x = false <-> ~ In x s.
Proof.
  intros s x. split.
  - intros H Hin. apply Set_has_In in Hin. congruence.
  - intros H. destruct (TaskGIDs.Set_has s x) eqn:E; [|reflexivity].
    apply Set_has_In in E. contradiction.
Qed.

Lemma lookupOf_hasOneId : forall url, hasOneId url = false -> lookupOf url = [].
Proof.
  intros url. unfold hasOneId, lookupOf.
  destruct (TaskGIDs.getAsanaTaskGIDsFromText url) as [|? [|? ?]]; [reflexivity | discriminate | reflexivity].
Qed.

Lemma scan_invariant :
  forall (World : Type) (getTask : jsstring -> World -> option jsstring * World)
         (ms : list rmatch) (seen : list jsstring)
         (processedUrls : list jsstring) (replacements : list Main.Replacement)
         (w : World) (log : list jsstring),
    processedUrls = filter hasOneId (TaskGIDs.newSet seen) ->
    log = flat_map lookupOf (TaskGIDs.newSet seen) ->
    length replacements <= length log ->
    let '(_, replacements', (_, log')) :=
      fold_left (Main.scanStep (logged getTask)) ms
        (processedUrls, replacements, (w, log)) in
    log' = flat_map lookupOf (TaskGIDs.newSet (seen ++ map m_full ms)) /\
    length replacements' <= length log'.
Proof.
  intros World getTask. induction ms as [|m ms IH];
    intros seen processedUrls replacements w log Hp Hl Hr.
  - cbn [fold_left map]. rewrite app_nil_r. split; assumption.
  - cbn [fold_left map].
    replace (seen ++ m_full m :: map m_full ms)
      with ((seen ++ [m_full m]) ++ map m_full ms) by (rewrite <- app_assoc; reflexivity).
    unfold Main.scanStep at 2.
    destruct (TaskGIDs.Set_has processedUrls (m_full m)) eqn:Eh.
    + apply IH; [|  | exact Hr].
      * rewrite newSet_snoc. unfold TaskGIDs.Set_add.
        assert (Hin : In (m_full m) (TaskGIDs.newSet seen)).
        { apply Set_has_In in Eh. rewrite Hp in Eh. apply filter_In in Eh. apply Eh. }
        apply Set_has_In in Hin. rewrite Hin. exact Hp.
      * rewrite newSet_snoc. unfold TaskGIDs.Set_add.
        assert (Hin : In (m_full m) (TaskGIDs.newSet seen)).
        { apply Set_has_In in Eh. rewrite Hp in Eh. apply filter_In in Eh. apply Eh. }
        apply Set_has_In in Hin. rewrite Hin. exact Hl.
    + destruct (hasOneId (m_full m)) eqn:Eo.
      * assert (Hnot : TaskGIDs.Set_has (TaskGIDs.newSet seen) (m_full m) = false).
        { apply Set_has_false. intros Hin. apply Set_has_false in Eh. apply Eh.
          rewrite Hp. apply filter_In. split; assumption. }
        assert (Enew : TaskGIDs.newSet (seen ++ [m_full m])
                       = TaskGIDs.newSet seen ++ [m_full m]).
        { rewrite newSet_snoc. unfold TaskGIDs.Set_add. rewrite Hnot. reflexivity. }
        unfold hasOneId in Eo.
        destruct (TaskGIDs.getAsanaTaskGIDsFromText (m_full m)) as [|taskId [|? ?]] eqn:Eg;
          try discriminate.
        unfold logged at 2. cbn [fst snd].
        assert (Ep' : TaskGIDs.Set_add processedUrls (m_full m)
                      = filter hasOneId (TaskGIDs.newSet (seen ++ [m_full m]))).
        { unfold TaskGIDs.Set_add. rewrite Eh, Enew, filter_app, <- Hp. cbn [filter].
          unfold hasOneId. rewrite Eg. reflexivity. }
        assert (El' : log ++ [taskId]
                      = flat_map lookupOf (TaskGIDs.newSet (seen ++ [m_full m]))).
        { rewrite Enew, flat_map_app, <- Hl. cbn [flat_map]. unfold lookupOf. rewrite Eg.
          reflexivity. }
        destruct (getTask taskId w) as [[taskTitle|] w1].
        -- apply IH; [exact Ep' | exact El' |]. rewrite !length_app. simpl. lia.
        -- apply IH; [exact Ep' | exact El' |]. rewrite length_app. simpl. lia.
      * assert (Hf : filter hasOneId (TaskGIDs.newSet (seen ++ [m_full m]))
                     = filter hasOneId (TaskGIDs.newSet seen)).
        { rewrite newSet_snoc. unfold TaskGIDs.Set_add.
          destruct (TaskGIDs.Set_has (TaskGIDs.newSet seen) (m_full m)); [reflexivity|].
          rewrite filter_app. cbn [filter]. rewrite Eo. apply app_nil_r. }
        assert (Hg : flat_map lookupOf (TaskGIDs.newSet (seen ++ [m_full m]))
                     = flat_map lookupOf (TaskGIDs.newSet seen)).
        { rewrite newSet_snoc. unfold TaskGIDs.Set_add.
          destruct (TaskGIDs.Set_has (TaskGIDs.newSet seen) (m_full m)); [reflexivity|].
          rewrite flat_map_app. cbn [flat_map]. rewrite (lookupOf_hasOneId _ Eo).
          rewrite !app_nil_r. reflexivity. }
        unfold hasOneId in Eo.
        destruct (TaskGIDs.getAsanaTaskGIDsFromText (m_full m)) as [|? [|? ?]];
          [| discriminate |];
          (apply IH; [rewrite Hf; exact Hp | rewrite Hg; exact Hl | exact Hr]).
Qed.

(** X18.  [main.ts] looks up a task once for each distinct URL of the
    flattened body that holds exactly one identifier, in the order of their
    first occurrences, however often the URL occurs and whether or not the
    lookup succeeds; and there are no more replacements than lookups. *)
Theorem Main_lookup_once_per_distinct_url :
  forall (World : Type) (getTask : jsstring -> World -> option jsstring * World)
         (originalBody : jsstring) (w : World),
    let flattened :=
      String_replace_g originalBody Main.markdownLinkRegex Main.flattenReplacer in
    let result := Main.unfurlBody (logged getTask) originalBody (w, []) in
    snd (snd result) = flat_map lookupOf (TaskGIDs.newSet (collectAllAsanaUrls flattened)) /\
    NoDup (TaskGIDs.newSet (collectAllAsanaUrls flattened)) /\
    length (snd (fst result)) <= length (snd (snd result)).
Proof.
  intros World getTask originalBody w. cbn zeta. unfold Main.unfurlBody.
  pose proof (scan_invariant World getTask
                (matchAll (String_replace_g originalBody Main.markdownLinkRegex
                             Main.flattenReplacer) asanaUrlRegex)
                [] [] [] w [] eq_refl eq_refl (le_n 0)) as H.
  cbn [app] in H. fold (collectAllAsanaUrls
    (String_replace_g originalBody Main.markdownLinkRegex Main.flattenReplacer)) in H.
  destruct (fold_left (Main.scanStep (logged getTask))
              (matchAll (String_replace_g originalBody Main.markdownLinkRegex
                           Main.flattenReplacer) asanaUrlRegex)
              ([], [], (w, []))) as [[processedUrls replacements] [w' log]].
  destruct H as [H1 H2]. cbn [fst snd].
  split; [exact H1 | split; [apply newSet_NoDup | exact H2]].
Qed.

(** ** Sanitized titles *)

(** X19.  [sanitizeTitleForMarkdown] changes a title exactly when the title
    holds a square bracket, and sanitizing a sanitized title changes
    nothing. *)
Theorem sanitizeTitleForMarkdown_fixed_points : forall t,
  sanitizeTitleForMarkdown (sanitizeTitleForMarkdown t) = sanitizeTitleForMarkdown t /\
  (sanitizeTitleForMarkdown t = t <->
   hasChar (ch "[") t = false /\ hasChar (ch "]") t = false).
Proof.
  intros t.
  assert (Hfix : forall u, hasChar (ch "[") u = false /\ hasChar (ch "]") u = false ->
                           sanitizeTitleForMarkdown u = u).
  { intros u [H1 H2]. rewrite sanitizeTitleForMarkdown_map.
    induction u as [|c u IH]; [reflexivity|].
    unfold hasChar in H1, H2. cbn [existsb] in H1, H2.
    apply orb_false_iff in H1. destruct H1 as [Hc1 H1].
    apply orb_false_iff in H2. destruct H2 as [Hc2 H2].
    cbn [map]. rewrite (N.eqb_sym c), Hc1, (N.eqb_sym c), Hc2. f_equal.
    exact (IH H1 H2). }
  split.
  - apply Hfix. apply sanitizeTitleForMarkdown_no_brackets.
  - split; [|apply Hfix].
    intros E. rewrite <- E. apply sanitizeTitleForMarkdown_no_brackets.
Qed.

Lemma sanitizeTitleForMarkdown_fixed_points_witness :
  sanitizeTitleForMarkdown (str "Fix (the) bug") = str "Fix (the) bug".
Proof.
  apply (proj2 (proj2 (sanitizeTitleForMarkdown_fixed_points (str "Fix (the) bug")))).
  split; reflexivity.
Defined.

(** ** Line ends *)

Lemma split2_until : forall a b l rest,
  hasChar a l = false -> split2 a b (l ++ a :: b :: rest) = l :: split2 a b rest.
Proof.
  intros a b l rest. induction l as [|x l IH]; intros H.
  - cbn [app].
    change (split2 a b (a :: b :: rest))
      with (if N.eqb a a && N.eqb b b then [] :: split2 a b rest
            else consPiece a (split2 a b (b :: rest))).
    rewrite !N.eqb_refl. reflexivity.
  - unfold hasChar in H. cbn [existsb] in H. apply orb_false_iff in H. destruct H as [Hx Hl].
    assert (Hx' : N.eqb x a = false) by (rewrite N.eqb_sym; exact Hx).
    destruct l as [|y l].
    + cbn [app].
      change (split2 a b (x :: a :: b :: rest))
        with (if N.eqb x a && N.eqb a b then [] :: split2 a b (b :: rest)
              else consPiece x (split2 a b (a :: b :: rest))).
      rewrite Hx'. cbn [andb].
      change (a :: b :: rest) with ([] ++ a :: b :: rest). rewrite IH by reflexivity.
      reflexivity.
    + cbn [app].
      change (split2 a b (x :: y :: l ++ a :: b :: rest))
        with (if N.eqb x a && N.eqb y b then [] :: split2 a b (l ++ a :: b :: rest)
              else consPiece x (split2 a b ((y :: l) ++ a :: b :: rest))).
      rewrite Hx'. cbn [andb]. rewrite IH by exact Hl. reflexivity.
Qed.

Lemma split2_one_first : forall a b s, hasChar a s = false -> split2 a b s = [s].
Proof.
  intros a b s. induction s as [|x s IH]; intros H; [reflexivity|].
  unfold hasChar in H. cbn [existsb] in H. apply orb_false_iff in H. destruct H as [Hx Hs].
  assert (Hx' : N.eqb x a = false) by (rewrite N.eqb_sym; exact Hx).
  destruct s as [|y s]; [reflexivity|].
  change (split2 a b (x :: y :: s))
    with (if N.eqb x a && N.eqb y b then [] :: split2 a b s
          else consPiece x (split2 a b (y :: s))).
  rewrite Hx'. cbn [andb]. rewrite IH by exact Hs. reflexivity.
Qed.

Lemma split2_join : forall a b lines,
  lines <> [] -> Forall (fun line => hasChar a line = false) lines ->
  split2 a b (join [a; b] lines) = lines.
Proof.
  intros a b. induction lines as [|l lines IH]; intros Hne F; [contradiction|].
  inversion F as [|? ? Hl Fl]; subst.
  destruct lines as [|l2 lines].
  - cbn [join]. apply split2_one_first. exact Hl.
  - change (join [a; b] (l :: l2 :: lines)) with (l ++ a :: b :: join [a; b] (l2 :: lines)).
    rewrite split2_until by exact Hl. f_equal. apply IH; [discriminate | exact Fl].
Qed.

Lemma flat_map_split1_one : forall lines,
  Forall (fun line => hasChar LF line = false) lines ->
  flat_map (split1 LF) lines = lines.
Proof.
  induction lines as [|l lines IH]; intros F; [reflexivity|].
  inversion F as [|? ? Hl Fl]; subst.
  cbn [flat_map]. rewrite split1_one by exact Hl. rewrite (IH Fl). reflexivity.
Qed.

Lemma hasChar_join : forall x sep lines,
  hasChar x sep = false -> Forall (fun line => hasChar x line = false) lines ->
  hasChar x (join sep lines) = false.
Proof.
  intros x sep. induction lines as [|l lines IH]; intros Hs F; [reflexivity|].
  inversion F as [|? ? Hl Fl]; subst.
  destruct lines as [|l2 lines]; [exact Hl|].
  change (join sep (l :: l2 :: lines)) with (l ++ sep ++ join sep (l2 :: lines)).
  rewrite !hasChar_app, Hl, Hs. exact (IH Hs Fl).
Qed.

(** X20.  Lines joined by CR LF and the same lines joined by LF give the
    same identifiers: in both cases the text is cut back into these
    lines.  The lines hold no CR and no LF. *)
Theorem line_ends_do_not_matter : forall lines,
  lines <> [] ->
  Forall (fun line => hasChar CR line = false /\ hasChar LF line = false) lines ->
  TaskGIDs.splitLines (join [CR; LF] lines) = lines /\
  TaskGIDs.splitLines (join [LF] lines) = lines /\
  TaskGIDs.getAsanaTaskGIDsFromText (join [CR; LF] lines)
  = TaskGIDs.getAsanaTaskGIDsFromText (join [LF] lines).
Proof.
  intros lines Hne F.
  assert (Fcr : Forall (fun line => hasChar CR line = false) lines)
    by (eapply Forall_impl; [|exact F]; intros l [H _]; exact H).
  assert (Flf : Forall (fun line => hasChar LF line = false) lines)
    by (eapply Forall_impl; [|exact F]; intros l [_ H]; exact H).
  assert (E1 : TaskGIDs.splitLines (join [CR; LF] lines) = lines).
  { unfold TaskGIDs.splitLines. rewrite split2_join by assumption.
    apply flat_map_split1_one. exact Flf. }
  assert (E2 : TaskGIDs.splitLines (join [LF] lines) = lines).
  { unfold TaskGIDs.splitLines.
    rewrite split2_one_first by (apply hasChar_join; [reflexivity | exact Fcr]).
    cbn [flat_map]. rewrite app_nil_r. apply split1_join; assumption. }
  split; [exact E1 | split; [exact E2|]].
  unfold TaskGIDs.getAsanaTaskGIDsFromText. rewrite E1, E2. reflexivity.
Qed.

Lemma line_ends_do_not_matter_witness :
  TaskGIDs.splitLines
    (join [CR; LF] [str "https://app.asana.com/0/1/9"; str ""; str "https://app.asana.com/0/1/10"])
  = [str "https://app.asana.com/0/1/9"; str ""; str "https://app.asana.com/0/1/10"] /\
  TaskGIDs.splitLines
    (join [LF] [str "https://app.asana.com/0/1/9"; str ""; str "https://app.asana.com/0/1/10"])
  = [str "https://app.asana.com/0/1/9"; str ""; str "https://app.asana.com/0/1/10"] /\
  TaskGIDs.getAsanaTaskGIDsFromText
    (join [CR; LF] [str "https://app.asana.com/0/1/9"; str ""; str "https://app.asana.com/0/1/10"])
  = TaskGIDs.getAsanaTaskGIDsFromText
      (join [LF] [str "https://app.asana.com/0/1/9"; str ""; str "https://app.asana.com/0/1/10"]).
Proof.
  apply (line_ends_do_not_matter
           [str "https://app.asana.com/0/1/9"; str ""; str "https://app.asana.com/0/1/10"]).
  - discriminate.
  - repeat constructor.
Defined.

(** ** A resolved URL inside a link that does not go to Asana *)

Lemma app_until_char : forall x (a b : jsstring) ra rb,
  hasChar x a = false -> hasChar x b = false ->
  a ++ x :: ra = b ++ x :: rb -> a = b /\ ra = rb.
Proof.
  intros x a. induction a as [|y a IH]; intros b ra rb Ha Hb E.
  - destruct b as [|z b].
    + injection E as E. split; [reflexivity | exact E].
    + cbn [app] in E. injection E as Ez _. subst z.
      unfold hasChar in Hb. cbn [existsb] in Hb. rewrite N.eqb_refl in Hb. discriminate.
  - unfold hasChar in Ha. cbn [existsb] in Ha. apply orb_false_iff in Ha.
    destruct Ha as [Hy Ha]. destruct b as [|z b].
    + cbn [app] in E. injection E as Ey _. subst y. rewrite N.eqb_refl in Hy. discriminate.
    + cbn [app] in E. injection E as Ey E. subst z.
      unfold hasChar in Hb. cbn [existsb] in Hb. apply orb_false_iff in Hb.
      destruct Hb as [_ Hb].
      destruct (IH b ra rb Ha Hb E) as [-> ->]. split; reflexivity.
Qed.

Lemma startsWith_app_char : forall P t x r,
  hasChar x P = false -> startsWith P (t ++ x :: r) = true -> startsWith P t = true.
Proof.
  induction P as [|p P IH]; intros t x r HP H; [reflexivity|].
  unfold hasChar in HP. cbn [existsb] in HP. apply orb_false_iff in HP.
  destruct HP as [Hp HP]. destruct t as [|y t].
  - cbn [app startsWith] in H. apply andb_true_iff in H. destruct H as [H _].
    rewrite N.eqb_sym, Hp in H. discriminate.
  - cbn [app startsWith] in *. apply andb_true_iff in H. destruct H as [H1 H2].
    rewrite H1. exact (IH t x r HP H2).
Qed.

(** The pattern for the links to Asana reads no link that goes
    elsewhere. *)
Lemma run_markdownRegex_foreign : forall label target post c,
  hasChar (ch "]") label = false -> hasChar (ch ")") target = false ->
  startsWith asanaPrefix target = false ->
  run markdownRegex (markdownLink label target ++ post) c = [].
Proof.
  intros label target post c Hl Ht Hs.
  destruct (run markdownRegex (markdownLink label target ++ post) c) as [|st l] eqn:E;
    [reflexivity|].
  exfalso.
  assert (Hin : In st (run markdownRegex (markdownLink label target ++ post) c))
    by (rewrite E; left; reflexivity).
  clear E. unfold markdownRegex, Cat in Hin. cbn [fold_right] in Hin.
  apply run_Seq_In in Hin. destruct Hin as (st1 & H1 & Hin).
  apply run_Seq_In in Hin. destruct Hin as (st2 & H2 & Hin).
  apply run_Seq_In in Hin. destruct Hin as (st3 & H3 & Hin).
  apply run_Seq_In in Hin. destruct Hin as (st4 & H4 & Hin).
  apply run_Seq_In in Hin. destruct Hin as (st5 & H5 & _).
  apply run_Chr_In in H1, H3, H4.
  apply run_Grp_In in H2, H5.
  destruct H2 as (st2' & H2 & E2). destruct H5 as (st5' & H5 & _).
  apply run_Plus_Cls_consumed in H2. destruct H2 as (l1 & _ & Hl1 & El1 & _).
  apply run_Seq_In in H5. destruct H5 as (st6 & H6 & _).
  apply run_Lit_In in H6. destruct H6 as [E6 _].
  rewrite markdownLink_cons in H1. cbn [app] in H1. injection H1 as H1.
  rewrite El1, <- E2, H3, H4, E6 in H1.
  rewrite <- app_assoc in H1. cbn [app] in H1.
  change (93%N) with (ch "]") in H1.
  apply app_until_char in H1; [|exact Hl | apply noneOf_hasChar; exact Hl1].
  destruct H1 as [_ H1]. injection H1 as H1.
  assert (Hst : startsWith asanaPrefix (target ++ ch ")" :: post) = true).
  { rewrite <- app_assoc in H1. cbn [app] in H1.
    change (41%N) with (ch ")") in H1. rewrite H1. reflexivity. }
  apply startsWith_app_char in Hst; [|reflexivity]. congruence.
Qed.

(** X21.  A resolved URL that stands inside a markdown link which does not
    go to Asana, in its label for one, is left as it is and not counted:
    when that link is the only thing of the line that matters (the only
    [[] of the line is its own and no resolved URL occurs outside it) the
    line comes out unchanged with the count unchanged. *)
Theorem url_inside_foreign_link_is_kept :
  forall (taskInfoMap : TaskInfoMap) (pre label target post : jsstring) (n : nat),
    label <> [] -> hasChar (ch "]") label = false -> hasChar (ch "[") label = false ->
    target <> [] -> hasChar (ch ")") target = false -> hasChar (ch "[") target = false ->
    startsWith asanaPrefix target = false ->
    hasChar (ch "[") pre = false -> hasChar (ch "[") post = false ->
    forallb (fun u => occurrencesWithin u
                        (pre ++ markdownLink label target ++ post)
                        (length pre)
                        (length pre + length (markdownLink label target)))
            (map fst taskInfoMap) = true ->
    processLine taskInfoMap (pre ++ markdownLink label target ++ post) n
    = (pre ++ markdownLink label target ++ post, n).
Proof.
  intros taskInfoMap pre label target post n
    Hlabel Hl1 Hl2 Htarget Ht Ht2 Hs Hpre Hpost Hocc.
  unfold processLine.
  assert (Em : matchAll (pre ++ markdownLink label target ++ post) markdownRegex = []).
  { unfold matchAll. cbn [matchAllFrom].
    unfold markdownRegex at 1, Cat. cbn [fold_right].
    rewrite search_skip by exact Hpre. rewrite search_unfold.
    change (Seq (Chr (ch "[")) _) with markdownRegex.
    rewrite run_markdownRegex_foreign by assumption. cbn [hd_error].
    rewrite markdownLink_cons. cbn [app].
    unfold markdownRegex, Cat. cbn [fold_right].
    rewrite search_none_without; [reflexivity|].
    rewrite <- app_assoc. cbn [app]. rewrite hasChar_app, Hl2. cbn [orb].
    unfold hasChar. cbn [existsb orb]. fold (hasChar (ch "[") ((target ++ [ch ")"]) ++ post)).
    rewrite !hasChar_app, Ht2, Hpost. reflexivity. }
  rewrite Em. cbn [fold_left fst].
  rewrite findMarkdownLinkIndices_single_link by assumption.
  apply plainPass_all_inside.
  intros url i Hin Hi. rewrite forallb_forall in Hocc.
  destruct (occurrencesWithin_spec _ _ _ _ (Hocc _ Hin) _ Hi) as [H1 H2].
  apply isInMarkdownLink_one; assumption.
Qed.

Lemma url_inside_foreign_link_is_kept_witness :
  processLine [(str "https://app.asana.com/0/1/2",
                mkTaskInfo (str "2") (str "T") (str "T"))]
    (str "See " ++ markdownLink (str "https://app.asana.com/0/1/2") (str "https://example.com/x")
       ++ str " now") 0
  = (str "See " ++ markdownLink (str "https://app.asana.com/0/1/2") (str "https://example.com/x")
       ++ str " now", 0).
Proof.
  apply (url_inside_foreign_link_is_kept
           [(str "https://app.asana.com/0/1/2", mkTaskInfo (str "2") (str "T") (str "T"))]
           (str "See ") (str "https://app.asana.com/0/1/2") (str "https://example.com/x")
           (str " now") 0);
    try discriminate; vm_compute; reflexivity.
Defined.

(** ** The identifier is a whole number of the line *)

Lemma hd_flat_map_first : forall (A B : Type) (k : A -> list B) l y,
  hd_error (flat_map k l) = Some y ->
  exists l1 x l2, l = l1 ++ x :: l2 /\ (forall z, In z l1 -> k z = []) /\
                  hd_error (k x) = Some y.
Proof.
  intros A B k. induction l as [|x l IH]; intros y H; [discriminate|].
  cbn [flat_map] in H. rewrite hd_error_app in H.
  destruct (hd_error (k x)) as [y0|] eqn:E.
  - injection H as <-. exists [], x, l. repeat split; [intros z []| exact E].
  - apply hd_error_None in E. destruct (IH y H) as (l1 & x1 & l2 & -> & Hn & Hh).
    exists (x :: l1), x1, l2. repeat split; [|exact Hh].
    intros z [<- | Hz]; [exact E | exact (Hn z Hz)].
Qed.

Lemma hd_run_Seq_inv : forall r1 r2 s c st,
  hd_error (run (Seq r1 r2) s c) = Some st ->
  exists st1, In st1 (run r1 s c) /\ hd_error (run r2 (fst st1) (snd st1)) = Some st.
Proof.
  intros r1 r2 s c st H. cbn [run] in H. apply hd_flat_map_first in H.
  destruct H as (l1 & st1 & l2 & E & _ & H). exists st1. split; [|exact H].
  rewrite E. apply in_or_app. right. left. reflexivity.
Qed.

(** The first way to read a number takes all of its digits. *)
Lemma hd_run_group_digits : forall s c st,
  hd_error (run (Grp TaskGIDs.taskGID TaskGIDs.digits) s c) = Some st ->
  exists gid,
    gid <> [] /\ s = gid ++ fst st /\ headFails isDigit (fst st) /\
    snd st = (TaskGIDs.taskGID, gid) :: c.
Proof.
  intros s c st H. cbn [run] in H. unfold TaskGIDs.digits in H.
  destruct (span_spec isDigit s) as (E1 & E2 & E3).
  destruct (fst (span isDigit s)) as [|d ds] eqn:Ex.
  - cbn [app] in E1. rewrite run_Plus_Cls_fail in H by (rewrite E1; exact E3). discriminate.
  - destruct (run_Plus_Cls isDigit (d :: ds) (snd (span isDigit s)) c
                ltac:(discriminate) E2 E3) as (tl & Er & _).
    rewrite <- E1 in Er. rewrite Er in H. cbn [map hd_error fst snd] in H.
    injection H as <-. cbn [fst snd]. exists (d :: ds).
    repeat split; [discriminate | exact E1 | exact E3 |].
    assert (Ef : firstn (length s - length (snd (span isDigit s))) s = d :: ds).
    { rewrite E1 at 1 3. apply firstn_consumed. }
    rewrite Ef. reflexivity.
Qed.

Lemma run_Star_some : forall greedy r s c, run (Star greedy r) s c <> [].
Proof.
  intros greedy r s c. rewrite run_Star_unfold. cbn zeta.
  destruct greedy; [|discriminate].
  intros E. apply app_eq_nil in E. destruct E as [_ E]. discriminate.
Qed.

Lemma hd_run_v0Task : forall s c st,
  hd_error (run TaskGIDs.v0Task s c) = Some st ->
  exists gid,
    gid <> [] /\ s = ch "/" :: gid ++ fst st /\ headFails isDigit (fst st) /\
    snd st = (TaskGIDs.taskGID, gid) :: c.
Proof.
  intros s c st H. unfold TaskGIDs.v0Task in H.
  apply hd_run_Seq_inv in H. destruct H as (st1 & H1 & H).
  assert (Ec : snd st1 = c).
  { cbn [run Chr] in H1. destruct s as [|x s]; [destruct H1|].
    destruct (N.eqb (ch "/") x); [|destruct H1]. destruct H1 as [<- | []]. reflexivity. }
  apply run_Chr_In in H1. rewrite Ec in H.
  apply hd_run_group_digits in H. destruct H as (gid & Hne & Es & Hf & Hc).
  exists gid. repeat split; try assumption. rewrite H1, Es. reflexivity.
Qed.

(** The first way to read the numbers at the end of the legacy form:
    either none is read, or the last one read is a whole number. *)
Lemma hd_run_Star_v0Task : forall n s c st,
  length s <= n ->
  hd_error (run (Star true TaskGIDs.v0Task) s c) = Some st ->
  st = (s, c) \/
  exists pre gid,
    s = pre ++ ch "/" :: gid ++ fst st /\ headFails isDigit (fst st) /\
    capture (snd st) TaskGIDs.taskGID = Some gid.
Proof.
  induction n as [|n IH]; intros s c st Hn H; rewrite run_Star_unfold in H; cbn zeta in H.
  - destruct s; [|simpl in Hn; lia]. left.
    assert (E : run TaskGIDs.v0Task [] c = []) by reflexivity.
    rewrite E in H. cbn [flat_map app hd_error] in H. injection H as <-. reflexivity.
  - rewrite hd_error_app in H.
    destruct (hd_error
                (flat_map
                   (fun st0 : mstate =>
                      if length (fst st0) <? length s
                      then run (Star true TaskGIDs.v0Task) (fst st0) (snd st0) else [])
                   (run TaskGIDs.v0Task s c))) as [st'|] eqn:Em.
    + injection H as <-. apply hd_flat_map_first in Em.
      destruct Em as (l1 & st1 & l2 & El & Hl1 & Hh).
      assert (Hin : In st1 (run TaskGIDs.v0Task s c))
        by (rewrite El; apply in_or_app; right; left; reflexivity).
      assert (Hshort : length (fst st1) < length s).
      { unfold TaskGIDs.v0Task in Hin. apply run_Seq_In in Hin.
        destruct Hin as (st0 & H0 & Hin). apply run_Chr_In in H0.
        destruct (run_inv _ _ _ _ Hin) as [Hsuf _]. apply isSuffix_length in Hsuf.
        rewrite H0. simpl. lia. }
      assert (Hlt : (length (fst st1) <? length s) = true) by (apply Nat.ltb_lt; exact Hshort).
      destruct l1 as [|z l1].
      * cbn [app] in El. rewrite Hlt in Hh.
        assert (Hhd : hd_error (run TaskGIDs.v0Task s c) = Some st1) by (rewrite El; reflexivity).
        apply hd_run_v0Task in Hhd. destruct Hhd as (gid & Hne & Es & Hf & Hc).
        destruct (IH (fst st1) (snd st1) st' ltac:(lia) Hh)
          as [-> | (pre & gid' & Es' & Hf' & Hc')].
        -- right. exists [], gid. cbn [fst snd app]. repeat split; try assumption.
           rewrite Hc. cbn [capture]. rewrite Nat.eqb_refl. reflexivity.
        -- right. exists (ch "/" :: gid ++ pre), gid'. repeat split; try assumption.
           rewrite Es, Es'. cbn [app]. rewrite <- app_assoc. reflexivity.
      * exfalso. assert (Hz := Hl1 z (or_introl eq_refl)).
        assert (Hzin : In z (run TaskGIDs.v0Task s c))
          by (rewrite El; left; reflexivity).
        assert (Hzshort : (length (fst z) <? length s) = true).
        { apply Nat.ltb_lt. unfold TaskGIDs.v0Task in Hzin. apply run_Seq_In in Hzin.
          destruct Hzin as (st0 & H0 & Hzin). apply run_Chr_In in H0.
          destruct (run_inv _ _ _ _ Hzin) as [Hsuf _]. apply isSuffix_length in Hsuf.
          rewrite H0. simpl. lia. }
        rewrite Hzshort in Hz. exact (run_Star_some _ _ _ _ Hz).
    + cbn [hd_error] in H. injection H as <-. left. reflexivity.
Qed.

Lemma hd_run_Plus_v0Task : forall s c st,
  hd_error (run (Plus TaskGIDs.v0Task) s c) = Some st ->
  exists pre gid,
    s = pre ++ ch "/" :: gid ++ fst st /\ headFails isDigit (fst st) /\
    capture (snd st) TaskGIDs.taskGID = Some gid.
Proof.
  intros s c st H. unfold Plus in H.
  change (run (Seq TaskGIDs.v0Task (Star true TaskGIDs.v0Task)) s c)
    with (flat_map (fun st0 : mstate =>
                      run (Star true TaskGIDs.v0Task) (fst st0) (snd st0))
                   (run TaskGIDs.v0Task s c)) in H.
  apply hd_flat_map_first in H. destruct H as (l1 & st1 & l2 & El & Hl1 & Hh).
  destruct l1 as [|z l1].
  - cbn [app] in El.
    assert (Hhd : hd_error (run TaskGIDs.v0Task s c) = Some st1) by (rewrite El; reflexivity).
    apply hd_run_v0Task in Hhd. destruct Hhd as (gid & Hne & Es & Hf & Hc).
    destruct (hd_run_Star_v0Task (length (fst st1)) (fst st1) (snd st1) st (le_n _) Hh)
      as [-> | (pre & gid' & Es' & Hf' & Hc')].
    + exists [], gid. cbn [fst snd app]. repeat split; try assumption.
      rewrite Hc. cbn [capture]. rewrite Nat.eqb_refl. reflexivity.
    + exists (ch "/" :: gid ++ pre), gid'. repeat split; try assumption.
      rewrite Es, Es'. cbn [app]. rewrite <- app_assoc. reflexivity.
  - exfalso. exact (run_Star_some _ _ _ _ (Hl1 z (or_introl eq_refl))).
Qed.

Lemma isSuffix_app : forall (p s t : jsstring), isSuffix s t -> forall q,
  s = p ++ q -> exists pre, t = pre ++ q.
Proof.
  intros p s t [pre0 ->] q ->. exists (pre0 ++ p). rewrite <- app_assoc. reflexivity.
Qed.

Lemma hd_run_Seq_Eps : forall r s c,
  hd_error (run (Seq r Eps) s c) = hd_error (run r s c).
Proof.
  intros r s c. cbn [run]. destruct (run r s c) as [|[s1 c1] l]; reflexivity.
Qed.

Lemma whole_number_reTaskItem : forall s st gid,
  hd_error (run TaskGIDs.reTaskItem s []) = Some st ->
  capture (snd st) TaskGIDs.taskGID = Some gid ->
  exists pre, s = pre ++ ch "/" :: gid ++ fst st /\ headFails isDigit (fst st).
Proof.
  intros s st gid H Hc. unfold TaskGIDs.reTaskItem, Cat in H. cbn [fold_right] in H.
  apply hd_run_Seq_inv in H. destruct H as (st1 & H1 & H).
  apply hd_run_Seq_inv in H. destruct H as (st2 & H2 & H).
  apply hd_run_Seq_inv in H. destruct H as (st3 & H3 & H).
  apply hd_run_Seq_inv in H. destruct H as (st4 & H4 & H).
  apply hd_run_Seq_inv in H. destruct H as (st5 & H5 & H).
  rewrite hd_run_Seq_Eps in H. apply hd_run_group_digits in H.
  destruct H as (gid' & Hne & Es & Hf & Hg).
  rewrite Hg in Hc. cbn [capture] in Hc. rewrite Nat.eqb_refl in Hc. injection Hc as ->.
  apply run_Chr_In in H5.
  destruct (run_inv _ _ _ _ H1) as [S1 _]. destruct (run_inv _ _ _ _ H2) as [S2 _].
  destruct (run_inv _ _ _ _ H3) as [S3 _]. destruct (run_inv _ _ _ _ H4) as [S4 _].
  destruct (isSuffix_trans _ _ _ S4 (isSuffix_trans _ _ _ S3 (isSuffix_trans _ _ _ S2 S1)))
    as [pre Ep].
  exists pre. split; [|exact Hf]. rewrite Ep, H5, Es. reflexivity.
Qed.

Lemma whole_number_reV0 : forall s st gid,
  hd_error (run TaskGIDs.reV0 s []) = Some st ->
  capture (snd st) TaskGIDs.taskGID = Some gid ->
  exists pre, s = pre ++ ch "/" :: gid ++ fst st /\ headFails isDigit (fst st).
Proof.
  intros s st gid H Hc. unfold TaskGIDs.reV0, Cat in H. cbn [fold_right] in H.
  apply hd_run_Seq_inv in H. destruct H as (st1 & H1 & H).
  apply hd_run_Seq_inv in H. destruct H as (st2 & H2 & H).
  rewrite hd_run_Seq_Eps in H. apply hd_run_Plus_v0Task in H.
  destruct H as (pre & gid' & Es & Hf & Hg).
  rewrite Hg in Hc. injection Hc as ->.
  destruct (run_inv _ _ _ _ H1) as [S1 _]. destruct (run_inv _ _ _ _ H2) as [S2 _].
  destruct (isSuffix_trans _ _ _ S2 S1) as [pre0 Ep].
  exists (pre0 ++ pre). split; [|exact Hf]. rewrite Ep, Es, <- app_assoc. reflexivity.
Qed.

Lemma whole_number_search : forall r line m gid,
  (forall s st, hd_error (run r s []) = Some st ->
                capture (snd st) TaskGIDs.taskGID = Some gid ->
                exists pre, s = pre ++ ch "/" :: gid ++ fst st /\ headFails isDigit (fst st)) ->
  String_match line r = Some m ->
  capture (m_groups m) TaskGIDs.taskGID = Some gid ->
  exists pre post, line = pre ++ ch "/" :: gid ++ post /\ headFails isDigit post.
Proof.
  intros r line m gid Hr H Hc. unfold String_match in H.
  destruct (search_found _ _ _ _ H) as (pre0 & s' & st & Es & Eh & _ & _ & Eg).
  rewrite Eg in Hc. destruct (Hr s' st Eh Hc) as (pre & Es' & Hf).
  exists (pre0 ++ pre), (fst st). split; [|exact Hf].
  rewrite Es, Es', <- app_assoc. reflexivity.
Qed.

(** X22.  The identifier taken from a line is a whole number of the line:
    a [/] stands before it and no digit stands after it. *)
Theorem identifier_is_a_whole_number : forall line gid,
  TaskGIDs.lineGIDs line = [gid] ->
  exists pre post,
    line = pre ++ ch "/" :: gid ++ post /\ headFails isDigit post /\
    gid <> [] /\ forallb isDigit gid = true.
Proof.
  intros line gid H.
  assert (Hd : gid <> [] /\ forallb isDigit gid = true).
  { apply (lineGIDs_digits line). rewrite H. left. reflexivity. }
  unfold TaskGIDs.lineGIDs in H. rewrite (proj2 (matchLine_rules line)) in H.
  assert (Hex : exists pre post, line = pre ++ ch "/" :: gid ++ post /\ headFails isDigit post).
  { destruct (String_match line TaskGIDs.reTaskItem) as [m|] eqn:E1.
    - destruct (capture (m_groups m) TaskGIDs.taskGID) as [g|] eqn:Ec; [|discriminate].
      injection H as ->.
      exact (whole_number_search _ line m gid (fun s st => whole_number_reTaskItem s st gid)
               E1 Ec).
    - destruct (includes line (str "/task/")); [discriminate|].
      destruct (String_match line TaskGIDs.reV0) as [m|] eqn:E4; [|discriminate].
      destruct (capture (m_groups m) TaskGIDs.taskGID) as [g|] eqn:Ec; [|discriminate].
      injection H as ->.
      exact (whole_number_search _ line m gid (fun s st => whole_number_reV0 s st gid)
               E4 Ec). }
  destruct Hex as (pre & post & E & Hf). exists pre, post.
  split; [exact E | split; [exact Hf | exact Hd]].
Qed.

Lemma identifier_is_a_whole_number_witness :
  exists pre post,
    str "see https://app.asana.com/0/12/345x" = pre ++ ch "/" :: str "345" ++ post /\
    headFails isDigit post /\ str "345" <> [] /\ forallb isDigit (str "345") = true.
Proof.
  apply (identifier_is_a_whole_number (str "see https://app.asana.com/0/12/345x") (str "345")).
  vm_compute. reflexivity.
Defined.

(** ** transformPRBody: one Asana URL in the body *)

Lemma join_mid : forall init lst (m : jsstring) q tb,
  join [LF] (init ++ (lst ++ m ++ q) :: tb)
  = join [LF] (init ++ [lst]) ++ m ++ join [LF] (q :: tb).
Proof.
  induction init as [|l init IH]; intros lst m q tb.
  - cbn [app]. destruct tb as [|t tb].
    + cbn [join app]. reflexivity.
    + cbn [join app]. rewrite <- !app_assoc. reflexivity.
  - cbn [app].
    assert (E1 : join [LF] (l :: init ++ (lst ++ m ++ q) :: tb)
                 = l ++ [LF] ++ join [LF] (init ++ (lst ++ m ++ q) :: tb)).
    { destruct (init ++ (lst ++ m ++ q) :: tb) eqn:E; [destruct init; discriminate|].
      reflexivity. }
    assert (E2 : join [LF] (l :: init ++ [lst]) = l ++ [LF] ++ join [LF] (init ++ [lst])).
    { destruct (init ++ [lst]) eqn:E; [destruct init; discriminate|]. reflexivity. }
    rewrite E1, E2, IH, <- !app_assoc. reflexivity.
Qed.

(** The lines of a text around a piece of one of its lines. *)
Lemma split1_around : forall pre mid post,
  hasChar LF mid = false ->
  exists init lst q tb,
    split1 LF pre = init ++ [lst] /\ split1 LF post = q :: tb /\
    split1 LF (pre ++ mid ++ post) = init ++ (lst ++ mid ++ q) :: tb /\
    forall m, join [LF] (init ++ (lst ++ m ++ q) :: tb) = pre ++ m ++ post.
Proof.
  intros pre mid post Hmid.
  destruct (exists_last (split1_not_nil LF pre)) as (init & lst & Ei).
  destruct (split1 LF post) as [|q tb] eqn:Eq; [exfalso; exact (split1_not_nil _ _ Eq)|].
  exists init, lst, q, tb.
  assert (Hj : forall m, join [LF] (init ++ (lst ++ m ++ q) :: tb) = pre ++ m ++ post).
  { intros m. rewrite join_mid.
    assert (Jp := join_split1 pre). rewrite Ei in Jp.
    assert (Jq := join_split1 post). rewrite Eq in Jq.
    f_equal; [exact Jp | f_equal; exact Jq]. }
  split; [exact Ei | split; [reflexivity | split; [|exact Hj]]].
  rewrite <- (Hj mid). apply split1_join; [destruct init; discriminate|].
  assert (Fi := split1_Forall pre). rewrite Ei in Fi. apply Forall_app in Fi.
  destruct Fi as [Fi Fl]. apply Forall_inv in Fl.
  assert (Fq := split1_Forall post). rewrite Eq in Fq.
  apply Forall_app. split; [exact Fi|]. constructor; [|exact (Forall_inv_tail Fq)].
  rewrite !hasChar_app, Fl, Hmid. exact (Forall_inv Fq).
Qed.

Lemma processLines_idle : forall taskInfoMap lines n,
  (forall line url, In line lines -> In url (map fst taskInfoMap) ->
                    includes line url = false) ->
  processLines taskInfoMap lines n = (lines, n).
Proof.
  intros taskInfoMap. induction lines as [|l lines IH]; intros n H; [reflexivity|].
  cbn [processLines]. rewrite processLine_frame.
  - rewrite IH; [reflexivity|]. intros line url Hl. apply H. right. exact Hl.
  - intros url. apply H. left. reflexivity.
Qed.

Lemma processLines_one : forall taskInfoMap init line tb n line' n',
  (forall l url, In l (init ++ tb) -> In url (map fst taskInfoMap) ->
                 includes l url = false) ->
  processLine taskInfoMap line n = (line', n') ->
  processLines taskInfoMap (init ++ line :: tb) n = (init ++ line' :: tb, n').
Proof.
  intros taskInfoMap. induction init as [|l init IH]; intros line tb n line' n' H E.
  - cbn [app processLines]. rewrite E. rewrite processLines_idle; [reflexivity|].
    intros l url Hl. apply H. exact Hl.
  - cbn [app processLines]. rewrite processLine_frame.
    + rewrite (IH line tb n line' n'); [reflexivity | | exact E].
      intros l0 url Hl. apply H. right. exact Hl.
    + intros url. apply H. left. reflexivity.
Qed.

(** The rewrite pass on a text of which one line is rewritten. *)
Lemma rewriteBody_one_line : forall taskInfoMap pre mid mid' post n',
  taskInfoMap <> [] ->
  hasChar LF mid = false ->
  (forall url, In url (map fst taskInfoMap) ->
               includes pre url = false /\ includes post url = false) ->
  (forall lst q, isSuffix lst pre -> (exists post', post = q ++ post') ->
                 hasChar LF lst = false -> hasChar LF q = false ->
                 processLine taskInfoMap (lst ++ mid ++ q) 0 = (lst ++ mid' ++ q, n')) ->
  rewriteBody taskInfoMap (pre ++ mid ++ post)
  = mkResult (pre ++ mid' ++ post) (0 <? n') n'.
Proof.
  intros taskInfoMap pre mid mid' post n' Hne Hmid Hout Hline.
  destruct (split1_around pre mid post Hmid) as (init & lst & q & tb & Ei & Eq & Es & Ej).
  assert (El : Nat.eqb (length taskInfoMap) 0 = false)
    by (destruct taskInfoMap; [contradiction | reflexivity]).
  unfold rewriteBody. rewrite El, Es.
  assert (Fi := split1_Forall pre). rewrite Ei in Fi. apply Forall_app in Fi.
  destruct Fi as [_ Fl]. apply Forall_inv in Fl.
  assert (Fq := split1_Forall post). rewrite Eq in Fq. apply Forall_inv in Fq.
  assert (Hs : isSuffix lst pre).
  { exists (join [LF] init ++ (match init with [] => [] | _ => [LF] end)).
    rewrite <- (join_split1 pre), Ei. clear.
    induction init as [|l init IH]; [reflexivity|].
    destruct init as [|l2 init].
    - cbn [app join]. rewrite <- !app_assoc. reflexivity.
    - change (join [LF] ((l :: l2 :: init) ++ [lst]))
        with (l ++ [LF] ++ join [LF] ((l2 :: init) ++ [lst])).
      rewrite IH.
      change (join [LF] (l :: l2 :: init)) with (l ++ [LF] ++ join [LF] (l2 :: init)).
      rewrite <- !app_assoc. reflexivity. }
  assert (Hp : exists post', post = q ++ post').
  { rewrite <- (join_split1 post), Eq. destruct tb as [|t tb].
    - exists []. cbn [join]. symmetry. apply app_nil_r.
    - exists ([LF] ++ join [LF] (t :: tb)). reflexivity. }
  assert (Ep : processLines taskInfoMap (init ++ (lst ++ mid ++ q) :: tb) 0
               = (init ++ (lst ++ mid' ++ q) :: tb, n')).
  { apply processLines_one; [|apply Hline; assumption].
    intros l url Hl Hu. destruct (Hout url Hu) as [H1 H2].
    destruct (includes l url) eqn:E; [|reflexivity]. exfalso.
    apply includes_true in E. apply in_app_or in Hl. destruct Hl as [Hl | Hl].
    + assert (Hin : isInfix l pre).
      { apply (split1_infix LF). rewrite Ei. apply in_or_app. left. exact Hl. }
      rewrite (includes_infix _ _ (isInfix_trans _ _ _ E Hin)) in H1. discriminate.
    + assert (Hin : isInfix l post).
      { apply (split1_infix LF). rewrite Eq. right. exact Hl. }
      rewrite (includes_infix _ _ (isInfix_trans _ _ _ E Hin)) in H2. discriminate. }
  match goal with
  | |- context [processLines ?a ?b ?c] =>
      replace (processLines a b c) with (init ++ (lst ++ mid' ++ q) :: tb, n')
        by (symmetry; exact Ep)
  end.
  f_equal. apply Ej.
Qed.

Lemma occurrencesWithin_intro : forall pat s lo hi,
  (forall i, occursAt pat s i -> lo <= i /\ i + length pat <= hi) ->
  occurrencesWithin pat s lo hi = true.
Proof.
  intros pat s lo hi H. unfold occurrencesWithin. apply forallb_forall.
  intros i Hi. apply in_seq in Hi.
  destruct (startsWith pat (skipn i s)) eqn:E; [|reflexivity]. cbn [implb].
  assert (Ho : occursAt pat s i) by (apply occursAt_startsWith; split; [lia | exact E]).
  destruct (H i Ho) as [H1 H2]. apply andb_true_iff.
  split; apply Nat.leb_le; assumption.
Qed.

(** The host stands once in the text, at the start of the URL: so do the
    URL and every text that begins with the host. *)
Lemma once_in_text : forall P pre u post,
  occurrencesWithin P (pre ++ (P ++ u) ++ post) (length pre) (length pre + length P) = true ->
  forall i, occursAt P (pre ++ (P ++ u) ++ post) i -> i = length pre.
Proof.
  intros P pre u post H i Hi. apply (occurrencesWithin_spec _ _ _ _ H) in Hi. lia.
Qed.

Lemma transformPRBody_one_url :
  forall (World : Type) (fetch : jsstring -> World -> option jsstring * World)
         (text url taskId t : jsstring) (w w' : World),
    text <> [] ->
    collectAllAsanaUrls text = [url] ->
    TaskGIDs.getAsanaTaskGIDsFromText url = [taskId] ->
    fetch taskId w = (Some t, w') ->
    transformPRBody fetch text w
    = (rewriteBody [(url, mkTaskInfo taskId t (sanitizeTitleForMarkdown t))] text, w').
Proof.
  intros World fetch text url taskId t w w' Hne Hc Hid Hf.
  destruct text as [|x text]; [contradiction|].
  unfold transformPRBody. rewrite Hc.
  unfold TaskGIDs.newSet, resolveAll. cbn [fold_left TaskGIDs.Set_add TaskGIDs.Set_has existsb app].
  unfold resolveUrl. rewrite Hid, Hf. reflexivity.
Qed.

Section OneUrl.

Variables pre rest post : jsstring.
Let url : jsstring := asanaPrefix ++ rest.

(** The text around the URL, and where the host stands in it. *)
Variables before after : jsstring.
Hypothesis Hpre : exists p, pre = before ++ p.
Hypothesis Hpost : exists q, post = q ++ after.
Let text : jsstring := pre ++ url ++ post.
Hypothesis Honce : forall i, occursAt asanaPrefix text i -> i = length pre.

Lemma host_not_before : forall s, isInfix s before -> includes s asanaPrefix = false.
Proof.
  intros s (a & b & Es). destruct (includes s asanaPrefix) eqn:E; [|reflexivity]. exfalso.
  apply includes_true in E. destruct E as (c & d & Ec).
  destruct Hpre as [p Ep].
  assert (Ho : occursAt asanaPrefix text (length (a ++ c))).
  { exists (a ++ c), (d ++ b ++ p ++ url ++ post). split; [|reflexivity].
    unfold text. rewrite Ep, Es, Ec. rewrite <- !app_assoc. reflexivity. }
  apply Honce in Ho. rewrite Ep, Es, Ec in Ho.
  rewrite !length_app in Ho. simpl in Ho. lia.
Qed.

Lemma host_not_after : forall s, isInfix s after -> includes s asanaPrefix = false.
Proof.
  intros s (a & b & Es). destruct (includes s asanaPrefix) eqn:E; [|reflexivity]. exfalso.
  apply includes_true in E. destruct E as (c & d & Ec).
  destruct Hpost as [q Eq].
  assert (Ho : occursAt asanaPrefix text (length (pre ++ url ++ q ++ a ++ c))).
  { exists (pre ++ url ++ q ++ a ++ c), (d ++ b). split; [|reflexivity].
    unfold text. rewrite Eq, Es, Ec. rewrite <- !app_assoc. reflexivity. }
  apply Honce in Ho. unfold url in Ho. rewrite !length_app in Ho. simpl in Ho. lia.
Qed.

End OneUrl.

Lemma includes_prefix_false : forall s (P u : jsstring),
  includes s P = false -> includes s (P ++ u) = false.
Proof.
  intros s P u H. destruct (includes s (P ++ u)) eqn:E; [|reflexivity].
  apply includes_true in E. destruct E as (a & b & ->).
  rewrite includes_infix in H; [discriminate|].
  exists a, (u ++ b). rewrite <- !app_assoc. reflexivity.
Qed.

(** The URL stands once in its line. *)
Lemma url_once_in_line : forall pre rest post lst q,
  (forall i, occursAt asanaPrefix (pre ++ (asanaPrefix ++ rest) ++ post) i -> i = length pre) ->
  isSuffix lst pre -> (exists post', post = q ++ post') ->
  occurrencesWithin (asanaPrefix ++ rest) (lst ++ (asanaPrefix ++ rest) ++ q)
    (length lst) (length lst + length (asanaPrefix ++ rest)) = true.
Proof.
  intros pre rest post lst q Honce [P EP] [Q EQ].
  apply occurrencesWithin_intro. intros i (a & b & Es & Ea).
  assert (Ho : occursAt asanaPrefix (pre ++ (asanaPrefix ++ rest) ++ post) (length (P ++ a))).
  { exists (P ++ a), (rest ++ b ++ Q). split; [|reflexivity].
    rewrite EP, EQ. apply (f_equal (fun s => P ++ s ++ Q)) in Es.
    rewrite <- !app_assoc in Es. rewrite <- !app_assoc. exact Es. }
  apply Honce in Ho. rewrite EP, !length_app in Ho. lia.
Qed.

Lemma no_link_without_bracket : forall line,
  hasChar (ch "[") line = false ->
  matchAll line markdownRegex = [] /\ findMarkdownLinkIndices line = [].
Proof.
  intros line H. split.
  - unfold markdownRegex, Cat. cbn [fold_right]. apply matchAll_none_without. exact H.
  - unfold findMarkdownLinkIndices, anyMarkdownRegex, Cat. cbn [fold_right].
    rewrite matchAll_none_without by exact H. reflexivity.
Qed.

(** X24.  [transformPRBody] on a body without [[] in which the host
    [https://app.asana.com/] stands once, at the start of a URL that gives
    one identifier and whose lookup succeeds: the URL becomes the link with
    the sanitized title, all the rest of the body is as it was, the change
    is reported with a count of one, and the world is the one the single
    lookup leaves.  This holds for every fetched title, whatever it holds.
    The URL is the host and the URL code units after it, one at least, and
    the text after it does not go on with a URL code unit. *)
Theorem transformPRBody_links_plain_url :
  forall (World : Type) (fetch : jsstring -> World -> option jsstring * World)
         (pre rest post taskId t : jsstring) (w w' : World),
    hasChar (ch "[") (pre ++ (asanaPrefix ++ rest) ++ post) = false ->
    rest <> [] -> forallb urlChar rest = true -> headFails urlChar post ->
    occurrencesWithin asanaPrefix (pre ++ (asanaPrefix ++ rest) ++ post)
      (length pre) (length pre + length asanaPrefix) = true ->
    TaskGIDs.getAsanaTaskGIDsFromText (asanaPrefix ++ rest) = [taskId] ->
    fetch taskId w = (Some t, w') ->
    transformPRBody fetch (pre ++ (asanaPrefix ++ rest) ++ post) w
    = (mkResult
         (pre ++ markdownLink (sanitizeTitleForMarkdown t) (asanaPrefix ++ rest) ++ post)
         true 1,
       w').
Proof.
  intros World fetch pre rest post taskId t w w' Hno Hne Hrest Hpost Hocc Hid Hf.
  assert (Honce := once_in_text _ _ _ _ Hocc).
  assert (Hocc' : occurrencesWithin asanaPrefix (pre ++ (asanaPrefix ++ rest) ++ post)
                    (length pre) (length pre + length (asanaPrefix ++ rest)) = true).
  { apply occurrencesWithin_intro. intros i Hi. apply Honce in Hi. subst i.
    rewrite length_app. lia. }
  rewrite (transformPRBody_one_url World fetch _ (asanaPrefix ++ rest) taskId t w w');
    [| destruct pre; discriminate
     | unfold collectAllAsanaUrls;
       rewrite (matchAll_single_url pre rest post Hne Hrest Hpost Hocc'); reflexivity
     | exact Hid | exact Hf].
  f_equal.
  apply (rewriteBody_one_line _ pre (asanaPrefix ++ rest)
           (markdownLink (sanitizeTitleForMarkdown t) (asanaPrefix ++ rest)) post 1).
  - discriminate.
  - rewrite hasChar_app. apply orb_false_iff. split; [reflexivity|].
    clear -Hrest. induction rest as [|x r IH]; [reflexivity|].
    cbn [forallb] in Hrest. apply andb_true_iff in Hrest. destruct Hrest as [Hx Hr].
    rewrite hasChar_cons, (IH Hr), orb_false_r.
    destruct (N.eqb LF x) eqn:E; [|reflexivity].
    apply N.eqb_eq in E. subst x. discriminate.
  - intros u [<- | []]. cbn [fst]. split.
    + apply includes_prefix_false. apply (host_not_before pre rest post pre);
        [exists []; symmetry; apply app_nil_r | exact Honce
         | exists [], []; symmetry; apply app_nil_r].
    + apply includes_prefix_false. apply (host_not_after pre rest post post);
        [exists []; reflexivity | exact Honce | exists [], []; symmetry; apply app_nil_r].
  - intros lst q Hs Hp _ _.
    assert (Hline : hasChar (ch "[") (lst ++ (asanaPrefix ++ rest) ++ q) = false).
    { destruct Hs as [P ->]. destruct Hp as [Q ->].
      rewrite !hasChar_app in Hno. rewrite !hasChar_app.
      repeat (apply orb_false_iff in Hno; destruct Hno as [? Hno]).
      repeat match goal with H : _ || _ = false |- _ => apply orb_false_iff in H; destruct H end.
      repeat (apply orb_false_iff; split); assumption. }
    destruct (no_link_without_bracket _ Hline) as [Em Ei].
    unfold processLine. rewrite Em. cbn [fold_left fst]. rewrite Ei.
    cbn [fold_left fst snd].
    assert (El : exists f, length (lst ++ (asanaPrefix ++ rest) ++ q) = S f).
    { rewrite !length_app. simpl. eexists. rewrite Nat.add_succ_r. reflexivity. }
    destruct El as [f ->].
    apply plainUrlLoop_single with (taskInfo := mkTaskInfo taskId t (sanitizeTitleForMarkdown t));
      [discriminate | | reflexivity].
    apply (url_once_in_line pre rest post); assumption.
Qed.

Lemma transformPRBody_links_plain_url_witness :
  transformPRBody (pureFetch (oneTask (str "111111") (str "Price [now] is $& or $'")))
    ((str "## Asana" ++ [LF; LF] ++ str "Task: ") ++ (asanaPrefix ++ str "0/123456/111111")
     ++ (str " today" ++ [LF] ++ str "Thanks")) tt
  = (mkResult
       ((str "## Asana" ++ [LF; LF] ++ str "Task: ")
        ++ markdownLink (sanitizeTitleForMarkdown (str "Price [now] is $& or $'"))
             (asanaPrefix ++ str "0/123456/111111")
        ++ (str " today" ++ [LF] ++ str "Thanks"))
       true 1,
     tt).
Proof.
  apply (transformPRBody_links_plain_url unit
           (pureFetch (oneTask (str "111111") (str "Price [now] is $& or $'")))
           (str "## Asana" ++ [LF; LF] ++ str "Task: ") (str "0/123456/111111")
           (str " today" ++ [LF] ++ str "Thanks") (str "111111")
           (str "Price [now] is $& or $'") tt tt);
    try discriminate; vm_compute; reflexivity.
Defined.

Ltac app_normal := repeat first [rewrite <- app_assoc | progress cbn [app]].
Ltac app_normal_in H :=
  repeat first [rewrite <- app_assoc in H | progress (cbn [app] in H)].

(** Where a text can stand in a text that is made of parts. *)
Lemma occursAt_avoids : forall (u X : jsstring) c Y i,
  occursAt u (X ++ c :: Y) i -> hasChar c u = false ->
  i + length u <= length X \/ length X < i.
Proof.
  intros u X c Y i (a & b & Es & Ea) Hc.
  destruct (le_lt_dec (i + length u) (length X)) as [H1 | H1]; [left; exact H1|].
  destruct (le_lt_dec i (length X)) as [H2 | H2]; [|right; exact H2].
  exfalso.
  assert (E1 : nth_error (X ++ c :: Y) (length X) = Some c).
  { rewrite nth_error_app2 by lia. rewrite Nat.sub_diag. reflexivity. }
  rewrite Es in E1. rewrite nth_error_app2 in E1 by lia.
  rewrite nth_error_app1 in E1 by lia.
  apply nth_error_In in E1. apply hasChar_In in E1. congruence.
Qed.

Lemma occursAt_left : forall (P A B : jsstring) i,
  occursAt P (A ++ B) i -> i + length P <= length A -> isInfix P A.
Proof.
  intros P A B i (a & b & Es & Ea) H.
  assert (E : firstn (i + length P) (A ++ B) = a ++ P).
  { rewrite Es, app_assoc, firstn_app.
    replace (i + length P) with (length (a ++ P)) by (rewrite length_app; lia).
    rewrite firstn_all, Nat.sub_diag. cbn [firstn]. apply app_nil_r. }
  rewrite firstn_app in E. replace (i + length P - length A) with 0 in E by lia.
  cbn [firstn] in E. rewrite app_nil_r in E.
  exists a, (skipn (i + length P) A).
  rewrite app_assoc, <- E. symmetry. apply firstn_skipn.
Qed.

Lemma occursAt_right : forall (P A B : jsstring) i,
  occursAt P (A ++ B) i -> length A <= i -> isInfix P B.
Proof.
  intros P A B i (a & b & Es & Ea) H.
  assert (E : skipn (length A) (A ++ B) = B).
  { rewrite skipn_app, skipn_all, Nat.sub_diag. reflexivity. }
  rewrite Es, skipn_app in E. replace (length A - length a) with 0 in E by lia.
  cbn [skipn] in E. exists (skipn (length A) a), b. symmetry. exact E.
Qed.

Lemma isInfix_includes_false : forall s t u,
  isInfix t s -> includes s u = false -> includes t u = false.
Proof.
  intros s t u Ht Hs. destruct (includes t u) eqn:E; [|reflexivity].
  apply includes_true in E. rewrite (includes_infix _ _ (isInfix_trans _ _ _ E Ht)) in Hs.
  discriminate.
Qed.

Lemma urlChar_no_LF : forall rest, forallb urlChar rest = true -> hasChar LF rest = false.
Proof.
  induction rest as [|x r IH]; intros H; [reflexivity|].
  cbn [forallb] in H. apply andb_true_iff in H. destruct H as [Hx Hr].
  rewrite hasChar_cons, (IH Hr), orb_false_r.
  destruct (N.eqb LF x) eqn:E; [|reflexivity].
  apply N.eqb_eq in E. subst x. discriminate.
Qed.

(** A link to Asana as a text around its target. *)
Lemma link_around_target : forall pre label (url post : jsstring),
  pre ++ markdownLink label url ++ post
  = (pre ++ ch "[" :: label ++ str "](") ++ url ++ ch ")" :: post.
Proof.
  intros pre label url post. rewrite markdownLink_cons.
  cbn [app]. rewrite <- !app_assoc. cbn [app]. rewrite <- !app_assoc. reflexivity.
Qed.

Section OneLink.

Variable World : Type.
Variable fetch : jsstring -> World -> option jsstring * World.
Variables pre label rest post taskId t : jsstring.
Variables w w' : World.
Let url : jsstring := asanaPrefix ++ rest.
Let text : jsstring := pre ++ markdownLink label url ++ post.

Hypothesis Hpre : hasChar (ch "[") pre = false.
Hypothesis Hpost : hasChar (ch "[") post = false.
Hypothesis Hlabel : label <> [].
Hypothesis Hlabel1 : hasChar (ch "]") label = false.
Hypothesis HlabelLF : hasChar LF label = false.
Hypothesis Hrest : rest <> [].
Hypothesis Hurl : forallb urlChar rest = true.
Hypothesis Honce :
  occurrencesWithin asanaPrefix text
    (length (pre ++ ch "[" :: label ++ str "]("))
    (length (pre ++ ch "[" :: label ++ str "](") + length asanaPrefix) = true.
Hypothesis Hid : TaskGIDs.getAsanaTaskGIDsFromText url = [taskId].
Hypothesis Hfetch : fetch taskId w = (Some t, w').

Let info : TaskInfo := mkTaskInfo taskId t (sanitizeTitleForMarkdown t).

Lemma one_link_once : forall i,
  occursAt asanaPrefix text i -> i = length (pre ++ ch "[" :: label ++ str "](").
Proof.
  intros i Hi. unfold text in Hi, Honce. rewrite link_around_target in Hi, Honce.
  exact (once_in_text _ _ _ _ Honce i Hi).
Qed.

Lemma one_link_resolved :
  transformPRBody fetch text w = (rewriteBody [(url, info)] text, w').
Proof.
  apply (transformPRBody_one_url World fetch text url taskId t w w').
  - unfold text. destruct pre; discriminate.
  - unfold collectAllAsanaUrls, text, url. rewrite link_around_target.
    rewrite matchAll_single_url; [reflexivity | exact Hrest | exact Hurl | reflexivity |].
    apply occurrencesWithin_intro. intros i Hi.
    rewrite <- link_around_target in Hi. apply one_link_once in Hi. subst i.
    rewrite (length_app asanaPrefix rest). lia.
  - exact Hid.
  - exact Hfetch.
Qed.

Lemma one_link_host_outside :
  includes pre asanaPrefix = false /\ includes post asanaPrefix = false.
Proof.
  split.
  - apply (host_not_before (pre ++ ch "[" :: label ++ str "](") rest (ch ")" :: post) pre).
    + exists (ch "[" :: label ++ str "]("). reflexivity.
    + intros i Hi. rewrite <- link_around_target in Hi. exact (one_link_once i Hi).
    + exists [], []. symmetry. apply app_nil_r.
  - apply (host_not_after (pre ++ ch "[" :: label ++ str "](") rest (ch ")" :: post) post).
    + exists [ch ")"]. reflexivity.
    + intros i Hi. rewrite <- link_around_target in Hi. exact (one_link_once i Hi).
    + exists [], []. symmetry. apply app_nil_r.
Qed.

Lemma one_link_outside : forall u,
  In u (map fst [(url, info)]) -> includes pre u = false /\ includes post u = false.
Proof.
  intros u [<- | []]. cbn [fst]. destruct one_link_host_outside as [H1 H2].
  split; apply includes_prefix_false; assumption.
Qed.

Lemma one_link_LF : hasChar LF (markdownLink label url) = false.
Proof.
  apply markdownLink_keeps_out; [reflexivity | exact HlabelLF |].
  unfold url. rewrite hasChar_app, (urlChar_no_LF _ Hurl). reflexivity.
Qed.

(** The URL stands in the line of the link inside the link only. *)
Lemma one_link_line : forall lst q i,
  isSuffix lst pre -> (exists post', post = q ++ post') ->
  occursAt url (lst ++ markdownLink label url ++ q) i ->
  length lst <= i /\ i + length url <= length lst + length (markdownLink label url).
Proof.
  intros lst q i [P EP] [Q EQ] (a & b & Es & Ea).
  assert (Ho : occursAt asanaPrefix text (length (P ++ a))).
  { exists (P ++ a), (rest ++ b ++ Q). split; [|reflexivity].
    unfold text. rewrite EP, EQ. apply (f_equal (fun s => P ++ s ++ Q)) in Es.
    unfold url in Es. rewrite <- !app_assoc in Es. rewrite <- !app_assoc. exact Es. }
  apply one_link_once in Ho. rewrite EP in Ho.
  rewrite markdownLink_length. rewrite !length_app in Ho. cbn [length] in Ho.
  rewrite !length_app in Ho. cbn [length] in Ho.
  change (length (str "](")) with 2 in Ho. lia.
Qed.

(** Whatever label the link gets, the URL stands in its line inside the
    link only: the host is not in the text around the link, and an
    occurrence of the URL holds neither the [[] that opens the link nor
    the [)] that closes it. *)
Lemma one_link_new_line : forall label' lst q i,
  isSuffix lst pre -> (exists post', post = q ++ post') ->
  occursAt url (lst ++ markdownLink label' url ++ q) i ->
  length lst <= i /\ i + length url <= length lst + length (markdownLink label' url).
Proof.
  intros label' lst q i Hs [Q EQ] Hi.
  destruct one_link_host_outside as [Hout1 Hout2].
  assert (Hlst : includes lst asanaPrefix = false)
    by (apply (isInfix_includes_false pre); [apply isSuffix_infix; exact Hs | exact Hout1]).
  assert (Hq : includes q asanaPrefix = false).
  { apply (isInfix_includes_false post); [|exact Hout2].
    exists [], Q. exact EQ. }
  assert (Hparen : hasChar (ch ")") url = false).
  { unfold url. rewrite hasChar_app, (urlChar_no_paren _ Hurl). reflexivity. }
  split.
  - assert (Hp : occursAt asanaPrefix (lst ++ ch "[" :: label' ++ str "](" ++ url ++ ch ")" :: q) i).
    { destruct Hi as (a & b & Es & Ea). exists a, (rest ++ b). split; [|exact Ea].
      rewrite markdownLink_cons in Es. unfold url in Es.
      app_normal_in Es. app_normal. exact Es. }
    destruct (occursAt_avoids _ _ _ _ _ Hp eq_refl) as [H | H]; [|lia].
    exfalso. apply (occursAt_left asanaPrefix lst) in Hp; [|exact H].
    rewrite (includes_infix _ _ Hp) in Hlst. discriminate.
  - assert (Hu : occursAt url ((lst ++ ch "[" :: label' ++ str "](" ++ url) ++ ch ")" :: q) i).
    { destruct Hi as (a & b & Es & Ea). exists a, b. split; [|exact Ea].
      rewrite <- Es. rewrite markdownLink_cons. app_normal. reflexivity. }
    destruct (occursAt_avoids _ _ _ _ _ Hu Hparen) as [H | H].
    + rewrite markdownLink_length. rewrite !length_app in H. cbn [length] in H.
      rewrite !length_app in H. change (length (str "](")) with 2 in H. lia.
    + exfalso.
      assert (Hu' : occursAt url ((lst ++ ch "[" :: label' ++ str "](" ++ url ++ [ch ")"]) ++ q) i).
      { destruct Hu as (a & b & Es & Ea). exists a, b. split; [|exact Ea].
        rewrite <- Es. app_normal. reflexivity. }
      apply occursAt_right in Hu'.
      * assert (Hqu := includes_prefix_false _ _ rest Hq).
        unfold url in Hu'. rewrite (includes_infix _ _ Hu') in Hqu. discriminate.
      * repeat first [rewrite length_app in H | rewrite length_app
                      | progress (cbn [length] in H) | progress cbn [length]].
        lia.
Qed.

End OneLink.

(** A link whose label is out of date, in a line of which all that the
    task map knows lies inside the link. *)
Lemma stale_link_line :
  forall (taskInfoMap : TaskInfoMap) (taskInfo : TaskInfo)
         (pre label rest post : jsstring) (n : nat),
    label <> [] -> hasChar (ch "]") label = false -> hasChar (ch "[") label = false ->
    rest <> [] -> hasChar (ch ")") rest = false -> hasChar (ch "$") rest = false ->
    hasChar (ch "[") pre = false -> hasChar (ch "[") post = false ->
    Map_get taskInfoMap (asanaPrefix ++ rest) = Some taskInfo ->
    label <> title taskInfo ->
    title taskInfo <> [] ->
    safeTitle taskInfo = sanitizeTitleForMarkdown (title taskInfo) ->
    hasChar (ch "$") (title taskInfo) = false ->
    (forall u i,
       In u (map fst taskInfoMap) ->
       occursAt u (pre ++ markdownLink (safeTitle taskInfo) (asanaPrefix ++ rest) ++ post) i ->
       length pre <= i /\
       i + length u
       <= length pre + length (markdownLink (safeTitle taskInfo) (asanaPrefix ++ rest))) ->
    processLine taskInfoMap (pre ++ markdownLink label (asanaPrefix ++ rest) ++ post) n
    = (pre ++ markdownLink (safeTitle taskInfo) (asanaPrefix ++ rest) ++ post, S n).
Proof.
  intros taskInfoMap taskInfo pre label rest post n
    Hlabel Hlabel' Hlabel'' Hrest Hrest' Hrest'' Hpre Hpost Hget Hstale Htitle Hsafe Hdollar Hocc.
  destruct (sanitizeTitleForMarkdown_no_brackets (title taskInfo)) as [_ Hs2].
  assert (Hs0 : safeTitle taskInfo <> []).
  { rewrite Hsafe. intros E. apply (f_equal (@length char)) in E.
    rewrite sanitizeTitleForMarkdown_length in E.
    destruct (title taskInfo); [contradiction | discriminate]. }
  assert (Hs3 : hasChar (ch "$") (safeTitle taskInfo) = false).
  { rewrite Hsafe. apply sanitizeTitleForMarkdown_keeps_out;
      [reflexivity | exact Hdollar]. }
  unfold processLine.
  rewrite markdownRegex_link, matchAll_single_link;
    [|assumption..|apply asanaTarget_reads; assumption].
  cbn [fold_left]. unfold markdownStep. cbn [m_groups m_full capture Nat.eqb].
  rewrite Hget.
  assert (E1 : str_eqb label (title taskInfo) = false).
  { destruct (str_eqb label (title taskInfo)) eqn:E; [|reflexivity].
    apply str_eqb_eq in E. contradiction. }
  rewrite E1. change (str "[") with [ch "["]. rewrite includes_char_false by exact Hlabel''.
  cbn [orb].
  rewrite (markdownLink_cons label). rewrite String_replace_first.
  - cbn [fst]. rewrite findMarkdownLinkIndices_single_link;
      [| exact Hpre | exact Hpost | exact Hs0 | rewrite Hsafe; exact Hs2
       | apply asanaUrl_not_nil | apply asanaUrl_no_paren; exact Hrest'].
    apply plainPass_all_inside.
    intros url i Hin Hi. destruct (Hocc _ _ Hin Hi) as [H1 H2].
    apply isInMarkdownLink_one; assumption.
  - exact Hpre.
  - apply markdownLink_keeps_out; [reflexivity | exact Hs3 |].
    rewrite hasChar_app, Hrest''. reflexivity.
Qed.

Lemma hasChar_suffix : forall x lst pre,
  isSuffix lst pre -> hasChar x pre = false -> hasChar x lst = false.
Proof.
  intros x lst pre Hs H. apply (hasChar_false_infix x lst pre); [|exact H].
  apply isSuffix_infix. exact Hs.
Qed.

Lemma hasChar_prefix : forall x (q post : jsstring),
  (exists post', post = q ++ post') -> hasChar x post = false -> hasChar x q = false.
Proof.
  intros x q post [Q ->] H. rewrite hasChar_app in H. apply orb_false_iff in H. apply H.
Qed.

(** X25.  [transformPRBody] on a body with one link to Asana whose label
    is the fetched title, or holds a [[]: the body comes back as it is,
    reported as changed with a count of one.  The label is not empty and
    has no []] and no line feed, the body has no [[] outside the link, the
    host stands once in the body, at the start of the target of the link,
    the target is the host and URL code units, one at least, it gives one
    identifier and its lookup succeeds. *)
Theorem transformPRBody_keeps_up_to_date_link :
  forall (World : Type) (fetch : jsstring -> World -> option jsstring * World)
         (pre label rest post taskId t : jsstring) (w w' : World),
    hasChar (ch "[") pre = false -> hasChar (ch "[") post = false ->
    label <> [] -> hasChar (ch "]") label = false -> hasChar LF label = false ->
    rest <> [] -> forallb urlChar rest = true ->
    occurrencesWithin asanaPrefix
      (pre ++ markdownLink label (asanaPrefix ++ rest) ++ post)
      (length (pre ++ ch "[" :: label ++ str "]("))
      (length (pre ++ ch "[" :: label ++ str "](") + length asanaPrefix) = true ->
    TaskGIDs.getAsanaTaskGIDsFromText (asanaPrefix ++ rest) = [taskId] ->
    fetch taskId w = (Some t, w') ->
    label = t \/ includes label (str "[") = true ->
    transformPRBody fetch (pre ++ markdownLink label (asanaPrefix ++ rest) ++ post) w
    = (mkResult (pre ++ markdownLink label (asanaPrefix ++ rest) ++ post) true 1, w').
Proof.
  intros World fetch pre label rest post taskId t w w'
    Hpre Hpost Hlabel Hlabel1 HlabelLF Hrest Hurl Honce Hid Hfetch Hkeep.
  rewrite (one_link_resolved World fetch pre label rest post taskId t w w') by assumption.
  f_equal.
  apply (rewriteBody_one_line _ pre (markdownLink label (asanaPrefix ++ rest))
           (markdownLink label (asanaPrefix ++ rest)) post 1).
  - discriminate.
  - apply one_link_LF; assumption.
  - apply (one_link_outside pre label rest post taskId t). exact Honce.
  - intros lst q Hs Hq _ _.
    destruct up_to_date_link_is_counted_and_kept as (_ & Hline & _).
    apply (Hline _ (mkTaskInfo taskId t (sanitizeTitleForMarkdown t))).
    + exact Hlabel.
    + exact Hlabel1.
    + exact Hrest.
    + apply urlChar_no_paren. exact Hurl.
    + exact (hasChar_suffix _ _ _ Hs Hpre).
    + exact (hasChar_prefix _ _ _ Hq Hpost).
    + cbn [Map_get]. rewrite str_eqb_refl. reflexivity.
    + exact Hkeep.
    + cbn [map fst forallb]. rewrite andb_true_r. apply occurrencesWithin_intro.
      intros i Hi.
      exact (one_link_new_line pre label rest post Hurl Honce label lst q i Hs Hq Hi).
Qed.

Lemma transformPRBody_keeps_up_to_date_link_witness :
  transformPRBody (pureFetch (oneTask (str "789012") (str "Task Title")))
    ((str "Notes" ++ [LF] ++ str "Check this task: ")
     ++ markdownLink (str "Task Title") (asanaPrefix ++ str "0/123456/789012")
     ++ (str "." ++ [LF])) tt
  = (mkResult
       ((str "Notes" ++ [LF] ++ str "Check this task: ")
        ++ markdownLink (str "Task Title") (asanaPrefix ++ str "0/123456/789012")
        ++ (str "." ++ [LF]))
       true 1,
     tt).
Proof.
  apply (transformPRBody_keeps_up_to_date_link unit
           (pureFetch (oneTask (str "789012") (str "Task Title")))
           (str "Notes" ++ [LF] ++ str "Check this task: ") (str "Task Title")
           (str "0/123456/789012") (str "." ++ [LF]) (str "789012") (str "Task Title") tt tt);
    try discriminate; try (vm_compute; reflexivity).
  left. reflexivity.
Defined.

(** X26.  [transformPRBody] on a body with one link to Asana whose label
    is not the fetched title and holds no [[]: the link gets the sanitized
    title as its label, all the rest of the body is as it was, and the count
    is one.  The fetched title is not empty; neither the title nor the URL
    holds a dollar sign; the label is not empty and has no []] and no line
    feed, the body has no [[] outside the link, the host stands once in the
    body, at the start of the target of the link, the target is the host
    and URL code units, one at least, it gives one identifier and its
    lookup succeeds. *)
Theorem transformPRBody_relabels_stale_link :
  forall (World : Type) (fetch : jsstring -> World -> option jsstring * World)
         (pre label rest post taskId t : jsstring) (w w' : World),
    hasChar (ch "[") pre = false -> hasChar (ch "[") post = false ->
    label <> [] -> hasChar (ch "]") label = false -> hasChar (ch "[") label = false ->
    hasChar LF label = false ->
    rest <> [] -> forallb urlChar rest = true -> hasChar (ch "$") rest = false ->
    occurrencesWithin asanaPrefix
      (pre ++ markdownLink label (asanaPrefix ++ rest) ++ post)
      (length (pre ++ ch "[" :: label ++ str "]("))
      (length (pre ++ ch "[" :: label ++ str "](") + length asanaPrefix) = true ->
    TaskGIDs.getAsanaTaskGIDsFromText (asanaPrefix ++ rest) = [taskId] ->
    fetch taskId w = (Some t, w') ->
    label <> t -> t <> [] -> hasChar (ch "$") t = false ->
    transformPRBody fetch (pre ++ markdownLink label (asanaPrefix ++ rest) ++ post) w
    = (mkResult
         (pre ++ markdownLink (sanitizeTitleForMarkdown t) (asanaPrefix ++ rest) ++ post)
         true 1,
       w').
Proof.
  intros World fetch pre label rest post taskId t w w'
    Hpre Hpost Hlabel Hlabel1 Hlabel2 HlabelLF Hrest Hurl Hdollar Honce Hid Hfetch
    Hstale Ht Htdollar.
  rewrite (one_link_resolved World fetch pre label rest post taskId t w w') by assumption.
  f_equal.
  apply (rewriteBody_one_line _ pre (markdownLink label (asanaPrefix ++ rest))
           (markdownLink (sanitizeTitleForMarkdown t) (asanaPrefix ++ rest)) post 1).
  - discriminate.
  - apply one_link_LF; assumption.
  - apply (one_link_outside pre label rest post taskId t). exact Honce.
  - intros lst q Hs Hq _ _.
    apply (stale_link_line _ (mkTaskInfo taskId t (sanitizeTitleForMarkdown t)));
      try assumption.
    + apply urlChar_no_paren. exact Hurl.
    + exact (hasChar_suffix _ _ _ Hs Hpre).
    + exact (hasChar_prefix _ _ _ Hq Hpost).
    + cbn [Map_get]. rewrite str_eqb_refl. reflexivity.
    + reflexivity.
    + intros u i [<- | []] Hi. cbn [fst safeTitle] in *.
      exact (one_link_new_line pre label rest post Hurl Honce _ lst q i Hs Hq Hi).
Qed.

Lemma transformPRBody_relabels_stale_link_witness :
  transformPRBody (pureFetch (oneTask (str "789012") (str "New [title]")))
    ((str "Notes" ++ [LF] ++ str "Check this task: ")
     ++ markdownLink (str "Old") (asanaPrefix ++ str "0/123456/789012")
     ++ (str "." ++ [LF])) tt
  = (mkResult
       ((str "Notes" ++ [LF] ++ str "Check this task: ")
        ++ markdownLink (sanitizeTitleForMarkdown (str "New [title]"))
             (asanaPrefix ++ str "0/123456/789012")
        ++ (str "." ++ [LF]))
       true 1,
     tt).
Proof.
  apply (transformPRBody_relabels_stale_link unit
           (pureFetch (oneTask (str "789012") (str "New [title]")))
           (str "Notes" ++ [LF] ++ str "Check this task: ") (str "Old")
           (str "0/123456/789012") (str "." ++ [LF]) (str "789012") (str "New [title]") tt tt);
    try discriminate; vm_compute; reflexivity.
Defined.
